(* ===== verification/_CoqProject ===== *)
-Q . S2P
Prelude.v
GoStrings.v
Util.v
HttpErr.v
GoValue.v
GoFloat.v
RouterTree.v
Base64.v
Session.v
RedisStore.v
Crypto.v
RateLimit.v
RedisRateLimit.v
Http.v
Net.v
Waf.v
Metrics.v
DbSanitize.v
DbModel.v
DbPrepared.v
DbExec.v
DbBuilder.v
DbSql.v
DbRead.v
DbWrite.v
DbSafety.v
DbFacade.v
Context.v
Router.v
RouterSafety.v
Server.v
Disk.v
DiskSafety.v
Logger.v
LoggerSafety.v
Decoder.v
DecoderSafety.v
WebRequest.v
Validator.v
ValidatorSafety.v
FormSafety.v
Config.v
App.v
AppSafety.v
LoggerLife.v
Telegram.v
WebSocket.v
ContextModel.v
DecoderSetup.v
Static.v
Facade.v
Groups.v
StaticSafety.v
Json.v
Guard.v
ContextOps.v
DbDebug.v
Mailer.v
SessionFlow.v
RateFlow.v
