(* ===== verification/Prelude.v ===== *)
(** * Kiya: a verification development of the Go web framework

    Kiya serves HTTP requests: a firewall in front of a router, sessions, rate limits,
    an active-record layer over SQL, forms and their validation, files, a logger.  This
    library models its Go sources under [src/] and proves what makes them correct.

    ** How the parts fit together

    [kiya.New] ([App.v]) turns options ([Config.v]) into an application.  A request
    enters [createRootHandler] ([Server.v]), passes the firewall ([Waf.v]) unless its
    path is exempt, and runs through [serveInternal] ([Router.v]): headers, a context
    from the pool ([Context.v]), browser cookie, session ([Session.v], [RedisStore.v]),
    rate limit ([RateLimit.v], [RedisRateLimit.v]), the transaction of a request scope
    ([DbExec.v]), the route ([RouterTree.v]) and its handler, metrics ([Metrics.v]).
    Handlers read forms ([WebRequest.v], [Decoder.v], [Validator.v]), use the database
    through builders and models ([DbBuilder.v] to [DbFacade.v]), store files
    ([Disk.v]) and log ([Logger.v]).

    ** Files and sources

    - [Prelude.v]: tactics, hints, machine integers ([wrap64] and the like), errors,
      panics ([outcome]) and the monad of code that may fail or panic.
    - [GoStrings.v], [GoValue.v], [GoFloat.v], [Base64.v]: what the code uses of Go's
      strings, strconv, path, reflect, numbers and base64.  A Go value is a [value]
      with its type ([gotype]); a map whose order can be seen is a list.
    - [Util.v], [HttpErr.v], [Net.v]: [internal/util], [internal/httperr].
    - [RouterTree.v]: [internal/router/tree.go], the trie with backtracking.
    - [Session.v], [RedisStore.v], [Crypto.v]: [internal/security/session.go],
      [redisstore.go], [crypto.go] and the identifiers of [context.go].
    - [RateLimit.v], [RedisRateLimit.v]: [ratelimit.go], [redis_ratelimit.go].
    - [Http.v]: requests, headers, response writers of [net/http] and the monad [M] of
      code that may return, panic or hang; [internal/router/status.go].
    - [Waf.v]: [internal/security/waf.go]; [Metrics.v]: [internal/metrics].
    - [DbSanitize.v], [DbModel.v], [DbPrepared.v], [DbExec.v], [DbBuilder.v],
      [DbSql.v], [DbRead.v], [DbWrite.v], [DbFacade.v], [DbDebug.v]: [internal/db] and
      [models.go].  The database is the class [Driver]: every answer may depend on the
      whole trace of calls so far, so that theorems hold for every behaviour of it.
      [DbSafety.v] holds the theorems on writes.
    - [Context.v], [ContextOps.v], [Router.v], [RouterSafety.v], [Server.v]:
      [context.go], [locals.go], [router.go].  The state of a request ([rstate]) holds
      the writer, the context, the pool, the session store, the limiter, the database
      and the metrics; a deferred function wraps what follows it in the source.
    - [Disk.v], [DiskSafety.v]: [storage/], [internal/web/file.go], over a tree of files
      whose system calls may fail at any point.
    - [Logger.v], [LoggerSafety.v]: [internal/logger]; the concurrent part is the step
      relation [Logger.step], and invariants are proved by induction on its runs.
    - [Decoder.v], [DecoderSafety.v], [WebRequest.v], [Validator.v],
      [ValidatorSafety.v], [FormSafety.v]: [internal/decoder], [internal/web/request.go],
      [validator.go].
    - [DecoderSetup.v]: the decoder of [decoder.go] as a value, with its registered
      functions and its cache of struct types ([cache.go]).
    - [Config.v], [App.v], [AppSafety.v]: [config.go], [options.go], [database.go],
      [kiya.go], [InitWAF], [Start] and [Stop].
    - [LoggerLife.v], [Telegram.v]: the logger over any number of [Init]s and [Close]s,
      with its console lines and the goroutine that cleans the memory of alerts, and
      the request that carries an alert ([telegram.go]).
    - [WebSocket.v]: [internal/web/websocket.go], goroutines around the mutex of a
      connection as a step relation, and the takeover of a connection through the
      writers of [status.go] and [waf.go].
    - [ContextModel.v]: [Model] of [context.go], with the rules of [reflect] for embedded
      fields and promoted methods.
    - [Facade.v]: registration by method and the adapters of [router.go], the log lines of
      requests and statements, accessors, [DB.Stats], [slashFS], [types.go], [logger.go].
    - [Groups.v]: the set-up of an application's routes ([Use], routes, nested [Route]) as
      a small language, run on the router of [Router.v].
    - [Static.v], [StaticSafety.v], [Json.v], [Guard.v], [Mailer.v]:
      [internal/router/static.go] with the route helpers of [router.go],
      [internal/web/json.go], [internal/web/guard.go], [mailer.go].
    - [SessionFlow.v], [RateFlow.v]: components put together.  Two requests of one
      browser through session, Redis and CSRF token; any traffic through the whole
      pipeline and the limiter.

    ** What is proved

    - Routing: [FindRoute] returns the best route of a declarative order, and
      registration changes one entry of the table it stands for; with groups, a request
      runs the declared route under exactly the middleware in force where it was declared.
    - Database: placeholders and arguments of every built statement agree; soft-delete
      and scope conditions hold of every row a query can see, whatever OR conditions the
      caller adds; writes run in one transaction that is committed exactly on success,
      or are refused for want of a condition; structs and rows, history and prepared
      statements keep their invariants.
    - Requests: no panic escapes; a request scope is one transaction; refused and
      blocked requests touch nothing; a response is inspected before it is sent.
    - Security: tokens and encrypted values are accepted exactly when they are genuine;
      sessions survive requests and cannot be chosen by the client; the limiter grants
      at most burst plus rate times time, both its back ends decide alike, and the bound
      holds of the requests of an address that reach the application, end to end; a
      CSRF token is accepted in the next request exactly when it was issued under a
      live session and is fresh.
    - Forms: decoding ends, keeps types and is exact; a posted form is accepted exactly
      when its values satisfy its tags.
    - Files and pages: disks and static directories are confined and behave as maps;
      uploads never overwrite; entity tags revalidate; guards are injected once.
    - Logger: nothing the channel accepted is lost, closing drains it, and exactly when
      closing can return; over the life of a process one set of workers at most is
      running and the files only grow; an alert reads back as its chat and its text.
    - Connections and models: messages of goroutines are never interleaved on a
      connection; the model of a request has its handle and its context.
    - Applications: [New] fails exactly for unacceptable configurations, and what it
      returns has safe settings whatever its options.

    Theorems whose names say that something hangs, is lost, is ignored or is bypassed
    are about behaviour of the code that is not meant; each is evaluated on a concrete
    case as well.

    ** Integers, fuel, concurrency

    Integers that can overflow are wrapped at their width; lengths of texts are natural
    numbers.  Rates are computed in an arithmetic [Arith] with [float64] and the
    rationals as instances; bounds on allowances are proved without rounding.
    [Decoder.Decode] takes fuel, and [Decode_terminates] shows that the depth of the
    value is enough; [find_level] has the number of levels of a type, [ipv6_loop] the
    length of the text, [hex_digits] the 16 digits of a 64-bit number.  Operations
    under one mutex are one step; the logger, the statement cache and the writers of a
    connection are relations over interleavings.  A read of the clock or of random bytes
    is an argument.

    ** What is not modelled

    The rule engine (Coraza), the drivers of databases and Redis, cryptographic
    primitives, regular expressions of routes, HTML policies, JSON and MIME parsers are
    parameters with named laws, each with an instance that satisfies them, and so are
    the upgrade of a connection (gorilla/websocket), [reflect]'s view of the [Init]
    methods an application declares, and [httpClient.Do].  The 15 second timeout of a
    request and temporary files of multipart forms are not part of any state; log
    lines of requests and statements are values of [Facade.v], those of the start of
    an application are left out.  Files that only declare aliases or embed the
    firewall's rules, and [RedisStore.Ping], have no model. *)

From stdpp Require Export prelude gmap strings list sorting pretty.
From Stdlib Require Export ZArith Lia.

#[global] Open Scope stdpp_scope.

(** ** Hint databases and tactics *)

Create HintDb kiya.
Create Rewrite HintDb kiya_str.

(** Case analysis on the scrutinee of an [if] or a [match] of the goal or of a
    hypothesis, keeping the equation. *)
Ltac break_match :=
  match goal with
  | |- context [match ?x with _ => _ end] =>
      lazymatch x with context [match _ with _ => _ end] => fail | _ => destruct x eqn:? end
  | H : context [match ?x with _ => _ end] |- _ =>
      lazymatch x with context [match _ with _ => _ end] => fail | _ => destruct x eqn:? end
  end.

Ltac break_all := repeat (simplify_eq/=; break_match); simplify_eq/=.

(** Turn boolean tests of the code into the propositions they decide. *)
Ltac to_prop :=
  repeat match goal with
  | H : andb _ _ = true |- _ => apply andb_true_iff in H; destruct H
  | H : orb _ _ = false |- _ => apply orb_false_iff in H; destruct H
  | H : negb _ = true |- _ => apply negb_true_iff in H
  | H : negb _ = false |- _ => apply negb_false_iff in H
  | H : (_ <? _)%Z = true |- _ => apply Z.ltb_lt in H
  | H : (_ <? _)%Z = false |- _ => apply Z.ltb_ge in H
  | H : (_ <=? _)%Z = true |- _ => apply Z.leb_le in H
  | H : (_ <=? _)%Z = false |- _ => apply Z.leb_gt in H
  | H : (_ =? _)%Z = true |- _ => apply Z.eqb_eq in H
  | H : (_ =? _)%Z = false |- _ => apply Z.eqb_neq in H
  | H : bool_decide _ = true |- _ => apply bool_decide_eq_true in H
  | H : bool_decide _ = false |- _ => apply bool_decide_eq_false in H
  end.

(** ** Go's fixed-width integers *)

Definition min_int64 : Z := (- 2 ^ 63)%Z.
Definition max_int64 : Z := (2 ^ 63 - 1)%Z.

(** Two's complement wrap-around of [int64] arithmetic. *)
Definition wrap64 (z : Z) : Z := ((z + 2 ^ 63) mod 2 ^ 64 - 2 ^ 63)%Z.

Definition in_int64 (z : Z) : Prop := (min_int64 <= z <= max_int64)%Z.

Lemma wrap64_range z : in_int64 (wrap64 z).
Proof.
  unfold in_int64, wrap64, min_int64, max_int64.
  pose proof (Z.mod_pos_bound (z + 2 ^ 63) (2 ^ 64) ltac:(lia)). lia.
Qed.

Lemma wrap64_id z : in_int64 z → wrap64 z = z.
Proof.
  unfold in_int64, wrap64, min_int64, max_int64. intros H.
  rewrite Z.mod_small; lia.
Qed.

(** ** Errors and panics

    [error] is the set of error values the packages build: a package-level
    sentinel (compared by identity in Go, by name here), an inline
    [errors.New]/[fmt.Errorf], an error wrapped with [%w], and the framework's
    [HTTPError]. *)
Inductive error :=
  | ESentinel (name : string)
  | ENew (msg : string)
  | EWrap (msg : string) (inner : error)
  | EHTTP (code : Z) (msg : string) (inner : option error).

#[global] Instance error_eq_dec : EqDecision error.
Proof.
  refine (fix go (x y : error) {struct x} : Decision (x = y) :=
    match x, y with
    | ESentinel a, ESentinel b => cast_if (decide (a = b))
    | ENew a, ENew b => cast_if (decide (a = b))
    | EWrap a e, EWrap b f => cast_if_and (decide (a = b)) (go e f)
    | EHTTP c a None, EHTTP d b None => cast_if_and (decide (c = d)) (decide (a = b))
    | EHTTP c a (Some e), EHTTP d b (Some f) =>
        cast_if_and3 (decide (c = d)) (decide (a = b)) (go e f)
    | _, _ => right _
    end); congruence.
Defined.

(** [errors.Is] for a sentinel target: walk the chain of wrapped errors. *)
Fixpoint errors_Is (e : error) (target : string) : bool :=
  match e with
  | ESentinel n => bool_decide (n = target)
  | ENew _ => false
  | EWrap _ e' => errors_Is e' target
  | EHTTP _ _ (Some e') => errors_Is e' target
  | EHTTP _ _ None => false
  end.

(** A computation that returns or panics. *)
Inductive outcome (A : Type) :=
  | Ret (a : A)
  | Panic (msg : string).
Arguments Ret {A}.
Arguments Panic {A}.

(** ** Lists *)

Section Lists.
Context {A B : Type}.

(** The first element satisfying a test, as the code's [for … { if … break }]. *)
Fixpoint find_first (p : A → bool) (l : list A) : option A :=
  match l with
  | [] => None
  | x :: l' => if p x then Some x else find_first p l'
  end.

Lemma find_first_Some p l x : find_first p l = Some x → x ∈ l ∧ p x = true.
Proof.
  induction l as [|y l IH]; simpl; [done|].
  destruct (p y) eqn:E; intros; simplify_eq.
  - by split; [left|].
  - destruct IH; [done|]. by split; [right|].
Qed.

Lemma find_first_None p l : find_first p l = None ↔ ∀ x, x ∈ l → p x = false.
Proof.
  induction l as [|y l IH]; simpl.
  - split; [intros _ x Hx; by apply elem_of_nil in Hx|done].
  - destruct (p y) eqn:E; split.
    + done.
    + intros H. specialize (H y). rewrite E in H. discriminate H. by left.
    + intros H x [->|Hx]%elem_of_cons; [done|]. by apply IH.
    + intros H. apply IH. intros x Hx. apply H. by right.
Qed.

Lemma find_first_app p l1 l2 :
  find_first p (l1 ++ l2) =
  match find_first p l1 with Some x => Some x | None => find_first p l2 end.
Proof. induction l1 as [|x l1 IH]; simpl; [done|]. by destruct (p x). Qed.

Lemma NoDup_fmap_inj (f : A → B) (l : list A) x y :
  NoDup (f <$> l) → x ∈ l → y ∈ l → f x = f y → x = y.
Proof.
  intros Hnd [i Hi]%list_elem_of_lookup [j Hj]%list_elem_of_lookup Hxy.
  assert (i = j) as ->; [|congruence].
  eapply NoDup_lookup; [done|..]; rewrite list_lookup_fmap, ?Hi, ?Hj; simpl; by f_equal.
Qed.
End Lists.

#[export] Hint Resolve wrap64_range wrap64_id : kiya.

(** ** Fallible functions

    [R A] is a Go function that returns [(A, error)] or panics.  Its bind is the
    code's [if err != nil { return …, err }]. *)
Definition R (A : Type) : Type := outcome (error + A).

#[global] Instance R_ret : MRet R := λ A a, Ret (inr a).
#[global] Instance R_bind : MBind R := λ A B f m,
  match m with
  | Ret (inr a) => f a
  | Ret (inl e) => Ret (inl e)
  | Panic p => Panic p
  end.

Definition fail {A} (e : error) : R A := Ret (inl e).
(** A pure computation that may panic but returns no error. *)
Definition lift {A} (o : outcome A) : R A :=
  match o with Ret a => Ret (inr a) | Panic p => Panic p end.

Lemma R_bind_ret {A B} (m : R A) (f : A → R B) b :
  m ≫= f = Ret (inr b) ↔ ∃ a, m = Ret (inr a) ∧ f a = Ret (inr b).
Proof.
  split.
  - destruct m as [[e|a]|p]; simpl; intros; simplify_eq. by exists a.
  - by intros (a & -> & ?).
Qed.

(** ** Maps *)

(** [for k, v := range m]: every entry once, in some order. *)
Class MapOrder := {
  range {A} : gmap string A → list (string * A);
  range_perm {A} (m : gmap string A) : range m ≡ₚ map_to_list m;
}.

Lemma elem_of_range `{MapOrder} {A} (m : gmap string A) k x : (k, x) ∈ range m ↔ m !! k = Some x.
Proof. rewrite range_perm. apply elem_of_map_to_list. Qed.

Lemma range_empty `{MapOrder} {A} : range (∅ : gmap string A) = [].
Proof. apply Permutation_nil_r. rewrite range_perm. by rewrite map_to_list_empty. Qed.
