(* ===== verification/GoStrings.v ===== *)
(** * The part of Go's string libraries the framework uses

    A Go [string] is a byte sequence: it is Rocq's [string], one [ascii] per
    byte.  [Strings] has the functions of package [strings], [Strconv] those of
    [strconv], [Utf8] the decoding behind [for _, r := range s] and [[]rune(s)],
    [Path] the lexical cleaning of package [path] (which [path/filepath] shares on
    Unix).  Each comes with the lemmas the components rely on. *)

From S2P Require Import Prelude.
From Stdlib Require Import Ascii.

(** The numeric value of a byte. *)
Definition byte_val (a : ascii) : Z := Z.of_N (N_of_ascii a).

Definition in_range (lo hi : Z) (a : ascii) : bool :=
  ((lo <=? byte_val a) && (byte_val a <=? hi))%Z.

Definition is_digit (a : ascii) : bool := in_range 48 57 a.
Definition is_upper (a : ascii) : bool := in_range 65 90 a.
Definition is_lower (a : ascii) : bool := in_range 97 122 a.
Definition is_letter (a : ascii) : bool := is_upper a || is_lower a.

Lemma string_app_cons a s t : String a s +:+ t = String a (s +:+ t).
Proof. done. Qed.
Lemma string_app_nil_l t : "" +:+ t = t.
Proof. done. Qed.
Lemma string_app_nil_r s : s +:+ "" = s.
Proof. induction s; [done|]. by rewrite string_app_cons, IHs. Qed.
Lemma string_app_assoc s t u : (s +:+ t) +:+ u = s +:+ t +:+ u.
Proof. induction s; [done|]. by rewrite !string_app_cons, IHs. Qed.
Lemma string_app_nil s t : s +:+ t = "" ↔ s = "" ∧ t = "".
Proof. destruct s; [by split; [|intros [_ ->]]|by split; [|intros [? _]]]. Qed.

#[export] Hint Rewrite string_app_cons string_app_nil_l string_app_nil_r string_app_assoc
  : kiya_str.

(** Every byte of a string satisfies a test. *)
Fixpoint str_all (p : ascii → bool) (s : string) : bool :=
  match s with
  | "" => true
  | String a s' => p a && str_all p s'
  end.

Lemma str_all_app p s t : str_all p (s +:+ t) = str_all p s && str_all p t.
Proof. induction s; [done|]. rewrite string_app_cons; simpl. by rewrite IHs, andb_assoc. Qed.

Lemma str_all_impl (p q : ascii → bool) s :
  (∀ a, p a = true → q a = true) → str_all p s = true → str_all q s = true.
Proof. intros Hpq. induction s; simpl; [done|]. intros; to_prop. rewrite Hpq, IHs; done. Qed.

(** The number of occurrences of a byte. *)
Fixpoint count_char (c : ascii) (s : string) : nat :=
  match s with
  | "" => 0
  | String a s' => (if bool_decide (a = c) then 1 else 0) + count_char c s'
  end.

Lemma count_char_app c s t : count_char c (s +:+ t) = count_char c s + count_char c t.
Proof. induction s; [done|]. rewrite string_app_cons; simpl. rewrite IHs. lia. Qed.

Lemma count_char_zero c p s :
  p c = false → str_all p s = true → count_char c s = 0.
Proof.
  intros Hc. induction s as [|a s IH]; simpl; [done|]. intros; to_prop.
  case_bool_decide; simplify_eq; [congruence|]. by apply IH.
Qed.

Module Strings.

Fixpoint HasPrefix (s p : string) : bool :=
  match p, s with
  | "", _ => true
  | String b p', String a s' => bool_decide (a = b) && HasPrefix s' p'
  | String _ _, "" => false
  end.

(** [s[n:]]: the bytes from position [n] on. *)
Fixpoint drop (n : nat) (s : string) : string :=
  match n, s with
  | S n', String _ s' => drop n' s'
  | _, _ => s
  end.

(** [s[:n]]. *)
Fixpoint take (n : nat) (s : string) : string :=
  match n, s with
  | S n', String a s' => String a (take n' s')
  | _, _ => ""
  end.

Definition HasSuffix (s p : string) : bool :=
  (String.length p <=? String.length s)%nat &&
  bool_decide (drop (String.length s - String.length p) s = p).

Definition TrimPrefix (s p : string) : string :=
  if HasPrefix s p then drop (String.length p) s else s.

Definition TrimSuffix (s p : string) : string :=
  if HasSuffix s p then take (String.length s - String.length p) s else s.

Fixpoint Contains (s sub : string) : bool :=
  HasPrefix s sub || match s with "" => false | String _ s' => Contains s' sub end.

(** [Split s sep] for a one-byte separator. *)
Fixpoint Split (c : ascii) (s : string) : list string :=
  match s with
  | "" => [""]
  | String a s' =>
      if bool_decide (a = c) then "" :: Split c s'
      else match Split c s' with
           | [] => [String a ""]
           | w :: ws => String a w :: ws
           end
  end.

(** [SplitN s sep 2] for a one-byte separator: one part, or the part before the
    first separator and the rest. *)
Fixpoint SplitN2 (c : ascii) (s : string) : string * option string :=
  match s with
  | "" => ("", None)
  | String a s' =>
      if bool_decide (a = c) then ("", Some s')
      else let '(w, r) := SplitN2 c s' in (String a w, r)
  end.

Fixpoint Join (sep : string) (l : list string) : string :=
  match l with
  | [] => ""
  | [x] => x
  | x :: l' => x +:+ sep +:+ Join sep l'
  end.

Fixpoint TrimLeft (p : ascii → bool) (s : string) : string :=
  match s with
  | "" => ""
  | String a s' => if p a then TrimLeft p s' else s
  end.

Fixpoint TrimRight (p : ascii → bool) (s : string) : string :=
  match s with
  | "" => ""
  | String a s' =>
      let t := TrimRight p s' in
      if bool_decide (t = "") && p a then "" else String a t
  end.

(** [Trim s cutset] for a one-byte cutset. *)
Definition Trim (c : ascii) (s : string) : string :=
  TrimRight (λ a, bool_decide (a = c)) (TrimLeft (λ a, bool_decide (a = c)) s).

(** [ReplaceAll s old new] for a non-empty [old]: leftmost, non-overlapping. *)
Fixpoint ReplaceAll_go (skip : nat) (s old new : string) : string :=
  match s with
  | "" => ""
  | String a s' =>
      match skip with
      | S k => ReplaceAll_go k s' old new
      | O => if HasPrefix s old then new +:+ ReplaceAll_go (String.length old - 1) s' old new
             else String a (ReplaceAll_go 0 s' old new)
      end
  end.
Definition ReplaceAll (s old new : string) : string := ReplaceAll_go 0 s old new.

(** ASCII lower and upper case of a byte. *)
Definition lower_byte (a : ascii) : ascii :=
  if is_upper a then ascii_of_N (N_of_ascii a + 32) else a.
Definition upper_byte (a : ascii) : ascii :=
  if is_lower a then ascii_of_N (N_of_ascii a - 32) else a.
Fixpoint map_bytes (f : ascii → ascii) (s : string) : string :=
  match s with "" => "" | String a s' => String (f a) (map_bytes f s') end.
Definition ToLowerASCII : string → string := map_bytes lower_byte.
Definition ToUpperASCII : string → string := map_bytes upper_byte.

(** The encodings of the code points with Unicode's [White_Space] property. *)
Definition str_of_bytes (l : list N) : string :=
  String.string_of_list_ascii (map ascii_of_N l).

Definition space_encodings : list string := map str_of_bytes
  [ [9]; [10]; [11]; [12]; [13]; [32]; [194;133]; [194;160]; [225;154;128];
    [226;128;128]; [226;128;129]; [226;128;130]; [226;128;131]; [226;128;132];
    [226;128;133]; [226;128;134]; [226;128;135]; [226;128;136]; [226;128;137];
    [226;128;138]; [226;128;168]; [226;128;169]; [226;128;175]; [226;129;159];
    [227;128;128] ]%N.

(** [TrimSpace]: strip leading and trailing white space, one code point at a time. *)
Fixpoint TrimSpaceLeft (fuel : nat) (s : string) : string :=
  match fuel with
  | O => s
  | S fuel' =>
      match find_first (HasPrefix s) space_encodings with
      | Some e => TrimSpaceLeft fuel' (drop (String.length e) s)
      | None => s
      end
  end.
Fixpoint TrimSpaceRight (fuel : nat) (s : string) : string :=
  match fuel with
  | O => s
  | S fuel' =>
      match find_first (HasSuffix s) space_encodings with
      | Some e => TrimSpaceRight fuel' (take (String.length s - String.length e) s)
      | None => s
      end
  end.
Definition TrimSpace (s : string) : string :=
  let t := TrimSpaceLeft (String.length s) s in TrimSpaceRight (String.length t) t.

(** *** Lemmas *)

Lemma HasPrefix_app p s : HasPrefix (p +:+ s) p = true.
Proof. induction p; [by destruct s|]. rewrite string_app_cons; simpl. by rewrite bool_decide_true. Qed.

Lemma HasPrefix_spec s p : HasPrefix s p = true ↔ ∃ t, s = p +:+ t.
Proof.
  split.
  - revert s. induction p as [|b p IH]; intros s; [by exists s|].
    destruct s as [|a s]; simpl; [done|]. intros; to_prop; subst.
    destruct (IH s) as [t ->]; [done|]. by exists t.
  - intros [t ->]. apply HasPrefix_app.
Qed.

Lemma Contains_spec s sub : Contains s sub = true ↔ ∃ a b, s = a +:+ sub +:+ b.
Proof.
  induction s as [|c s IH]; cbn [Contains].
  - rewrite orb_false_r, HasPrefix_spec. split.
    + intros [t Ht]. exists "", t. done.
    + intros (a & b & Hab). destruct a; [|done]. by exists b.
  - rewrite orb_true_iff, HasPrefix_spec, IH. split.
    + intros [[t Ht]|(a & b & ->)]; [by exists "", t|by exists (String c a), b].
    + intros (a & b & Hab). destruct a as [|c' a]; [left; by exists b|].
      right. rewrite string_app_cons in Hab. simplify_eq. by exists a, b.
Qed.

Lemma Contains_char s c :
  Contains s (String c "") = false ↔ str_all (λ a, bool_decide (a ≠ c)) s = true.
Proof.
  induction s as [|a s IH]; [done|]. cbn [Contains HasPrefix str_all].
  rewrite orb_false_iff, andb_true_iff, IH, bool_decide_eq_true.
  assert (HasPrefix s "" = true) as -> by (by destruct s).
  by rewrite andb_true_r, bool_decide_eq_false.
Qed.

Lemma Split_not_nil c s : Split c s ≠ [].
Proof. destruct s; simpl; [done|]. case_bool_decide; [done|]. by destruct (Split c s). Qed.

Lemma Split_app c a b : Split c (a +:+ String c b) = Split c a ++ Split c b.
Proof.
  induction a as [|x a IH]; [rewrite string_app_nil_l; simpl; by rewrite bool_decide_true|].
  rewrite string_app_cons. simpl. rewrite IH. case_bool_decide; [done|].
  destruct (Split c a) eqn:E; [by destruct (Split_not_nil c a)|done].
Qed.

(** A word with no separator in it. *)
Definition word (c : ascii) (w : string) : Prop := str_all (λ a, bool_decide (a ≠ c)) w = true.

Lemma word_cons c a w : word c (String a w) ↔ a ≠ c ∧ word c w.
Proof. unfold word; simpl. by rewrite andb_true_iff, bool_decide_eq_true. Qed.

Lemma Split_word c w : word c w → Split c w = [w].
Proof.
  induction w as [|a w IH]; [done|]. intros [Ha Hw]%word_cons.
  simpl. rewrite bool_decide_false by done. by rewrite IH.
Qed.

Lemma Split_word_sep c w s : word c w → Split c (w +:+ String c s) = w :: Split c s.
Proof.
  induction w as [|a w IH]; intros Hw.
  - rewrite string_app_nil_l. simpl. by rewrite bool_decide_true.
  - apply word_cons in Hw as [Ha Hw]. rewrite string_app_cons. simpl.
    rewrite bool_decide_false by done. by rewrite IH.
Qed.

Lemma Split_Join c l :
  l ≠ [] → Forall (word c) l → Split c (Join (String c "") l) = l.
Proof.
  intros Hne Hl. induction Hl as [|w l Hw Hl IH]; [done|].
  destruct l as [|w' l]; [by apply Split_word|].
  change (Join (String c "") (w :: w' :: l)) with
    (w +:+ String c (Join (String c "") (w' :: l))).
  rewrite Split_word_sep by done. by rewrite IH.
Qed.

Lemma Split_all_words c s : Forall (word c) (Split c s).
Proof.
  induction s as [|a s IH]; simpl; [by repeat constructor|].
  case_bool_decide; [by constructor|].
  destruct (Split c s) as [|w ws] eqn:E; [by destruct (Split_not_nil c s)|].
  apply Forall_cons in IH as [Hw Hws]. constructor; [|done]. by apply word_cons.
Qed.

Lemma Join_Split c s : Join (String c "") (Split c s) = s.
Proof.
  induction s as [|a s IH]; simpl; [done|].
  destruct (Split c s) as [|w ws] eqn:E; [by destruct (Split_not_nil c s)|].
  case_bool_decide as Hac.
  - rewrite Hac. destruct ws; simpl in *; by rewrite IH.
  - destruct ws as [|w' ws]; simpl in *; [by subst|].
    by rewrite string_app_cons, IH.
Qed.

Lemma SplitN2_app c w s : word c w → SplitN2 c (w +:+ String c s) = (w, Some s).
Proof.
  induction w as [|a w IH]; intros Hw.
  - rewrite string_app_nil_l. simpl. by rewrite bool_decide_true.
  - apply word_cons in Hw as [Ha Hw]. rewrite string_app_cons. simpl.
    rewrite bool_decide_false by done. by rewrite IH.
Qed.

Lemma SplitN2_word c w : word c w → SplitN2 c w = (w, None).
Proof.
  induction w as [|a w IH]; [done|]. intros [Ha Hw]%word_cons.
  simpl. rewrite bool_decide_false by done. by rewrite IH.
Qed.

Lemma TrimRight_app p s t :
  TrimRight p t ≠ "" → TrimRight p (s +:+ t) = s +:+ TrimRight p t.
Proof.
  intros Ht. induction s as [|a s IH]; [done|].
  rewrite string_app_cons. simpl. rewrite IH.
  rewrite bool_decide_false; [done|]. intros [_ ?]%string_app_nil. done.
Qed.

Lemma TrimRight_word p w : str_all (λ a, negb (p a)) w = true → TrimRight p w = w.
Proof.
  induction w as [|a w IH]; [done|]. simpl. intros; to_prop.
  rewrite IH by done. rewrite H. by rewrite andb_false_r.
Qed.

Lemma word_negb c w :
  word c w → str_all (λ a, negb (bool_decide (a = c))) w = true.
Proof.
  apply str_all_impl. intros a Ha; to_prop. by rewrite bool_decide_false.
Qed.

(** Trimming the separator off a joined list of non-empty words changes nothing. *)
Lemma TrimRight_Join c l :
  l ≠ [] → Forall (λ w, word c w ∧ w ≠ "") l →
  TrimRight (λ a, bool_decide (a = c)) (Join (String c "") l) = Join (String c "") l ∧
  Join (String c "") l ≠ "".
Proof.
  intros Hne Hl. induction Hl as [|w l [Hw Hw0] Hl IH]; [done|].
  destruct l as [|w' l].
  - split; [|done]. apply TrimRight_word, word_negb, Hw.
  - destruct IH as [IH1 IH2]; [done|].
    change (Join (String c "") (w :: w' :: l)) with
      (w +:+ String c "" +:+ Join (String c "") (w' :: l)).
    rewrite <-string_app_assoc, TrimRight_app, IH1 by (by rewrite IH1).
    split; [done|]. intros [[? _]%string_app_nil _]%string_app_nil. done.
Qed.

Lemma TrimLeft_Join c l :
  Forall (λ w, word c w ∧ w ≠ "") l →
  TrimLeft (λ a, bool_decide (a = c)) (Join (String c "") l) = Join (String c "") l.
Proof.
  intros [|w l' [Hw Hw0] Hl]; [done|].
  destruct w as [|a w]; [done|]. apply word_cons in Hw as [Ha _].
  destruct l'; cbn [Join]; rewrite ?string_app_cons; cbn [TrimLeft];
    by rewrite bool_decide_false.
Qed.
End Strings.

(** * Package [path] *)
Module Path.
Import Strings.

Definition slash : ascii := "/"%char.

(** The component-by-component elimination of [path.Clean]: empty components
    and ["."] are dropped, [".."] removes the component before it; at the root of
    a rooted path [".."] is dropped, in a relative path it is kept.  [stack] is
    what has been kept so far, last component first. *)
Fixpoint clean_comps (rooted : bool) (stack cs : list string) : list string :=
  match cs with
  | [] => reverse stack
  | c :: cs' =>
      if bool_decide (c = "") || bool_decide (c = ".") then clean_comps rooted stack cs'
      else if bool_decide (c = "..") then
        match stack with
        | [] => if rooted then clean_comps rooted [] cs' else clean_comps rooted [".."] cs'
        | top :: stack' =>
            if bool_decide (top = "..") then clean_comps rooted (".." :: stack) cs'
            else clean_comps rooted stack' cs'
        end
      else clean_comps rooted (c :: stack) cs'
  end.

Definition Clean (p : string) : string :=
  if bool_decide (p = "") then "."
  else
    let rooted := HasPrefix p "/" in
    let cs := clean_comps rooted [] (Split slash p) in
    if rooted then "/" +:+ Join "/" cs
    else if bool_decide (cs = []) then "." else Join "/" cs.

(** [path.Join] of two elements. *)
Definition Join2 (a b : string) : string :=
  let l := filter (λ s, s ≠ "") [a; b] in
  if bool_decide (l = []) then "" else Clean (Join "/" l).

(** A component that cleaning a rooted path may leave: non-empty, with no
    separator, and neither ["."] nor [".."]. *)
Definition safe_comp (c : string) : Prop :=
  word slash c ∧ c ≠ "" ∧ c ≠ "." ∧ c ≠ "..".

Lemma clean_comps_safe stack cs :
  Forall safe_comp stack → Forall (word slash) cs →
  Forall safe_comp (clean_comps true stack cs).
Proof.
  intros Hst Hcs. revert stack Hst.
  induction Hcs as [|c cs Hc Hcs IH]; intros stack Hst; simpl.
  - by apply Forall_reverse.
  - repeat case_bool_decide; simplify_eq/=; auto.
    + destruct stack as [|top st]; [by apply IH|].
      apply Forall_cons in Hst as [Htop Hst].
      rewrite bool_decide_false by apply Htop. by apply IH.
    + apply IH. constructor; [|done]. by repeat split.
Qed.

(** Cleaning the components of a cleaned path changes nothing. *)
Lemma clean_comps_id stack cs :
  Forall safe_comp cs → clean_comps true stack cs = reverse stack ++ cs.
Proof.
  intros Hcs. revert stack. induction Hcs as [|c cs (_ & H0 & H1 & H2) Hcs IH]; intros stack; simpl.
  - by rewrite app_nil_r.
  - rewrite !bool_decide_false by done. simpl. rewrite IH.
    by rewrite reverse_cons, <-app_assoc.
Qed.

Lemma clean_comps_trailing_empty rooted stack cs :
  clean_comps rooted stack (cs ++ [""]) = clean_comps rooted stack cs.
Proof.
  revert stack. induction cs as [|c cs IH]; intros stack; simpl; [done|].
  repeat case_match; auto.
Qed.

Lemma Split_app_sep (c : ascii) s : Split c (s +:+ String c "") = Split c s ++ [""].
Proof.
  induction s as [|a s IH].
  - rewrite string_app_nil_l. simpl. by rewrite bool_decide_true.
  - rewrite string_app_cons. simpl. rewrite IH.
    case_bool_decide; [done|].
    destruct (Split c s) eqn:E; [by destruct (Split_not_nil c s)|done].
Qed.

(** Splitting a cleaned rooted path at its separators gives back its components. *)
Lemma Clean_rooted s :
  Clean (String slash s) = "/" +:+ Join "/" (clean_comps true [] (Split slash s)).
Proof. by destruct s. Qed.

End Path.

(** * Package [strconv] *)
Module Strconv.

(** [FormatInt(z, 10)], [Itoa] and the verb [%d]. *)
Definition FormatInt (z : Z) : string := pretty z.

Definition digit_val (a : ascii) : option Z :=
  if is_digit a then Some (byte_val a - 48)%Z else None.

Fixpoint parse_digits (acc : Z) (s : string) : option Z :=
  match s with
  | "" => Some acc
  | String a s' => d ← digit_val a; parse_digits (10 * acc + d)%Z s'
  end.

Inductive num_error := ErrSyntax | ErrRange.

(** [ParseUint(s, 10, bits)]: the value and the error, the value being the
    largest one of the width on a range error. *)
Definition ParseUint (bits : Z) (s : string) : Z * option num_error :=
  match s with
  | "" => (0%Z, Some ErrSyntax)
  | _ =>
      match parse_digits 0 s with
      | None => (0%Z, Some ErrSyntax)
      | Some v => if (v <=? 2 ^ bits - 1)%Z then (v, None)
                  else ((2 ^ bits - 1)%Z, Some ErrRange)
      end
  end.

(** [ParseInt(s, 10, bits)]; [Atoi] is the same at 64 bits. *)
Definition ParseInt (bits : Z) (s : string) : Z * option num_error :=
  let '(neg, body) :=
    match s with
    | String "-" r => (true, r)
    | String "+" r => (false, r)
    | _ => (false, s)
    end in
  match body with
  | "" => (0%Z, Some ErrSyntax)
  | _ =>
      match parse_digits 0 body with
      | None => (0%Z, Some ErrSyntax)
      | Some v =>
          if neg then
            if (v <=? 2 ^ (bits - 1))%Z then ((- v)%Z, None)
            else ((- 2 ^ (bits - 1))%Z, Some ErrRange)
          else
            if (v <=? 2 ^ (bits - 1) - 1)%Z then (v, None)
            else ((2 ^ (bits - 1) - 1)%Z, Some ErrRange)
      end
  end.

Definition Atoi (s : string) : Z * option num_error := ParseInt 64 s.

Definition ParseBool (s : string) : option bool :=
  if bool_decide (s ∈ ["1"; "t"; "T"; "TRUE"; "true"; "True"]) then Some true
  else if bool_decide (s ∈ ["0"; "f"; "F"; "FALSE"; "false"; "False"]) then Some false
  else None.

Lemma digit_val_pretty (x : N) :
  (x < 10)%N → digit_val (pretty_N_char x) = Some (Z.of_N x).
Proof.
  intros. assert (x = 0 ∨ x = 1 ∨ x = 2 ∨ x = 3 ∨ x = 4 ∨ x = 5 ∨ x = 6 ∨ x = 7
    ∨ x = 8 ∨ x = 9)%N as H' by lia.
  destruct_or? H'; subst; reflexivity.
Qed.

Lemma parse_digits_pretty_go (x : N) s :
  parse_digits 0 (pretty_N_go x s) = parse_digits (Z.of_N x) s.
Proof.
  revert s. induction (N.lt_wf_0 x) as [x _ IH]; intros s.
  destruct (decide (x = 0)%N) as [->|]; [done|].
  rewrite pretty_N_go_step by lia.
  rewrite IH by (apply N.div_lt; lia). simpl.
  rewrite digit_val_pretty by (apply N.mod_lt; lia). simpl. f_equal.
  rewrite N2Z.inj_div, N2Z.inj_mod.
  pose proof (Z.div_mod (Z.of_N x) (Z.of_N 10) ltac:(lia)). lia.
Qed.

Lemma parse_digits_pretty (x : N) : parse_digits 0 (pretty x) = Some (Z.of_N x).
Proof.
  unfold pretty, pretty_N. case_decide; subst; [done|].
  by rewrite parse_digits_pretty_go.
Qed.

Lemma pretty_N_go_nonempty x s : s ≠ "" → pretty_N_go x s ≠ "".
Proof.
  revert s. induction (N.lt_wf_0 x) as [x _ IH]; intros s Hs.
  destruct (decide (x = 0)%N) as [->|]; [done|].
  rewrite pretty_N_go_step by lia. apply IH; [apply N.div_lt; lia|done].
Qed.

Lemma pretty_N_nonempty (x : N) : pretty x ≠ "".
Proof.
  unfold pretty, pretty_N. case_decide; [done|].
  rewrite pretty_N_go_step by lia. by apply pretty_N_go_nonempty.
Qed.

(** The bytes of a formatted natural number are digits. *)
Lemma pretty_N_go_digits x s :
  str_all is_digit s = true → str_all is_digit (pretty_N_go x s) = true.
Proof.
  revert s. induction (N.lt_wf_0 x) as [x _ IH]; intros s Hs.
  destruct (decide (x = 0)%N) as [->|]; [done|].
  rewrite pretty_N_go_step by lia. apply IH; [apply N.div_lt; lia|].
  simpl. rewrite Hs, andb_true_r.
  pose proof (digit_val_pretty (x `mod` 10) ltac:(apply N.mod_lt; lia)) as Hd.
  unfold digit_val in Hd. by destruct (is_digit _).
Qed.

Lemma pretty_N_digits (x : N) : str_all is_digit (pretty x) = true.
Proof. unfold pretty, pretty_N. case_decide; [done|]. by apply pretty_N_go_digits. Qed.

Lemma FormatInt_cases (z : Z) :
  (0 <= z)%Z ∧ FormatInt z = pretty (Z.to_N z) ∨
  (z < 0)%Z ∧ FormatInt z = "-" +:+ pretty (Z.to_N (- z)).
Proof.
  unfold FormatInt. destruct z; [left|left|right]; split; try lia; reflexivity.
Qed.

(** Formatting an [int64] and parsing it back is the identity. *)
Lemma ParseInt_FormatInt z : in_int64 z → ParseInt 64 (FormatInt z) = (z, None).
Proof.
  unfold in_int64, min_int64, max_int64. intros Hz.
  destruct (FormatInt_cases z) as [[Hs ->]|[Hs ->]].
  - pose proof (pretty_N_nonempty (Z.to_N z)) as Hne.
    pose proof (pretty_N_digits (Z.to_N z)) as Hd.
    pose proof (parse_digits_pretty (Z.to_N z)) as Hp.
    unfold ParseInt. destruct (pretty (Z.to_N z)) as [|a r]; [done|].
    simpl in Hd. apply andb_true_iff in Hd as [Ha _].
    assert (a ≠ "-"%char ∧ a ≠ "+"%char) as [H1 H2] by (by split; intros ->).
    replace (match String a r with String "-" r0 => (true, r0)
      | String "+" r0 => (false, r0) | _ => (false, String a r) end)
      with (false, String a r)
      by (destruct a as [[] [] [] [] [] [] [] []]; done).
    rewrite Hp, Z2N.id by lia. rewrite (proj2 (Z.leb_le _ _)) by lia. done.
  - pose proof (pretty_N_nonempty (Z.to_N (- z))) as Hne.
    pose proof (parse_digits_pretty (Z.to_N (- z))) as Hp.
    change (ParseInt 64 ("-" +:+ ?s)) with
      (match s with "" => (0%Z, Some ErrSyntax) | _ =>
        match parse_digits 0 s with None => (0%Z, Some ErrSyntax) | Some v =>
          if (v <=? 2 ^ (64 - 1))%Z then ((- v)%Z, None)
          else ((- 2 ^ (64 - 1))%Z, Some ErrRange) end end).
    destruct (pretty (Z.to_N (- z))) as [|a r]; [done|].
    rewrite Hp, Z2N.id by lia. rewrite (proj2 (Z.leb_le _ _)) by lia.
    by rewrite Z.opp_involutive.
Qed.

End Strconv.

(** * UTF-8

    [runes s] is the sequence of code points of a [range] loop over a string: an
    invalid byte decodes to U+FFFD and advances by one byte. *)
Module Utf8.

Definition RuneError : Z := 65533.

Definition cont (a : ascii) : bool := in_range 128 191 a.

Definition second_of_3 (b0 : ascii) : ascii → bool :=
  if bool_decide (byte_val b0 = 224%Z) then in_range 160 191
  else if bool_decide (byte_val b0 = 237%Z) then in_range 128 159
  else cont.

Definition second_of_4 (b0 : ascii) : ascii → bool :=
  if bool_decide (byte_val b0 = 240%Z) then in_range 144 191
  else if bool_decide (byte_val b0 = 244%Z) then in_range 128 143
  else cont.

Fixpoint runes (s : string) : list Z :=
  match s with
  | "" => []
  | String a s1 =>
      if in_range 0 127 a then byte_val a :: runes s1
      else match s1 with
      | "" => RuneError :: runes s1
      | String b s2 =>
          if in_range 194 223 a && cont b
          then ((byte_val a - 192) * 64 + (byte_val b - 128))%Z :: runes s2
          else match s2 with
          | "" => RuneError :: runes s1
          | String c s3 =>
              if in_range 224 239 a && second_of_3 a b && cont c
              then ((byte_val a - 224) * 4096 + (byte_val b - 128) * 64
                    + (byte_val c - 128))%Z :: runes s3
              else match s3 with
              | "" => RuneError :: runes s1
              | String d s4 =>
                  if in_range 240 244 a && second_of_4 a b && cont c && cont d
                  then ((byte_val a - 240) * 262144 + (byte_val b - 128) * 4096
                        + (byte_val c - 128) * 64 + (byte_val d - 128))%Z :: runes s4
                  else RuneError :: runes s1
              end
          end
      end
  end.

Definition byte_of (z : Z) : ascii := ascii_of_N (Z.to_N z).

(** [utf8.AppendRune]: a surrogate or an out-of-range value encodes as U+FFFD. *)
Definition encode_rune (r : Z) : string :=
  let r := if ((r <? 0) || (1114111 <? r) || ((55296 <=? r) && (r <=? 57343)))%Z
           then RuneError else r in
  if (r <=? 127)%Z then String (byte_of r) ""
  else if (r <=? 2047)%Z then
    String (byte_of (192 + r / 64)) (String (byte_of (128 + r mod 64)) "")
  else if (r <=? 65535)%Z then
    String (byte_of (224 + r / 4096)) (String (byte_of (128 + (r / 64) mod 64))
      (String (byte_of (128 + r mod 64)) ""))
  else
    String (byte_of (240 + r / 262144)) (String (byte_of (128 + (r / 4096) mod 64))
      (String (byte_of (128 + (r / 64) mod 64)) (String (byte_of (128 + r mod 64)) ""))).

Definition string_of_runes (l : list Z) : string := foldr (λ r s, encode_rune r +:+ s) "" l.

End Utf8.

(** * The tables of package [unicode]

    The case tables are an interface: its laws fix the ASCII range. *)
Class Unicode := {
  IsUpper : Z → bool;
  IsLower : Z → bool;
  ToLower : Z → Z;
  IsUpper_ascii r : (0 <= r < 128)%Z → IsUpper r = ((65 <=? r) && (r <=? 90))%Z;
  IsLower_ascii r : (0 <= r < 128)%Z → IsLower r = ((97 <=? r) && (r <=? 122))%Z;
  ToLower_ascii r : (0 <= r < 128)%Z →
    ToLower r = if ((65 <=? r) && (r <=? 90))%Z then (r + 32)%Z else r;
}.

(** The smallest such tables: no letters outside ASCII. *)
#[global] Instance ascii_unicode : Unicode.
Proof.
  refine {| IsUpper := λ r, ((65 <=? r) && (r <=? 90))%Z;
            IsLower := λ r, ((97 <=? r) && (r <=? 122))%Z;
            ToLower := λ r, if ((65 <=? r) && (r <=? 90))%Z then (r + 32)%Z else r |}; done.
Defined.

(** [strings.ToLower]: byte by byte on an ASCII string, rune by rune otherwise. *)
Definition strings_ToLower `{Unicode} (s : string) : string :=
  if str_all (in_range 0 127) s then Strings.ToLowerASCII s
  else Utf8.string_of_runes (map ToLower (Utf8.runes s)).
