(* ===== verification/Util.v ===== *)
(** * String helpers ([internal/util/strings.go])

    HTML escaping and the conversion of type names to snake case. *)

From S2P Require Import Prelude GoStrings.
From Stdlib Require Import Ascii.
Import Strings.

(** The replacement of one code point. *)
Definition escape_rune (r : Z) : string :=
  if (r =? 38)%Z then "&amp;"
  else if (r =? 60)%Z then "&lt;"
  else if (r =? 62)%Z then "&gt;"
  else if (r =? 34)%Z then "&quot;"
  else if (r =? 39)%Z then "&#39;"
  else Utf8.encode_rune r.

Fixpoint escape_runes (l : list Z) : string :=
  match l with
  | [] => ""
  | r :: l' => escape_rune r +:+ escape_runes l'
  end.

Definition HTMLEscape (s : string) : string := escape_runes (Utf8.runes s).

Section SnakeCase.
Context `{Unicode}.

Definition rune_at (l : list Z) (i : nat) : Z := nth i l 0%Z.

(** The test for an underscore before position [i]. *)
Definition snake_break (runes : list Z) (i : nat) : bool :=
  (0 <? i) && IsUpper (rune_at runes i) &&
  (((i + 1 <? length runes) && IsLower (rune_at runes (i + 1))) || IsLower (rune_at runes (i - 1))).

Definition ToSnakeCase (inp : string) : string :=
  let runes := Utf8.runes inp in
  Utf8.string_of_runes
    (seq 0 (length runes) ≫= λ i,
       (if snake_break runes i then [95%Z] else []) ++ [ToLower (rune_at runes i)]).
End SnakeCase.

(** ** Escaping is safe and reversible *)

(** The five entities and the characters they stand for. *)
Definition entities : list (string * string) :=
  [("&amp;", "&"); ("&lt;", "<"); ("&gt;", ">"); ("&quot;", String "034" ""); ("&#39;", "'")].

(** A reference decoder: replaces the entities, left to right. *)
Fixpoint html_unescape_go (fuel : nat) (s : string) : string :=
  match fuel with
  | O => s
  | S fuel' =>
      match find_first (λ e, HasPrefix s e.1) entities with
      | Some e => e.2 +:+ html_unescape_go fuel' (drop (String.length e.1) s)
      | None => match s with
                | "" => ""
                | String a s' => String a (html_unescape_go fuel' s')
                end
      end
  end.
Definition html_unescape (s : string) : string := html_unescape_go (String.length s) s.

(** A byte that may appear in escaped text outside an entity. *)
Definition plain_byte (a : ascii) : bool :=
  negb (bool_decide (a ∈ ["&"; "<"; ">"; "034"; "'"]%char)).

Lemma byte_of_val z : (0 <= z < 256)%Z → byte_val (Utf8.byte_of z) = z.
Proof.
  intros. unfold byte_val, Utf8.byte_of.
  rewrite N_ascii_embedding by lia. lia.
Qed.

Lemma plain_byte_of z :
  (0 <= z < 256)%Z → z ∉ [38; 60; 62; 34; 39]%Z → plain_byte (Utf8.byte_of z) = true.
Proof.
  intros Hz Hn. unfold plain_byte. apply negb_true_iff, bool_decide_eq_false.
  intros Hin. apply Hn. rewrite <-(byte_of_val z Hz). clear Hz Hn.
  revert Hin. generalize (Utf8.byte_of z). intros a Hin. set_unfold.
  destruct_or? Hin; subst; vm_compute; tauto.
Qed.

(** A code point other than the five special ones is encoded by plain bytes. *)
Lemma encode_rune_plain r :
  (0 <= r)%Z → r ∉ [38; 60; 62; 34; 39]%Z → str_all plain_byte (Utf8.encode_rune r) = true.
Proof.
  intros Hr Hn. unfold Utf8.encode_rune.
  set (r' := if _ : bool then _ else r).
  assert (0 <= r' <= 1114111 ∧ (r' <= 127 → r' = r))%Z as [Hr' Heq].
  { unfold r', Utf8.RuneError. destruct (_ || _) eqn:E; [lia|]. to_prop. lia. }
  clearbody r'.
  assert (∀ z, (128 <= z < 256)%Z → plain_byte (Utf8.byte_of z) = true) as Hhigh.
  { intros z Hz. apply plain_byte_of; [lia|]. set_unfold. lia. }
  pose proof (Z.mod_pos_bound r' 64 ltac:(lia)).
  pose proof (Z.mod_pos_bound (r' / 64) 64 ltac:(lia)).
  pose proof (Z.mod_pos_bound (r' / 4096) 64 ltac:(lia)).
  repeat case_match; to_prop; simpl; rewrite ?andb_true_r.
  - apply plain_byte_of; [lia|]. rewrite Heq by lia. done.
  - rewrite !Hhigh; [done| |]; [lia|].
    pose proof (Z.div_pos r' 64). assert (r' / 64 < 32)%Z by (apply Z.div_lt_upper_bound; lia). lia.
  - rewrite !Hhigh; [done| | |]; [lia..|].
    pose proof (Z.div_pos r' 4096). assert (r' / 4096 < 16)%Z by (apply Z.div_lt_upper_bound; lia). lia.
  - rewrite !Hhigh; [done| | | |]; [lia..|].
    pose proof (Z.div_pos r' 262144). assert (r' / 262144 < 8)%Z by (apply Z.div_lt_upper_bound; lia). lia.
Qed.

Lemma byte_val_nonneg a : (0 <= byte_val a < 256)%Z.
Proof. unfold byte_val. pose proof (N_ascii_bounded a). lia. Qed.

Lemma runes_nonneg s : Forall (λ r, 0 <= r)%Z (Utf8.runes s).
Proof.
  remember (String.length s) as n eqn:Hn. revert s Hn.
  induction (lt_wf n) as [n _ IH]; intros s ->.
  destruct s as [|a s1]; [constructor|]. cbn [Utf8.runes].
  pose proof (byte_val_nonneg a).
  repeat (case_match; try match goal with b : ascii |- _ =>
    pose proof (byte_val_nonneg b) end); unfold in_range, Utf8.cont in *;
    constructor; try (eapply IH; [|reflexivity]; simpl; lia);
    unfold Utf8.RuneError; try lia; to_prop.
  all: unfold Utf8.second_of_3, Utf8.second_of_4, Utf8.cont, in_range in *.
  all: repeat case_bool_decide; to_prop; lia.
Qed.

Lemma string_app_length s t : String.length (s +:+ t) = String.length s + String.length t.
Proof. induction s; [done|]. rewrite string_app_cons. simpl. by rewrite IHs. Qed.

(** The decoder copies plain text. *)
Lemma html_unescape_plain p t fuel :
  str_all plain_byte p = true →
  html_unescape_go (String.length p + fuel) (p +:+ t) = p +:+ html_unescape_go fuel t.
Proof.
  induction p as [|a p IH]; [done|]. simpl. intros; to_prop.
  rewrite string_app_cons, (string_app_cons a p (html_unescape_go fuel t)). simpl.
  rewrite IH by done.
  unfold plain_byte in H. apply negb_true_iff, bool_decide_eq_false in H.
  rewrite bool_decide_false; [|set_solver]. done.
Qed.

Lemma html_unescape_entity e t fuel :
  e ∈ entities → html_unescape_go (S fuel) (e.1 +:+ t) = e.2 +:+ html_unescape_go fuel t.
Proof.
  intros He. set_unfold. destruct_or? He; subst; cbn -[html_unescape_go]; destruct t; done.
Qed.

(** A code point is either special, and replaced by its entity, or kept. *)
Lemma escape_rune_cases r :
  (0 <= r)%Z →
  (∃ e, e ∈ entities ∧ escape_rune r = e.1 ∧ Utf8.encode_rune r = e.2) ∨
  (escape_rune r = Utf8.encode_rune r ∧ str_all plain_byte (Utf8.encode_rune r) = true).
Proof.
  intros Hr. unfold escape_rune.
  repeat case_match; to_prop; subst.
  1-5: left.
  - exists ("&amp;", "&"). by repeat split; set_solver.
  - exists ("&lt;", "<"). by repeat split; set_solver.
  - exists ("&gt;", ">"). by repeat split; set_solver.
  - exists ("&quot;", String "034" ""). by repeat split; set_solver.
  - exists ("&#39;", "'"). by repeat split; set_solver.
  - right. split; [done|]. apply encode_rune_plain; [done|]. set_unfold. lia.
Qed.

Lemma html_unescape_escape_runes l fuel :
  Forall (λ r, 0 <= r)%Z l → String.length (escape_runes l) ≤ fuel →
  html_unescape_go fuel (escape_runes l) = Utf8.string_of_runes l.
Proof.
  intros Hl. revert fuel. induction Hl as [|r l Hr Hl IH]; intros fuel Hf.
  - by destruct fuel.
  - cbn [escape_runes Utf8.string_of_runes foldr] in *. rewrite string_app_length in Hf.
    destruct (escape_rune_cases r Hr) as [(e & He & Heq & Henc)|[Heq Hp]]; rewrite Heq in *.
    + assert (0 < String.length e.1) by (set_unfold; destruct_or? He; subst; simpl; lia).
      destruct fuel as [|fuel]; [lia|].
      rewrite html_unescape_entity by done. rewrite Henc. f_equal. apply IH. lia.
    + replace fuel with (String.length (Utf8.encode_rune r) + (fuel - String.length (Utf8.encode_rune r)))
        by lia.
      rewrite html_unescape_plain by done. f_equal. apply IH. lia.
Qed.

(** A byte that cannot open or close a tag or an attribute value. *)
Definition html_inert (a : ascii) : bool :=
  negb (bool_decide (a ∈ ["<"; ">"; "034"; "'"]%char)).

Lemma escape_runes_inert l :
  Forall (λ r, 0 <= r)%Z l → str_all html_inert (escape_runes l) = true.
Proof.
  induction 1 as [|r l Hr Hl IH]; [done|]. cbn [escape_runes]. rewrite str_all_app, IH, andb_true_r.
  destruct (escape_rune_cases r Hr) as [(e & He & -> & _)|[-> Hp]].
  - set_unfold. by destruct_or? He; subst.
  - revert Hp. apply str_all_impl. unfold plain_byte, html_inert. intros a Ha.
    apply negb_true_iff, bool_decide_eq_false in Ha.
    apply negb_true_iff, bool_decide_eq_false. set_solver.
Qed.

(** Escaped text contains no character that can open or close a tag or an
    attribute value, and decoding the five entities gives back the code points of
    the input (an invalid byte reads as U+FFFD): nothing is lost and nothing is
    escaped twice. *)
Theorem HTMLEscape_safe s :
  str_all html_inert (HTMLEscape s) = true ∧
  html_unescape (HTMLEscape s) = Utf8.string_of_runes (Utf8.runes s).
Proof.
  pose proof (runes_nonneg s) as Hl. split.
  - by apply escape_runes_inert.
  - by apply html_unescape_escape_runes.
Qed.

Example snake_examples :
  map ToSnakeCase ["UserID"; "HTTPServer"; "userName"; "A"] =
    ["user_id"; "http_server"; "user_name"; "a"].
Proof. vm_compute. reflexivity. Qed.
