(* ===== verification/HttpErr.v ===== *)
(** * HTTP errors ([internal/httperr/httperr.go])

    The error value handlers return to choose a status code.  In [error] it is the
    constructor [EHTTP]; its text falls back to the wrapped error and then to the
    standard text of the code. *)

From S2P Require Import Prelude GoStrings.

(** [net/http.StatusText]. *)
Definition status_texts : list (Z * string) :=
  [(100, "Continue"); (101, "Switching Protocols"); (102, "Processing"); (103, "Early Hints");
   (200, "OK"); (201, "Created"); (202, "Accepted"); (203, "Non-Authoritative Information");
   (204, "No Content"); (205, "Reset Content"); (206, "Partial Content"); (207, "Multi-Status");
   (208, "Already Reported"); (226, "IM Used");
   (300, "Multiple Choices"); (301, "Moved Permanently"); (302, "Found"); (303, "See Other");
   (304, "Not Modified"); (305, "Use Proxy"); (307, "Temporary Redirect"); (308, "Permanent Redirect");
   (400, "Bad Request"); (401, "Unauthorized"); (402, "Payment Required"); (403, "Forbidden");
   (404, "Not Found"); (405, "Method Not Allowed"); (406, "Not Acceptable");
   (407, "Proxy Authentication Required"); (408, "Request Timeout"); (409, "Conflict"); (410, "Gone");
   (411, "Length Required"); (412, "Precondition Failed"); (413, "Request Entity Too Large");
   (414, "Request URI Too Long"); (415, "Unsupported Media Type");
   (416, "Requested Range Not Satisfiable"); (417, "Expectation Failed"); (418, "I'm a teapot");
   (421, "Misdirected Request"); (422, "Unprocessable Entity"); (423, "Locked");
   (424, "Failed Dependency"); (425, "Too Early"); (426, "Upgrade Required");
   (428, "Precondition Required"); (429, "Too Many Requests");
   (431, "Request Header Fields Too Large"); (451, "Unavailable For Legal Reasons");
   (500, "Internal Server Error"); (501, "Not Implemented"); (502, "Bad Gateway");
   (503, "Service Unavailable"); (504, "Gateway Timeout"); (505, "HTTP Version Not Supported");
   (506, "Variant Also Negotiates"); (507, "Insufficient Storage"); (508, "Loop Detected");
   (510, "Not Extended"); (511, "Network Authentication Required")]%Z.

Definition StatusText (code : Z) : string :=
  default "" (snd <$> find_first (λ p, (p.1 =? code)%Z) status_texts).

(** [New(code, msg, err...)]. *)
Definition New (code : Z) (msg : string) (err : list error) : error :=
  EHTTP code msg (head err).

(** [Error()] of every error of the framework. *)
Fixpoint Error (e : error) : string :=
  match e with
  | ESentinel n => n
  | ENew m => m
  | EWrap m _ => m
  | EHTTP code msg inner =>
      if bool_decide (msg ≠ "") then msg
      else match inner with
           | Some e' => Error e'
           | None => StatusText code
           end
  end.

Definition Unwrap (e : error) : option error :=
  match e with
  | EHTTP _ _ inner => inner
  | EWrap _ e' => Some e'
  | _ => None
  end.

(** [fmt.Errorf(prefix + "%w", err)] and its [%v] form, which drops the chain. *)
Definition wrapf (prefix : string) (e : error) (suffix : string) : error :=
  EWrap (prefix +:+ Error e +:+ suffix) e.
Definition errorf (prefix : string) (e : error) : error := ENew (prefix +:+ Error e).

Lemma errors_Is_wrapf p e s t : errors_Is (wrapf p e s) t = errors_Is e t.
Proof. done. Qed.

Lemma errors_Is_New code msg e t : errors_Is (New code msg [e]) t = errors_Is e t.
Proof. done. Qed.
