(* ===== verification/GoValue.v ===== *)
(** * Go types and dynamic values

    The reflective code of the framework (row scanning, struct-to-column maps,
    form decoding, validation) works on [any] and on package [reflect].  A type is
    a [gotype]; a value of type [any] is a [value] that carries its dynamic type,
    [VNil] being the nil interface.  A pointer carries what it points to: code
    that writes through a pointer returns the new value.  A [reflect.Value] of a
    field is the pair of the field's static type and its content.

    Defined types other than structs are identified with their underlying type,
    and a map has string keys.  Floats are the binary64/binary32 values of the
    Standard Library's [spec_float]. *)

From S2P Require Import Prelude GoStrings.
From Stdlib Require Export SpecFloat.

(** The widths of Go's integer types. *)
Inductive ikind := KInt | KInt8 | KInt16 | KInt32 | KInt64.
Inductive fkind := KFloat32 | KFloat64.

#[global] Instance ikind_eq_dec : EqDecision ikind.
Proof. solve_decision. Defined.
#[global] Instance fkind_eq_dec : EqDecision fkind.
Proof. solve_decision. Defined.
#[global] Instance spec_float_eq_dec : EqDecision spec_float.
Proof. solve_decision. Defined.

Definition ikind_bits (k : ikind) : Z :=
  match k with KInt | KInt64 => 64 | KInt32 => 32 | KInt16 => 16 | KInt8 => 8 end.

(** Conversion to a signed or unsigned integer type keeps the low bits. *)
Definition wrap_int (k : ikind) (z : Z) : Z :=
  let n := ikind_bits k in ((z + 2 ^ (n - 1)) mod 2 ^ n - 2 ^ (n - 1))%Z.
Definition wrap_uint (k : ikind) (z : Z) : Z := (z mod 2 ^ ikind_bits k)%Z.

(** A struct field: its name, type, whether it is exported ([PkgPath] is empty)
    and embedded, and its tag as key/value pairs. *)
Record sfield_of (T : Type) := SField {
  sf_name : string;
  sf_type : T;
  sf_exported : bool;
  sf_anonymous : bool;
  sf_tag : list (string * string);
}.
Arguments SField {T}.
Arguments sf_name {T}.
Arguments sf_type {T}.
Arguments sf_exported {T}.
Arguments sf_anonymous {T}.
Arguments sf_tag {T}.

(** [TStruct name tn fs]: a struct type, what its method [TableName] returns on
    a new instance ([None] without such a method), and its fields. *)
Inductive gotype :=
  | TBool
  | TInt (k : ikind)
  | TUint (k : ikind)
  | TFloat (k : fkind)
  | TString
  | TTime
  | TInterface
  | TPtr (t : gotype)
  | TSlice (t : gotype)
  | TMap (t : gotype)
  | TStruct (name : string) (tablename : option string) (fs : list (sfield_of gotype))
  | TOther (name : string).

Abbreviation sfield := (sfield_of gotype).

Inductive value :=
  | VNil
  | VBool (b : bool)
  | VInt (k : ikind) (z : Z)
  | VUint (k : ikind) (z : Z)
  | VFloat (k : fkind) (f : spec_float)
  | VString (s : string)
  | VBytes (b : option string)
  | VTime (t : Z)
  | VPtr (t : gotype) (v : option value)
  | VSlice (t : gotype) (l : option (list value))
  | VMap (t : gotype) (m : option (list (string * value)))
  | VStruct (name : string) (tablename : option string) (fs : list sfield) (vs : list value)
  | VOther (name : string) (id : Z).

(** [reflect.TypeOf]: the dynamic type, [None] for the nil interface. *)
Definition type_of (v : value) : option gotype :=
  match v with
  | VNil => None
  | VBool _ => Some TBool
  | VInt k _ => Some (TInt k)
  | VUint k _ => Some (TUint k)
  | VFloat k _ => Some (TFloat k)
  | VString _ => Some TString
  | VBytes _ => Some (TSlice (TUint KInt8))
  | VTime _ => Some TTime
  | VPtr t _ => Some (TPtr t)
  | VSlice t _ => Some (TSlice t)
  | VMap t _ => Some (TMap t)
  | VStruct n tn fs _ => Some (TStruct n tn fs)
  | VOther n _ => Some (TOther n)
  end.

(** Equality of types is decidable (the test [t1 == t2] on [reflect.Type]). *)
Fixpoint type_eqb (t u : gotype) {struct t} : bool :=
  match t, u with
  | TBool, TBool | TString, TString | TTime, TTime | TInterface, TInterface => true
  | TInt k, TInt l | TUint k, TUint l => bool_decide (k = l)
  | TFloat k, TFloat l => bool_decide (k = l)
  | TPtr t, TPtr u | TSlice t, TSlice u | TMap t, TMap u => type_eqb t u
  | TStruct n tn fs, TStruct m tm gs =>
      bool_decide (n = m) && bool_decide (tn = tm) &&
      (fix go (fs gs : list sfield) : bool :=
         match fs, gs with
         | [], [] => true
         | f :: fs, g :: gs =>
             bool_decide (sf_name f = sf_name g) && type_eqb (sf_type f) (sf_type g)
             && bool_decide (sf_exported f = sf_exported g)
             && bool_decide (sf_anonymous f = sf_anonymous g)
             && bool_decide (sf_tag f = sf_tag g) && go fs gs
         | _, _ => false
         end) fs gs
  | TOther n, TOther m => bool_decide (n = m)
  | _, _ => false
  end.

(** [reflect.Zero(t).Interface()]. *)
Fixpoint zero_value (t : gotype) : value :=
  match t with
  | TBool => VBool false
  | TInt k => VInt k 0
  | TUint k => VUint k 0
  | TFloat k => VFloat k (S754_zero false)
  | TString => VString ""
  | TTime => VTime 0
  | TInterface => VNil
  | TPtr t => VPtr t None
  | TSlice (TUint KInt8) => VBytes None
  | TSlice t => VSlice t None
  | TMap t => VMap t None
  | TStruct n tn fs => VStruct n tn fs (map (λ f, zero_value (sf_type f)) fs)
  | TOther n => VOther n 0
  end.

(** Go's [==] on floats. *)
Definition float_eqb (f g : spec_float) : bool :=
  match SFcompare f g with Some Eq => true | _ => false end.

Definition assoc (k : string) {A} (m : list (string * A)) : option A :=
  snd <$> find_first (λ p, bool_decide (p.1 = k)) m.

(** [reflect.DeepEqual]. *)
Fixpoint DeepEqual (v w : value) {struct v} : bool :=
  let all := fix all (l l' : list value) : bool :=
    match l, l' with
    | [], [] => true
    | x :: l, y :: l' => DeepEqual x y && all l l'
    | _, _ => false
    end in
  match v, w with
  | VNil, VNil => true
  | VBool a, VBool b => Bool.eqb a b
  | VInt k a, VInt l b | VUint k a, VUint l b => bool_decide (k = l) && (a =? b)%Z
  | VFloat k a, VFloat l b => bool_decide (k = l) && float_eqb a b
  | VString a, VString b => bool_decide (a = b)
  | VBytes a, VBytes b => bool_decide (a = b)
  | VTime a, VTime b => (a =? b)%Z
  | VPtr t None, VPtr u None => type_eqb t u
  | VPtr t (Some a), VPtr u (Some b) => type_eqb t u && DeepEqual a b
  | VSlice t None, VSlice u None => type_eqb t u
  | VSlice t (Some l), VSlice u (Some l') => type_eqb t u && all l l'
  | VMap t None, VMap u None => type_eqb t u
  | VMap t (Some m), VMap u (Some m') =>
      type_eqb t u && (length m =? length m')%nat &&
      (fix go (m : list (string * value)) : bool :=
         match m with
         | [] => true
         | (k, x) :: m =>
             match assoc k m' with Some y => DeepEqual x y | None => false end && go m
         end) m
  | VStruct n tn fs l, VStruct n' tn' fs' l' =>
      type_eqb (TStruct n tn fs) (TStruct n' tn' fs') && all l l'
  | VOther n a, VOther m b => bool_decide (n = m) && (a =? b)%Z
  | _, _ => false
  end.

(** [d.(map[string]any)]. *)
Definition as_map (v : value) : option (gmap string value) :=
  match v with
  | VMap TInterface (Some m) => Some (list_to_map m)
  | VMap TInterface None => Some ∅
  | _ => None
  end.
Definition map_value (m : gmap string value) : value := VMap TInterface (Some (map_to_list m)).

Lemma as_map_map_value m : as_map (map_value m) = Some m.
Proof. simpl. by rewrite list_to_map_to_list. Qed.

(** [reflect.StructTag.Get]. *)
Definition Tag_Get (f : sfield) (k : string) : string := default "" (assoc k (sf_tag f)).

(** *** Field access by name

    A name selects the field at the shallowest depth of embedding at which it
    occurs, if it occurs there once. *)
Definition embedded_struct (f : sfield) : option (list sfield) :=
  if sf_anonymous f then
    match sf_type f with
    | TStruct _ _ gs | TPtr (TStruct _ _ gs) => Some gs
    | _ => None
    end
  else None.

Definition level := list (list nat * list sfield).

Definition level_hits (name : string) (lv : level) : list (list nat * sfield) :=
  lv ≫= λ '(p, fs), filter (λ x, sf_name x.2 = name) (imap (λ i f, (p ++ [i], f)) fs).

Definition next_level (lv : level) : level :=
  lv ≫= λ '(p, fs), omap (λ x, (λ gs, (x.1, gs)) <$> embedded_struct x.2)
                       (imap (λ i f, (p ++ [i], f)) fs).

Fixpoint find_level (fuel : nat) (name : string) (lv : level) : option (list nat * sfield) :=
  match fuel with
  | O => None
  | S fuel' =>
      match level_hits name lv with
      | [] => match next_level lv with [] => None | lv' => find_level fuel' name lv' end
      | [x] => Some x
      | _ => None
      end
  end.

(** An upper bound of the embedding depth. *)
Fixpoint type_depth (t : gotype) : nat :=
  match t with
  | TPtr t | TSlice t | TMap t => S (type_depth t)
  | TStruct _ _ fs => S (foldr (λ f n, Nat.max (type_depth (sf_type f)) n) 0 fs)
  | _ => 1
  end.

(** [reflect.Type.FieldByName] on a struct type: the index sequence and the field. *)
Definition FieldByName (n : string) (tn : option string) (fs : list sfield) (name : string)
  : option (list nat * sfield) :=
  find_level (S (type_depth (TStruct n tn fs))) name [([], fs)].

(** The value at an index sequence; a nil embedded pointer on the way panics. *)
Fixpoint get_path (v : value) (p : list nat) {struct p} : outcome value :=
  match p with
  | [] => Ret v
  | i :: p' =>
      match v with
      | VStruct _ _ _ vs | VPtr _ (Some (VStruct _ _ _ vs)) =>
          match vs !! i with Some w => get_path w p' | None => Panic "field index out of range" end
      | _ => Panic "nil embedded pointer"
      end
  end.

Fixpoint set_path (v : value) (p : list nat) (x : value) {struct p} : value :=
  match p with
  | [] => x
  | i :: p' =>
      match v with
      | VStruct n tn fs vs => VStruct n tn fs (alter (λ w, set_path w p' x) i vs)
      | VPtr t (Some (VStruct n tn fs vs)) =>
          VPtr t (Some (VStruct n tn fs (alter (λ w, set_path w p' x) i vs)))
      | _ => v
      end
  end.

Definition set_field (v : value) (i : nat) (x : value) : value := set_path v [i] x.

(** *** Conversions the language leaves to the implementation

    Converting a float to an integer type that cannot hold it gives an
    implementation-dependent value. *)
Class Platform := {
  float_to_int_overflow : spec_float → Z;
  float_to_uint_overflow : spec_float → Z;
}.

(** The integer part of a finite float. *)
Definition float_trunc (f : spec_float) : option Z :=
  match f with
  | S754_zero _ => Some 0%Z
  | S754_finite s m e =>
      let a := if (0 <=? e)%Z then (Z.pos m * 2 ^ e)%Z else (Z.pos m / 2 ^ (- e))%Z in
      Some (if s then (- a)%Z else a)
  | _ => None
  end.

Definition float_to_int64 `{Platform} (f : spec_float) : Z :=
  match float_trunc f with
  | Some z => if (min_int64 <=? z)%Z && (z <=? max_int64)%Z then z
              else wrap64 (float_to_int_overflow f)
  | None => wrap64 (float_to_int_overflow f)
  end.

Definition float_to_uint64 `{Platform} (f : spec_float) : Z :=
  match float_trunc f with
  | Some z => if (0 <=? z)%Z && (z <=? 2 ^ 64 - 1)%Z then z
              else (float_to_uint_overflow f mod 2 ^ 64)%Z
  | None => (float_to_uint_overflow f mod 2 ^ 64)%Z
  end.

(** Rounding a binary64 value to binary32 and back ([float32(x)]). *)
Definition float32_round (f : spec_float) : spec_float :=
  match f with
  | S754_finite s m e => binary_normalize 24 128 (if s then Z.neg m else Z.pos m) e s
  | _ => f
  end.

(** *** Well-typed values *)

Fixpoint has_type (t : gotype) (v : value) {struct t} : bool :=
  match t, v with
  | TBool, VBool _ | TString, VString _ | TTime, VTime _ => true
  | TInt k, VInt l z =>
      bool_decide (k = l) && (- 2 ^ (ikind_bits k - 1) <=? z)%Z && (z <? 2 ^ (ikind_bits k - 1))%Z
  | TUint k, VUint l z => bool_decide (k = l) && (0 <=? z)%Z && (z <? 2 ^ ikind_bits k)%Z
  | TFloat k, VFloat l _ => bool_decide (k = l)
  | TInterface, _ => true
  | TPtr t, VPtr u w => type_eqb t u && match w with Some x => has_type t x | None => true end
  | TSlice (TUint KInt8), VBytes _ => true
  | TSlice t, VSlice u l =>
      type_eqb t u && match l with Some l => forallb (has_type t) l | None => true end
  | TMap t, VMap u m =>
      type_eqb t u && match m with Some m => forallb (λ p, has_type t p.2) m | None => true end
  | TStruct n tn fs, VStruct n' tn' fs' vs =>
      type_eqb (TStruct n tn fs) (TStruct n' tn' fs') &&
      (fix go (fs : list sfield) (vs : list value) : bool :=
         match fs, vs with
         | [], [] => true
         | f :: fs, x :: vs => has_type (sf_type f) x && go fs vs
         | _, _ => false
         end) fs vs
  | TOther n, VOther m _ => bool_decide (n = m)
  | _, _ => false
  end.

(** ** Lemmas *)

Lemma wrap_int_range k z :
  (- 2 ^ (ikind_bits k - 1) <= wrap_int k z < 2 ^ (ikind_bits k - 1))%Z.
Proof.
  unfold wrap_int.
  pose proof (Z.mod_pos_bound (z + 2 ^ (ikind_bits k - 1)) (2 ^ ikind_bits k)).
  destruct k; simpl in *; lia.
Qed.

Lemma wrap_int_id k z :
  (- 2 ^ (ikind_bits k - 1) <= z < 2 ^ (ikind_bits k - 1))%Z → wrap_int k z = z.
Proof. unfold wrap_int. intros. rewrite Z.mod_small; destruct k; simpl in *; lia. Qed.

Lemma wrap_uint_id k z : (0 <= z < 2 ^ ikind_bits k)%Z → wrap_uint k z = z.
Proof. unfold wrap_uint. intros. by rewrite Z.mod_small. Qed.

Lemma wrap_int_64 z : wrap_int KInt64 z = wrap64 z.
Proof. done. Qed.

(** Induction on types, through the fields of a struct. *)
Section TypeInd.
Variable P : gotype → Prop.
Hypothesis HBool : P TBool.
Hypothesis HInt : ∀ k, P (TInt k).
Hypothesis HUint : ∀ k, P (TUint k).
Hypothesis HFloat : ∀ k, P (TFloat k).
Hypothesis HString : P TString.
Hypothesis HTime : P TTime.
Hypothesis HInterface : P TInterface.
Hypothesis HPtr : ∀ t, P t → P (TPtr t).
Hypothesis HSlice : ∀ t, P t → P (TSlice t).
Hypothesis HMap : ∀ t, P t → P (TMap t).
Hypothesis HStruct : ∀ n tn fs, Forall (λ f, P (sf_type f)) fs → P (TStruct n tn fs).
Hypothesis HOther : ∀ n, P (TOther n).

Fixpoint gotype_ind' (t : gotype) : P t :=
  match t with
  | TBool => HBool
  | TInt k => HInt k
  | TUint k => HUint k
  | TFloat k => HFloat k
  | TString => HString
  | TTime => HTime
  | TInterface => HInterface
  | TPtr t => HPtr t (gotype_ind' t)
  | TSlice t => HSlice t (gotype_ind' t)
  | TMap t => HMap t (gotype_ind' t)
  | TStruct n tn fs =>
      HStruct n tn fs
        ((fix go (fs : list sfield) : Forall (λ f, P (sf_type f)) fs :=
            match fs with
            | [] => Forall_nil_2 _
            | f :: fs => Forall_cons_2 _ _ _ (gotype_ind' (sf_type f)) (go fs)
            end) fs)
  | TOther n => HOther n
  end.
End TypeInd.

Lemma type_eqb_eq t u : type_eqb t u = true → t = u.
Proof.
  revert u. induction t as [| | | | | | | | | |n tn fs IH|] using gotype_ind'; intros [];
    simpl; try done; intros Heq; to_prop; subst; try done; try (by f_equal; auto).
  f_equal. rename fs0 into gs. revert gs H0. induction IH as [|f fs Hf Hfs IH]; intros [|g gs]; try done.
  intros; to_prop. f_equal; [|by apply IH].
  destruct f, g; simpl in *. f_equal; auto.
Qed.

Lemma type_eqb_refl t : type_eqb t t = true.
Proof.
  induction t as [| | | | | | | | | |n tn fs IH|] using gotype_ind'; simpl; try done;
    rewrite ?bool_decide_true by done; try done.
  simpl. induction IH as [|f fs Hf Hfs IH]; [done|].
  rewrite Hf, IH, !bool_decide_true by done. done.
Qed.

#[export] Hint Resolve type_eqb_refl wrap_int_id wrap_uint_id : kiya.
