(* ===== verification/GoFloat.v ===== *)
(** * Integers as [float64]

    Conversion of an integer to [float64] and back is exact below 2^53: what JSON
    numbers and the rate limiter's arithmetic rely on. *)

From S2P Require Import Prelude GoValue.

(** [float64(z)]: round to nearest, ties to even. *)
Definition float_of_Z (z : Z) : spec_float := binary_normalize 53 1024 z 0 false.

Lemma iter_xO_val m d : Z.pos (Pos.iter xO m d) = (Z.pos m * 2 ^ Z.pos d)%Z.
Proof.
  induction d as [|d IH] using Pos.peano_ind; [simpl; lia|].
  rewrite Pos.iter_succ, Pos2Z.inj_xO, IH, Pos2Z.inj_succ, Z.pow_succ_r by lia. lia.
Qed.

Lemma digits2_iter_xO m d : Z.pos (digits2_pos (Pos.iter xO m d)) = (Z.pos (digits2_pos m) + Z.pos d)%Z.
Proof.
  induction d as [|d IH] using Pos.peano_ind; [simpl; lia|].
  rewrite Pos.iter_succ. cbn [digits2_pos]. rewrite !Pos2Z.inj_succ, IH. lia.
Qed.

(** A positive with fewer than [n + 1] binary digits is below [2 ^ n]. *)
Lemma digits2_pow m : (2 ^ (Z.pos (digits2_pos m) - 1) <= Z.pos m < 2 ^ Z.pos (digits2_pos m))%Z.
Proof.
  induction m as [m IH|m IH|]; cbn [digits2_pos]; [..|simpl; lia];
    rewrite Pos2Z.inj_succ, Z.pow_succ_r by lia;
    replace (Z.succ (Z.pos (digits2_pos m)) - 1)%Z with (Z.succ (Z.pos (digits2_pos m) - 1)) by lia;
    rewrite Z.pow_succ_r by lia; lia.
Qed.

Lemma digits2_le m n : (0 <= n)%Z → (Z.pos m < 2 ^ n)%Z → (Z.pos (digits2_pos m) <= n)%Z.
Proof.
  intros Hn Hm. destruct (digits2_pow m) as [Hlo _].
  destruct (Z_le_gt_dec (Z.pos (digits2_pos m)) n) as [|Hgt]; [done|].
  assert (2 ^ n <= 2 ^ (Z.pos (digits2_pos m) - 1))%Z by (apply Z.pow_le_mono_r; lia). lia.
Qed.

(** A mantissa that has its 53 digits is not rounded. *)
Lemma binary_round_aux_exact s m e :
  Z.pos (digits2_pos m) = 53%Z → (-1074 <= e <= 971)%Z →
  binary_round_aux 53 1024 s (Z.pos m) e loc_Exact = S754_finite s m e.
Proof.
  intros Hd He. unfold binary_round_aux, shr_fexp, Zdigits2, fexp, emin. rewrite Hd.
  replace (Z.max (53 + e - 53) (3 - 1024 - 53) - e)%Z with 0%Z by lia. cbn [shr shr_record_of_loc shr_m
    loc_of_shr_record round_nearest_even]. rewrite Hd.
  replace (Z.max (53 + e - 53) (3 - 1024 - 53) - e)%Z with 0%Z by lia. cbn [shr shr_record_of_loc shr_m].
  destruct (Z.leb_spec e (1024 - 53)); [done|lia].
Qed.

Lemma binary_round_exact s m :
  (Z.pos m < 2 ^ 53)%Z →
  float_trunc (binary_round 53 1024 s m 0) = Some (if s then Z.neg m else Z.pos m).
Proof.
  intros Hm. pose proof (digits2_le m 53 ltac:(lia) Hm) as Hd.
  unfold binary_round, shl_align, fexp, emin.
  set (d := Z.pos (digits2_pos m)) in *.
  assert (0 < d)%Z by (unfold d; lia).
  replace (Z.max (d + 0 - 53) (3 - 1024 - 53) - 0)%Z with (d - 53)%Z by lia.
  replace (Z.max (d + 0 - 53) (3 - 1024 - 53))%Z with (d - 53)%Z by lia.
  destruct (d - 53)%Z as [|p|p] eqn:E; [|lia|].
  - assert (d = 53%Z) by lia. rewrite binary_round_aux_exact by (unfold d in *; lia).
    simpl. destruct s; f_equal; lia.
  - rewrite binary_round_aux_exact.
    + cbn [float_trunc]. rewrite (iter_xO_val m p).
      destruct (Z.leb_spec 0 (Z.neg p)); [lia|].
      replace (- Z.neg p)%Z with (Z.pos p) by lia.
      rewrite Z.div_mul by lia. by destruct s.
    + rewrite digits2_iter_xO. unfold d in *. lia.
    + lia.
Qed.

(** Below 2^53 in magnitude an integer survives the conversion to [float64]. *)
Lemma float_of_Z_exact z : (Z.abs z < 2 ^ 53)%Z → float_trunc (float_of_Z z) = Some z.
Proof.
  intros Hz. unfold float_of_Z, binary_normalize.
  destruct z as [|p|p]; [done|..]; rewrite binary_round_exact by lia; done.
Qed.

Lemma float_to_int64_of_Z `{Platform} z : (Z.abs z < 2 ^ 53)%Z → float_to_int64 (float_of_Z z) = z.
Proof.
  intros Hz. unfold float_to_int64. rewrite float_of_Z_exact by done.
  unfold min_int64, max_int64.
  destruct (Z.leb_spec (- 2 ^ 63) z), (Z.leb_spec z (2 ^ 63 - 1)); simpl; lia.
Qed.
