(* ===== verification/RouterTree.v ===== *)
(** * The routing trie ([internal/router/tree.go])

    One trie per HTTP method; a node is labelled by a static segment, a
    parameter, a parameter constrained by a regular expression, or a wildcard
    that takes the rest of the path.  Handlers are an abstract type [H] ([None] is
    Go's nil handler); regular expressions compile and match through the
    interface [RegexpEngine], which stands for package [regexp]. *)

From S2P Require Import Prelude GoStrings.
From Stdlib Require Import Ascii.
Import Strings Path.

(** What the router uses of package [regexp]. *)
Class RegexpEngine := {
  regex : Type;
  Compile : string → option regex;
  MatchString : regex → string → bool;
}.

Inductive nodeType := static | paramNode | regexNode | wildcardNode.

#[global] Instance nodeType_eq_dec : EqDecision nodeType.
Proof. solve_decision. Defined.

Record Param := mkParam { Key : string; Value : string }.

Section Tree.
Context {RE : RegexpEngine} {H : Type}.

Inductive node := Node {
  part : string;
  nType : nodeType;
  paramName : string;
  nregex : option regex;
  children : list node;
  handler : option H;
}.

Record Tree := mkTree { roots : gmap string node }.

Definition NewTree : Tree := mkTree ∅.

Definition empty_node : node := Node "" static "" None [] None.

Definition set_handler (n : node) (h : option H) : node :=
  Node (part n) (nType n) (paramName n) (nregex n) (children n) h.

Definition set_children (n : node) (cs : list node) : node :=
  Node (part n) (nType n) (paramName n) (nregex n) cs (handler n).

Definition cleanPath (p : string) : string :=
  if bool_decide (p = "") then "/"
  else let p := if negb (HasPrefix p "/") then "/" +:+ p else p in Clean p.

Definition splitPath (p : string) : list string :=
  if bool_decide (p = "/") then []
  else
    let p := Trim slash p in
    if bool_decide (p = "") then [] else Split slash p.

(** A segment of a pattern.  [seg[1 : len(seg)-1]] panics on the one-byte
    segment ["{"], where the upper bound is below the lower one. *)
Definition parseSegment (seg : string) : outcome node :=
  if negb (HasPrefix seg "{") then Ret (Node seg static "" None [] None)
  else if (String.length seg <? 2)%nat then Panic "slice bounds out of range [1:0]"
  else
    let body := take (String.length seg - 2) (drop 1 seg) in
    if (100 <? String.length body)%nat then Ret (Node "" paramNode body None [] None)
    else
      let '(name, rest) := SplitN2 ":"%char body in
      match rest with
      | Some pattern =>
          if bool_decide (pattern = "*") then Ret (Node "" wildcardNode name None [] None)
          else match Compile ("^" +:+ pattern +:+ "$") with
               | Some re => Ret (Node "" regexNode name (Some re) [] None)
               | None => Ret (Node "" paramNode name None [] None)
               end
      | None => Ret (Node "" paramNode name None [] None)
      end.

Definition sameNode (a b : node) : bool :=
  bool_decide (nType a = nType b) && bool_decide (part a = part b)
  && bool_decide (paramName a = paramName b).

(** The conflict test of [AddRoute] between an existing child [c] and the new
    node [n]. *)
Definition isConflict (c n : node) : bool :=
  (bool_decide (nType c = paramNode)
   && (bool_decide (nType n = paramNode) || bool_decide (nType n = regexNode)))
  || ((bool_decide (nType c = regexNode) || bool_decide (nType c = wildcardNode))
      && (bool_decide (nType n = paramNode) || bool_decide (nType n = regexNode)))
  || (bool_decide (nType c = wildcardNode) && bool_decide (nType n = wildcardNode)).

(** How a registration ends: done, refused with the logged conflict (the segment
    and the part of the existing node), or stopped by a panic. *)
Inductive add_result :=
  | Added
  | RouteConflict (seg existing : string)
  | AddPanic (msg : string).

(** Apply [f] to the first child satisfying [p]. *)
Fixpoint update_child (p : node → bool) (f : node → node * add_result)
    (cs : list node) : option (list node * add_result) :=
  match cs with
  | [] => None
  | c :: cs' =>
      if p c then let '(c', r) := f c in Some (c' :: cs', r)
      else match update_child p f cs' with
           | Some (l, r) => Some (c :: l, r)
           | None => None
           end
  end.

(** The loop of [AddRoute] over the segments, from [current] on. *)
Fixpoint addSegments (segments : list string) (current : node) (h : option H)
    : node * add_result :=
  match segments with
  | [] => (set_handler current h, Added)
  | seg :: rest =>
      match parseSegment seg with
      | Panic msg => (current, AddPanic msg)
      | Ret n =>
          let descend (child : node) :=
            if bool_decide (nType n = wildcardNode) then (set_handler child h, Added)
            else addSegments rest child h in
          match update_child (λ c, sameNode c n) descend (children current) with
          | Some (cs, r) => (set_children current cs, r)
          | None =>
              match find_first (λ c, isConflict c n) (children current) with
              | Some c => (current, RouteConflict seg (part c))
              | None =>
                  let '(child, r) := descend n in
                  (set_children current (children current ++ [child]), r)
              end
          end
      end
  end.

Definition AddRoute (t : Tree) (method path : string) (h : option H) : Tree * add_result :=
  let fullPath := cleanPath path in
  let root := default empty_node (roots t !! method) in
  let '(root', r) := addSegments (splitPath fullPath) root h in
  (mkTree (<[method := root']> (roots t)), r).

(** A [for _, c := range n.children] loop that returns at the first child whose
    step yields a handler; the parameter slice is threaded through. *)
Fixpoint try_children (step : node → list Param → option H * list Param)
    (cs : list node) (params : list Param) : option H * list Param :=
  match cs with
  | [] => (None, params)
  | c :: cs' =>
      match step c params with
      | (Some h, params') => (Some h, params')
      | (None, params') => try_children step cs' params'
      end
  end.

(** Append a binding, search below, and drop the last binding on failure. *)
Definition with_param (rec : node → list Param → option H * list Param)
    (c : node) (seg : string) (params : list Param) : option H * list Param :=
  match rec c (params ++ [mkParam (paramName c) seg]) with
  | (Some h, params') => (Some h, params')
  | (None, params') => (None, removelast params')
  end.

Definition regex_matches (c : node) (seg : string) : bool :=
  match nregex c with Some re => MatchString re seg | None => false end.

Fixpoint search (segments : list string) (n : node) (params : list Param)
    : option H * list Param :=
  match segments with
  | [] => (handler n, params)
  | seg :: rest =>
      let static_step c ps :=
        if bool_decide (nType c = static) && bool_decide (part c = seg)
        then search rest c ps else (None, ps) in
      let regex_step c ps :=
        if bool_decide (nType c = regexNode) && regex_matches c seg
        then with_param (search rest) c seg ps else (None, ps) in
      let param_step c ps :=
        if bool_decide (nType c = paramNode)
        then with_param (search rest) c seg ps else (None, ps) in
      match try_children static_step (children n) params with
      | (Some h, ps) => (Some h, ps)
      | (None, ps) =>
      match try_children regex_step (children n) ps with
      | (Some h, ps) => (Some h, ps)
      | (None, ps) =>
      match try_children param_step (children n) ps with
      | (Some h, ps) => (Some h, ps)
      | (None, ps) =>
          match find_first (λ c, bool_decide (nType c = wildcardNode)) (children n) with
          | Some c => (handler c, ps ++ [mkParam (paramName c) (Join "/" segments)])
          | None => (None, ps)
          end
      end end end
  end.

Definition findRouteInRoot (root : node) (path : string) : option H * list Param :=
  search (splitPath (cleanPath path)) root [].

Definition FindRoute (t : Tree) (method path : string) : option H * list Param :=
  match roots t !! method with
  | None => (None, [])
  | Some root => findRouteInRoot root path
  end.

Definition AnyMethodExists (t : Tree) (path : string) : bool :=
  existsb (λ mr : string * node,
    match findRouteInRoot mr.2 path with (Some _, _) => true | (None, _) => false end)
    (map_to_list (roots t)).

(** ** The trie as a map from patterns to handlers *)

(** What identifies a node among its siblings ([sameNode]). *)
Definition label : Type := nodeType * string * string.
Definition label_of (n : node) : label := (nType n, part n, paramName n).

Lemma sameNode_label a b : sameNode a b = bool_decide (label_of a = label_of b).
Proof.
  unfold sameNode, label_of.
  destruct (decide (nType a = nType b)), (decide (part a = part b)),
    (decide (paramName a = paramName b));
  repeat (first [rewrite bool_decide_true by congruence|rewrite bool_decide_false by congruence]);
  done.
Qed.

(** The pattern a list of segments registers: one label per segment, up to and
    including the first wildcard. *)
Fixpoint pattern_of (segments : list string) : outcome (list label) :=
  match segments with
  | [] => Ret []
  | seg :: rest =>
      match parseSegment seg with
      | Panic m => Panic m
      | Ret n =>
          if bool_decide (nType n = wildcardNode) then Ret [label_of n]
          else match pattern_of rest with
               | Ret pat => Ret (label_of n :: pat)
               | Panic m => Panic m
               end
      end
  end.

(** The handler stored under a pattern. *)
Fixpoint lookup_pat (pat : list label) (n : node) : option H :=
  match pat with
  | [] => handler n
  | l :: pat' =>
      c ← find_first (λ c, bool_decide (label_of c = l)) (children n); lookup_pat pat' c
  end.

Lemma update_child_Some p f cs cs' r :
  update_child p f cs = Some (cs', r) →
  ∃ l1 c l2 c', cs = l1 ++ c :: l2 ∧ find_first p l1 = None ∧ p c = true ∧
    f c = (c', r) ∧ cs' = l1 ++ c' :: l2.
Proof.
  revert cs'. induction cs as [|c cs IH]; intros cs'; simpl; [done|].
  destruct (p c) eqn:Hp.
  - destruct (f c) as [c' r'] eqn:Hf. intros; simplify_eq.
    by exists [], c, cs, c'.
  - destruct (update_child p f cs) as [[l r']|] eqn:E; [|done]. intros; simplify_eq.
    destruct (IH l) as (l1 & c1 & l2 & c' & -> & ? & ? & ? & ->); [done|].
    exists (c :: l1), c1, l2, c'. simpl. by rewrite Hp.
Qed.

Lemma update_child_None p f cs :
  update_child p f cs = None → find_first p cs = None.
Proof.
  induction cs as [|c cs IH]; simpl; [done|].
  destruct (p c); [by destruct (f c)|].
  destruct (update_child p f cs) as [[??]|]; [done|]. auto.
Qed.

Lemma addSegments_label segs n h : label_of (addSegments segs n h).1 = label_of n.
Proof. destruct segs as [|seg segs]; simpl; [done|]. by repeat case_match. Qed.

(** A registration step below a child keeps the child's label. *)
Lemma descend_label (n child : node) rest h :
  label_of (if bool_decide (nType n = wildcardNode) then (set_handler child h, Added)
            else addSegments rest child h).1 = label_of child.
Proof. case_bool_decide; [done|]. apply addSegments_label. Qed.

(** Looking up a label among children one of which was replaced by a node of the
    same label. *)
Lemma find_replaced l l1 (c c' : node) l2 :
  label_of c' = label_of c →
  find_first (λ c, bool_decide (label_of c = label_of c')) l1 = None →
  find_first (λ c, bool_decide (label_of c = l)) (l1 ++ c' :: l2) =
  if bool_decide (label_of c = l) then Some c'
  else find_first (λ c, bool_decide (label_of c = l)) (l1 ++ c :: l2).
Proof.
  intros Hc Hl1. rewrite !find_first_app. simpl. rewrite Hc.
  case_bool_decide as Hl; [|done].
  replace (find_first _ l1) with (@None node); [done|].
  symmetry. apply find_first_None. intros x Hx.
  rewrite find_first_None in Hl1. specialize (Hl1 x Hx). to_prop.
  apply bool_decide_false. congruence.
Qed.

Lemma parseSegment_leaf seg n :
  parseSegment seg = Ret n → children n = [] ∧ handler n = None.
Proof.
  unfold parseSegment. intros. repeat case_match; simplify_eq; done.
Qed.

Lemma leaf_lookup n pat : children n = [] → handler n = None → lookup_pat pat n = None.
Proof. destruct pat; simpl; [done|]. by intros ->. Qed.

(** The effect of one registration on the lookups, whatever happens below the
    segment at hand: [D] is what the step does to the child. *)
Lemma lookup_step (child : node) (D : node → node * add_result) current cs' r pat :
  update_child (λ c, sameNode c child) D (children current) = Some (cs', r) →
  (∀ c, label_of (D c).1 = label_of c) →
  ∃ c, find_first (λ c, bool_decide (label_of c = label_of child)) (children current) = Some c ∧
    D c = ((D c).1, r) ∧ label_of c = label_of child ∧
    ∀ l, lookup_pat (l :: pat) (set_children current cs') =
      if bool_decide (label_of child = l) then lookup_pat pat (D c).1
      else lookup_pat (l :: pat) current.
Proof.
  intros Hu HD. apply update_child_Some in Hu as (l1 & c & l2 & c' & Hcs & Hl1 & Hc & Hf & ->).
  rewrite sameNode_label in Hc. to_prop.
  assert (label_of c' = label_of c) as Hcc by (specialize (HD c); by rewrite Hf in HD).
  assert (find_first (λ c0, bool_decide (label_of c0 = label_of c')) l1 = None) as Hl1'.
  { apply find_first_None. intros x Hx. rewrite find_first_None in Hl1.
    specialize (Hl1 x Hx). simpl in Hl1. rewrite sameNode_label in Hl1. to_prop.
    apply bool_decide_false. congruence. }
  exists c. rewrite Hcs, Hf. simpl. split; [|split; [done|split; [done|]]].
  - rewrite find_first_app. simpl. rewrite Hcc, Hc in Hl1'. rewrite Hl1'.
    by rewrite bool_decide_true.
  - intros l. rewrite (find_replaced l l1 c c' l2) by done. rewrite Hc.
    case_bool_decide; [done|]. by rewrite Hcs.
Qed.

Lemma lookup_append (child : node) current l pat :
  find_first (λ c, bool_decide (label_of c = label_of child)) (children current) = None →
  lookup_pat (l :: pat) (set_children current (children current ++ [child])) =
    if bool_decide (label_of child = l) then lookup_pat pat child
    else lookup_pat (l :: pat) current.
Proof.
  intros Hn. simpl. rewrite find_first_app. simpl.
  case_bool_decide; subst.
  - by rewrite Hn.
  - by destruct (find_first (λ c, bool_decide (label_of c = l)) (children current)).
Qed.

Lemma find_first_sameNode n cs :
  find_first (λ c, sameNode c n) cs =
  find_first (λ c, bool_decide (label_of c = label_of n)) cs.
Proof. induction cs as [|c cs IH]; simpl; [done|]. by rewrite sameNode_label, IH. Qed.

Lemma bool_decide_cons (l x : label) pat' pat :
  bool_decide (l :: pat' = x :: pat) = bool_decide (x = l) && bool_decide (pat' = pat).
Proof.
  destruct (decide (x = l)), (decide (pat' = pat)); subst;
    repeat (first [rewrite bool_decide_true by congruence|rewrite bool_decide_false by congruence]);
    done.
Qed.

(** A successful registration is an update of the map from patterns to handlers
    at the registered pattern. *)
Lemma addSegments_lookup segs n h n' :
  addSegments segs n h = (n', Added) →
  ∃ pat, pattern_of segs = Ret pat ∧
    ∀ pat', lookup_pat pat' n' = if bool_decide (pat' = pat) then h else lookup_pat pat' n.
Proof.
  revert n n'. induction segs as [|seg rest IH]; intros n n' Hadd; simpl in *.
  { simplify_eq. exists []. split; [done|]. by intros [|l pat']. }
  destruct (parseSegment seg) as [nd|] eqn:Hp; [|done].
  destruct (parseSegment_leaf _ _ Hp) as [Hch Hhd].
  set (D := λ child, if bool_decide (nType nd = wildcardNode) then (set_handler child h, Added)
                     else addSegments rest child h) in *.
  assert (∀ c, label_of (D c).1 = label_of c) as HD by (intros; apply descend_label).
  assert (∀ c c', D c = (c', Added) → ∃ pat,
      (if bool_decide (nType nd = wildcardNode) then Ret [label_of nd]
       else match pattern_of rest with Ret pat => Ret (label_of nd :: pat)
            | Panic m => Panic m end) = Ret (label_of nd :: pat) ∧
      ∀ pat', lookup_pat pat' c' = if bool_decide (pat' = pat) then h else lookup_pat pat' c)
    as HIH.
  { subst D. simpl. intros c c'. case_bool_decide; intros HDc.
    - simplify_eq. exists []. split; [done|]. by intros [|l pat'].
    - destruct (IH _ _ HDc) as (pat & -> & Hpat). by exists pat. }
  destruct (update_child _ _ _) as [[cs r]|] eqn:Hu; simplify_eq.
  - destruct (lookup_step nd D n cs Added [] Hu HD) as (c & Hfind & HDc & Hlc & _).
    destruct (HIH _ _ HDc) as (pat & Hpat & Hlook). exists (label_of nd :: pat).
    split; [done|]. intros [|l pat']; [done|].
    destruct (lookup_step nd D n cs Added pat' Hu HD) as (c2 & Hfind2 & _ & _ & ->).
    simplify_eq. rewrite bool_decide_cons.
    destruct (bool_decide (label_of nd = l)) eqn:Hl; to_prop; [|done].
    rewrite Hlook. subst l. simpl. by rewrite Hfind.
  - destruct (find_first _ _); [done|]. fold (D nd) in Hadd.
    destruct (D nd) as [child r] eqn:HDn; simplify_eq.
    destruct (HIH _ _ HDn) as (pat & Hpat & Hlook). exists (label_of nd :: pat).
    split; [done|]. intros [|l pat']; [done|].
    apply update_child_None in Hu. rewrite find_first_sameNode in Hu.
    specialize (HD nd). rewrite HDn in HD. simpl in HD.
    rewrite lookup_append by (by rewrite HD).
    rewrite HD, bool_decide_cons.
    destruct (bool_decide (label_of nd = l)) eqn:Hl; to_prop; [|done].
    rewrite Hlook, leaf_lookup by done. subst l. simpl. by rewrite Hu.
Qed.

(** Below a fresh node there is nothing to conflict with. *)
Lemma addSegments_leaf_no_conflict segs n h sg ex n' :
  children n = [] → addSegments segs n h ≠ (n', RouteConflict sg ex).
Proof.
  revert n n'. induction segs as [|seg rest IH]; intros n n' Hn Hadd; simpl in *; [done|].
  destruct (parseSegment seg) as [nd|] eqn:Hp; [|done].
  rewrite Hn in Hadd. simpl in Hadd.
  destruct (parseSegment_leaf _ _ Hp) as [Hch _].
  case_bool_decide; simplify_eq. destruct (addSegments rest nd h) eqn:E; simplify_eq.
  by eapply IH.
Qed.

Lemma set_children_id n : set_children n (children n) = n.
Proof. by destruct n. Qed.

(** A refused registration leaves the trie as it was. *)
Lemma addSegments_conflict segs n h n' sg ex :
  addSegments segs n h = (n', RouteConflict sg ex) → n' = n.
Proof.
  revert n n'. induction segs as [|seg rest IH]; intros n n' Hadd; simpl in *; [done|].
  destruct (parseSegment seg) as [nd|] eqn:Hp; [|done].
  destruct (parseSegment_leaf _ _ Hp) as [Hch _].
  destruct (update_child _ _ _) as [[cs r]|] eqn:Hu; simplify_eq.
  - apply update_child_Some in Hu as (l1 & c & l2 & c' & Hcs & _ & _ & Hf & ->).
    case_bool_decide; simplify_eq. apply IH in Hf as ->. rewrite <-Hcs.
    apply set_children_id.
  - destruct (find_first _ _); simplify_eq; [done|].
    case_bool_decide; simplify_eq. destruct (addSegments rest nd h) eqn:E; simplify_eq.
    by apply addSegments_leaf_no_conflict in E.
Qed.

(** A registration stopped by a panic adds no handler. *)
Lemma addSegments_panic segs n h n' m :
  addSegments segs n h = (n', AddPanic m) → ∀ pat, lookup_pat pat n' = lookup_pat pat n.
Proof.
  revert n n'. induction segs as [|seg rest IH]; intros n n' Hadd pat; simpl in *; [done|].
  destruct (parseSegment seg) as [nd|] eqn:Hp; [|by simplify_eq].
  destruct (parseSegment_leaf _ _ Hp) as [Hch Hhd].
  set (D := λ child, if bool_decide (nType nd = wildcardNode) then (set_handler child h, Added)
                     else addSegments rest child h) in *.
  assert (∀ c, label_of (D c).1 = label_of c) as HD by (intros; apply descend_label).
  assert (∀ c c', D c = (c', AddPanic m) → ∀ pat, lookup_pat pat c' = lookup_pat pat c) as HIH.
  { subst D. simpl. intros c c'. case_bool_decide; [done|]. by apply IH. }
  destruct (update_child _ _ _) as [[cs r]|] eqn:Hu; simplify_eq.
  - destruct pat as [|l pat]; [done|].
    destruct (lookup_step nd D n cs (AddPanic m) pat Hu HD) as (c & Hfind & HDc & _ & ->).
    rewrite (HIH _ _ HDc). case_bool_decide; [|done]. subst l. simpl. by rewrite Hfind.
  - destruct (find_first _ _); simplify_eq. fold (D nd) in Hadd.
    destruct (D nd) as [child r] eqn:HDn; simplify_eq.
    destruct pat as [|l pat]; [done|].
    apply update_child_None in Hu. rewrite find_first_sameNode in Hu.
    specialize (HD nd). rewrite HDn in HD. simpl in HD.
    rewrite lookup_append, HD by (by rewrite HD).
    case_bool_decide; [|done].
    rewrite (HIH _ _ HDn), leaf_lookup by done. subst l. simpl. by rewrite Hu.
Qed.

(** ** Matching

    [route n segs b r h]: below [n] some chain of nodes consumes [segs] and ends
    at handler [h], binding the parameters [b]; [r] is the kind of the node taken
    at each step (0 static, 1 regexp, 2 parameter, 3 wildcard). *)
Inductive route : node → list string → list Param → list nat → H → Prop :=
  | route_here n h : handler n = Some h → route n [] [] [] h
  | route_static n c seg rest b r h :
      c ∈ children n → nType c = static → part c = seg →
      route c rest b r h → route n (seg :: rest) b (0 :: r) h
  | route_regex n c seg rest b r h :
      c ∈ children n → nType c = regexNode → regex_matches c seg = true →
      route c rest b r h →
      route n (seg :: rest) (mkParam (paramName c) seg :: b) (1 :: r) h
  | route_param n c seg rest b r h :
      c ∈ children n → nType c = paramNode →
      route c rest b r h →
      route n (seg :: rest) (mkParam (paramName c) seg :: b) (2 :: r) h
  | route_wildcard n c seg rest h :
      c ∈ children n → nType c = wildcardNode → handler c = Some h →
      route n (seg :: rest) [mkParam (paramName c) (Join "/" (seg :: rest))] [3] h.

(** The order in which the search prefers routes: at the first step where two
    routes differ, static before regexp before parameter before wildcard. *)
Fixpoint prefers (r r' : list nat) : Prop :=
  match r, r' with
  | [], _ => True
  | x :: r1, y :: r1' => x < y ∨ x = y ∧ prefers r1 r1'
  | _ :: _, [] => False
  end.

(** The invariant of the trie: siblings have distinct labels, at most one of them
    is a parameter or regexp node and at most one a wildcard, every wildcard
    carries a handler, every regexp node its compiled expression. *)
Definition is_dynamic (c : node) : Prop := nType c = paramNode ∨ nType c = regexNode.

Record children_ok (cs : list node) : Prop := {
  ok_labels : NoDup (label_of <$> cs);
  ok_static : ∀ c, c ∈ cs → nType c = static → paramName c = "";
  ok_dynamic : ∀ c c', c ∈ cs → c' ∈ cs → is_dynamic c → is_dynamic c' →
    label_of c = label_of c';
  ok_wildcard : ∀ c c', c ∈ cs → c' ∈ cs → nType c = wildcardNode → nType c' = wildcardNode →
    label_of c = label_of c';
  ok_handler : ∀ c, c ∈ cs → nType c = wildcardNode → is_Some (handler c);
  ok_regex : ∀ c, c ∈ cs → nType c = regexNode → is_Some (nregex c);
}.

Inductive node_ok : node → Prop :=
  | node_ok_intro n :
      children_ok (children n) → (∀ c, c ∈ children n → node_ok c) → node_ok n.

Lemma node_ok_children n : node_ok n → children_ok (children n).
Proof. by inversion 1. Qed.
Lemma node_ok_child n c : node_ok n → c ∈ children n → node_ok c.
Proof. inversion 1; subst. auto. Qed.

Lemma children_ok_nil : children_ok [].
Proof. split; try (intros ? Hin; by apply elem_of_nil in Hin); [constructor|..];
  intros ? ? Hin; by apply elem_of_nil in Hin. Qed.

Lemma node_ok_leaf n : children n = [] → node_ok n.
Proof.
  intros Hn. constructor; rewrite Hn; [apply children_ok_nil|].
  intros ? Hin; by apply elem_of_nil in Hin.
Qed.

(** What the segments parse to. *)
Lemma parseSegment_kind seg n :
  parseSegment seg = Ret n →
  (nType n = static → paramName n = "") ∧ (nType n = regexNode → is_Some (nregex n)).
Proof.
  unfold parseSegment. intros.
  repeat case_match; simplify_eq; split; intros; simplify_eq/=; eauto.
Qed.

(** Replacing a child by one with the same label keeps the siblings well-formed. *)
Lemma children_ok_replace l1 c c' l2 :
  children_ok (l1 ++ c :: l2) → label_of c' = label_of c →
  (nType c = wildcardNode → is_Some (handler c')) → nregex c' = nregex c →
  children_ok (l1 ++ c' :: l2).
Proof.
  intros Hok Hl Hw Hr.
  assert (∀ x, x ∈ l1 ++ c' :: l2 → ∃ y, y ∈ l1 ++ c :: l2 ∧ label_of y = label_of x ∧
    nregex y = nregex x ∧
    (nType x = wildcardNode → is_Some (handler y) → is_Some (handler x))) as Hsim.
  { intros x. rewrite !elem_of_app, !elem_of_cons.
    intros [?|[->|?]]; [exists x|exists c|exists x];
      rewrite elem_of_app, elem_of_cons; auto 6.
    split; [auto|]. split; [done|]. split; [done|]. intros Hx _. apply Hw.
    unfold label_of in Hl. congruence. }
  assert (∀ x y, label_of x = label_of y → nType x = nType y ∧ paramName x = paramName y) as Hlab.
  { unfold label_of. intros; split; congruence. }
  split.
  - rewrite fmap_app, fmap_cons, Hl, <-fmap_cons, <-fmap_app. apply Hok.
  - intros x (y & Hy & Hxy & _)%Hsim Hx. destruct (Hlab _ _ Hxy) as [H1 H2]. rewrite <-H2.
    eapply ok_static; eauto. congruence.
  - intros x x' (y & Hy & Hxy & _)%Hsim (y' & Hy' & Hxy' & _)%Hsim Hd Hd'.
    rewrite <-Hxy, <-Hxy'. eapply ok_dynamic; eauto; unfold is_dynamic in *;
      destruct (Hlab _ _ Hxy), (Hlab _ _ Hxy'); intuition congruence.
  - intros x x' (y & Hy & Hxy & _)%Hsim (y' & Hy' & Hxy' & _)%Hsim Hd Hd'.
    rewrite <-Hxy, <-Hxy'. eapply ok_wildcard; eauto;
      destruct (Hlab _ _ Hxy), (Hlab _ _ Hxy'); congruence.
  - intros x (y & Hy & Hxy & _ & Hh)%Hsim Hx. apply Hh; [done|].
    eapply ok_handler; eauto. destruct (Hlab _ _ Hxy). congruence.
  - intros x (y & Hy & Hxy & Hrx & _)%Hsim Hx. rewrite <-Hrx.
    eapply ok_regex; eauto. destruct (Hlab _ _ Hxy). congruence.
Qed.

(** Appending a new child that conflicts with no sibling. *)
Lemma children_ok_append cs (nd c' : node) :
  children_ok cs →
  find_first (λ c, bool_decide (label_of c = label_of nd)) cs = None →
  find_first (λ c, isConflict c nd) cs = None →
  (nType nd = static → paramName nd = "") → (nType nd = regexNode → is_Some (nregex nd)) →
  label_of c' = label_of nd → nregex c' = nregex nd →
  (nType nd = wildcardNode → is_Some (handler c')) →
  children_ok (cs ++ [c']).
Proof.
  rewrite !find_first_None. intros Hok Hnew Hconf Hst Hre Hl Hr Hh.
  assert (nType c' = nType nd ∧ paramName c' = paramName nd) as [Ht Hp]
    by (unfold label_of in Hl; split; congruence).
  assert (∀ c, c ∈ cs → is_dynamic c → ¬ is_dynamic c') as Hdyn.
  { intros c Hc Hd Hd'. specialize (Hconf c Hc). unfold isConflict, is_dynamic in *.
    rewrite Ht in Hd'. by destruct Hd as [Hd|Hd], Hd' as [Hd'|Hd']; rewrite Hd, Hd' in Hconf. }
  assert (∀ c, c ∈ cs → nType c = wildcardNode → nType c' ≠ wildcardNode) as Hwild.
  { intros c Hc Hd Hd'. specialize (Hconf c Hc). unfold isConflict in *.
    rewrite Ht in Hd'. by rewrite Hd, Hd' in Hconf. }
  split.
  - rewrite fmap_app. apply NoDup_app. split; [apply Hok|]. split; [|apply NoDup_singleton].
    intros l [c [-> Hc]]%list_elem_of_fmap [Hin|Hin]%elem_of_cons;
      [|by apply elem_of_nil in Hin].
    specialize (Hnew c Hc). to_prop. congruence.
  - intros c [Hc|Hc%list_elem_of_singleton]%elem_of_app Hs; subst; [by eapply ok_static|].
    rewrite Hp. apply Hst. congruence.
  - intros c c2 [Hc|Hc%list_elem_of_singleton]%elem_of_app
      [Hc2|Hc2%list_elem_of_singleton]%elem_of_app Hd Hd2; subst; try done.
    + by eapply ok_dynamic.
    + by destruct (Hdyn c Hc).
    + by destruct (Hdyn c2 Hc2).
  - intros c c2 [Hc|Hc%list_elem_of_singleton]%elem_of_app
      [Hc2|Hc2%list_elem_of_singleton]%elem_of_app Hd Hd2; subst; try done.
    + by eapply ok_wildcard.
    + by destruct (Hwild c Hc).
    + by destruct (Hwild c2 Hc2).
  - intros c [Hc|Hc%list_elem_of_singleton]%elem_of_app Hw; subst; [by eapply ok_handler|].
    apply Hh. congruence.
  - intros c [Hc|Hc%list_elem_of_singleton]%elem_of_app Hw; subst; [by eapply ok_regex|].
    rewrite Hr. apply Hre. congruence.
Qed.

Lemma addSegments_regex segs n h : nregex (addSegments segs n h).1 = nregex n.
Proof. destruct segs as [|seg segs]; simpl; [done|]. by repeat case_match. Qed.

(** Registration preserves the invariant, however it ends. *)
Lemma addSegments_ok segs n h : node_ok n → node_ok (addSegments segs n (Some h)).1.
Proof.
  revert n. induction segs as [|seg rest IH]; intros n Hok; simpl.
  { constructor; simpl; [by apply node_ok_children|]. intros. by eapply node_ok_child. }
  destruct (parseSegment seg) as [nd|] eqn:Hp; [|done].
  destruct (parseSegment_leaf _ _ Hp) as [Hch Hhd].
  destruct (parseSegment_kind _ _ Hp) as [Hst Hre].
  set (D := λ child, if bool_decide (nType nd = wildcardNode) then (set_handler child (Some h), Added)
                     else addSegments rest child (Some h)).
  assert (∀ c, label_of (D c).1 = label_of c) as HDl by (intros; apply descend_label).
  assert (∀ c, nregex (D c).1 = nregex c) as HDr.
  { intros c. subst D. simpl. case_bool_decide; [done|]. apply addSegments_regex. }
  assert (∀ c, node_ok c → node_ok (D c).1) as HDok.
  { intros c Hc. subst D. simpl. case_bool_decide; simpl; [|by apply IH].
    constructor; simpl; [by apply node_ok_children|]. intros. by eapply node_ok_child. }
  assert (∀ c, nType nd = wildcardNode → is_Some (handler (D c).1)) as HDh.
  { intros c Hw. subst D. simpl. rewrite bool_decide_true by done. by eexists. }
  fold D. destruct (update_child _ _ _) as [[cs r]|] eqn:Hu; simpl.
  - apply update_child_Some in Hu as (l1 & c & l2 & c' & Hcs & _ & Hc & Hf & ->).
    rewrite sameNode_label in Hc; to_prop.
    assert (c' = (D c).1) as -> by (by rewrite Hf).
    constructor; simpl.
    + apply children_ok_replace with c; auto.
      * rewrite <-Hcs. by apply node_ok_children.
      * intros. apply HDh. unfold label_of in Hc. congruence.
    + intros x Hx. rewrite elem_of_app, elem_of_cons in Hx.
      destruct Hx as [?|[->|?]]; [|apply HDok|]; eapply node_ok_child; eauto;
        rewrite Hcs, elem_of_app, elem_of_cons; auto.
  - destruct (find_first _ _) eqn:Hfc; [done|].
    fold (D nd). destruct (D nd) as [child r] eqn:HDn. simpl.
    assert (child = (D nd).1) as -> by (by rewrite HDn).
    apply update_child_None in Hu. rewrite find_first_sameNode in Hu.
    constructor; simpl.
    + eapply children_ok_append with nd; eauto. by apply node_ok_children.
    + intros x [Hx|Hx%list_elem_of_singleton]%elem_of_app; [by eapply node_ok_child|].
      subst. by apply HDok, node_ok_leaf.
Qed.

(** A loop whose step acts on one child at most is a lookup of that child. *)
Lemma try_children_none t g cs ps :
  (∀ c, c ∈ cs → t c = false) →
  try_children (λ c ps, if t c then g c ps else (None, ps)) cs ps = (None, ps).
Proof.
  induction cs as [|c cs IH]; intros Ht; simpl; [done|].
  rewrite Ht by (by left). apply IH. intros. apply Ht. by right.
Qed.

Lemma try_children_unique t g cs ps :
  NoDup (label_of <$> cs) →
  (∀ c c', c ∈ cs → c' ∈ cs → t c = true → t c' = true → label_of c = label_of c') →
  try_children (λ c ps, if t c then g c ps else (None, ps)) cs ps =
  match find_first t cs with Some c => g c ps | None => (None, ps) end.
Proof.
  induction cs as [|c cs IH]; intros Hnd Ht; simpl; [done|].
  apply NoDup_cons in Hnd as [Hc Hnd].
  destruct (t c) eqn:Htc; [|apply IH; [done|]; intros; apply Ht; by try right].
  destruct (g c ps) as [[h|] ps']; [done|].
  apply try_children_none. intros c' Hc'. destruct (t c') eqn:Htc'; [|done].
  exfalso. apply Hc, list_elem_of_fmap. exists c'. split; [|done].
  apply Ht; auto; [by left|by right].
Qed.

(** The step [g] on the child a test selects. *)
Definition at_child (n : node) (t : node → bool)
    (g : node → list Param → option H * list Param) (ps : list Param)
    : option H * list Param :=
  match find_first t (children n) with Some c => g c ps | None => (None, ps) end.

Section Search.
Variables (n : node) (seg : string).
Hypothesis Hok : node_ok n.

Definition take_static (c : node) : bool := bool_decide (nType c = static) && bool_decide (part c = seg).
Definition take_regex (c : node) : bool := bool_decide (nType c = regexNode) && regex_matches c seg.
Definition take_param (c : node) : bool := bool_decide (nType c = paramNode).
Definition take_wildcard (c : node) : bool := bool_decide (nType c = wildcardNode).

Lemma take_static_unique c c' :
  c ∈ children n → c' ∈ children n → take_static c = true → take_static c' = true →
  label_of c = label_of c'.
Proof.
  unfold take_static. intros Hc Hc' H1 H2. to_prop.
  pose proof (node_ok_children _ Hok) as Hcs. unfold label_of.
  rewrite (ok_static _ Hcs c), (ok_static _ Hcs c') by done. congruence.
Qed.

Lemma take_regex_unique c c' :
  c ∈ children n → c' ∈ children n → take_regex c = true → take_regex c' = true →
  label_of c = label_of c'.
Proof.
  unfold take_regex. intros Hc Hc' H1 H2. to_prop.
  apply (ok_dynamic _ (node_ok_children _ Hok)); auto; by right.
Qed.

Lemma take_param_unique c c' :
  c ∈ children n → c' ∈ children n → take_param c = true → take_param c' = true →
  label_of c = label_of c'.
Proof.
  unfold take_param. intros Hc Hc' H1 H2. to_prop.
  apply (ok_dynamic _ (node_ok_children _ Hok)); auto; by left.
Qed.

(** The four loops of one level of the search, each as a lookup. *)
Definition wild_step (rest : list string) (c : node) (ps : list Param) : option H * list Param :=
  (handler c, ps ++ [mkParam (paramName c) (Join "/" (seg :: rest))]).

Lemma search_level rest ps :
  search (seg :: rest) n ps =
  let else_ (r : option H * list Param) (k : list Param → option H * list Param) :=
    match r with (Some h, ps) => (Some h, ps) | (None, ps) => k ps end in
  else_ (at_child n take_static (search rest) ps) (λ ps,
  else_ (at_child n take_regex (λ c, with_param (search rest) c seg) ps) (λ ps,
  else_ (at_child n take_param (λ c, with_param (search rest) c seg) ps)
    (at_child n take_wildcard (wild_step rest)))).
Proof.
  pose proof (ok_labels _ (node_ok_children _ Hok)) as Hnd.
  pose proof (try_children_unique take_static (search rest) (children n) ps Hnd
    take_static_unique) as E1.
  pose proof (λ ps, try_children_unique take_regex (λ c, with_param (search rest) c seg)
    (children n) ps Hnd take_regex_unique) as E2.
  pose proof (λ ps, try_children_unique take_param (λ c, with_param (search rest) c seg)
    (children n) ps Hnd take_param_unique) as E3.
  fold (at_child n take_static (search rest) ps) in E1.
  unfold take_static, take_regex, take_param in *.
  cbn [search]. rewrite E1. cbv zeta.
  destruct (at_child n _ (search rest) ps) as [[h|] ps1]; [done|].
  rewrite E2. unfold at_child.
  destruct (match find_first _ _ with Some _ => _ | None => _ end) as [[h|] ps2]; [done|].
  rewrite E3.
  by destruct (match find_first _ _ with Some _ => _ | None => _ end) as [[h|] ps3].
Qed.
End Search.

(** What the search does below [n]: it succeeds with a most preferred route, or
    it fails, there is no route, and the bindings are as before. *)
Definition search_spec (n : node) (segs : list string) (ps : list Param)
    (res : option H * list Param) : Prop :=
  match res with
  | (Some h, ps') => ∃ b r, ps' = ps ++ b ∧ route n segs b r h ∧
      ∀ b' r' h', route n segs b' r' h' → prefers r r'
  | (None, ps') => ps' = ps ∧ ∀ b r h, ¬ route n segs b r h
  end.

Lemma with_param_spec c rest seg ps :
  (∀ ps, search_spec c rest ps (search rest c ps)) →
  match with_param (search rest) c seg ps with
  | (Some h, ps') => ∃ b r, ps' = ps ++ mkParam (paramName c) seg :: b ∧ route c rest b r h ∧
      ∀ b' r' h', route c rest b' r' h' → prefers r r'
  | (None, ps') => ps' = ps ∧ ∀ b r h, ¬ route c rest b r h
  end.
Proof.
  intros Hs. unfold with_param. specialize (Hs (ps ++ [mkParam (paramName c) seg])).
  destruct (search rest c _) as [[h|] ps']; simpl in *.
  - destruct Hs as (b & r & -> & Hr & Hb). exists b, r. by rewrite <-app_assoc.
  - destruct Hs as [-> Hno]. rewrite removelast_last. done.
Qed.

(** The child a test selects is the only one that passes it. *)
Lemma find_first_unique t (n c c' : node) :
  node_ok n →
  (∀ c c', c ∈ children n → c' ∈ children n → t c = true → t c' = true →
    label_of c = label_of c') →
  find_first t (children n) = Some c → c' ∈ children n → t c' = true → c' = c.
Proof.
  intros Hok Ht [Hc Htc]%find_first_Some Hc' Htc'.
  eapply NoDup_fmap_inj; [apply ok_labels, node_ok_children, Hok|..]; eauto.
Qed.

(** One loop of the search: the best route whose first step is of kind [k]. *)
Definition level_spec (n : node) (segs : list string) (ps : list Param) (k : nat)
    (res : option H * list Param) : Prop :=
  match res with
  | (Some h, ps') => ∃ b r, ps' = ps ++ b ∧ route n segs b (k :: r) h ∧
      ∀ b' r' h', route n segs b' (k :: r') h' → prefers r r'
  | (None, ps') => ps' = ps ∧ ∀ b r h, ¬ route n segs b (k :: r) h
  end.

Lemma route_inv0 n seg rest b r h :
  route n (seg :: rest) b (0 :: r) h →
  ∃ c, c ∈ children n ∧ take_static seg c = true ∧ route c rest b r h.
Proof.
  inversion 1; subst; try done. eexists. split_and!; eauto.
  unfold take_static. by rewrite !bool_decide_true.
Qed.

Lemma route_inv1 n seg rest b r h :
  route n (seg :: rest) b (1 :: r) h →
  ∃ c b', c ∈ children n ∧ take_regex seg c = true ∧ b = mkParam (paramName c) seg :: b' ∧
    route c rest b' r h.
Proof.
  inversion 1; subst; try done. do 2 eexists. split_and!; eauto.
  unfold take_regex. by rewrite bool_decide_true.
Qed.

Lemma route_inv2 n seg rest b r h :
  route n (seg :: rest) b (2 :: r) h →
  ∃ c b', c ∈ children n ∧ take_param c = true ∧ b = mkParam (paramName c) seg :: b' ∧
    route c rest b' r h.
Proof.
  inversion 1; subst; try done. do 2 eexists. split_and!; eauto.
  unfold take_param. by rewrite bool_decide_true.
Qed.

Lemma route_inv3 n segs b r h :
  route n segs b (3 :: r) h → r = [] ∧ ∃ c, c ∈ children n ∧ take_wildcard c = true.
Proof.
  inversion 1; subst; try done. split; [done|]. eexists. split_and!; eauto.
  unfold take_wildcard. by rewrite bool_decide_true.
Qed.

Section Levels.
Variables (n : node) (seg : string) (rest : list string).
Hypothesis Hok : node_ok n.
Hypothesis IH : ∀ c ps, node_ok c → search_spec c rest ps (search rest c ps).

Lemma static_level ps :
  level_spec n (seg :: rest) ps 0
    (at_child n (take_static seg) (search rest) ps).
Proof.
  unfold at_child.
  destruct (find_first _ _) as [c|] eqn:F.
  - pose proof (find_first_Some _ _ _ F) as [Hc Htc].
    pose proof (λ c', find_first_unique _ n c c' Hok (take_static_unique n seg Hok) F) as Hu.
    unfold take_static in Htc. to_prop.
    pose proof (IH c ps (node_ok_child _ _ Hok Hc)) as S.
    destruct (search rest c ps) as [[h|] ps']; simpl in *.
    + destruct S as (b & r & -> & Hr & Hb). exists b, r.
      split; [done|]. split; [by econstructor|].
      intros b' r' h' (c' & Hc' & Ht & Hr')%route_inv0. apply Hu in Ht as ->; eauto.
    + destruct S as [-> Hno]. split; [done|].
      intros b r h (c' & Hc' & Ht & Hr)%route_inv0. apply Hu in Ht as ->; [|done].
      by eapply Hno.
  - split; [done|]. intros b r h (c' & Hc' & Ht & Hr)%route_inv0.
    by rewrite (proj1 (find_first_None _ _) F c' Hc') in Ht.
Qed.

Lemma regex_level ps :
  level_spec n (seg :: rest) ps 1
    (at_child n (take_regex seg) (λ c, with_param (search rest) c seg) ps).
Proof.
  unfold at_child.
  destruct (find_first _ _) as [c|] eqn:F.
  - pose proof (find_first_Some _ _ _ F) as [Hc Htc].
    pose proof (λ c', find_first_unique _ n c c' Hok (take_regex_unique n seg Hok) F) as Hu.
    unfold take_regex in Htc. to_prop.
    pose proof (with_param_spec c rest seg ps (λ ps, IH c ps (node_ok_child _ _ Hok Hc))) as S.
    destruct (with_param _ c seg ps) as [[h|] ps']; simpl in *.
    + destruct S as (b & r & -> & Hr & Hb). eexists _, r.
      split; [done|]. split; [by econstructor|].
      intros b' r' h' (c' & b1 & Hc' & Ht & -> & Hr')%route_inv1. apply Hu in Ht as ->; eauto.
    + destruct S as [-> Hno]. split; [done|].
      intros b r h (c' & b1 & Hc' & Ht & -> & Hr)%route_inv1. apply Hu in Ht as ->; [|done].
      by eapply Hno.
  - split; [done|]. intros b r h (c' & b1 & Hc' & Ht & -> & Hr)%route_inv1.
    by rewrite (proj1 (find_first_None _ _) F c' Hc') in Ht.
Qed.

Lemma param_level ps :
  level_spec n (seg :: rest) ps 2
    (at_child n take_param (λ c, with_param (search rest) c seg) ps).
Proof.
  unfold at_child.
  destruct (find_first _ _) as [c|] eqn:F.
  - pose proof (find_first_Some _ _ _ F) as [Hc Htc].
    pose proof (λ c', find_first_unique _ n c c' Hok (take_param_unique n Hok) F) as Hu.
    unfold take_param in Htc. to_prop.
    pose proof (with_param_spec c rest seg ps (λ ps, IH c ps (node_ok_child _ _ Hok Hc))) as S.
    destruct (with_param _ c seg ps) as [[h|] ps']; simpl in *.
    + destruct S as (b & r & -> & Hr & Hb). eexists _, r.
      split; [done|]. split; [by econstructor|].
      intros b' r' h' (c' & b1 & Hc' & Ht & -> & Hr')%route_inv2. apply Hu in Ht as ->; eauto.
    + destruct S as [-> Hno]. split; [done|].
      intros b r h (c' & b1 & Hc' & Ht & -> & Hr)%route_inv2. apply Hu in Ht as ->; [|done].
      by eapply Hno.
  - split; [done|]. intros b r h (c' & b1 & Hc' & Ht & -> & Hr)%route_inv2.
    by rewrite (proj1 (find_first_None _ _) F c' Hc') in Ht.
Qed.

Lemma wildcard_level ps :
  level_spec n (seg :: rest) ps 3
    (at_child n take_wildcard (wild_step seg rest) ps).
Proof.
  unfold at_child, wild_step.
  destruct (find_first _ _) as [c|] eqn:F.
  - pose proof (find_first_Some _ _ _ F) as [Hc Htc].
    unfold take_wildcard in Htc. to_prop.
    destruct (ok_handler _ (node_ok_children _ Hok) c Hc Htc) as [h Hh]. rewrite Hh.
    exists [mkParam (paramName c) (Join "/" (seg :: rest))], [].
    split; [done|]. split; [by econstructor|]. done.
  - split; [done|]. intros b r h [_ (c' & Hc' & Ht)]%route_inv3.
    by rewrite (proj1 (find_first_None _ _) F c' Hc') in Ht.
Qed.
End Levels.

(** A route takes at least one step of one of the four kinds per level. *)
Lemma route_kind n seg rest b r h :
  route n (seg :: rest) b r h → ∃ k r', r = k :: r' ∧ k < 4.
Proof. inversion 1; subst; eauto with lia. Qed.

Lemma search_correct segs n ps : node_ok n → search_spec n segs ps (search segs n ps).
Proof.
  revert n ps. induction segs as [|seg rest IH]; intros n ps Hok.
  { simpl. destruct (handler n) as [h|] eqn:Hh.
    - exists [], []. rewrite app_nil_r. split; [done|]. split; [by constructor|]. done.
    - split; [done|]. intros b r h Hr. inversion Hr; simplify_eq. }
  rewrite (search_level n seg Hok). cbv zeta.
  assert (∀ k r1, k < 4 → (∀ k' b r' h', k' < k → ¬ route n (seg :: rest) b (k' :: r') h') →
    (∀ b r' h', route n (seg :: rest) b (k :: r') h' → prefers r1 r') →
    ∀ b r' h', route n (seg :: rest) b r' h' → prefers (k :: r1) r') as Hcomb.
  { intros k r1 Hk Hlow Hsame b r' h' Hr. destruct (route_kind _ _ _ _ _ _ Hr) as (k' & r2 & -> & ?).
    destruct (decide (k' < k)); [by edestruct Hlow|].
    destruct (decide (k = k')); subst; simpl; eauto with lia. }
  pose proof (static_level n seg rest Hok IH ps) as L0.
  destruct (at_child n (take_static seg) _ _) as [[h|] ps0]; simpl in *.
  { destruct L0 as (b & r & ? & Hr & Hb). exists b, (0 :: r). split_and!; [done|done|].
    apply Hcomb; auto with lia. }
  destruct L0 as [-> N0]. pose proof (regex_level n seg rest Hok IH ps) as L1.
  destruct (at_child n (take_regex seg) _ _) as [[h|] ps1]; simpl in *.
  { destruct L1 as (b & r & ? & Hr & Hb). exists b, (1 :: r). split_and!; [done|done|].
    apply Hcomb; auto with lia. intros [|k'] * ?; [apply N0|lia]. }
  destruct L1 as [-> N1]. pose proof (param_level n seg rest Hok IH ps) as L2.
  destruct (at_child n take_param _ _) as [[h|] ps2]; simpl in *.
  { destruct L2 as (b & r & ? & Hr & Hb). exists b, (2 :: r). split_and!; [done|done|].
    apply Hcomb; auto with lia. intros [|[|k']] * ?; [apply N0|apply N1|lia]. }
  destruct L2 as [-> N2]. pose proof (wildcard_level n seg rest Hok ps) as L3.
  destruct (at_child n take_wildcard _ _) as [[h|] ps3]; simpl in *.
  { destruct L3 as (b & r & ? & Hr & Hb). exists b, (3 :: r). split_and!; [done|done|].
    apply Hcomb; auto with lia. intros [|[|[|k']]] * ?; [apply N0|apply N1|apply N2|lia]. }
  destruct L3 as [-> N3]. split; [done|]. intros b r h Hr.
  destruct (route_kind _ _ _ _ _ _ Hr) as ([|[|[|[|k]]]] & r2 & -> & ?);
    [by eapply N0|by eapply N1|by eapply N2|by eapply N3|lia].
Qed.

(** ** Paths *)

(** The segments a path is looked up (or registered) under. *)
Definition segments (p : string) : list string := splitPath (cleanPath p).

Lemma splitPath_rooted cs :
  Forall safe_comp cs → splitPath ("/" +:+ Join "/" cs) = cs.
Proof.
  intros Hcs. destruct cs as [|c cs]; [done|].
  assert (Forall (λ w, word slash w ∧ w ≠ "") (c :: cs)) as Hw.
  { eapply Forall_impl; [exact Hcs|]. by intros x (? & ? & _). }
  destruct (TrimRight_Join slash (c :: cs)) as [HR Hne]; [done|done|].
  pose proof (TrimLeft_Join slash _ Hw) as HL.
  change (String slash "") with "/" in *.
  assert (Trim slash ("/" +:+ Join "/" (c :: cs)) = Join "/" (c :: cs)) as HT.
  { unfold Trim. change ("/" +:+ Join "/" (c :: cs)) with (String slash (Join "/" (c :: cs))).
    cbn [TrimLeft]. rewrite bool_decide_true by done. by rewrite HL. }
  unfold splitPath. rewrite bool_decide_false.
  - rewrite HT. rewrite bool_decide_false by done.
    apply Split_Join; [done|]. eapply Forall_impl; [exact Hw|]. by intros x [? _].
  - intros Heq. rewrite Heq in HT. apply Hne. by rewrite <-HT.
Qed.

Lemma segments_eq p : segments p = clean_comps true [] (Split slash p).
Proof.
  unfold segments, cleanPath. case_bool_decide as Hp; [by subst|].
  assert (∀ s, splitPath (Clean (String slash s)) = clean_comps true [] (Split slash s)) as Hr.
  { intros s. rewrite Clean_rooted. apply splitPath_rooted, clean_comps_safe; [done|].
    apply Split_all_words. }
  destruct (HasPrefix p "/") eqn:E; simpl.
  - apply HasPrefix_spec in E as [s ->]. change ("/" +:+ s) with (String slash s).
    rewrite Hr. done.
  - apply Hr.
Qed.

(** ** The tree as a whole *)

Definition tree_ok (t : Tree) : Prop := map_Forall (λ _ n, node_ok n) (roots t).

Lemma NewTree_ok : tree_ok NewTree.
Proof. apply map_Forall_empty. Qed.

Lemma AddRoute_ok t method path h : tree_ok t → tree_ok (AddRoute t method path (Some h)).1.
Proof.
  intros Ht. unfold AddRoute.
  destruct (addSegments _ _ _) as [root r] eqn:E. simpl.
  apply map_Forall_insert_2; [|done].
  replace root with (addSegments (splitPath (cleanPath path))
    (default empty_node (roots t !! method)) (Some h)).1 by (by rewrite E).
  apply addSegments_ok. destruct (roots t !! method) eqn:Hm; simpl.
  - by eapply Ht.
  - by apply node_ok_leaf.
Qed.

(** The trees an application builds: registrations from the empty tree on. *)
Definition register (regs : list (string * string * H)) : Tree :=
  foldl (λ t '(method, path, h), (AddRoute t method path (Some h)).1) NewTree regs.

Lemma register_ok regs : tree_ok (register regs).
Proof.
  unfold register. generalize NewTree_ok. generalize NewTree.
  induction regs as [|[[m p] h] regs IH]; intros t Ht; simpl; [done|].
  by apply IH, AddRoute_ok.
Qed.

(** The handler registered for a method under a pattern. *)
Definition lookup_table (t : Tree) (method : string) (pat : list label) : option H :=
  roots t !! method ≫= lookup_pat pat.

Lemma lookup_table_default t method pat :
  lookup_table t method pat = lookup_pat pat (default empty_node (roots t !! method)).
Proof.
  unfold lookup_table. destruct (roots t !! method); simpl; [done|]. by destruct pat.
Qed.


(** A registration that is not refused updates the table of registered patterns
    at exactly the registered method and pattern: a lookup of that pattern gives
    the new handler and every other entry is as before. *)
Theorem AddRoute_updates t method path h t' :
  AddRoute t method path h = (t', Added) →
  ∃ pat, pattern_of (segments path) = Ret pat ∧
    ∀ method' pat', lookup_table t' method' pat' =
      if bool_decide (method' = method) && bool_decide (pat' = pat) then h
      else lookup_table t method' pat'.
Proof.
  unfold AddRoute. destruct (addSegments _ _ _) as [root r] eqn:E. intros; simplify_eq.
  apply addSegments_lookup in E as (pat & Hpat & Hlook). exists pat. split; [done|].
  intros method' pat'. case_bool_decide; subst; simpl.
  - unfold lookup_table at 1. simpl. rewrite lookup_insert_eq. simpl.
    by rewrite Hlook, lookup_table_default.
  - unfold lookup_table. simpl. by rewrite lookup_insert_ne by done.
Qed.

(** A registration refused for a conflict changes nothing, and one that panics on
    a malformed segment adds or removes no handler. *)
Theorem AddRoute_failure t method path h t' res :
  AddRoute t method path h = (t', res) →
  match res with
  | Added => True
  | RouteConflict _ _ => t' = t
  | AddPanic _ => ∀ method' pat', lookup_table t' method' pat' = lookup_table t method' pat'
  end.
Proof.
  unfold AddRoute. destruct (addSegments _ _ _) as [root r] eqn:E. intros; simplify_eq.
  destruct res as [|sg ex|m]; [done|..].
  - pose proof (addSegments_conflict _ _ _ _ _ _ E) as ->.
    destruct (roots t !! method) as [root|] eqn:Hm; simpl in *.
    + destruct t. simpl in *. by rewrite insert_id.
    + exfalso. by eapply addSegments_leaf_no_conflict in E.
  - intros method' pat'. rewrite !lookup_table_default. simpl.
    destruct (decide (method' = method)) as [->|].
    + rewrite lookup_insert_eq. simpl. by apply addSegments_panic with (pat := pat') in E.
    + by rewrite lookup_insert_ne by done.
Qed.

(** Routing ignores a trailing slash: a path and the path with a slash appended
    are looked up alike. *)
Theorem FindRoute_trailing_slash t method path :
  FindRoute t method (path +:+ "/") = FindRoute t method path.
Proof.
  unfold FindRoute, findRouteInRoot. fold (segments path) (segments (path +:+ "/")).
  rewrite !segments_eq. change "/" with (String slash "").
  by rewrite Split_app_sep, clean_comps_trailing_empty.
Qed.

(** No segment of a request path that reaches the matcher, and so no parameter
    value, is empty, contains a slash, or is a dot segment: path traversal is
    removed before routing. *)
Theorem request_segments_safe path : Forall safe_comp (segments path).
Proof.
  rewrite segments_eq. apply clean_comps_safe; [done|]. apply Split_all_words.
Qed.

End Tree.

Arguments node {_} H.
Arguments Tree {_} H.

(** ** Witnesses and observed behaviours *)

Section Observed.
Context {RE : RegexpEngine} {H : Type}.

Lemma segments_single s : safe_comp s → segments ("/" +:+ s) = [s].
Proof.
  intros Hs. rewrite segments_eq. change ("/" +:+ s) with (String slash s).
  cbn [Split]. rewrite bool_decide_true by done.
  rewrite Split_word by apply Hs. cbn [clean_comps].
  rewrite !bool_decide_true by done. cbn [orb].
  destruct Hs as (_ & H0 & H1 & H2).
  by rewrite !bool_decide_false by done.
Qed.

(** Two routes whose parameter has the same name and different regular
    expressions are one node of the trie: the second registration replaces the
    first handler but keeps the first expression, so the second handler answers
    the paths of the first pattern and the paths of the second are not found. *)
Theorem regexp_of_second_route_ignored (h1 h2 : H) re1 re2 s :
  Compile "^[0-9]+$" = Some re1 → Compile "^[a-z]+$" = Some re2 → safe_comp s →
  FindRoute (register [("GET", "/{id:[0-9]+}", h1); ("GET", "/{id:[a-z]+}", h2)])
    "GET" ("/" +:+ s) =
  if MatchString re1 s then (Some h2, [mkParam "id" s]) else (None, []).
Proof.
  intros H1 H2 Hs.
  assert (parseSegment (H:=H) "{id:[0-9]+}" = Ret (Node "" regexNode "id" (Some re1) [] None)) as P1.
  { transitivity (match Compile "^[0-9]+$" with
      | Some re => Ret (Node (H:=H) "" regexNode "id" (Some re) [] None)
      | None => Ret (Node "" paramNode "id" None [] None) end); [reflexivity|by rewrite H1]. }
  assert (parseSegment (H:=H) "{id:[a-z]+}" = Ret (Node "" regexNode "id" (Some re2) [] None)) as P2.
  { transitivity (match Compile "^[a-z]+$" with
      | Some re => Ret (Node (H:=H) "" regexNode "id" (Some re) [] None)
      | None => Ret (Node "" paramNode "id" None [] None) end); [reflexivity|by rewrite H2]. }
  assert (∀ h, AddRoute (@NewTree RE H) "GET" "/{id:[0-9]+}" (Some h) =
    (mkTree {["GET" := set_children empty_node [Node "" regexNode "id" (Some re1) [] (Some h)]]},
     Added)) as E1.
  { intros h. unfold AddRoute. cbn [roots NewTree].
    change (splitPath (cleanPath "/{id:[0-9]+}")) with ["{id:[0-9]+}"].
    cbn [addSegments]. by rewrite P1. }
  assert (AddRoute (mkTree {["GET" :=
      set_children empty_node [Node "" regexNode "id" (Some re1) [] (Some h1)]]})
      "GET" "/{id:[a-z]+}" (Some h2) =
    (mkTree {["GET" := set_children empty_node [Node "" regexNode "id" (Some re1) [] (Some h2)]]},
     Added)) as E2.
  { unfold AddRoute. cbn [roots]. rewrite lookup_singleton_eq.
    change (splitPath (cleanPath "/{id:[a-z]+}")) with ["{id:[a-z]+}"].
    cbn [addSegments]. by rewrite P2. }
  unfold register. cbn [foldl]. rewrite E1. cbn [fst]. rewrite E2. cbn [fst].
  unfold FindRoute, findRouteInRoot. cbn [roots]. rewrite lookup_singleton_eq.
  fold (segments ("/" +:+ s)). rewrite segments_single by done.
  cbn -[MatchString]. by destruct (MatchString re1 s).
Qed.
End Observed.

(** A regexp engine for two patterns, to evaluate the model. *)
#[local] Instance demo_engine : RegexpEngine := {|
  regex := string → bool;
  Compile p :=
    if bool_decide (p = "^[0-9]+$") then Some (λ s, negb (bool_decide (s = "")) && str_all is_digit s)
    else if bool_decide (p = "^[a-z]+$") then Some (λ s, negb (bool_decide (s = "")) && str_all is_lower s)
    else None;
  MatchString re s := re s;
|}.

Lemma regexp_of_second_route_ignored_witness :
  safe_comp "abc" ∧
  FindRoute (register [("GET", "/{id:[0-9]+}", 1); ("GET", "/{id:[a-z]+}", 2)]) "GET" "/abc"
  = (None, []).
Proof.
  assert (safe_comp "abc") as Hs by (by repeat split).
  split; [done|].
  exact (regexp_of_second_route_ignored 1 2 _ _ "abc" eq_refl eq_refl Hs).
Defined.

Lemma AddRoute_updates_witness :
  ∃ pat, pattern_of (H:=nat) (segments "/user/{id}/") = Ret pat ∧
    ∀ method' pat', lookup_table
      (AddRoute (register [("GET", "/user/new", 1)]) "GET" "/user/{id}/" (Some 2)).1 method' pat' =
      if bool_decide (method' = "GET") && bool_decide (pat' = pat) then Some 2
      else lookup_table (register [("GET", "/user/new", 1)]) method' pat'.
Proof. eapply AddRoute_updates. reflexivity. Defined.

Lemma AddRoute_failure_witness :
  (AddRoute (register [("GET", "/{path:*}", 1)]) "GET" "/{id}" (Some 2)).1 =
  register [("GET", "/{path:*}", 1)] ∧
  (AddRoute (@NewTree _ nat) "GET" "/{" (Some 2)).2 = AddPanic "slice bounds out of range [1:0]".
Proof.
  split; [|reflexivity].
  refine (AddRoute_failure (register [("GET", "/{path:*}", 1)]) "GET" "/{id}" (Some 2) _
    (RouteConflict "{id}" "") _).
  reflexivity.
Defined.

Example search_backtracks :
  FindRoute (register [("GET", "/a/b", 1); ("GET", "/{x}/c", 2); ("GET", "/{x}/{rest:*}", 3)])
    "GET" "/a/c" = (Some 2, [mkParam "x" "a"]).
Proof. reflexivity. Qed.

Example static_wins :
  FindRoute (register [("GET", "/{id:[0-9]+}", 1); ("GET", "/7", 2)]) "GET" "/7/" = (Some 2, []).
Proof. reflexivity. Qed.
