(* ===== verification/Base64.v ===== *)
(** * base64url without padding

    What the framework uses of [encoding/base64]: [RawURLEncoding].  The decoder
    skips carriage returns and line feeds, rejects every other byte outside the
    alphabet and a trailing group of one character, and ignores unused low bits. *)

From S2P Require Import Prelude GoStrings Util.
From Stdlib Require Import Ascii.

Definition alphabet (n : N) : ascii :=
  if (n <? 26)%N then ascii_of_N (n + 65)
  else if (n <? 52)%N then ascii_of_N (n - 26 + 97)
  else if (n <? 62)%N then ascii_of_N (n - 52 + 48)
  else if (n =? 62)%N then "-"%char else "_"%char.

Definition digit_of (a : ascii) : option N :=
  let n := N_of_ascii a in
  if is_upper a then Some (n - 65)%N
  else if is_lower a then Some (n - 97 + 26)%N
  else if is_digit a then Some (n - 48 + 52)%N
  else if bool_decide (a = "-"%char) then Some 62%N
  else if bool_decide (a = "_"%char) then Some 63%N
  else None.

(** The six-bit groups of a byte string. *)
Fixpoint encode_groups (s : string) : list N :=
  match s with
  | "" => []
  | String a "" => let x := N_of_ascii a in [x / 4; x mod 4 * 16]%N
  | String a (String b "") =>
      let x := N_of_ascii a in let y := N_of_ascii b in
      [x / 4; x mod 4 * 16 + y / 16; y mod 16 * 4]%N
  | String a (String b (String c s')) =>
      let x := N_of_ascii a in let y := N_of_ascii b in let z := N_of_ascii c in
      ((x / 4) :: (x mod 4 * 16 + y / 16) :: (y mod 16 * 4 + z / 64) :: (z mod 64) :: encode_groups s')%N
  end.

Definition EncodeToString (s : string) : string :=
  String.string_of_list_ascii (alphabet <$> encode_groups s).

(** The padded encodings, standard and URL-safe: three bytes to four characters,
    the last group filled with [=]. *)
Definition std_alphabet (n : N) : ascii :=
  if (n =? 62)%N then "+"%char else if (n =? 63)%N then "/"%char else alphabet n.

Definition padding (n : nat) : string :=
  match n mod 4 with 2 => "==" | 3 => "=" | _ => "" end.

Definition encode_padded (alpha : N → ascii) (s : string) : string :=
  let gs := encode_groups s in
  String.string_of_list_ascii (alpha <$> gs) +:+ padding (length gs).

Definition StdEncoding : string → string := encode_padded std_alphabet.
Definition URLEncoding : string → string := encode_padded alphabet.

(** The bytes of a list of six-bit groups. *)
Fixpoint decode_groups (l : list N) : option (list N) :=
  match l with
  | [] => Some []
  | [_] => None
  | [x; y] => Some [x * 4 + y / 16]%N
  | [x; y; z] => Some [x * 4 + y / 16; y mod 16 * 16 + z / 4]%N
  | x :: y :: z :: t :: l' =>
      r ← decode_groups l';
      Some ((x * 4 + y / 16) :: (y mod 16 * 16 + z / 4) :: (z mod 4 * 64 + t) :: r)%N
  end.

Definition is_newline (a : ascii) : bool := bool_decide (a ∈ ["010"; "013"]%char).

Definition DecodeString (s : string) : option string :=
  let l := filter (λ a, is_newline a = false) (String.list_ascii_of_string s) in
  ds ← mapM digit_of l;
  bs ← decode_groups ds;
  Some (String.string_of_list_ascii (ascii_of_N <$> bs)).

(** ** Round trip *)

Lemma digit_of_alphabet n : (n < 64)%N → digit_of (alphabet n) = Some n ∧ is_newline (alphabet n) = false.
Proof.
  intros Hn. assert (Forall (λ m, digit_of (alphabet m) = Some m ∧ is_newline (alphabet m) = false)
    (N.of_nat <$> seq 0 64)) as Hall.
  { apply (bool_decide_unpack _). vm_compute. exact I. }
  rewrite Forall_forall in Hall. apply Hall. apply list_elem_of_fmap.
  exists (N.to_nat n). split; [lia|]. apply elem_of_seq. lia.
Qed.

Lemma encode_groups_range s : Forall (λ n, n < 64)%N (encode_groups s).
Proof.
  remember (String.length s) as k eqn:Hk. revert s Hk.
  induction (lt_wf k) as [k _ IH]; intros s ->.
  destruct s as [|a [|b [|c s]]]; cbn [encode_groups].
  - constructor.
  - pose proof (N_ascii_bounded a). repeat constructor.
    + apply N.Div0.div_lt_upper_bound; lia.
    + pose proof (N.mod_lt (N_of_ascii a) 4). lia.
  - pose proof (N_ascii_bounded a). pose proof (N_ascii_bounded b).
    pose proof (N.mod_lt (N_of_ascii a) 4). pose proof (N.mod_lt (N_of_ascii b) 16).
    assert (N_of_ascii b / 16 < 16)%N by (apply N.Div0.div_lt_upper_bound; lia).
    repeat constructor; try lia. apply N.Div0.div_lt_upper_bound; lia.
  - pose proof (N_ascii_bounded a). pose proof (N_ascii_bounded b). pose proof (N_ascii_bounded c).
    pose proof (N.mod_lt (N_of_ascii a) 4). pose proof (N.mod_lt (N_of_ascii b) 16).
    pose proof (N.mod_lt (N_of_ascii c) 64).
    assert (N_of_ascii b / 16 < 16)%N by (apply N.Div0.div_lt_upper_bound; lia).
    assert (N_of_ascii c / 64 < 4)%N by (apply N.Div0.div_lt_upper_bound; lia).
    constructor; [apply N.Div0.div_lt_upper_bound; lia|].
    constructor; [lia|]. constructor; [lia|]. constructor; [lia|].
    eapply IH; [|done]. simpl. lia.
Qed.

(** Rejoining two fields of a byte. *)
Lemma rejoin (x m : N) : m ≠ 0%N → (x / m * m + x mod m)%N = x.
Proof. intros. rewrite N.mul_comm. symmetry. by apply N.div_mod. Qed.

Lemma field_div x y m : (y < m)%N → ((x * m + y) / m)%N = x.
Proof. intros. rewrite N.div_add_l by lia. rewrite N.div_small by done. lia. Qed.
Lemma field_mod x y m : (y < m)%N → ((x * m + y) mod m)%N = y.
Proof. intros. rewrite N.add_comm, N.Div0.mod_add. by apply N.mod_small. Qed.

Lemma decode_encode_groups s :
  decode_groups (encode_groups s) = Some (N_of_ascii <$> String.list_ascii_of_string s).
Proof.
  remember (String.length s) as k eqn:Hk. revert s Hk.
  induction (lt_wf k) as [k _ IH]; intros s ->.
  destruct s as [|a [|b [|c s]]]; cbn [encode_groups decode_groups].
  - done.
  - rewrite N.div_mul by done. rewrite rejoin by done. done.
  - pose proof (N_ascii_bounded b).
    assert (N_of_ascii b / 16 < 16)%N by (apply N.Div0.div_lt_upper_bound; lia).
    rewrite field_div, field_mod by done. rewrite N.div_mul by done. rewrite !rejoin by done. done.
  - pose proof (N_ascii_bounded b). pose proof (N_ascii_bounded c).
    assert (N_of_ascii b / 16 < 16)%N by (apply N.Div0.div_lt_upper_bound; lia).
    assert (N_of_ascii c / 64 < 4)%N by (apply N.Div0.div_lt_upper_bound; lia).
    rewrite (IH (String.length s)) by (simpl; lia || done).
    rewrite !field_div, !field_mod by done. rewrite !rejoin by done. done.
Qed.

(** Decoding what was encoded gives back the bytes. *)
Lemma DecodeString_EncodeToString s : DecodeString (EncodeToString s) = Some s.
Proof.
  unfold DecodeString, EncodeToString. rewrite String.list_ascii_of_string_of_list_ascii.
  pose proof (encode_groups_range s) as Hr.
  assert (filter (λ a, is_newline a = false) (alphabet <$> encode_groups s) = alphabet <$> encode_groups s) as ->.
  { induction Hr as [|n l Hn Hr IH]; [done|]. rewrite fmap_cons, filter_cons_True, IH; [done|].
    by apply digit_of_alphabet. }
  assert (mapM digit_of (alphabet <$> encode_groups s) = Some (encode_groups s)) as ->.
  { apply mapM_Some. induction Hr as [|n l Hn Hr IH]; constructor; [|done]. by apply digit_of_alphabet. }
  simpl. rewrite decode_encode_groups. simpl. f_equal.
  rewrite <-list_fmap_compose. unfold compose.
  rewrite (list_fmap_ext _ id) by (intros; apply ascii_N_embedding).
  by rewrite list_fmap_id, String.string_of_list_ascii_of_string.
Qed.

Lemma EncodeToString_not_empty s : s ≠ "" → EncodeToString s ≠ "".
Proof. destruct s as [|a [|b [|c s]]]; done. Qed.

(** A non-empty byte string is longer encoded than not. *)
Lemma encode_groups_length s : s ≠ "" → String.length s < length (encode_groups s).
Proof.
  remember (String.length s) as k eqn:Hk. revert s Hk.
  induction (lt_wf k) as [k _ IH]; intros s -> Hs.
  destruct s as [|a [|b [|c s]]]; cbn [encode_groups String.length length]; [done|lia|lia|].
  destruct s as [|d s]; [simpl; lia|].
  specialize (IH (String.length (String d s)) ltac:(simpl; lia) _ eq_refl ltac:(done)).
  cbn [String.length] in IH |- *. lia.
Qed.

Lemma string_of_list_length l : String.length (String.string_of_list_ascii l) = length l.
Proof. induction l; simpl; auto. Qed.

Lemma encode_padded_neq alpha s : s ≠ "" → encode_padded alpha s ≠ s.
Proof.
  intros Hs He. apply (f_equal String.length) in He. unfold encode_padded in He.
  rewrite string_app_length, string_of_list_length, length_fmap in He.
  pose proof (encode_groups_length s Hs). lia.
Qed.
