(* ===== verification/Session.v ===== *)
(** * Sessions

    [internal/security/session.go]: the wrapper the framework puts around a
    gorilla session, its typed accessors and read-once flash values.  The store
    that persists a session is the interface [SessionStore]; [RedisStore.v]
    implements it.  The mutex of a session serialises its operations and is not
    part of the state. *)

From S2P Require Import Prelude GoStrings GoValue GoFloat.
From Stdlib Require Import Ascii.
Import Strings.

(** Keys of [Values map[any]any]: a string, or a value of another type. *)
Definition skey : Type := string + Z.

(** The cookie attributes of [sessions.Options]. *)
Record Options := mkOptions {
  Path : string;
  MaxAge : Z;
  HttpOnly : bool;
  Secure : bool;
  SameSite : Z;
}.

(** [sessions.Session]: the fields the framework reads and writes. *)
Record raw_session := mkRaw {
  raw_ID : string;
  raw_Values : gmap skey value;
  raw_Options : Options;
  raw_IsNew : bool;
  raw_name : string;
}.

Definition with_Values (r : raw_session) (v : gmap skey value) : raw_session :=
  mkRaw (raw_ID r) v (raw_Options r) (raw_IsNew r) (raw_name r).
Definition with_ID (r : raw_session) (id : string) : raw_session :=
  mkRaw id (raw_Values r) (raw_Options r) (raw_IsNew r) (raw_name r).
Definition with_IsNew (r : raw_session) (b : bool) : raw_session :=
  mkRaw (raw_ID r) (raw_Values r) (raw_Options r) b (raw_name r).
Definition with_MaxAge (r : raw_session) (n : Z) : raw_session :=
  let o := raw_Options r in
  mkRaw (raw_ID r) (raw_Values r) (mkOptions (Path o) n (HttpOnly o) (Secure o) (SameSite o))
    (raw_IsNew r) (raw_name r).

Record Session := mkSession {
  raw : option raw_session;
  dirty : bool;
}.

Definition NewSession (r : option raw_session) : Session := mkSession r false.

Definition nil_deref {A} : outcome A :=
  Panic "runtime error: invalid memory address or nil pointer dereference".

(** An update of the underlying session marks it dirty; a nil one panics. *)
Definition update_raw (f : raw_session → raw_session) (s : Session) : outcome Session :=
  match raw s with
  | None => nil_deref
  | Some r => Ret (mkSession (Some (f r)) true)
  end.

Definition Session_Get (key : string) (s : Session) : value :=
  match raw s with
  | None => VNil
  | Some r => default VNil (raw_Values r !! (inl key : skey))
  end.

Definition Session_Set (key : string) (val : value) : Session → outcome Session :=
  update_raw (λ r, with_Values r (<[(inl key : skey) := val]> (raw_Values r))).

Definition Session_Delete (key : string) : Session → outcome Session :=
  update_raw (λ r, with_Values r (delete (inl key : skey) (raw_Values r))).

Definition Session_Clear : Session → outcome Session := update_raw (λ r, with_Values r ∅).

Definition Session_Destroy : Session → outcome Session :=
  update_raw (λ r, with_MaxAge (with_Values r ∅) (-1)).

(** [hex.EncodeToString]. *)
Definition hex_digit (n : N) : ascii :=
  if (n <? 10)%N then ascii_of_N (n + 48) else ascii_of_N (n - 10 + 97).
Fixpoint hex_EncodeToString (b : string) : string :=
  match b with
  | "" => ""
  | String a b' =>
      let n := N_of_ascii a in
      String (hex_digit (n / 16)) (String (hex_digit (n mod 16)) (hex_EncodeToString b'))
  end.

(** [b] is what [rand.Read] filled in, [inl] its error. *)
Definition Session_RegenerateID (b : error + string) (s : Session) : outcome Session :=
  match b with
  | inl _ => Panic "failed to generate random bytes for session ID"
  | inr b => update_raw (λ r, with_ID r (hex_EncodeToString b)) s
  end.

Definition Session_SetMaxAge (seconds : Z) : Session → outcome Session :=
  update_raw (λ r, with_MaxAge r seconds).

Definition Session_ID (s : Session) : string :=
  match raw s with None => "" | Some r => raw_ID r end.

Definition Session_Keys (s : Session) : outcome (list string) :=
  match raw s with
  | None => nil_deref
  | Some r =>
      Ret (omap (λ p, match p.1 with inl k => Some k | inr _ => None end) (map_to_list (raw_Values r)))
  end.

Definition flash_key (key : string) : string := "_flash_" +:+ key.

Definition Session_Flash (key : string) (val : value) : Session → outcome Session :=
  Session_Set (flash_key key) val.

Definition Session_GetFlash (key : string) (s : Session) : value * Session :=
  match raw s with
  | None => (VNil, s)
  | Some r =>
      match raw_Values r !! (inl (flash_key key) : skey) with
      | None => (VNil, s)
      | Some val =>
          (val, mkSession (Some (with_Values r (delete (inl (flash_key key) : skey) (raw_Values r)))) true)
      end
  end.

(** ** The store behind a session *)

(** [sessions.Store]: [Save] may change the session it is given (a new ID) and the
    state [W] of the store and the response; [New] builds the session of a
    request from its cookie. *)
Class SessionStore (W : Type) := {
  store_New : string → option string → W → raw_session * option error;
  store_Save : raw_session → W → option error * raw_session * W;
}.

Definition Session_Save `{SessionStore W} (s : Session) (w : W) : outcome (option error * Session * W) :=
  if negb (dirty s) then Ret (None, s, w)
  else match raw s with
       | None => nil_deref
       | Some r =>
           let '(e, r', w') := store_Save r w in
           match e with
           | Some e => Ret (Some e, mkSession (Some r') true, w')
           | None => Ret (None, mkSession (Some r') false, w')
           end
       end.

(** ** Typed accessors *)

(** [strconv.FormatFloat(f, 'f', -1, 64)] and [strconv.ParseFloat(s, 64)]; the
    latter is [None] on an error. *)
Class FloatText := {
  FormatFloat : spec_float → string;
  ParseFloat : string → option spec_float;
}.

Section Typed.
Context `{Platform, FloatText}.

Definition Session_SetString (key val : string) := Session_Set key (VString val).
Definition Session_GetString (key : string) (s : Session) : string :=
  match Session_Get key s with
  | VString t => t
  | VBytes b => default "" b
  | VInt KInt t | VInt KInt64 t => Strconv.FormatInt t
  | VFloat KFloat64 t => FormatFloat t
  | _ => ""
  end.

Definition Session_SetInt (key : string) (val : Z) := Session_Set key (VInt KInt val).
Definition Session_SetInt64 (key : string) (val : Z) := Session_Set key (VInt KInt64 val).
Definition Session_GetInt64 (key : string) (s : Session) : Z :=
  match Session_Get key s with
  | VInt _ t => t
  | VFloat _ t => float_to_int64 t
  | VString t => match Strconv.ParseInt 64 t with (i, None) => i | (_, Some _) => 0 end
  | _ => 0
  end%Z.
Definition Session_GetInt (key : string) (s : Session) : Z := wrap_int KInt (Session_GetInt64 key s).

Definition Session_SetFloat (key : string) (val : spec_float) := Session_Set key (VFloat KFloat64 val).
Definition Session_GetFloat (key : string) (s : Session) : spec_float :=
  match Session_Get key s with
  | VFloat _ t => t
  | VInt KInt t | VInt KInt64 t => float_of_Z t
  | VString t => default (S754_zero false) (ParseFloat t)
  | _ => S754_zero false
  end.

Definition Session_SetBool (key : string) (val : bool) := Session_Set key (VBool val).
Definition Session_GetBool (key : string) (s : Session) : bool :=
  match Session_Get key s with
  | VBool t => t
  | VString t => default false (Strconv.ParseBool t)
  | VInt KInt t => negb (t =? 0)%Z
  | _ => false
  end.

Definition Session_SetBytes (key : string) (val : option string) := Session_Set key (VBytes val).
Definition Session_GetBytes (key : string) (s : Session) : option string :=
  match Session_Get key s with
  | VBytes t => t
  | VString t => Some t
  | _ => None
  end.

(** [zero_time] is [time.Time{}]. *)
Definition zero_time : value := zero_value TTime.
Definition Session_SetTime (key : string) (val : Z) := Session_Set key (VTime val).
Definition Session_GetTime (key : string) (s : Session) : value :=
  match Session_Get key s with
  | VTime t => VTime t
  | _ => zero_time
  end.
End Typed.

(** ** Functional behaviour *)

(** The string-keyed part of a session. *)
Definition str_values (r : raw_session) (k : string) : option value := raw_Values r !! (inl k : skey).

(** An operation of the handler on its session. *)
Inductive sop :=
  | OpGet (k : string)
  | OpSet (k : string) (v : value)
  | OpDelete (k : string)
  | OpClear
  | OpFlash (k : string) (v : value)
  | OpGetFlash (k : string).

Definition run_sop (o : sop) (s : Session) : outcome (value * Session) :=
  let upd (m : outcome Session) := match m with Ret s' => Ret (VNil, s') | Panic p => Panic p end in
  match o with
  | OpGet k => Ret (Session_Get k s, s)
  | OpSet k v => upd (Session_Set k v s)
  | OpDelete k => upd (Session_Delete k s)
  | OpClear => upd (Session_Clear s)
  | OpFlash k v => upd (Session_Flash k v s)
  | OpGetFlash k => Ret (Session_GetFlash k s)
  end.

Fixpoint run_sops (os : list sop) (s : Session) : outcome (list value * Session) :=
  match os with
  | [] => Ret ([], s)
  | o :: os' =>
      match run_sop o s with
      | Panic p => Panic p
      | Ret (v, s') =>
          match run_sops os' s' with
          | Panic p => Panic p
          | Ret (vs, s'') => Ret (v :: vs, s'')
          end
      end
  end.

(** What a session promises: a store of values and, apart from it, a store of
    values that are read once; and whether anything has been written. *)
Record spec_session := mkSpec {
  sp_values : gmap string value;
  sp_flash : gmap string value;
  sp_dirty : bool;
}.

Definition spec_sop (o : sop) (a : spec_session) : value * spec_session :=
  match o with
  | OpGet k => (default VNil (sp_values a !! k), a)
  | OpSet k v => (VNil, mkSpec (<[k := v]> (sp_values a)) (sp_flash a) true)
  | OpDelete k => (VNil, mkSpec (delete k (sp_values a)) (sp_flash a) true)
  | OpClear => (VNil, mkSpec ∅ ∅ true)
  | OpFlash k v => (VNil, mkSpec (sp_values a) (<[k := v]> (sp_flash a)) true)
  | OpGetFlash k =>
      match sp_flash a !! k with
      | None => (VNil, a)
      | Some v => (v, mkSpec (sp_values a) (delete k (sp_flash a)) true)
      end
  end.

Fixpoint spec_sops (os : list sop) (a : spec_session) : list value * spec_session :=
  match os with
  | [] => ([], a)
  | o :: os' =>
      let '(v, a') := spec_sop o a in
      let '(vs, a'') := spec_sops os' a' in
      (v :: vs, a'')
  end.

(** The keys of the plain accessors stay out of the flash name space. *)
Definition plain_key (k : string) : Prop := HasPrefix k "_flash_" = false.
Definition sop_ok (o : sop) : Prop :=
  match o with OpGet k | OpSet k _ | OpDelete k => plain_key k | _ => True end.

Definition session_rel (s : Session) (a : spec_session) : Prop :=
  ∃ r, raw s = Some r ∧
    (∀ k, plain_key k → str_values r k = sp_values a !! k) ∧
    (∀ k, str_values r (flash_key k) = sp_flash a !! k) ∧
    dirty s = sp_dirty a.

Lemma flash_key_not_plain k : ¬ plain_key (flash_key k).
Proof. unfold plain_key, flash_key. by rewrite HasPrefix_app. Qed.

(** An update through one name space is seen in that one only. *)
Lemma sop_simulation o s a :
  session_rel s a → sop_ok o →
  ∃ s', run_sop o s = Ret ((spec_sop o a).1, s') ∧ session_rel s' (spec_sop o a).2.
Proof.
  intros (r & Hr & Hp & Hf & Hd) Hok.
  destruct o as [k|k v|k| |k v|k]; unfold run_sop, Session_Set, Session_Delete, Session_Clear,
    Session_Flash, Session_Set, update_raw, Session_GetFlash, Session_Get; rewrite Hr; simpl in *.
  - eexists. split; [|by exists r]. by rewrite <-Hp.
  - eexists. split; [done|]. eexists. split; [done|]. unfold str_values. simpl. split_and!; [..|done].
    + intros k' Hk'. destruct (decide (k = k')) as [->|Hne].
      { by rewrite !lookup_insert_eq. }
      rewrite !lookup_insert_ne by congruence. by apply Hp.
    + intros k'. rewrite lookup_insert_ne; [apply Hf|]. intros [= ->]. by apply flash_key_not_plain in Hok.
  - eexists. split; [done|]. eexists. split; [done|]. unfold str_values. simpl. split_and!; [..|done].
    + intros k' Hk'. destruct (decide (k = k')) as [->|Hne].
      { by rewrite !lookup_delete_eq. }
      rewrite !lookup_delete_ne by congruence. by apply Hp.
    + intros k'. rewrite lookup_delete_ne; [apply Hf|]. intros [= ->]. by apply flash_key_not_plain in Hok.
  - eexists. split; [done|]. eexists. split; [done|]. unfold str_values. simpl. split_and!; [..|done];
      intros; by rewrite !lookup_empty.
  - eexists. split; [done|]. eexists. split; [done|]. unfold str_values. simpl. split_and!; [..|done].
    + intros k' Hk'. rewrite lookup_insert_ne; [by apply Hp|]. intros [= <-].
      by apply flash_key_not_plain in Hk'.
    + intros k'. destruct (decide (k = k')) as [->|Hne].
      { by rewrite !lookup_insert_eq. }
      rewrite !lookup_insert_ne; [apply Hf|done|]. intros [= ?]. by simplify_eq.
  - pose proof (Hf k) as Hk. unfold str_values in Hk. rewrite Hk.
    destruct (sp_flash a !! k) as [v|] eqn:E; [|eexists; split; [done|by exists r]].
    eexists. split; [done|]. eexists. split; [done|]. unfold str_values. simpl. split_and!; [..|done].
    + intros k' Hk'. rewrite lookup_delete_ne; [by apply Hp|]. intros [= <-].
      by apply flash_key_not_plain in Hk'.
    + intros k'. destruct (decide (k = k')) as [->|Hne].
      { by rewrite !lookup_delete_eq. }
      rewrite !lookup_delete_ne; [apply Hf|done|]. intros [= ?]. by simplify_eq.
Qed.

(** [C15] Whatever a handler does with its session, it behaves as a store of values
    and, apart from it, a store of flash values that are read once: every read
    returns what that specification returns, and the session is marked for saving
    exactly when something was written or a flash value was taken. *)
Theorem session_refines_spec os s a :
  session_rel s a → Forall sop_ok os →
  ∃ s', run_sops os s = Ret ((spec_sops os a).1, s') ∧ session_rel s' (spec_sops os a).2.
Proof.
  revert s a. induction os as [|o os IH]; intros s a Hrel Hok; simpl; [by exists s|].
  apply Forall_cons in Hok as [Ho Hok].
  destruct (sop_simulation o s a Hrel Ho) as (s' & -> & Hrel').
  destruct (spec_sop o a) as [v a'] eqn:E. simpl in *.
  destruct (IH s' a' Hrel' Hok) as (s'' & -> & Hrel'').
  destruct (spec_sops os a') as [vs a'']. simpl in *. by exists s''.
Qed.

Definition demo_options : Options := mkOptions "/" 3600 true false 2.
Definition empty_raw : raw_session := mkRaw "" ∅ demo_options true "sessions".

Lemma session_refines_spec_witness :
  ∃ s', run_sops [OpSet "user" (VString "ani"); OpFlash "msg" (VString "saved"); OpGetFlash "msg";
                  OpGetFlash "msg"; OpGet "user"] (NewSession (Some empty_raw))
        = Ret ([VNil; VNil; VString "saved"; VNil; VString "ani"], s') ∧ dirty s' = true.
Proof.
  destruct (session_refines_spec
    [OpSet "user" (VString "ani"); OpFlash "msg" (VString "saved"); OpGetFlash "msg";
     OpGetFlash "msg"; OpGet "user"] (NewSession (Some empty_raw)) (mkSpec ∅ ∅ false)) as (s' & Hs & Hrel).
  - exists empty_raw. split_and!; try done; intros; unfold str_values; simpl; by rewrite !lookup_empty.
  - repeat constructor; reflexivity.
  - exists s'. split; [exact Hs|]. destruct Hrel as (r & _ & _ & _ & ->). reflexivity.
Defined.
