(* ===== verification/RedisStore.v ===== *)
(** * The Redis session store

    [internal/security/redisstore.go].  The Redis client, [encoding/json] on maps
    and the random source are interfaces; the store is the [SessionStore] the
    session of [Session.v] is saved through. *)

From S2P Require Import Prelude GoStrings GoValue GoFloat Util Base64 HttpErr Session.
From Stdlib Require Import Ascii.

(** ** What the store calls *)

(** The commands of the client: [SET key value EX seconds], [GET] and [DEL].
    [GET] of a missing key is the error [redis.Nil]. *)
Class RedisClient (W : Type) := {
  redis_Set : string → string → Z → W → option error * W;
  redis_Get : string → W → error + string;
  redis_Del : string → W → option error * W;
}.

Definition redis_Nil : error := ESentinel "redis.Nil".

(** [json.Marshal] of a [map[string]any] and [json.Unmarshal] into one, with
    [time.Time.MarshalText] ([None] outside the years it can write). *)
Class JsonCodec := {
  json_Marshal_map : gmap string value → error + string;
  json_Unmarshal_map : string → error + gmap string value;
  time_MarshalText : Z → option string;
}.

(** [securecookie.GenerateRandomKey(32)]: the n-th key, [None] for the nil slice it
    returns when the random source fails. *)
Class RandomKeys := random_key : nat → option string.

(** A [Set-Cookie] header: [sessions.NewCookie(name, value, options)]. *)
Record Cookie := mkCookie { c_Name : string; c_Value : string; c_Options : Options }.

(** The state around a save: the Redis server, the cookies set on the response
    and the number of random keys drawn. *)
Record store_world (W : Type) := mkWorld {
  sw_redis : W;
  sw_cookies : list Cookie;
  sw_draws : nat;
}.
Arguments mkWorld {W}.
Arguments sw_redis {W}.
Arguments sw_cookies {W}.
Arguments sw_draws {W}.

(** ** The store *)

Record RedisStore := mkRedisStore {
  rs_options : Options;
  rs_maxAge : Z;
  rs_prefix : string;
}.

Definition NewRedisStore (maxAge sameSite : Z) (secureCookie : bool) : RedisStore :=
  let maxAge := if (maxAge <=? 0)%Z then (86400 * 7)%Z else maxAge in
  mkRedisStore (mkOptions "/" maxAge true secureCookie sameSite) maxAge "session_".

Section Store.
Context {W : Type} `{RedisClient W, JsonCodec, RandomKeys}.
Variable st : RedisStore.

(** *** JSONSerializer *)

(** The map of the string keys, or the error on the first other key. *)
Definition string_keyed (l : list (skey * value)) : error + gmap string value :=
  foldr (λ p acc,
    match p.1, acc with
    | inr z, _ => inl (ENew ("non-string session key: " +:+ Strconv.FormatInt z))
    | inl _, inl e => inl e
    | inl k, inr m => inr (<[k := p.2]> m)
    end) (inr ∅) l.

Definition Serialize (sess : raw_session) : error + string :=
  match string_keyed (map_to_list (raw_Values sess)) with
  | inl e => inl e
  | inr m => json_Marshal_map m
  end.

(** [for k, v := range m { sess.Values[k] = v }]. *)
Definition add_values (m : gmap string value) (vs : gmap skey value) : gmap skey value :=
  map_fold (λ k v acc, <[(inl k : skey) := v]> acc) vs m.

Definition Deserialize (d : string) (sess : raw_session) : error + raw_session :=
  match json_Unmarshal_map d with
  | inl e => inl e
  | inr m => inr (with_Values sess (add_values m (raw_Values sess)))
  end.

(** *** Redis *)

Definition redis_key (session : raw_session) : string := rs_prefix st +:+ raw_ID session.

Definition store_save (session : raw_session) (w : W) : option error * W :=
  match Serialize session with
  | inl e => (Some e, w)
  | inr b =>
      match redis_Set (redis_key session) b (MaxAge (rs_options st)) w with
      | (Some e, w') => (Some (wrapf "redis set error: " e ""), w')
      | (None, w') => (None, w')
      end
  end.

Definition store_load (session : raw_session) (w : W) : error + raw_session :=
  match redis_Get (redis_key session) w with
  | inl e => if bool_decide (e = redis_Nil) then inl (ENew "session not found") else inl e
  | inr data => Deserialize data session
  end.

Definition store_delete (session : raw_session) (w : W) : option error * W :=
  if bool_decide (raw_ID session = "") then (None, w) else redis_Del (redis_key session) w.

(** [c] is the request's cookie of that name.  A failing load keeps the values it
    may have set before failing; [Deserialize] fails before it sets any. *)
Definition RedisStore_New (name : string) (c : option string) (w : store_world W)
    : raw_session * option error :=
  let session := mkRaw "" ∅ (rs_options st) true name in
  match c with
  | None => (session, None)
  | Some v =>
      match store_load (with_ID session v) (sw_redis w) with
      | inl _ => (with_IsNew (with_ID session "") true, None)
      | inr s' => (with_IsNew s' false, None)
      end
  end.

Definition SetCookie (c : Cookie) (w : store_world W) : store_world W :=
  mkWorld (sw_redis w) (sw_cookies w ++ [c]) (sw_draws w).

Definition RedisStore_Save (session : raw_session) (w : store_world W)
    : option error * raw_session * store_world W :=
  if (MaxAge (raw_Options session) <=? 0)%Z then
    match store_delete session (sw_redis w) with
    | (Some e, rw) => (Some e, session, mkWorld rw (sw_cookies w) (sw_draws w))
    | (None, rw) =>
        (None, session,
         SetCookie (mkCookie (raw_name session) "" (raw_Options session))
           (mkWorld rw (sw_cookies w) (sw_draws w)))
    end
  else
    let '(session, w) :=
      if bool_decide (raw_ID session = "") then
        (with_ID session (URLEncoding (default "" (random_key (sw_draws w)))),
         mkWorld (sw_redis w) (sw_cookies w) (S (sw_draws w)))
      else (session, w) in
    match store_save session (sw_redis w) with
    | (Some e, rw) => (Some e, session, mkWorld rw (sw_cookies w) (sw_draws w))
    | (None, rw) =>
        (None, session,
         SetCookie (mkCookie (raw_name session) (raw_ID session) (raw_Options session))
           (mkWorld rw (sw_cookies w) (sw_draws w)))
    end.

#[global] Instance redis_session_store : SessionStore (store_world W) := {|
  store_New := RedisStore_New;
  store_Save := RedisStore_Save;
|}.
End Store.

(** ** What the store relies on *)

(** A reachable server is a map of live keys, each with its value and the
    lifetime it was written with. *)
Class RedisLaws (W : Type) `{RedisClient W} := {
  up : W → Prop;
  live : W → gmap string (string * Z);
  redis_Get_up k w : up w →
    redis_Get k w = match live w !! k with Some p => inr p.1 | None => inl redis_Nil end;
  redis_Set_up k v t w : up w → (0 < t)%Z →
    ∃ w', redis_Set k v t w = (None, w') ∧ up w' ∧ live w' = <[k := (v, t)]> (live w);
  redis_Del_up k w : up w →
    ∃ w', redis_Del k w = (None, w') ∧ up w' ∧ live w' = delete k (live w);
}.

Definition utf8_valid (s : string) : Prop := Utf8.string_of_runes (Utf8.runes s) = s.

(** What a value becomes when it is written as JSON and read back into an [any]:
    integers become [float64], bytes their base64 text, a time its text, and
    invalid UTF-8 is replaced.  [None]: not encodable, or not covered here. *)
Definition json_norm `{JsonCodec} (v : value) : option value :=
  match v with
  | VNil | VBytes None => Some VNil
  | VBool b => Some (VBool b)
  | VInt _ z | VUint _ z => Some (VFloat KFloat64 (float_of_Z z))
  | VFloat KFloat64 f =>
      match f with
      | S754_zero _ => Some (VFloat KFloat64 f)
      | S754_finite _ _ _ => if valid_binary 53 1024 f then Some (VFloat KFloat64 f) else None
      | _ => None
      end
  | VString s => Some (VString (Utf8.string_of_runes (Utf8.runes s)))
  | VBytes (Some b) => Some (VString (StdEncoding b))
  | VTime t => VString <$> time_MarshalText t
  | _ => None
  end.

Class JsonLaws `{JsonCodec} :=
  json_map_roundtrip m :
    (∀ k v, m !! k = Some v → utf8_valid k ∧ is_Some (json_norm v)) →
    ∃ s, json_Marshal_map m = inr s ∧ json_Unmarshal_map s = inr (omap json_norm m).

(** A session all of whose keys and values JSON can represent. *)
Definition jsonable `{JsonCodec} (r : raw_session) : Prop :=
  ∀ k v, raw_Values r !! k = Some v → ∃ s, k = inl s ∧ utf8_valid s ∧ is_Some (json_norm v).

(** ** Serialisation *)

Lemma string_keyed_list l :
  NoDup l.*1 → Forall (λ p : skey * value, ∃ k, p.1 = inl k) l →
  ∃ m, string_keyed l = inr m ∧ ∀ k v, m !! k = Some v ↔ ((inl k : skey), v) ∈ l.
Proof.
  induction l as [|[k v] l IH]; intros Hnd Hall.
  - exists ∅. split; [done|]. intros k v. rewrite lookup_empty. split; [done|].
    by intros ?%elem_of_nil.
  - apply NoDup_cons in Hnd as [Hni Hnd]. apply Forall_cons in Hall as [[k' Hk'] Hall].
    simpl in Hk'. subst k.
    destruct (IH Hnd Hall) as (m & Hm & Hin). exists (<[k' := v]> m). simpl.
    split; [by rewrite Hm|]. intros k0 v0. rewrite elem_of_cons.
    destruct (decide (k' = k0)) as [->|Hne].
    + rewrite lookup_insert_eq. split; [intros [= ->]; by left|].
      intros [[= ->]|Hin']; [done|]. exfalso. apply Hni.
      by apply (list_elem_of_fmap_2 fst) in Hin'.
    + rewrite lookup_insert_ne by done. rewrite Hin. split; [by right|].
      intros [[= -> ->]|?]; done.
Qed.

Lemma string_keyed_values `{JsonCodec} r :
  jsonable r → ∃ m, string_keyed (map_to_list (raw_Values r)) = inr m ∧ ∀ k, m !! k = str_values r k.
Proof.
  intros Hj. destruct (string_keyed_list (map_to_list (raw_Values r))) as (m & Hm & Hin).
  - apply NoDup_fst_map_to_list.
  - apply Forall_forall. intros [k v] Hp%elem_of_map_to_list.
    destruct (Hj _ _ Hp) as (s & -> & _). by exists s.
  - exists m. split; [done|]. intros k. apply option_eq. intros v.
    rewrite Hin. apply elem_of_map_to_list.
Qed.

Lemma add_values_lookup m vs k :
  add_values m vs !! (inl k : skey) = match m !! k with Some v => Some v | None => vs !! (inl k : skey) end.
Proof.
  unfold add_values. revert m. apply (map_fold_weak_ind (λ acc m, acc !! (inl k : skey) =
    match m !! k with Some v => Some v | None => vs !! (inl k : skey) end)).
  - by rewrite lookup_empty.
  - intros i x m acc Hi IH. destruct (decide (i = k)) as [->|Hne].
    + by rewrite !lookup_insert_eq.
    + rewrite !lookup_insert_ne by congruence. done.
Qed.

Lemma add_values_other m vs z : add_values m vs !! (inr z : skey) = vs !! (inr z : skey).
Proof.
  unfold add_values. revert m. apply (map_fold_weak_ind (λ acc m, acc !! (inr z : skey) = vs !! (inr z : skey))).
  - done.
  - intros i x m acc Hi IH. by rewrite lookup_insert_ne.
Qed.

Section Laws.
Context {W : Type} `{RedisLaws W, JsonLaws, RandomKeys}.
Variable st : RedisStore.
Hypothesis Hmax : (0 < MaxAge (rs_options st))%Z.

Lemma Serialize_ok r :
  jsonable r → ∃ b m, Serialize r = inr b ∧ json_Unmarshal_map b = inr m ∧
    ∀ k, m !! k = str_values r k ≫= json_norm.
Proof.
  intros Hj. destruct (string_keyed_values r Hj) as (m & Hm & Hlk).
  destruct (json_map_roundtrip m) as (b & Hb & Hu).
  { intros k v Hkv. rewrite Hlk in Hkv. by destruct (Hj _ _ Hkv) as (s & [= ->] & ? & ?). }
  exists b, (omap json_norm m). unfold Serialize. rewrite Hm. split_and!; [done|done|].
  intros k. by rewrite lookup_omap, Hlk.
Qed.

(** The session a save leaves in memory: a new identifier when it had none. *)
Definition assign_id (r : raw_session) (w : store_world W) : raw_session :=
  if bool_decide (raw_ID r = "") then with_ID r (URLEncoding (default "" (random_key (sw_draws w)))) else r.

Lemma assign_id_jsonable r w : jsonable r → jsonable (assign_id r w).
Proof. unfold assign_id, jsonable. by case_bool_decide. Qed.

Lemma assign_id_same r w :
  str_values (assign_id r w) = str_values r ∧ raw_name (assign_id r w) = raw_name r ∧
  raw_Options (assign_id r w) = raw_Options r.
Proof. unfold assign_id. by case_bool_decide. Qed.

Lemma Save_keeps r w :
  jsonable r → up (sw_redis w) → (0 < MaxAge (raw_Options r))%Z →
  let r' := assign_id r w in
  ∃ w' b m, RedisStore_Save st r w = (None, r', w') ∧ up (sw_redis w') ∧
    live (sw_redis w') = <[redis_key st r' := (b, MaxAge (rs_options st))]> (live (sw_redis w)) ∧
    sw_cookies w' = sw_cookies w ++ [mkCookie (raw_name r) (raw_ID r') (raw_Options r)] ∧
    json_Unmarshal_map b = inr m ∧ (∀ k, m !! k = str_values r k ≫= json_norm).
Proof.
  intros Hj Hup Hm r'. pose proof (assign_id_same r w) as (Hsv & Hn & Ho). fold r' in Hsv, Hn, Ho.
  destruct (Serialize_ok r' (assign_id_jsonable r w Hj)) as (b & m & Hs & Hu & Hlk).
  destruct (redis_Set_up (redis_key st r') b (MaxAge (rs_options st)) (sw_redis w) Hup Hmax)
    as (rw & Hset & Hup' & Hlive).
  unfold RedisStore_Save. destruct (Z.leb_spec (MaxAge (raw_Options r)) 0); [lia|].
  assert (∃ d, (if bool_decide (raw_ID r = "")
     then (with_ID r (URLEncoding (default "" (random_key (sw_draws w)))),
           mkWorld (sw_redis w) (sw_cookies w) (S (sw_draws w))) else (r, w)) =
     (r', mkWorld (sw_redis w) (sw_cookies w) d)) as [d ->].
  { unfold r', assign_id. case_bool_decide; [by eexists|]. exists (sw_draws w). by destruct w. }
  unfold store_save. simpl. rewrite Hs, Hset.
  exists (SetCookie (mkCookie (raw_name r') (raw_ID r') (raw_Options r')) (mkWorld rw (sw_cookies w) d)), b, m.
  split_and!; try done; simpl.
  - by rewrite Hn, Ho.
  - intros k. by rewrite Hlk, Hsv.
Qed.

Lemma Save_drops r w :
  up (sw_redis w) → (MaxAge (raw_Options r) <= 0)%Z →
  ∃ w', RedisStore_Save st r w = (None, r, w') ∧ up (sw_redis w') ∧
    live (sw_redis w') = (if bool_decide (raw_ID r = "") then live (sw_redis w)
                          else delete (redis_key st r) (live (sw_redis w))) ∧
    sw_cookies w' = sw_cookies w ++ [mkCookie (raw_name r) "" (raw_Options r)].
Proof.
  intros Hup Hm. unfold RedisStore_Save, store_delete.
  destruct (Z.leb_spec (MaxAge (raw_Options r)) 0); [|lia]. case_bool_decide.
  - by eexists.
  - destruct (redis_Del_up (redis_key st r) (sw_redis w) Hup) as (rw & -> & Hup' & Hl). by eexists.
Qed.

(** Loading a live key. *)
Lemma New_live name v w b t m :
  up (sw_redis w) → live (sw_redis w) !! (rs_prefix st +:+ v) = Some (b, t) →
  json_Unmarshal_map b = inr m →
  ∃ r, RedisStore_New st name (Some v) w = (r, None) ∧ raw_ID r = v ∧ raw_IsNew r = false ∧
    raw_Options r = rs_options st ∧ raw_name r = name ∧
    (∀ k, str_values r k = m !! k) ∧ (∀ z, raw_Values r !! (inr z : skey) = None).
Proof.
  intros Hup Hl Hu. unfold RedisStore_New, store_load, redis_key. simpl.
  rewrite redis_Get_up by done. rewrite Hl. simpl. unfold Deserialize. rewrite Hu.
  eexists. split; [done|]. simpl. split_and!; try done.
  - intros k. unfold str_values. simpl. rewrite add_values_lookup, lookup_empty. by destruct (m !! k).
  - intros z. by rewrite add_values_other.
Qed.
End Laws.

(** ** A session across requests *)

Section Requests.
Context {W : Type} `{RedisLaws W, JsonLaws, RandomKeys, Platform, FloatText}.
Variable st : RedisStore.
Hypothesis Hmax : (0 < MaxAge (rs_options st))%Z.



(** The end of one request and the start of the next: save, then build the
    session of a request that carries the cookie the response set last. *)
Definition next_request (s : Session) (w : store_world W) : outcome (Session * store_world W) :=
  match @Session_Save _ (redis_session_store st) s w with
  | Panic p => Panic p
  | Ret (_, s', w') =>
      match raw s' with
      | None => nil_deref
      | Some r' =>
          Ret (NewSession (Some (RedisStore_New st (raw_name r') (c_Value <$> last (sw_cookies w')) w').1), w')
      end
  end.

(** A changed session that can be saved. *)
Definition savable (s : Session) (r : raw_session) : Prop :=
  raw s = Some r ∧ dirty s = true ∧ jsonable r ∧ (0 < MaxAge (raw_Options r))%Z.

Lemma next_request_ok s r w :
  savable s r → up (sw_redis w) →
  ∃ s' w', next_request s w = Ret (s', w') ∧ dirty s' = false ∧
    Session_ID s' = raw_ID (assign_id r w) ∧
    ∀ k, Session_Get k s' = default VNil (str_values r k ≫= json_norm).
Proof.
  intros (Hr & Hd & Hj & Hm) Hup.
  destruct (Save_keeps st Hmax r w Hj Hup Hm) as (w' & b & m & Hs & Hup' & Hl & Hc & Hu & Hlk).
  destruct (New_live st (raw_name (assign_id r w)) (raw_ID (assign_id r w)) w' b (MaxAge (rs_options st)) m)
    as (r' & Hn & Hid & _ & _ & _ & Hv & _); [done| |done|].
  { rewrite Hl. apply lookup_insert_eq. }
  unfold next_request, Session_Save. rewrite Hd, Hr.
  cbn [negb store_Save redis_session_store]. rewrite Hs. cbn [raw]. rewrite Hc, last_snoc.
  cbn [fmap option_fmap option_map c_Value]. rewrite Hn.
  do 2 eexists. split; [done|]. split_and!; [done|done|].
  intros k. unfold Session_Get. simpl. rewrite <-Hlk, <-Hv. done.
Qed.

(** [C16] A changed session is there on the next request under the same identifier,
    with its strings (valid UTF-8), booleans, floats and integers below 2^53 read
    back as they were written, through JSON and Redis; but a time stored in it
    reads back as the zero time, and bytes read back as their base64 text. *)
Theorem session_survives_request s r w :
  savable s r → up (sw_redis w) →
  ∃ s' w', next_request s w = Ret (s', w') ∧
    Session_ID s' = raw_ID (assign_id r w) ∧
    (∀ k x, Session_Get k s = VString x → utf8_valid x → Session_GetString k s' = x) ∧
    (∀ k b, Session_Get k s = VBool b → Session_GetBool k s' = b) ∧
    (∀ k f, Session_Get k s = VFloat KFloat64 f → Session_GetFloat k s' = f) ∧
    (∀ k i z, Session_Get k s = VInt i z → (Z.abs z < 2 ^ 53)%Z → Session_GetInt64 k s' = z) ∧
    (∀ k t, Session_Get k s = VTime t → Session_GetTime k s' = zero_time) ∧
    (∀ k b, Session_Get k s = VBytes (Some b) → Session_GetBytes k s' = Some (StdEncoding b)).
Proof.
  intros Hs Hup. pose proof Hs as (Hr & _ & Hj & _).
  destruct (next_request_ok s r w Hs Hup) as (s' & w' & Hn & _ & Hid & Hg).
  assert (∀ k v, Session_Get k s = v → v ≠ VNil →
    ∃ v', json_norm v = Some v' ∧ Session_Get k s' = v') as Hget.
  { intros k v Hv Hne. unfold Session_Get in Hv. rewrite Hr in Hv. specialize (Hg k). unfold str_values in Hg.
    destruct (raw_Values r !! (inl k : skey)) as [v0|] eqn:E; simpl in *; [subst v0|by subst].
    destruct (Hj _ _ E) as (_ & _ & _ & [v' Hv']). exists v'. by rewrite Hg, Hv'. }
  exists s', w'. split_and!; [done|done|intros k x Hx Hu8|intros k x Hx|intros k x Hx|intros k i x Hx Hlt|
    intros k t Hx|intros k x Hx].
  - destruct (Hget k _ Hx ltac:(done)) as (v' & Hv' & Hg'). injection Hv' as <-.
    unfold Session_GetString. rewrite Hg'. done.
  - destruct (Hget k _ Hx ltac:(done)) as (v' & Hv' & Hg'). injection Hv' as <-.
    unfold Session_GetBool. by rewrite Hg'.
  - destruct (Hget k _ Hx ltac:(done)) as (v' & Hv' & Hg').
    unfold Session_GetFloat. rewrite Hg'. simpl in Hv'. by repeat case_match; simplify_eq.
  - destruct (Hget k _ Hx ltac:(done)) as (v' & Hv' & Hg'). injection Hv' as <-.
    unfold Session_GetInt64. rewrite Hg'. by apply float_to_int64_of_Z.
  - destruct (Hget k _ Hx ltac:(done)) as (v' & Hv' & Hg'). simpl in Hv'.
    destruct (time_MarshalText t); [injection Hv' as <-|discriminate].
    unfold Session_GetTime. by rewrite Hg'.
  - destruct (Hget k _ Hx ltac:(done)) as (v' & Hv' & Hg'). injection Hv' as <-.
    unfold Session_GetBytes. by rewrite Hg'.
Qed.

(** A client cannot choose its session identifier: a cookie that names no live
    session gives an empty session, and saving that session writes exactly one
    key, made from a fresh random key, and leaves every other key as it was. *)
Theorem unknown_identifier_not_adopted name v key val w :
  up (sw_redis w) → live (sw_redis w) !! (rs_prefix st +:+ v) = None →
  utf8_valid key → is_Some (json_norm val) →
  let r := (RedisStore_New st name (Some v) w).1 in
  raw_ID r = "" ∧ raw_Values r = ∅ ∧ raw_IsNew r = true ∧
  let r1 := with_Values r {[ (inl key : skey) := val ]} in
  let id := URLEncoding (default "" (random_key (sw_draws w))) in
  ∃ r2 w' b, RedisStore_Save st r1 w = (None, r2, w') ∧ raw_ID r2 = id ∧
    live (sw_redis w') = <[rs_prefix st +:+ id := (b, MaxAge (rs_options st))]> (live (sw_redis w)) ∧
    c_Value <$> last (sw_cookies w') = Some id.
Proof.
  intros Hup Hl Hk Hv r.
  assert (r = mkRaw "" ∅ (rs_options st) true name) as ->.
  { unfold r, RedisStore_New, store_load, redis_key. simpl. rewrite redis_Get_up by done. by rewrite Hl. }
  split_and!; try done. intros r1 id.
  destruct (Save_keeps st Hmax r1 w) as (w' & b & m & Hs & _ & Hl' & Hc & _); [|done|done|].
  { intros k x Hx. simpl in Hx. apply lookup_singleton_Some in Hx as [<- <-]. by eexists. }
  exists (assign_id r1 w), w', b. split_and!; [done|done|done|]. by rewrite Hc, last_snoc.
Qed.

(** Regenerating the identifier does not retire the old one: after the save
    the session is stored under the new identifier, and the entry under the old
    identifier is still there, unchanged. *)
Theorem regenerated_session_keeps_old_entry s r b e w :
  savable s r → up (sw_redis w) → hex_EncodeToString b ≠ raw_ID r → hex_EncodeToString b ≠ "" →
  live (sw_redis w) !! redis_key st r = Some e →
  ∃ s1 s2 w', Session_RegenerateID (inr b) s = Ret s1 ∧
    @Session_Save _ (redis_session_store st) s1 w = Ret (None, s2, w') ∧
    Session_ID s2 = hex_EncodeToString b ∧
    is_Some (live (sw_redis w') !! (rs_prefix st +:+ hex_EncodeToString b)) ∧
    live (sw_redis w') !! redis_key st r = Some e.
Proof.
  intros (Hr & Hd & Hj & Hm) Hup Hne Hne' He.
  destruct (Save_keeps st Hmax (with_ID r (hex_EncodeToString b)) w) as (w' & d & m & Hs & _ & Hl & _);
    [done|done|done|].
  unfold Session_RegenerateID, update_raw. rewrite Hr. do 3 eexists. split; [done|].
  unfold Session_Save. simpl. rewrite Hs. split; [done|].
  assert (assign_id (with_ID r (hex_EncodeToString b)) w = with_ID r (hex_EncodeToString b)) as Ha.
  { unfold assign_id. by rewrite bool_decide_false. }
  rewrite Ha in *. split_and!; [done|..].
  - rewrite Hl. eexists. apply lookup_insert_eq.
  - rewrite Hl. rewrite lookup_insert_ne; [done|]. unfold redis_key. simpl. intros Heq. by simplify_eq.
Qed.

(** Saving a destroyed session, or one whose lifetime was set to zero or less,
    deletes its entry and no other and sets an empty cookie; the session does not
    outlive the request. *)
Theorem destroyed_session_is_gone s r w (destroy : bool) n :
  raw s = Some r → raw_ID r ≠ "" → up (sw_redis w) → (n <= 0)%Z →
  ∃ s1 s2 w', (if destroy then Session_Destroy s else Session_SetMaxAge n s) = Ret s1 ∧
    @Session_Save _ (redis_session_store st) s1 w = Ret (None, s2, w') ∧ dirty s2 = false ∧
    live (sw_redis w') = delete (redis_key st r) (live (sw_redis w)) ∧
    c_Value <$> last (sw_cookies w') = Some "" ∧
    raw_IsNew (RedisStore_New st (raw_name r) (Some (raw_ID r)) w').1 = true.
Proof.
  intros Hr Hid Hup Hn.
  set (r1 := if destroy then with_MaxAge (with_Values r ∅) (-1) else with_MaxAge r n).
  assert ((if destroy then Session_Destroy s else Session_SetMaxAge n s) = Ret (mkSession (Some r1) true)) as ->.
  { unfold Session_Destroy, Session_SetMaxAge, update_raw, r1. rewrite Hr. by destruct destroy. }
  destruct (Save_drops st r1 w Hup) as (w' & Hs & Hup' & Hl & Hc); [unfold r1; destruct destroy; simpl; lia|].
  assert (redis_key st r1 = redis_key st r ∧ raw_ID r1 = raw_ID r) as [Hk Hi] by (unfold r1; by destruct destroy).
  rewrite Hi, bool_decide_false, Hk in Hl by done.
  do 3 eexists. split; [done|]. unfold Session_Save. simpl. rewrite Hs. split_and!; try done.
  - by rewrite Hc, last_snoc.
  - unfold RedisStore_New, store_load, redis_key. simpl. rewrite redis_Get_up by done.
    rewrite Hl. unfold redis_key. by rewrite lookup_delete_eq.
Qed.
End Requests.

(** ** A concrete server, codec and random source *)

Definition demo_redis : Type := gmap string (string * Z).

#[global] Instance demo_redis_client : RedisClient demo_redis := {|
  redis_Set k v t w := (None, <[k := (v, t)]> w);
  redis_Get k w := match w !! k with Some p => inr p.1 | None => inl redis_Nil end;
  redis_Del k w := (None, delete k w);
|}.

#[global] Instance demo_redis_laws : RedisLaws demo_redis.
Proof.
  refine {| up := λ _, True; live := id |}; simpl.
  - done.
  - intros. by eexists.
  - intros. by eexists.
Defined.

(** JSON scalars as a countable type, a document being the number that encodes
    its list of members. *)
Definition jfloat : Type := option bool + bool + (bool * positive * Z).
Definition jscalar : Type := option (bool + string + jfloat).

Definition to_jfloat (f : spec_float) : jfloat :=
  match f with
  | S754_nan => inl (inl None)
  | S754_infinity b => inl (inl (Some b))
  | S754_zero b => inl (inr b)
  | S754_finite b m e => inr (b, m, e)
  end.
Definition of_jfloat (j : jfloat) : spec_float :=
  match j with
  | inl (inl None) => S754_nan
  | inl (inl (Some b)) => S754_infinity b
  | inl (inr b) => S754_zero b
  | inr (b, m, e) => S754_finite b m e
  end.

Definition to_jscalar (v : value) : option jscalar :=
  match v with
  | VNil => Some None
  | VBool b => Some (Some (inl (inl b)))
  | VString s => Some (Some (inl (inr s)))
  | VFloat KFloat64 f => Some (Some (inr (to_jfloat f)))
  | _ => None
  end.
Definition of_jscalar (j : jscalar) : value :=
  match j with
  | None => VNil
  | Some (inl (inl b)) => VBool b
  | Some (inl (inr s)) => VString s
  | Some (inr f) => VFloat KFloat64 (of_jfloat f)
  end.

Lemma of_to_jscalar v j : to_jscalar v = Some j → of_jscalar j = v.
Proof. destruct v as [| | | |[] []| | | | | | | |]; simpl; intros; by simplify_eq. Qed.

Definition demo_time : JsonCodec := {|
  json_Marshal_map _ := inl (ENew "no maps");
  json_Unmarshal_map _ := inl (ENew "no maps");
  time_MarshalText t := Some (Strconv.FormatInt t) |}.

Definition demo_encode (v : value) : option jscalar := @json_norm demo_time v ≫= to_jscalar.

#[global] Instance demo_json : JsonCodec := {|
  json_Marshal_map m := inr (pretty (N.pos (encode (map_to_list (omap demo_encode m)))));
  json_Unmarshal_map s :=
    match Strconv.parse_digits 0 s with
    | Some z =>
        match decode (A := list (string * jscalar)) (Z.to_pos z) with
        | Some l => inr (of_jscalar <$> (list_to_map l : gmap string jscalar))
        | None => inl (ENew "json: syntax error")
        end
    | None => inl (ENew "json: syntax error")
    end;
  time_MarshalText t := Some (Strconv.FormatInt t) |}.

Lemma demo_encode_norm v : of_jscalar <$> demo_encode v = @json_norm demo_json v.
Proof.
  unfold demo_encode. change (@json_norm demo_json v) with (@json_norm demo_time v).
  destruct v as [| | | |[] []| |[]| | | | | |]; cbn [json_norm mbind option_bind fmap option_fmap option_map];
    try done; try (case_match; [|done]); cbn [to_jscalar of_jscalar option_map]; try done;
    by destruct (float_of_Z _).
Qed.

#[global] Instance demo_json_laws : @JsonLaws demo_json.
Proof.
  intros m _. eexists. split; [reflexivity|].
  cbn [json_Unmarshal_map demo_json]. rewrite Strconv.parse_digits_pretty. simpl.
  rewrite decode_encode, list_to_map_to_list. f_equal. apply map_eq. intros k.
  rewrite lookup_fmap, !lookup_omap. destruct (m !! k) as [v|]; [|done].
  apply demo_encode_norm.
Qed.

#[global] Instance demo_keys : RandomKeys := λ n, Some (Strconv.FormatInt (Z.of_nat n)).
#[global] Instance demo_float_text : FloatText :=
  {| FormatFloat _ := ""; ParseFloat _ := None |}.
#[global] Instance demo_session_platform : Platform :=
  {| float_to_int_overflow _ := min_int64; float_to_uint_overflow _ := 0%Z |}.

Definition demo_store : RedisStore := NewRedisStore 3600 2 true.
Definition demo_raw : raw_session :=
  mkRaw "abc" {[ (inl "n" : skey) := VInt KInt64 42 ]} demo_options false "sessions".
Definition demo_world : store_world demo_redis := mkWorld {[ "session_abc" := ("1", 3600%Z) ]} [] 0.

Lemma demo_savable : savable (mkSession (Some demo_raw) true) demo_raw.
Proof.
  split_and!; [done|done| |reflexivity].
  intros k v Hkv. simpl in Hkv. apply lookup_singleton_Some in Hkv as [<- <-]. eexists. split_and!; [done|done|by eexists].
Defined.

Lemma session_survives_request_witness :
  ∃ s' w', next_request demo_store (mkSession (Some demo_raw) true) demo_world = Ret (s', w') ∧
    Session_ID s' = "abc" ∧ Session_GetInt64 "n" s' = 42%Z.
Proof.
  destruct (session_survives_request demo_store ltac:(reflexivity) _ _ demo_world demo_savable I)
    as (s' & w' & Hn & Hid & _ & _ & _ & Hi & _).
  exists s', w'. split_and!; [exact Hn|exact Hid|]. apply (Hi "n" KInt64); reflexivity.
Defined.

Lemma unknown_identifier_not_adopted_witness :
  raw_ID (RedisStore_New demo_store "sessions" (Some "evil") demo_world).1 = "" ∧
  ∃ r2 w', RedisStore_Save demo_store
      (with_Values (RedisStore_New demo_store "sessions" (Some "evil") demo_world).1
         {[ (inl "k" : skey) := VBool true ]}) demo_world = (None, r2, w') ∧
    live (sw_redis w') !! "session_evil" = None.
Proof.
  destruct (unknown_identifier_not_adopted demo_store ltac:(reflexivity) "sessions" "evil" "k" (VBool true)
    demo_world) as (Hid & _ & _ & r2 & w' & b & Hs & _ & Hl & _); [exact I|reflexivity|reflexivity|by eexists|].
  split; [exact Hid|]. exists r2, w'. split; [exact Hs|]. rewrite Hl. reflexivity.
Defined.

Lemma regenerated_session_keeps_old_entry_witness :
  ∃ s1 s2 w', Session_RegenerateID (inr "xy") (mkSession (Some demo_raw) true) = Ret s1 ∧
    @Session_Save _ (redis_session_store demo_store) s1 demo_world = Ret (None, s2, w') ∧
    Session_ID s2 = "7879" ∧ live (sw_redis w') !! "session_abc" = Some ("1", 3600%Z).
Proof.
  destruct (regenerated_session_keeps_old_entry demo_store ltac:(reflexivity) _ _ "xy" ("1", 3600%Z) demo_world
    demo_savable I) as (s1 & s2 & w' & H1 & H2 & H3 & _ & H4); [done|done|reflexivity|].
  exists s1, s2, w'. split_and!; [exact H1|exact H2|exact H3|exact H4].
Defined.

Lemma destroyed_session_is_gone_witness :
  ∃ s1 s2 w', Session_SetMaxAge 0 (mkSession (Some demo_raw) true) = Ret s1 ∧
    @Session_Save _ (redis_session_store demo_store) s1 demo_world = Ret (None, s2, w') ∧
    live (sw_redis w') !! "session_abc" = None.
Proof.
  destruct (destroyed_session_is_gone demo_store (mkSession (Some demo_raw) true) demo_raw demo_world false 0)
    as (s1 & s2 & w' & H1 & H2 & _ & H3 & _); [reflexivity|done|exact I|lia|].
  exists s1, s2, w'. split_and!; [exact H1|exact H2|]. rewrite H3. reflexivity.
Defined.
