(* ===== verification/Crypto.v ===== *)
(** * Encryption, encrypted identifiers and CSRF tokens

    [internal/security/crypto.go] and the identifier methods of [context.go].
    [crypto/aes] and [crypto/cipher] are the interface [AEAD]; the bytes read from
    the random source and the clock are arguments. *)

From S2P Require Import Prelude GoStrings GoValue GoFloat Util Base64 HttpErr Session.
From Stdlib Require Import Ascii.
Import Strings.

(** ** The cipher *)

Class AEAD := {
  block : Type;
  gcm : Type;
  aes_NewCipher : string → error + block;
  cipher_NewGCM : block → error + gcm;
  NonceSize : gcm → nat;
  Seal : gcm → string → string → string;
  Open : gcm → string → string → error + string;
}.

(** Documented behaviour: AES takes keys of 16, 24 and 32 bytes and its block
    cipher has a GCM mode with the standard nonce; opening succeeds exactly on
    what sealing with the same nonce produces. *)
Class AEADLaws `{AEAD} := {
  aes_key_sizes k : (∃ b, aes_NewCipher k = inr b) ↔ String.length k ∈ [16; 24; 32];
  aes_gcm k b : aes_NewCipher k = inr b → ∃ g, cipher_NewGCM b = inr g ∧ NonceSize g = 12;
  open_seal g n p : String.length n = NonceSize g → Open g n (Seal g n p) = inr p;
  open_authentic g n c p : Open g n c = inr p → c = Seal g n p;
}.

(** [%v] of a value: of a nil interface, a string, a boolean and an integer; the
    text of other types is a parameter. *)
Class FmtV := fmt_other : value → string.
Definition fmt_v `{FmtV} (v : value) : string :=
  match v with
  | VNil => "<nil>"
  | VString s => s
  | VBool b => if b then "true" else "false"
  | VInt _ z | VUint _ z => Strconv.FormatInt z
  | _ => fmt_other v
  end.

Definition base64_error : error := ENew "illegal base64 data".

Section Crypto.
Context `{AEAD, FmtV}.

(** [rnd n] is what reading [n] random bytes gives. *)
Definition Encrypt (rnd : nat → error + string) (plaintext encryptKey : string) : error + string :=
  if bool_decide (encryptKey = "") then inl (ENew "encryption key not configured")
  else match aes_NewCipher encryptKey with
  | inl e => inl (wrapf "create cipher: " e "")
  | inr b =>
      match cipher_NewGCM b with
      | inl e => inl (wrapf "create GCM: " e "")
      | inr g =>
          match rnd (NonceSize g) with
          | inl e => inl (wrapf "generate nonce: " e "")
          | inr nonce => inr (EncodeToString (nonce +:+ Seal g nonce plaintext))
          end
      end
  end.

Definition Decrypt (encoded encryptKey : string) : error + string :=
  if bool_decide (encryptKey = "") then inl (ENew "encryption key not configured")
  else match DecodeString encoded with
  | None => inl (wrapf "decode base64url: " base64_error "")
  | Some data =>
      match aes_NewCipher encryptKey with
      | inl e => inl (wrapf "create cipher: " e "")
      | inr b =>
          match cipher_NewGCM b with
          | inl e => inl (wrapf "create GCM: " e "")
          | inr g =>
              if String.length data <? NonceSize g then inl (ENew "ciphertext too short")
              else match Open g (take (NonceSize g) data) (drop (NonceSize g) data) with
                   | inl e => inl (wrapf "decrypt: " e "")
                   | inr plaintext => inr plaintext
                   end
          end
      end
  end.

Definition EncryptString := Encrypt.
Definition DecryptString (encoded encryptKey : string) : error + string :=
  match Decrypt encoded encryptKey with
  | inl e => inl e
  | inr plaintext => inr plaintext
  end.

(** ** CSRF tokens *)

Definition csrf_session_id (s : Session) : string :=
  if bool_decide (Session_ID s = "") then fmt_v (Session_Get "_t" s) else Session_ID s.

(** [now] is [time.Now().Unix()]. *)
Definition GenerateCSRFToken (rnd : nat → error + string) (now : Z) (session : option Session)
    (encryptKey : string) : error + string :=
  if bool_decide (encryptKey = "") then inl (ENew "encryption key not configured")
  else match session with
  | None => inl (ENew "session not available")
  | Some s =>
      EncryptString rnd (csrf_session_id s +:+ "|" +:+ Strconv.FormatInt now) encryptKey
  end.

Definition VerifyCSRFToken (now : Z) (token : string) (session : option Session) (encryptKey : string) : bool :=
  if bool_decide (encryptKey = "") || bool_decide (token = "") then false
  else match session with
  | None => false
  | Some s =>
      match DecryptString token encryptKey with
      | inl _ => false
      | inr plaintext =>
          match SplitN2 "|"%char plaintext with
          | (_, None) => false
          | (tokenSessionID, Some timestampStr) =>
              if bool_decide (tokenSessionID ≠ csrf_session_id s) then false
              else match Strconv.ParseInt 64 timestampStr with
                   | (_, Some _) => false
                   | (timestamp, None) =>
                       let elapsed := wrap64 (now - timestamp) in
                       negb ((elapsed <? 0)%Z || (7200 <? elapsed)%Z)
                   end
          end
      end
  end.

(** ** Encrypted identifiers *)

Definition EncryptID (rnd : nat → error + string) (encryptKey : string) (id : Z) : error + string :=
  EncryptString rnd (Strconv.FormatInt id) encryptKey.

(** [query_id] is [c.Get("id")]; the error of [ParseInt] keeps the value it returns. *)
Definition DecryptID (encryptKey query_id : string) (encoded : list string) : Z * option error :=
  let val := match encoded with [] => "" | e :: _ => e end in
  let val := if bool_decide (val = "") then query_id else val in
  if bool_decide (val = "") then (0%Z, Some (ENew "id tidak ditemukan di request"))
  else match DecryptString val encryptKey with
  | inl e => (0%Z, Some e)
  | inr str =>
      match Strconv.ParseInt 64 str with
      | (n, None) => (n, None)
      | (n, Some Strconv.ErrSyntax) => (n, Some (ESentinel "strconv.ErrSyntax"))
      | (n, Some Strconv.ErrRange) => (n, Some (ESentinel "strconv.ErrRange"))
      end
  end.
End Crypto.

(** ** Properties *)

Lemma take_app_length a b : take (String.length a) (a +:+ b) = a.
Proof. induction a as [|c a IH]; simpl; [by destruct b|]. by rewrite IH. Qed.
Lemma drop_app_length a b : drop (String.length a) (a +:+ b) = b.
Proof. induction a as [|c a IH]; simpl; [by destruct b|]. done. Qed.
Lemma take_drop n s : take n s +:+ drop n s = s.
Proof. revert s. induction n as [|n IH]; intros [|c s]; simpl; rewrite ?string_app_cons, ?IH; done. Qed.
Lemma length_take n s : n <= String.length s → String.length (take n s) = n.
Proof. revert s. induction n as [|n IH]; intros [|c s]; simpl; intros; try lia. rewrite IH; lia. Qed.

Lemma SplitN2_inv c s a b : SplitN2 c s = (a, Some b) → s = a +:+ String c b ∧ word c a.
Proof.
  revert a b. induction s as [|x s IH]; intros a b; simpl; [done|].
  case_bool_decide as Hx.
  - intros [= <- <-]. by subst.
  - destruct (SplitN2 c s) as [a' r] eqn:E. intros [= <- ->].
    destruct (IH a' b eq_refl) as [-> Hw]. rewrite string_app_cons. split; [done|]. by apply word_cons.
Qed.

Section Laws.
Context `{AEADLaws, FmtV}.

(** The random source delivers the bytes asked for. *)
Definition fills (rnd : nat → error + string) : Prop :=
  ∀ n, ∃ b, rnd n = inr b ∧ String.length b = n.

Lemma valid_key_gcm key :
  String.length key ∈ [16; 24; 32] →
  key ≠ "" ∧ ∃ b g, aes_NewCipher key = inr b ∧ cipher_NewGCM b = inr g ∧ NonceSize g = 12.
Proof.
  intros Hk. split; [by intros ->; apply (bool_decide_pack _) in Hk|].
  apply aes_key_sizes in Hk as [b Hb]. destruct (aes_gcm key b Hb) as (g & Hg & Hn). eauto.
Qed.

Lemma Decrypt_Encrypt rnd key p :
  String.length key ∈ [16; 24; 32] → fills rnd →
  ∃ c, Encrypt rnd p key = inr c ∧ c ≠ "" ∧ Decrypt c key = inr p.
Proof.
  intros Hk Hr. destruct (valid_key_gcm key Hk) as (Hne & b & g & Hb & Hg & Hn).
  destruct (Hr (NonceSize g)) as (nonce & Hnonce & Hlen).
  exists (EncodeToString (nonce +:+ Seal g nonce p)). unfold Encrypt, Decrypt.
  rewrite bool_decide_false by done. rewrite Hb, Hg, Hnonce. split; [done|]. split.
  - apply EncodeToString_not_empty. destruct nonce; [simpl in Hlen; lia|done].
  - rewrite DecodeString_EncodeToString. rewrite <-Hlen, take_app_length, drop_app_length, string_app_length.
    destruct (Nat.ltb_spec (String.length nonce + String.length (Seal g nonce p)) (String.length nonce)); [lia|].
    by rewrite open_seal.
Qed.

(** What decrypts was sealed under the key. *)
Lemma Decrypt_authentic c key p :
  Decrypt c key = inr p →
  ∃ b g nonce, aes_NewCipher key = inr b ∧ cipher_NewGCM b = inr g ∧
    String.length nonce = NonceSize g ∧ DecodeString c = Some (nonce +:+ Seal g nonce p).
Proof.
  unfold Decrypt. case_bool_decide; [done|]. destruct (DecodeString c) as [d|]; [|done].
  destruct (aes_NewCipher key) as [|b]; [done|]. destruct (cipher_NewGCM b) as [|g] eqn:Hg; [done|].
  destruct (Nat.ltb_spec (String.length d) (NonceSize g)); [done|].
  destruct (Open g _ _) as [|p'] eqn:Ho; [done|]. intros [= ->].
  apply open_authentic in Ho. exists b, g, (take (NonceSize g) d). split_and!; try done.
  - by apply length_take.
  - by rewrite <-Ho, take_drop.
Qed.

(** [C18] With an AES key of a valid size, what [Encrypt] returns decrypts to the
    plaintext; and conversely whatever [Decrypt] accepts is the encoding of a
    nonce and a message sealed under that very key, with a nonce of the right
    length. *)
Theorem encrypt_decrypt_authentic rnd key :
  String.length key ∈ [16; 24; 32] → fills rnd →
  (∀ p, ∃ c, Encrypt rnd p key = inr c ∧ Decrypt c key = inr p) ∧
  (∀ c p, Decrypt c key = inr p →
    ∃ b g nonce, aes_NewCipher key = inr b ∧ cipher_NewGCM b = inr g ∧
      String.length nonce = 12 ∧ DecodeString c = Some (nonce +:+ Seal g nonce p)).
Proof.
  intros Hk Hr. split.
  - intros p. destruct (Decrypt_Encrypt rnd key p Hk Hr) as (c & ? & _ & ?). eauto.
  - intros c p (b & g & nonce & Hb & Hg & Hl & Hd)%Decrypt_authentic.
    destruct (aes_gcm key b Hb) as (g' & Hg' & Hn).
    assert (g' = g) as -> by congruence. rewrite Hn in Hl. eauto 10.
Qed.

(** An encrypted identifier decrypts to the identifier, for every [int64],
    given as argument or as the request's [id]. *)
Theorem encrypted_id_roundtrip rnd key id q :
  String.length key ∈ [16; 24; 32] → fills rnd → in_int64 id →
  ∃ c, EncryptID rnd key id = inr c ∧ DecryptID key q [c] = (id, None) ∧ DecryptID key c [] = (id, None).
Proof.
  intros Hk Hr Hid. destruct (Decrypt_Encrypt rnd key (Strconv.FormatInt id) Hk Hr) as (c & Hc & Hne & Hd).
  assert (bool_decide (c = "") = false) as Hb by (by apply bool_decide_eq_false).
  exists c. split; [done|]. unfold DecryptID, DecryptString. rewrite !Hb.
  rewrite Hd, Strconv.ParseInt_FormatInt by done. split; [done|].
  rewrite (bool_decide_true ("" = "")) by done. by rewrite Hb, Hd, Strconv.ParseInt_FormatInt.
Qed.

(** The verdict on a token, spelled out. *)
Lemma VerifyCSRFToken_iff now token s key :
  VerifyCSRFToken now token (Some s) key = true ↔
  token ≠ "" ∧ ∃ text ts, Decrypt token key = inr (csrf_session_id s +:+ "|" +:+ text) ∧
    word "|"%char (csrf_session_id s) ∧ Strconv.ParseInt 64 text = (ts, None) ∧
    (0 <= wrap64 (now - ts) <= 7200)%Z.
Proof.
  unfold VerifyCSRFToken, DecryptString. split.
  - case_bool_decide; [done|]. case_bool_decide; simpl; [done|]. intros Hv. split; [done|].
    destruct (Decrypt token key) as [|p] eqn:E; [done|].
    destruct (SplitN2 "|" p) as [sid [text|]] eqn:Es; [|done].
    case_bool_decide as Hsid; [done|]. subst sid.
    apply SplitN2_inv in Es as [-> Hw].
    destruct (Strconv.ParseInt 64 text) as [ts [|]] eqn:Ep; [done|].
    exists text, ts. split_and!; try done; to_prop; lia.
  - intros (Hne & text & ts & Hd & Hw & Hp & Ht).
    assert (key ≠ "") as Hk by (intros ->; unfold Decrypt in Hd; by rewrite bool_decide_true in Hd).
    rewrite !bool_decide_false by done. simpl. rewrite Hd.
    change ("|" +:+ text) with (String "|" text). rewrite SplitN2_app by done.
    rewrite bool_decide_false by (intros ?; done). rewrite Hp.
    apply negb_true_iff, orb_false_iff. split; [apply Z.ltb_ge|apply Z.ltb_ge]; lia.
Qed.

(** A CSRF token issued at time [t] for a session is accepted exactly for a
    session with the same identifier and from [t] up to 7200 seconds later; for
    every other session, and outside that window, it is refused. *)
Theorem csrf_token_bound_and_fresh rnd key s s' t now :
  String.length key ∈ [16; 24; 32] → fills rnd →
  (0 <= t < 2 ^ 62)%Z → (0 <= now < 2 ^ 62)%Z → word "|"%char (csrf_session_id s) →
  ∃ token, GenerateCSRFToken rnd t (Some s) key = inr token ∧
    (VerifyCSRFToken now token (Some s') key = true ↔
     csrf_session_id s' = csrf_session_id s ∧ (t <= now <= t + 7200)%Z).
Proof.
  intros Hk Hr Ht Hnow Hw.
  destruct (Decrypt_Encrypt rnd key (csrf_session_id s +:+ "|" +:+ Strconv.FormatInt t) Hk Hr)
    as (c & Hc & Hne & Hd).
  exists c. unfold GenerateCSRFToken.
  rewrite bool_decide_false by (by destruct (valid_key_gcm key Hk)). split; [done|].
  rewrite VerifyCSRFToken_iff.
  assert (in_int64 t) by (unfold in_int64, min_int64, max_int64; lia).
  assert (wrap64 (now - t) = (now - t)%Z) as Hwrap.
  { apply wrap64_id. unfold in_int64, min_int64, max_int64. lia. }
  split.
  - intros (_ & text & ts & Hd' & Hw' & Hp & Hts). rewrite Hd in Hd'.
    assert (SplitN2 "|" (csrf_session_id s +:+ String "|" (Strconv.FormatInt t)) =
            SplitN2 "|" (csrf_session_id s' +:+ String "|" text)) as Heq.
    { f_equal. by injection Hd'. }
    rewrite !SplitN2_app in Heq by done. injection Heq as Heq1 Heq2. subst text.
    rewrite Strconv.ParseInt_FormatInt in Hp by done. injection Hp as <-. rewrite Hwrap in Hts. split; [done|lia].
  - intros [-> Hts]. split; [done|]. exists (Strconv.FormatInt t), t.
    split_and!; try done; [by apply Strconv.ParseInt_FormatInt|lia|lia].
Qed.
End Laws.

(** ** A concrete cipher

    A toy cipher with the interface's laws: the sealed message is the key and the
    plaintext. *)
Fixpoint strip_prefix (p s : string) : option string :=
  match p, s with
  | "", _ => Some s
  | String a p', String b s' => if bool_decide (a = b) then strip_prefix p' s' else None
  | _, _ => None
  end.

#[global] Instance toy_aead : AEAD := {|
  block := string;
  gcm := string;
  aes_NewCipher k := if bool_decide (String.length k ∈ [16; 24; 32]) then inr k else inl (ENew "invalid key size");
  cipher_NewGCM b := inr b;
  NonceSize _ := 12;
  Seal g n p := g +:+ p;
  Open g n c := match strip_prefix g c with Some p => inr p | None => inl (ENew "message authentication failed") end;
|}.

Lemma strip_prefix_iff p s t : strip_prefix p s = Some t ↔ s = p +:+ t.
Proof.
  revert s. induction p as [|a p IH]; intros s; simpl.
  - rewrite string_app_nil_l. split; congruence.
  - rewrite string_app_cons. destruct s as [|b s]; [done|]. case_bool_decide as Hab.
    + subst. rewrite IH. split; [by intros ->|by intros [= ->]].
    + split; [done|]. intros [= -> _]. done.
Qed.

#[global] Instance toy_aead_laws : AEADLaws.
Proof.
  split; simpl.
  - intros k. case_bool_decide; split; try done; [by eexists|by intros [??]].
  - intros k b. eauto.
  - intros g n p _. assert (strip_prefix g (g +:+ p) = Some p) as -> by (by apply strip_prefix_iff). done.
  - intros g n c p. destruct (strip_prefix g c) as [p'|] eqn:E; [|done]. intros [= ->].
    by apply strip_prefix_iff.
Qed.

#[global] Instance demo_fmt : FmtV := λ _, "?".

Definition demo_key : string := "0123456789abcdef".
Definition demo_nonce (n : nat) : error + string := inr (String.string_of_list_ascii (repeat "n"%char n)).

Lemma demo_nonce_fills : fills demo_nonce.
Proof.
  intros n. eexists. split; [reflexivity|]. rewrite string_of_list_length. apply repeat_length.
Qed.

Lemma encrypt_decrypt_authentic_witness :
  ∃ c, Encrypt demo_nonce "hello" demo_key = inr c ∧ Decrypt c demo_key = inr "hello".
Proof.
  apply (encrypt_decrypt_authentic demo_nonce demo_key); [|exact demo_nonce_fills].
  apply (bool_decide_unpack _). exact I.
Defined.

Lemma encrypted_id_roundtrip_witness :
  ∃ c, EncryptID demo_nonce demo_key (-7) = inr c ∧ DecryptID demo_key "" [c] = (-7, None)%Z.
Proof.
  destruct (encrypted_id_roundtrip demo_nonce demo_key (-7) "") as (c & H1 & H2 & _).
  - apply (bool_decide_unpack _). exact I.
  - exact demo_nonce_fills.
  - unfold in_int64, min_int64, max_int64. lia.
  - exists c. split; [exact H1|exact H2].
Defined.

Definition demo_session (id : string) : Session :=
  NewSession (Some (mkRaw id ∅ demo_options false "sessions")).

Lemma csrf_token_bound_and_fresh_witness :
  ∃ token, GenerateCSRFToken demo_nonce 1000 (Some (demo_session "abc")) demo_key = inr token ∧
    VerifyCSRFToken 2000 token (Some (demo_session "abc")) demo_key = true.
Proof.
  destruct (csrf_token_bound_and_fresh demo_nonce demo_key (demo_session "abc") (demo_session "abc") 1000 2000)
    as (token & Hg & Hv).
  - apply (bool_decide_unpack _). exact I.
  - exact demo_nonce_fills.
  - lia.
  - lia.
  - reflexivity.
  - exists token. split; [exact Hg|]. apply Hv. split; [reflexivity|lia].
Defined.
