(* ===== verification/RateLimit.v ===== *)
(** * Rate limiting

    [internal/security/ratelimit.go]: 32 shards of token buckets, chosen by the
    FNV-1a hash of the key, with eviction of the oldest entries of a full shard
    and a periodic cleanup; and [redis_ratelimit.go], the same bucket as a Redis
    script.  The code computes in [float64]; the definitions are written against
    the interface [Arith], which has the [float64] operations of [SpecFloat] as
    one instance and the rationals, without rounding, as another.  A shard's mutex
    makes its operations atomic: a run of the store is a sequence of them. *)

From S2P Require Import Prelude GoStrings GoValue GoFloat.
From Stdlib Require Import Ascii QArith Lqa.

Local Close Scope Q_scope.

Class Arith (F : Type) := {
  fadd : F → F → F;
  fsub : F → F → F;
  fmul : F → F → F;
  fdiv : F → F → F;
  fltb : F → F → bool;
  fleb : F → F → bool;
  fofZ : Z → F;
}.

#[global] Instance float64_arith : Arith spec_float := {|
  fadd := SFadd 53 1024;
  fsub := SFsub 53 1024;
  fmul := SFmul 53 1024;
  fdiv := SFdiv 53 1024;
  fltb := SFltb;
  fleb := SFleb;
  fofZ := float_of_Z;
|}.

#[global] Instance exact_arith : Arith Q := {|
  fadd := Qplus;
  fsub := Qminus;
  fmul := Qmult;
  fdiv := Qdiv;
  fltb a b := negb (Qle_bool b a);
  fleb := Qle_bool;
  fofZ := inject_Z;
|}.

Definition shardCount : nat := 32.
Definition maxEntriesPerShard : Z := 10000.

(** Times and durations are in nanoseconds; [Time.Sub] saturates at [int64]. *)
Definition time_Sub (t u : Z) : Z := Z.max min_int64 (Z.min max_int64 (t - u)).

(** [Duration.Seconds]: whole seconds plus the rest. *)
Definition Seconds {F} `{Arith F} (d : Z) : F :=
  fadd (fofZ (Z.quot d 1000000000)) (fdiv (fofZ (Z.rem d 1000000000)) (fofZ 1000000000)).

(** [fnv.New32a]. *)
Definition fnv_step (h : Z) (a : ascii) : Z := (Z.lxor h (byte_val a) * 16777619) mod 2 ^ 32.
Fixpoint fnv32a_go (h : Z) (s : string) : Z :=
  match s with "" => h | String a s' => fnv32a_go (fnv_step h a) s' end.
Definition fnv32a (s : string) : Z := fnv32a_go 2166136261 s.

Section Store.
Context {F : Type} `{Arith F}.

Record rateLimiter := mkLimiter { tokens : F; last_seen : Z }.

(** A shard is its map of limiters. *)
Record Store := mkStore {
  shards : list (gmap string rateLimiter);
  rate : F;
  burst : F;
  ttl : Z;
  cleanupInterval : Z;
}.

Definition with_shard (s : Store) (i : nat) (sh : gmap string rateLimiter) : Store :=
  mkStore (<[i := sh]> (shards s)) (rate s) (burst s) (ttl s) (cleanupInterval s).

Definition NewStore (r : F) (b ttl cleanupInterval : Z) : Store :=
  let cleanupInterval := if (cleanupInterval <=? 0)%Z then (300 * 1000000000)%Z else cleanupInterval in
  mkStore (replicate shardCount ∅) r (fofZ b) ttl cleanupInterval.

Definition shard_index (key : string) : nat := Z.to_nat (fnv32a key mod Z.of_nat shardCount).

Definition getShard (s : Store) (key : string) : gmap string rateLimiter :=
  default ∅ (shards s !! shard_index key).

(** *** evictOldest *)

(** The inner loop for position [i] holding [x]: it keeps the smallest entry met
    so far there and leaves the entry it replaces where the smaller one was. *)
Fixpoint exchange_pass (x : string * Z) (l : list (string * Z)) : (string * Z) * list (string * Z) :=
  match l with
  | [] => (x, [])
  | y :: l' =>
      if (y.2 <? x.2)%Z then let '(m, r) := exchange_pass y l' in (m, x :: r)
      else let '(m, r) := exchange_pass x l' in (m, y :: r)
  end.

(** The outer loop, over the positions still to be fixed. *)
Fixpoint exchange_sort (n : nat) (l : list (string * Z)) : list (string * Z) :=
  match n, l with
  | S n', x :: l' => let '(m, r) := exchange_pass x l' in m :: exchange_sort n' r
  | _, _ => []
  end.

Definition deleteCount : nat :=
  let n := (maxEntriesPerShard / 10)%Z in Z.to_nat (if (n <? 1)%Z then 1 else n).

(** [order] is the order in which ranging over the map yields the entries. *)
Definition evictOldest (order : list (string * rateLimiter)) (shard : gmap string rateLimiter) : gmap string rateLimiter :=
  let entries := (λ p, (p.1, last_seen p.2)) <$> order in
  let sorted := exchange_sort (length entries) entries in
  foldl (λ sh p, delete p.1 sh) shard (take deleteCount sorted).

(** *** Allow *)

(** A known key: refill, clamp, take a token. *)
Definition take_token (r b : F) (now : Z) (lim : rateLimiter) : bool * rateLimiter :=
  let elapsed := Seconds (time_Sub now (last_seen lim)) in
  let elapsed := if fltb elapsed (fofZ 0) then fofZ 0 else elapsed in
  let t := fadd (tokens lim) (fmul elapsed r) in
  let t := if fltb b t then b else t in
  if fltb t (fofZ 1) then (false, mkLimiter t now)
  else (true, mkLimiter (fsub t (fofZ 1)) now).

Definition Allow (order : gmap string rateLimiter → list (string * rateLimiter)) (now : Z) (key : string) (s : Store)
    : bool * Store :=
  let i := shard_index key in
  let shard := getShard s key in
  match shard !! key with
  | None =>
      let shard := if (maxEntriesPerShard <=? Z.of_nat (size shard))%Z
                   then evictOldest (order shard) shard else shard in
      (true, with_shard s i (<[key := mkLimiter (fsub (burst s) (fofZ 1)) now]> shard))
  | Some lim =>
      let '(ok, lim') := take_token (rate s) (burst s) now lim in
      (ok, with_shard s i (<[key := lim']> shard))
  end.

(** One tick of [cleanup]. *)
Definition cleanup_tick (now : Z) (s : Store) : Store :=
  mkStore ((λ sh, filter (λ p, (time_Sub now (last_seen p.2) <= ttl s)%Z) sh) <$> shards s)
    (rate s) (burst s) (ttl s) (cleanupInterval s).
End Store.
Arguments rateLimiter : clear implicits.
Arguments Store : clear implicits.

(** ** Eviction *)

Definition older (x y : string * Z) : Prop := (x.2 <= y.2)%Z.

Lemma exchange_pass_spec x l m r :
  exchange_pass x l = (m, r) → m :: r ≡ₚ x :: l ∧ older m x ∧ Forall (older m) r.
Proof.
  revert x m r. induction l as [|y l IH]; intros x m r Hp; simpl in Hp.
  - injection Hp as <- <-. split_and!; [done|unfold older; lia|constructor].
  - destruct (Z.ltb_spec y.2 x.2) as [Hlt|Hge].
    + destruct (exchange_pass y l) as [m' r'] eqn:E. injection Hp as <- <-.
      destruct (IH _ _ _ E) as (Hperm & Hy & Hr). split_and!.
      * rewrite (Permutation_swap x m' r'), Hperm. done.
      * unfold older in *. lia.
      * constructor; [|done]. unfold older in *. lia.
    + destruct (exchange_pass x l) as [m' r'] eqn:E. injection Hp as <- <-.
      destruct (IH _ _ _ E) as (Hperm & Hy & Hr). split_and!.
      * rewrite (Permutation_swap y m' r'), Hperm. apply Permutation_swap.
      * done.
      * constructor; [|done]. unfold older in *. lia.
Qed.

(** The nested loops sort by last use. *)
Lemma exchange_sort_spec l : exchange_sort (length l) l ≡ₚ l ∧ StronglySorted older (exchange_sort (length l) l).
Proof.
  remember (length l) as n eqn:Hn. revert l Hn. induction n as [|n IH]; intros [|x l] Hn; simpl in *; try lia.
  - split; [done|constructor].
  - destruct (exchange_pass x l) as [m r] eqn:E. destruct (exchange_pass_spec _ _ _ _ E) as (Hp & Hx & Hr).
    assert (length r = n) as Hlen.
    { apply Permutation_length in Hp. simpl in Hp. lia. }
    destruct (IH r (eq_sym Hlen)) as [Hp' Hs]. split.
    + by rewrite Hp', Hp.
    + constructor; [done|]. by rewrite Hp'.
Qed.

Section Evict.
Context {F : Type} `{Arith F}.
Implicit Types sh : gmap string (rateLimiter F).

Definition delete_all (l : list (string * Z)) sh : gmap string (rateLimiter F) :=
  foldl (λ sh p, delete p.1 sh) sh l.

Lemma delete_all_lookup l sh k :
  delete_all l sh !! k = if bool_decide (k ∈ l.*1) then None else sh !! k.
Proof.
  revert sh. induction l as [|p l IH]; intros sh; simpl; [done|].
  change (foldl _ _ l) with (delete_all l (delete p.1 sh)). rewrite IH.
  destruct (decide (k = p.1)) as [->|Hne].
  - rewrite lookup_delete_eq. rewrite (bool_decide_true (_ ∈ _ :: _)) by (by left). by case_bool_decide.
  - rewrite lookup_delete_ne by done. f_equal. rewrite (bool_decide_ext _ (k ∈ p.1 :: l.*1)); [done|].
    rewrite elem_of_cons. tauto.
Qed.

Lemma delete_all_size l sh :
  NoDup l.*1 → (∀ k, k ∈ l.*1 → is_Some (sh !! k)) → size (delete_all l sh) = size sh - length l.
Proof.
  revert sh. induction l as [|p l IH]; intros sh Hnd Hin; simpl; [unfold delete_all; simpl; lia|].
  apply NoDup_cons in Hnd as [Hni Hnd].
  change (foldl _ _ l) with (delete_all l (delete p.1 sh)). rewrite IH; [|done|].
  - rewrite map_size_delete_Some by (apply Hin; by left). lia.
  - intros k Hk. rewrite lookup_delete_ne by (intros <-; done). apply Hin. by right.
Qed.

(** The last uses of the entries of a shard, in the order of the sort. *)
Lemma sorted_entries_spec order sh :
  order ≡ₚ map_to_list sh →
  let l := exchange_sort (length order) ((λ p, (p.1, last_seen p.2)) <$> order) in
  StronglySorted older l ∧ NoDup l.*1 ∧ length l = size sh ∧
  ∀ k t, (k, t) ∈ l ↔ ∃ lim, sh !! k = Some lim ∧ last_seen lim = t.
Proof.
  intros Ho l. destruct (exchange_sort_spec ((λ p, (p.1, last_seen p.2)) <$> order)) as [Hp Hs].
  rewrite length_fmap in Hp, Hs. fold l in Hp, Hs. split_and!; [done|..].
  - rewrite Hp, Ho, <-list_fmap_compose. apply NoDup_fst_map_to_list.
  - by rewrite Hp, length_fmap, Ho, length_map_to_list.
  - intros k t. rewrite Hp, Ho, list_elem_of_fmap. split.
    + intros ([k' lim] & [= -> ->] & Hin%elem_of_map_to_list). eauto.
    + intros (lim & Hk & <-). exists (k, lim). split; [done|]. by apply elem_of_map_to_list.
Qed.

(** Eviction keeps a sub-map, drops the given number of entries, and drops none
    that was used after one it keeps. *)
Lemma evictOldest_spec order sh :
  order ≡ₚ map_to_list sh →
  evictOldest order sh ⊆ sh ∧
  size (evictOldest order sh) = size sh - deleteCount ∧
  ∀ k lim k' lim', sh !! k = Some lim → evictOldest order sh !! k = None →
    evictOldest order sh !! k' = Some lim' → (last_seen lim <= last_seen lim')%Z.
Proof.
  intros Ho. pose proof (sorted_entries_spec order sh Ho) as Hl.
  unfold evictOldest. rewrite length_fmap. cbv zeta in Hl.
  set (l := exchange_sort _ _) in *. destruct Hl as (Hs & Hnd & Hlen & Hin).
  change (foldl _ sh (take deleteCount l)) with (delete_all (take deleteCount l) sh).
  rewrite <-(take_drop deleteCount l) in Hs, Hnd, Hin. split_and!.
  - apply map_subseteq_spec. intros k lim. rewrite delete_all_lookup. by case_bool_decide.
  - rewrite fmap_app in Hnd. apply NoDup_app in Hnd as (Hnd & _ & _).
    rewrite delete_all_size; [rewrite length_take; lia|done|].
    intros k Hk. apply list_elem_of_fmap in Hk as ([k' t] & -> & Hk).
    destruct (Hin k' t) as [H1 _]. destruct H1 as (lim & Hlim & _); [|by eexists]. apply elem_of_app. by left.
  - intros k lim k' lim' Hk Hgone Hk'. rewrite delete_all_lookup in Hgone, Hk'.
    destruct (bool_decide_reflect (k ∈ (take deleteCount l).*1)) as [Hin1|]; [|congruence].
    destruct (bool_decide_reflect (k' ∈ (take deleteCount l).*1)) as [|Hin2]; [done|].
    assert ((k, last_seen lim) ∈ take deleteCount l) as H1.
    { apply list_elem_of_fmap in Hin1 as ([k0 t] & -> & H1). simpl in *.
      destruct (Hin k0 t) as [H2 _]. destruct H2 as (lim0 & Hlim & <-); [apply elem_of_app; by left|]. by simplify_eq. }
    assert ((k', last_seen lim') ∈ drop deleteCount l) as H2.
    { assert ((k', last_seen lim') ∈ take deleteCount l ++ drop deleteCount l) as H2 by (apply Hin; eauto).
      apply elem_of_app in H2 as [H2|H2]; [|done]. exfalso. apply Hin2.
      by apply (list_elem_of_fmap_2 fst) in H2. }
    apply (StronglySorted_app_1_elem_of _ _ _ _ _ Hs H1 H2).
Qed.
End Evict.

Lemma deleteCount_val : Z.of_nat deleteCount = 1000%Z.
Proof. reflexivity. Qed.

(** ** The store over time *)

(** What happens to a store: a request of a key, or a tick of the cleanup. *)
Inductive event :=
  | EAllow (now : Z) (key : string)
  | ETick (now : Z).

Definition event_time (e : event) : Z := match e with EAllow now _ | ETick now => now end.

Section Run.
Context {F : Type} `{Arith F}.

Implicit Types s : Store F.

(** Any order of iteration over a map. *)
Definition map_order (order : gmap string (rateLimiter F) → list (string * rateLimiter F)) : Prop :=
  ∀ sh, order sh ≡ₚ map_to_list sh.

Definition step order (e : event) (s : Store F) : bool * Store F :=
  match e with
  | EAllow now key => Allow order now key s
  | ETick now => (false, cleanup_tick now s)
  end.

Inductive reachable order (s0 : Store F) : Store F → Prop :=
  | reach_init : reachable order s0 s0
  | reach_step s e : reachable order s0 s → reachable order s0 (step order e s).2.

(** 32 shards, none over its bound, every entry in the shard of its key. *)
Definition store_ok (s : Store F) : Prop :=
  length (shards s) = shardCount ∧
  ∀ i sh, shards s !! i = Some sh →
    (Z.of_nat (size sh) <= maxEntriesPerShard)%Z ∧ ∀ k, is_Some (sh !! k) → shard_index k = i.

Lemma shard_index_lt key : shard_index key < shardCount.
Proof.
  unfold shard_index. pose proof (Z.mod_pos_bound (fnv32a key) (Z.of_nat shardCount) ltac:(unfold shardCount; lia)).
  unfold shardCount in *. lia.
Qed.

Lemma getShard_lookup s key : length (shards s) = shardCount → shards s !! shard_index key = Some (getShard s key).
Proof.
  intros Hl. unfold getShard. destruct (shards s !! shard_index key) eqn:E; [done|].
  apply lookup_ge_None in E. pose proof (shard_index_lt key). lia.
Qed.

Lemma with_shard_ok s i sh :
  store_ok s → (Z.of_nat (size sh) <= maxEntriesPerShard)%Z → (∀ k, is_Some (sh !! k) → shard_index k = i) →
  store_ok (with_shard s i sh).
Proof.
  intros [Hl Hs] Hsz Hk. split; [simpl; by rewrite length_insert|].
  intros j sh' Hj. simpl in Hj. apply list_lookup_insert_Some in Hj as [(<- & <- & _)|[Hne Hj]]; [done|].
  by apply Hs.
Qed.

Lemma Allow_ok order now key s : map_order order → store_ok s → store_ok (Allow order now key s).2.
Proof.
  intros Ho Hs. pose proof Hs as [Hl Hs']. pose proof (getShard_lookup s key Hl) as Hg.
  destruct (Hs' _ _ Hg) as [Hsz Hk]. unfold Allow.
  destruct (getShard s key !! key) as [lim|] eqn:E.
  - destruct (take_token _ _ _ _) as [ok lim']. simpl. apply with_shard_ok; [done|..].
    + by rewrite map_size_insert_Some.
    + intros k Hin. destruct (decide (key = k)) as [->|Hne]; [done|].
      rewrite lookup_insert_ne in Hin by done. by apply Hk.
  - simpl. destruct (evictOldest_spec (order (getShard s key)) (getShard s key) (Ho _)) as (Hsub & Hesz & _).
    set (sh := if (maxEntriesPerShard <=? _)%Z then _ else _).
    assert (sh ⊆ getShard s key ∧ (Z.of_nat (size sh) < maxEntriesPerShard)%Z) as [Hsub' Hlt].
    { unfold sh. destruct (Z.leb_spec maxEntriesPerShard (Z.of_nat (size (getShard s key)))); [|done].
      split; [done|]. rewrite Hesz. pose proof deleteCount_val. unfold maxEntriesPerShard in *. lia. }
    apply with_shard_ok; [done|..].
    + assert (sh !! key = None) by (eapply lookup_weaken_None; eauto).
      rewrite map_size_insert_None by done. lia.
    + intros k Hin. destruct (decide (key = k)) as [->|Hne]; [done|].
      rewrite lookup_insert_ne in Hin by done. apply Hk. destruct Hin as [x Hx].
      exists x. by eapply lookup_weaken.
Qed.

Lemma cleanup_ok now s : store_ok s → store_ok (cleanup_tick now s).
Proof.
  intros [Hl Hs]. split; [simpl; by rewrite length_fmap|].
  intros i sh Hi. simpl in Hi. rewrite list_lookup_fmap in Hi.
  destruct (shards s !! i) as [sh0|] eqn:E; simplify_eq/=. destruct (Hs _ _ E) as [Hsz Hk]. split.
  - etrans; [|exact Hsz]. apply inj_le, map_size_filter.
  - intros k [x Hx]. apply Hk. apply map_lookup_filter_Some in Hx as [Hx _]. by eexists.
Qed.

Lemma reachable_ok order s0 s : map_order order → store_ok s0 → reachable order s0 s → store_ok s.
Proof.
  intros Ho Hs0. induction 1 as [|s e Hr IH]; [done|].
  destruct e; simpl; [by apply Allow_ok|by apply cleanup_ok].
Qed.

Lemma NewStore_ok r b ttl ci : store_ok (NewStore r b ttl ci).
Proof.
  split; [done|].
  intros i sh Hi. cbn [shards NewStore] in Hi. apply lookup_replicate in Hi as [-> _]. split; [by rewrite map_size_empty|].
  intros k [x Hx]. by rewrite lookup_empty in Hx.
Qed.

(** The entry of a key. *)
Definition entry (s : Store F) (k : string) : option (rateLimiter F) := getShard s k !! k.

Lemma getShard_with_shard s i sh k :
  length (shards s) = shardCount → i < shardCount →
  getShard (with_shard s i sh) k = if decide (shard_index k = i) then sh else getShard s k.
Proof.
  intros Hl Hi. unfold getShard. simpl. destruct (decide (shard_index k = i)) as [<-|Hne].
  - rewrite list_lookup_insert_eq; [done|lia].
  - by rewrite list_lookup_insert_ne.
Qed.
End Run.

(** The store is bounded: after any sequence of requests and cleanup ticks, in
    any order of map iteration, there are 32 shards of at most 10,000 entries and
    every entry is in the shard its key hashes to; and when a full shard makes
    room it drops a thousand entries, none of them used after one that is kept. *)
Theorem store_bounded order r b tl ci (s : Store spec_float) :
  map_order order → reachable order (NewStore r b tl ci) s →
  length (shards s) = 32 ∧
  (∀ i sh, shards s !! i = Some sh → (Z.of_nat (size sh) <= 10000)%Z ∧ ∀ k, is_Some (sh !! k) → shard_index k = i) ∧
  (∀ i sh, shards s !! i = Some sh →
    size (evictOldest (order sh) sh) = size sh - 1000 ∧
    ∀ k lim k' lim', sh !! k = Some lim → evictOldest (order sh) sh !! k = None →
      evictOldest (order sh) sh !! k' = Some lim' → (last_seen lim <= last_seen lim')%Z).
Proof.
  intros Ho Hr. destruct (reachable_ok _ _ _ Ho (NewStore_ok r b tl ci) Hr) as [Hl Hs].
  split_and!; [done|done|]. intros i sh _. destruct (evictOldest_spec (order sh) sh (Ho sh)) as (_ & Hsz & Hold).
  split; [|done]. rewrite Hsz. pose proof deleteCount_val. lia.
Qed.

Definition demo_order : gmap string (rateLimiter spec_float) → list (string * rateLimiter spec_float) := map_to_list.

Lemma store_bounded_witness :
  let s := (step demo_order (EAllow 5 "10.0.0.1") (NewStore (float_of_Z 10) 20 60 0)).2 in
  length (shards s) = 32 ∧ is_Some (entry s "10.0.0.1").
Proof.
  split; [|apply (bool_decide_unpack _); vm_compute; exact I].
  apply (store_bounded demo_order (float_of_Z 10) 20 60 0); [intros sh; reflexivity|]. apply reach_step, reach_init.
Defined.

(** ** The allowance, in exact arithmetic *)

Section Exact.
Implicit Types s : Store Q.

Local Open Scope Q_scope.

(** Nanoseconds as seconds. *)
Definition secs (d : Z) : Q := inject_Z d / inject_Z 1000000000.

Lemma Seconds_exact (d : Z) : Seconds d == secs d.
Proof.
  unfold Seconds, secs. simpl. pose proof (Z.quot_rem' d 1000000000) as Hd.
  rewrite Hd at 3. rewrite inject_Z_plus, inject_Z_mult. field.
Qed.

Lemma secs_le (d e : Z) : (d <= e)%Z → secs d <= secs e.
Proof.
  intros Hd. unfold secs, Qdiv. apply Qmult_le_compat_r; [|done]. by rewrite <-Zle_Qle.
Qed.

Lemma secs_nonneg (d : Z) : (0 <= d)%Z → 0 <= secs d.
Proof.
  intros Hd. unfold secs. apply Qle_shift_div_l; [done|]. rewrite Qmult_0_l.
  change 0 with (inject_Z 0). by rewrite <-Zle_Qle.
Qed.

Lemma secs_sub (t u v : Z) : secs (t - u) == secs (t - v) + secs (v - u).
Proof.
  replace (t - u)%Z with ((t - v) + (v - u))%Z by lia. unfold secs. rewrite (inject_Z_plus (t - v)). field.
Qed.

Lemma fltb_true (a b : Q) : fltb a b = true ↔ a < b.
Proof.
  simpl. rewrite negb_true_iff. split.
  - intros Hf. apply Qnot_le_lt. intros Hle. apply Qle_bool_iff in Hle. congruence.
  - intros Hlt. destruct (Qle_bool b a) eqn:E; [|done]. apply Qle_bool_iff in E.
    exfalso. by apply (Qle_not_lt b a).
Qed.
Lemma fltb_false (a b : Q) : fltb a b = false ↔ b <= a.
Proof.
  destruct (fltb a b) eqn:E.
  - split; [done|]. apply fltb_true in E. intros Hle. exfalso. by apply (Qle_not_lt b a).
  - split; [|done]. intros _. simpl in E. apply negb_false_iff in E. by apply Qle_bool_iff in E.
Qed.

(** One request: the tokens it leaves, plus the one it may have taken, are at most
    what there was and what the time since has added, and never more than the
    bucket holds; none is owed. *)
Lemma take_token_bound (r b : Q) (now : Z) lim ok lim' :
  0 <= r → 0 <= b → 0 <= tokens lim → (last_seen lim <= now)%Z →
  take_token r b now lim = (ok, lim') →
  0 <= tokens lim' ∧ last_seen lim' = now ∧
  (if ok then 1 else 0) + tokens lim' <= tokens lim + secs (now - last_seen lim) * r ∧
  (if ok then 1 else 0) + tokens lim' <= b.
Proof.
  intros Hr Hb Ht Hlast Htk. unfold take_token in Htk.
  set (d := time_Sub now (last_seen lim)) in *.
  assert (0 <= d <= now - last_seen lim)%Z as Hd.
  { unfold d, time_Sub, min_int64, max_int64. lia. }
  set (e := if fltb (Seconds d) (fofZ 0) then fofZ 0 else Seconds d) in *.
  assert (0 <= e ∧ e <= secs (now - last_seen lim)) as [He0 He].
  { pose proof (secs_nonneg d ltac:(lia)) as H0.
    assert (secs d <= secs (now - last_seen lim)) as H1 by (apply secs_le; lia).
    assert (e == secs d) as Hes.
    { unfold e. destruct (fltb (Seconds d) (fofZ 0)) eqn:E; [|apply Seconds_exact].
      apply fltb_true in E. rewrite Seconds_exact in E. exfalso. by apply (Qle_not_lt 0 (secs d)). }
    rewrite Hes. done. }
  assert (0 <= e * r ∧ e * r <= secs (now - last_seen lim) * r) as [Her0 Her].
  { split; [by apply Qmult_le_0_compat|by apply Qmult_le_compat_r]. }
  cbv zeta in Htk. set (t1 := fadd (tokens lim) (fmul e r)) in *.
  assert (t1 == tokens lim + e * r) as Ht1 by reflexivity.
  set (t := if fltb b t1 then b else t1) in *.
  assert (0 <= t ∧ t <= t1 ∧ t <= b) as (Ht0 & Htt & Htb).
  { unfold t. destruct (fltb b t1) eqn:E; [apply fltb_true in E|apply fltb_false in E]; split_and!; lra. }
  clearbody t t1 e. destruct (fltb t (fofZ 1)) eqn:E; injection Htk as <- <-; cbn [tokens last_seen].
  - split_and!; [done|done|lra|lra].
  - apply fltb_false in E. cbn in *. change (inject_Z 1) with 1 in *.
    split_and!; [lra|done|lra|lra].
Qed.

(** A request that comes one token's time after the last is allowed. *)
Lemma take_token_allows (r b : Q) (now : Z) lim :
  1 <= b → 0 <= tokens lim → (last_seen lim <= now)%Z → (now - last_seen lim <= max_int64)%Z →
  1 <= secs (now - last_seen lim) * r →
  (take_token r b now lim).1 = true.
Proof.
  intros Hb Ht Hlast Hmax Hone. unfold take_token.
  assert (time_Sub now (last_seen lim) = now - last_seen lim)%Z as ->.
  { unfold time_Sub, min_int64, max_int64 in *. lia. }
  set (d := (now - last_seen lim)%Z) in *. pose proof (secs_nonneg d ltac:(lia)) as H0.
  set (e := if fltb (Seconds d) (fofZ 0) then fofZ 0 else Seconds d) in *.
  assert (e == secs d) as He.
  { unfold e. destruct (fltb (Seconds d) (fofZ 0)) eqn:E; [|apply Seconds_exact].
    apply fltb_true in E. rewrite Seconds_exact in E. exfalso. by apply (Qle_not_lt 0 (secs d)). }
  cbv zeta. set (t1 := fadd (tokens lim) (fmul e r)).
  assert (t1 == tokens lim + secs d * r) as Ht1 by (rewrite <-He; reflexivity).
  set (t := if fltb b t1 then b else t1).
  assert (1 <= t) as H1.
  { unfold t. destruct (fltb b t1) eqn:E; [done|]. rewrite Ht1. lra. }
  destruct (fltb t (fofZ 1)) eqn:E; [|done].
  apply fltb_true in E. exfalso. by apply (Qle_not_lt 1 t).
Qed.

(** Requests of other keys and cleanup leave an entry as it is or remove it. *)
Lemma entry_frame order e s k :
  map_order order → store_ok s → (∀ now, e ≠ EAllow now k) → is_Some (entry (step order e s).2 k) →
  entry (step order e s).2 k = entry s k.
Proof.
  intros Ho [Hl Hs] He Hin. unfold entry in *. destruct e as [now key|now]; simpl in *.
  - assert (key ≠ k) as Hne by (intros ->; by eapply He). unfold Allow in *.
    destruct (getShard s key !! key) as [lim|] eqn:E.
    + destruct (take_token _ _ _ _) as [ok lim']. simpl in *.
      rewrite getShard_with_shard by (done || apply shard_index_lt). case_decide as Hi; [|done].
      rewrite lookup_insert_ne by done. unfold getShard. by rewrite Hi.
    + simpl in *. rewrite getShard_with_shard in Hin |- * by (done || apply shard_index_lt).
      case_decide as Hi; [|done]. rewrite lookup_insert_ne in Hin |- * by done.
      assert (getShard s k = getShard s key) as Hg by (unfold getShard; by rewrite Hi). rewrite Hg.
      destruct (maxEntriesPerShard <=? _)%Z; [|done]. destruct Hin as [x Hx].
      destruct (evictOldest_spec (order (getShard s key)) (getShard s key) (Ho _)) as (Hsub & _).
      rewrite Hx. symmetry. by eapply lookup_weaken.
  - unfold getShard in *. simpl in *. rewrite list_lookup_fmap in Hin |- *.
    destruct (shards s !! shard_index k) as [sh|]; simpl in *; [|done].
    destruct Hin as [x Hx]. rewrite Hx. by apply map_lookup_filter_Some in Hx as [-> _].
Qed.

Lemma entry_request order now k s lim :
  length (shards s) = shardCount → entry s k = Some lim →
  Allow order now k s =
    ((take_token (rate s) (burst s) now lim).1, (Allow order now k s).2) ∧
  entry (Allow order now k s).2 k = Some (take_token (rate s) (burst s) now lim).2.
Proof.
  intros Hl He. unfold entry in *. unfold Allow. rewrite He.
  destruct (take_token _ _ _ _) as [ok lim']. simpl. split; [done|].
  rewrite getShard_with_shard by (done || apply shard_index_lt).
  rewrite decide_True by done. apply lookup_insert_eq.
Qed.

Lemma step_params order e s : rate (step order e s).2 = rate s ∧ burst (step order e s).2 = burst s.
Proof.
  destruct e as [now key|now]; simpl; [|done]. unfold Allow.
  destruct (getShard s key !! key); [|done]. by destruct (take_token _ _ _ _).
Qed.

(** Is the event a request of [k] that was allowed? *)
Definition grant (k : string) (order : gmap string (rateLimiter Q) → list (string * rateLimiter Q))
    (e : event) (s : Store Q) : nat :=
  match e with
  | EAllow _ key => if bool_decide (key = k) && (step order e s).1 then 1%nat else 0%nat
  | ETick _ => 0%nat
  end.

(** [granted order k s0 t0 n s t]: from [s0] at time [t0] the store went to [s] at
    time [t] through events in the order of time, the entry of [k] being there all
    along, and [n] requests of [k] were allowed. *)
Inductive granted order (k : string) (s0 : Store Q) (t0 : Z) : nat → Store Q → Z → Prop :=
  | granted_init : granted order k s0 t0 0 s0 t0
  | granted_step n s t e :
      granted order k s0 t0 n s t → (t <= event_time e)%Z → is_Some (entry (step order e s).2 k) →
      granted order k s0 t0 (n + grant k order e s) (step order e s).2 (event_time e).

Lemma granted_bound order k s0 t0 lim0 n s t :
  map_order order → store_ok s0 → 0 <= rate s0 → 0 <= burst s0 →
  entry s0 k = Some lim0 → 0 <= tokens lim0 → (last_seen lim0 <= t0)%Z →
  granted order k s0 t0 n s t →
  store_ok s ∧ rate s = rate s0 ∧ burst s = burst s0 ∧
  ∃ lim, entry s k = Some lim ∧ 0 <= tokens lim ∧ (last_seen lim <= t)%Z ∧ (last_seen lim0 <= last_seen lim)%Z ∧
    inject_Z (Z.of_nat n) + tokens lim <= tokens lim0 + secs (last_seen lim - last_seen lim0) * rate s0.
Proof.
  intros Ho Hok Hr Hb He0 Ht0 Hl0. induction 1 as [|n s t e Hg IH Hte Hin].
  - split_and!; try done. exists lim0. split_and!; try done.
    rewrite Z.sub_diag. assert (secs 0 == 0) as -> by reflexivity.
    change (inject_Z (Z.of_nat 0)) with 0. lra.
  - destruct IH as (Hs & Hrs & Hbs & lim & He & Htk & Hlt & Hl & Hsum).
    destruct (step_params order e s) as [Hr' Hb']. split_and!; [|congruence|congruence|].
    { destruct e; simpl; [by apply Allow_ok|by apply cleanup_ok]. }
    assert ((∃ now, e = EAllow now k) ∨ ∀ now, e ≠ EAllow now k) as [[now ->]|Hne].
    { destruct e as [now key|now]; [|right; congruence].
      destruct (decide (key = k)) as [->|]; [eauto|right; congruence]. }
    + simpl in *. destruct (entry_request order now k s lim) as [Hal Hen]; [apply Hs|done|].
      destruct (take_token (rate s) (burst s) now lim) as [ok lim'] eqn:Etk.
      destruct (take_token_bound (rate s) (burst s) now lim ok lim') as (H1 & H2 & H3 & _);
        [by rewrite Hrs|by rewrite Hbs|done|lia|done|].
      exists lim'. rewrite Hen. split_and!; [done|done|lia|lia|].
      rewrite bool_decide_true by done. rewrite Hal. cbn [fst andb].
      rewrite H2, (secs_sub now (last_seen lim0) (last_seen lim)).
      rewrite Nat2Z.inj_add, inject_Z_plus. rewrite Hrs in H3.
      assert (inject_Z (Z.of_nat (if ok then 1 else 0)) == if ok then 1 else 0) as Hok' by (by destruct ok).
      rewrite Hok'. lra.
    + exists lim. rewrite entry_frame by done. split_and!; [done|done|lia|done|].
      assert (grant k order e s = 0%nat) as ->.
      { destruct e as [now key|now]; simpl; [|done]. rewrite bool_decide_false; [done|].
        intros ->. by eapply Hne. }
      by rewrite Nat.add_0_r.
Qed.

(** The first request of a key gets a full bucket less one token. *)
Lemma first_allow order k s t0 :
  store_ok s → entry s k = None →
  (step order (EAllow t0 k) s).1 = true ∧
  entry (step order (EAllow t0 k) s).2 k = Some (mkLimiter (burst s - 1) t0).
Proof.
  intros Hok Hn. simpl. unfold Allow, entry in *. rewrite Hn. simpl. split; [done|].
  rewrite getShard_with_shard; [|apply Hok|apply shard_index_lt]. rewrite decide_True by done. apply lookup_insert_eq.
Qed.

(** From the first request on. *)
Lemma granted_allowance order k s t0 n s' t :
  map_order order → store_ok s → 0 <= rate s → 1 <= burst s → entry s k = None →
  granted order k (step order (EAllow t0 k) s).2 t0 n s' t →
  store_ok s' ∧ rate s' = rate s ∧ burst s' = burst s ∧
  inject_Z (Z.of_nat (1 + n)) <= burst s + secs (t - t0) * rate s ∧
  ∃ lim, entry s' k = Some lim ∧ 0 <= tokens lim ∧ (last_seen lim <= t)%Z.
Proof.
  intros Ho Hok Hr Hb Hn Hg. destruct (first_allow order k s t0 Hok Hn) as [_ He1].
  set (s1 := (step order (EAllow t0 k) s).2) in *. pose proof (step_params order (EAllow t0 k) s) as [Hr1 Hb1].
  fold s1 in Hr1, Hb1. assert (store_ok s1) as Hok1 by (by apply Allow_ok).
  destruct (granted_bound order k s1 t0 _ n s' t Ho Hok1 ltac:(by rewrite Hr1) ltac:(rewrite Hb1; lra) He1
    ltac:(cbn [tokens]; lra) ltac:(cbn [last_seen]; lia) Hg)
    as (Hok' & Hr' & Hb' & lim & He' & Htk & Hlt & Hl & Hsum). cbn [tokens last_seen] in *.
  rewrite Hr1 in *. rewrite Hb1 in *. split_and!; [done..| |by exists lim].
  assert (secs (last_seen lim - t0) * rate s <= secs (t - t0) * rate s) as Hs.
  { apply Qmult_le_compat_r; [|done]. apply secs_le. lia. }
  rewrite Nat2Z.inj_add, inject_Z_plus. change (inject_Z (Z.of_nat 1)) with 1. lra.
Qed.

(** [C11] The allowance of a key, computed without rounding: from the first request
    of a key at time [t0], and for as long as its entry is kept, the requests of
    that key that are allowed up to time [t] number at most the burst plus the rate
    times the seconds since, whatever other keys do in between; and a request that
    waits for one token's time is allowed. *)
Theorem allowance_bound order k s t0 n s' t :
  map_order order → store_ok s → 0 <= rate s → 1 <= burst s → entry s k = None →
  granted order k (step order (EAllow t0 k) s).2 t0 n s' t →
  (step order (EAllow t0 k) s).1 = true ∧
  inject_Z (Z.of_nat (1 + n)) <= burst s + secs (t - t0) * rate s ∧
  (∀ lim, entry s' k = Some lim → ∀ now, (last_seen lim <= now <= last_seen lim + max_int64)%Z →
     1 <= secs (now - last_seen lim) * rate s → (step order (EAllow now k) s').1 = true).
Proof.
  intros Ho Hok Hr Hb Hn Hg. split; [by apply first_allow|].
  destruct (granted_allowance order k s t0 n s' t Ho Hok Hr Hb Hn Hg) as (Hok' & Hr' & Hb' & Hle & lim & He' & Htk & Hlt).
  split; [done|]. intros lim1 He1' now Hnow Hone. assert (lim1 = lim) as -> by congruence.
  destruct (entry_request order now k s' lim) as [Hal _]; [apply Hok'|done|].
  simpl. rewrite Hal. cbn [fst]. rewrite Hr', Hb'. apply take_token_allows; try done; lia.
Qed.
End Exact.

(** A burst of two at one token a second: two requests at once, and the third
    allowed a second later. *)
Definition exact_order : gmap string (rateLimiter Q) → list (string * rateLimiter Q) := map_to_list.
Definition demo_bucket : Store Q := NewStore (1 # 1)%Q 2 600 0.

Lemma allowance_bound_witness :
  let s1 := (step exact_order (EAllow 0 "k") demo_bucket).2 in
  let s2 := (step exact_order (EAllow 0 "k") s1).2 in
  (inject_Z 2 <= inject_Z 2 + secs 0 * (1 # 1))%Q ∧
  (step exact_order (EAllow 1000000000 "k") s2).1 = true ∧ (step exact_order (EAllow 0 "k") s2).1 = false.
Proof.
  intros s1 s2.
  destruct (allowance_bound exact_order "k" demo_bucket 0 1 s2 0) as (_ & H1 & H2).
  - intros sh. reflexivity.
  - apply NewStore_ok.
  - vm_compute. discriminate.
  - vm_compute. discriminate.
  - reflexivity.
  - apply (granted_step exact_order "k" s1 0 0 s1 0 (EAllow 0 "k")); [apply granted_init|cbn; lia|].
    apply (bool_decide_unpack _). vm_compute. exact I.
  - split; [exact H1|]. split; [|vm_compute; reflexivity].
    eapply H2; [vm_compute; reflexivity|unfold max_int64; simpl; lia|vm_compute; discriminate].
Defined.
