(* ===== verification/RedisRateLimit.v ===== *)
(** * The token bucket in Redis

    [internal/security/redis_ratelimit.go]: the script the store runs on the
    server, its two keys per bucket and their expiry, and [Allow], which lets a
    request through when Redis fails.  The script computes in Lua numbers; it is
    written against [Arith] with what Lua adds to it. *)

From S2P Require Import Prelude GoStrings GoValue GoFloat HttpErr RateLimit.
From Stdlib Require Import QArith Lqa Qround.

Local Close Scope Q_scope.

(** [math.floor], and the number [tonumber] reads back from [tostring x] (which
    keeps 14 significant digits). *)
Class LuaNum (F : Type) := {
  lua_floor : F → Z;
  lua_repr : F → F;
}.

Section Script.
Context {F : Type} `{Arith F, LuaNum F}.

(** What the two [GET]s of the script return, and what its [SETEX]s write. *)
Record bucket_keys := mkKeys { k_tokens : option F; k_ts : option F }.
Record script_result := mkResult {
  allowed : Z;
  new_tokens : F;
  new_ts : F;
  key_ttl : Z;
}.

Definition lua_min (a b : F) : F := if fltb b a then b else a.

Definition tokenBucketScript (rate burst now : F) (k : bucket_keys) : script_result :=
  let last_tokens := default burst (k_tokens k) in
  let last_refreshed := default (fofZ 0) (k_ts k) in
  let delta := fsub now last_refreshed in
  let delta := if fltb delta (fofZ 0) then fofZ 0 else delta in
  let filled := lua_min burst (fadd last_tokens (fmul delta rate)) in
  let '(ok, filled) := if fleb (fofZ 1) filled then (1%Z, fsub filled (fofZ 1)) else (0%Z, filled) in
  let ttl := (lua_floor (fdiv burst rate) + 2)%Z in
  let ttl := if (ttl <? 1)%Z then 1%Z else ttl in
  mkResult ok (lua_repr filled) (lua_repr now) ttl.

Record RedisRateLimitStore := mkRedisLimiter {
  rl_rate : F;
  rl_burst : F;
  rl_prefix : string;
}.

(** [ping] is the answer to the ping of the new client. *)
Definition NewRedisRateLimitStore (ping : option error) (rate : F) (burst : Z) : error + RedisRateLimitStore :=
  let rate := if fleb rate (fofZ 0) then fofZ 10 else rate in
  let burst := if (burst <=? 0)%Z then 20%Z else burst in
  match ping with
  | Some e => inl (wrapf "kiya: redis rate limiter ping failed: " e "")
  | None => inr (mkRedisLimiter rate (fofZ burst) "ratelimit_")
  end.

(** The bucket of a key on the server: its values and the second they expire. *)
Record bucket := mkBucket { b_tokens : F; b_ts : F; b_expires : Z }.

(** Redis runs the script at second [srv] of its clock; both keys are written
    together and expire together. *)
Definition read_bucket (srv : Z) (o : option bucket) : bucket_keys :=
  match o with
  | Some b => if (srv <? b_expires b)%Z then mkKeys (Some (b_tokens b)) (Some (b_ts b)) else mkKeys None None
  | None => mkKeys None None
  end.

Definition run_script (s : RedisRateLimitStore) (now : F) (srv : Z) (o : option bucket) : Z * option bucket :=
  let res := tokenBucketScript (rl_rate s) (rl_burst s) now (read_bucket srv o) in
  (allowed res, Some (mkBucket (new_tokens res) (new_ts res) (srv + key_ttl res))).

(** [Allow] over the buckets of the server; [nanos] is [time.Now().UnixNano()] and
    [err] a failure of the call. *)
Definition Redis_Allow (s : RedisRateLimitStore) (nanos srv : Z) (err : option error) (key : string)
    (m : gmap string bucket) : bool * gmap string bucket :=
  match err with
  | Some _ => (true, m)
  | None =>
      let now := fdiv (fofZ nanos) (fofZ 1000000000) in
      let k := (rl_prefix s +:+ key)%string in
      let '(res, b) := run_script s now srv (m !! k) in
      ((res =? 1)%Z, match b with Some b => <[k := b]> m | None => m end)
  end.
End Script.
Arguments bucket : clear implicits.
Arguments RedisRateLimitStore : clear implicits.

(** ** Both limiters decide alike *)

#[global] Instance exact_lua : LuaNum Q := {|
  lua_floor := Qfloor;
  lua_repr := id;
|}.

Section Exact.
Local Open Scope Q_scope.

#[local] Instance fltb_proper : Proper (Qeq ==> Qeq ==> eq) (fltb (F := Q)).
Proof. intros a a' Ha b b' Hb. simpl. f_equal. by rewrite Ha, Hb. Qed.
#[local] Instance fleb_proper : Proper (Qeq ==> Qeq ==> eq) (fleb (F := Q)).
Proof. intros a a' Ha b b' Hb. simpl. by rewrite Ha, Hb. Qed.

Lemma fleb_fltb (a b : Q) : fleb a b = negb (fltb b a).
Proof. simpl. by rewrite negb_involutive. Qed.

(** The key's lifetime, less a second, outlasts the time an empty bucket needs to
    fill. *)
Lemma ttl_fills (r b : Q) (d : Z) :
  0 < r → (Qfloor (b / r) + 1 <= d)%Z → b <= inject_Z d * r.
Proof.
  intros Hr Hd. pose proof (Qlt_floor (b / r)) as Hf.
  assert (b / r <= inject_Z d) as Hle.
  { apply Qlt_le_weak. eapply Qlt_le_trans; [exact Hf|]. rewrite <-Zle_Qle. lia. }
  assert (b == b / r * r) as -> by (field; lra).
  apply Qmult_le_compat_r; [done|lra].
Qed.

Definition server_second (now : Z) : Z := (now / 1000000000)%Z.

Lemma secs_floor (t : Z) : inject_Z (server_second t) <= secs t ∧ secs t < inject_Z (server_second t + 1).
Proof.
  unfold server_second, secs. pose proof (Z.div_mod t 1000000000 ltac:(lia)).
  pose proof (Z.mod_pos_bound t 1000000000 ltac:(lia)). split.
  - apply Qle_shift_div_l; [done|]. rewrite <-inject_Z_mult, <-Zle_Qle. lia.
  - apply Qlt_shift_div_r; [done|]. rewrite <-inject_Z_mult, <-Zlt_Qlt. lia.
Qed.

(** A bucket on the server and a limiter in memory hold the same tokens. *)
Definition same_bucket (bk : bucket Q) (lim : rateLimiter Q) (r b : Q) : Prop :=
  b_tokens bk == tokens lim ∧ b_ts bk == secs (last_seen lim) ∧
  b_expires bk = (server_second (last_seen lim) + Z.max 1 (Qfloor (b / r) + 2))%Z.

(** The refilled bucket of either limiter. *)
Definition refill (r b : Q) (now : Z) (lim : rateLimiter Q) : Q :=
  let t := tokens lim + secs (now - last_seen lim) * r in if fltb b t then b else t.

Lemma take_token_refill (r b : Q) (now : Z) lim :
  (last_seen lim <= now)%Z → (now - last_seen lim <= max_int64)%Z →
  (take_token r b now lim).1 = negb (fltb (refill r b now lim) 1) ∧
  tokens (take_token r b now lim).2 ==
    (if fltb (refill r b now lim) 1 then refill r b now lim else refill r b now lim - 1) ∧
  last_seen (take_token r b now lim).2 = now.
Proof.
  intros Hl Hm. unfold take_token.
  assert (time_Sub now (last_seen lim) = now - last_seen lim)%Z as ->.
  { unfold time_Sub, min_int64, max_int64 in *. lia. }
  set (d := (now - last_seen lim)%Z) in *. pose proof (secs_nonneg d ltac:(lia)) as H0.
  set (e := if fltb (Seconds d) (fofZ 0) then fofZ 0 else Seconds d).
  assert (e == secs d) as He.
  { unfold e. destruct (fltb (Seconds d) (fofZ 0)) eqn:E; [|apply Seconds_exact].
    apply fltb_true in E. rewrite Seconds_exact in E. exfalso. by apply (Qle_not_lt 0 (secs d)). }
  cbv zeta. set (t := if fltb b _ then b else _).
  assert (t == refill r b now lim) as Ht.
  { unfold t, refill. fold d.
    assert (fadd (tokens lim) (fmul e r) == tokens lim + secs d * r) as Hx by (rewrite <-He; reflexivity).
    destruct (fltb b (fadd (tokens lim) (fmul e r))) eqn:E; rewrite Hx in E; rewrite E; [done|exact Hx]. }
  assert (fltb (refill r b now lim) 1 = fltb t (fofZ 1)) as Hlt by (by rewrite Ht).
  rewrite Hlt. clearbody t. destruct (fltb t (fofZ 1)); split_and!; try done.
  cbn [tokens snd]. change (t - 1 == refill r b now lim - 1). by rewrite Ht.
Qed.

(** The bucket the script leaves, from the bucket it finds refilled. *)
Lemma script_refill (r b now x : Q) k :
  lua_min b (default b (k_tokens k) + (if fltb (now - default 0 (k_ts k)) 0 then 0 else now - default 0 (k_ts k)) * r) == x →
  (allowed (tokenBucketScript r b now k) =? 1)%Z = negb (fltb x 1) ∧
  new_tokens (tokenBucketScript r b now k) == (if fltb x 1 then x else x - 1) ∧
  new_ts (tokenBucketScript r b now k) = now ∧
  key_ttl (tokenBucketScript r b now k) = Z.max 1 (Qfloor (b / r) + 2).
Proof.
  intros Hx. unfold tokenBucketScript. cbv zeta.
  change (fofZ 0) with 0. change (fofZ 1) with 1.
  set (f := lua_min b _). change (f == x) in Hx.
  assert (∀ z, (if (z <? 1)%Z then 1%Z else z) = Z.max 1 z) as Hmax.
  { intros z. destruct (Z.ltb_spec z 1); lia. }
  assert (fltb x 1 = fltb f 1) as Hlt by (by rewrite Hx).
  rewrite fleb_fltb, Hmax, Hlt. clearbody f. destruct (fltb f 1); split_and!; try done.
  cbn [new_tokens]. change (f - 1 == x - 1). by rewrite Hx.
Qed.

Lemma lua_min_clamp (b x y : Q) : x == y → lua_min b x == if fltb b y then b else y.
Proof.
  intros Hxy. unfold lua_min.
  destruct (fltb x b) eqn:E1; [apply fltb_true in E1|apply fltb_false in E1];
    (destruct (fltb b y) eqn:E2; [apply fltb_true in E2|apply fltb_false in E2]); lra.
Qed.

(** The script refills as the limiter does, whether the keys are still there or
    have expired: an expired bucket would have been full. *)
Lemma script_refills_alike (r b : Q) bk lim (now : Z) :
  0 < r → 0 <= b → 0 <= tokens lim → (last_seen lim <= now)%Z → same_bucket bk lim r b → 0 <= secs now →
  let k := read_bucket (server_second now) (Some bk) in
  lua_min b (default b (k_tokens k) +
    (if fltb (secs now - default 0 (k_ts k)) 0 then 0 else secs now - default 0 (k_ts k)) * r)
  == refill r b now lim.
Proof.
  intros Hr Hb Ht Hl (Htok & Hts & Hexp) Hnow k.
  pose proof (secs_nonneg (now - last_seen lim) ltac:(lia)) as Hd.
  assert (secs now - secs (last_seen lim) == secs (now - last_seen lim)) as Hsub.
  { pose proof (secs_sub now 0 (last_seen lim)) as Hs. rewrite !Z.sub_0_r in Hs. lra. }
  unfold k, read_bucket. rewrite Hexp.
  destruct (Z.ltb_spec (server_second now) (server_second (last_seen lim) + Z.max 1 (Qfloor (b / r) + 2)));
    cbn [k_tokens k_ts from_option id].
  - assert (fltb (secs now - b_ts bk) 0 = false) as ->.
    { apply fltb_false. rewrite Hts, Hsub. done. }
    apply lua_min_clamp. rewrite Hts, Hsub, Htok. reflexivity.
  - assert (b <= secs (now - last_seen lim) * r) as Hfull.
    { eapply Qle_trans; [apply (ttl_fills r b (server_second now - server_second (last_seen lim) - 1)); [done|lia]|].
      apply Qmult_le_compat_r; [|lra].
      pose proof (secs_floor now) as [H1 _]. pose proof (secs_floor (last_seen lim)) as [_ H2].
      rewrite <-Hsub. rewrite inject_Z_plus in H2. unfold Z.sub. rewrite !inject_Z_plus, !inject_Z_opp.
      change (inject_Z 1) with 1 in *. lra. }
    assert (fltb (secs now - 0) 0 = false) as -> by (apply fltb_false; lra).
    assert (0 <= (secs now - 0) * r) by (apply Qmult_le_0_compat; lra).
    unfold lua_min, refill. cbv zeta.
    destruct (fltb _ b) eqn:E1; [apply fltb_true in E1; lra|].
    destruct (fltb b _) eqn:E2; [done|]. apply fltb_false in E2. lra.
Qed.

(** The decisions on requests of one key at the given times. *)
Fixpoint local_decisions order (k : string) (s : Store Q) (ts : list Z) : list bool :=
  match ts with
  | [] => []
  | t :: ts' => let '(ok, s') := Allow order t k s in ok :: local_decisions order k s' ts'
  end.

Fixpoint redis_decisions (st : RedisRateLimitStore Q) (k : string) (m : gmap string (bucket Q)) (ts : list Z)
    : list bool :=
  match ts with
  | [] => []
  | t :: ts' =>
      let '(ok, m') := Redis_Allow st t (server_second t) None k m in ok :: redis_decisions st k m' ts'
  end.

Lemma redis_step st k m t :
  let res := tokenBucketScript (rl_rate st) (rl_burst st) (secs t)
               (read_bucket (server_second t) (m !! (rl_prefix st +:+ k)%string)) in
  Redis_Allow st t (server_second t) None k m =
    ((allowed res =? 1)%Z,
     <[(rl_prefix st +:+ k)%string :=
        mkBucket (new_tokens res) (new_ts res) (server_second t + key_ttl res)]> m).
Proof. done. Qed.

Definition in_order (t0 : Z) (ts : list Z) : Prop := StronglySorted Z.le (t0 :: ts) ∧ Forall (λ t, (0 <= t <= max_int64)%Z) (t0 :: ts).

Lemma in_order_cons t0 t ts : in_order t0 (t :: ts) → (0 <= t0 <= t)%Z ∧ (t <= max_int64)%Z ∧ in_order t ts.
Proof.
  intros [Hs Hb]. apply StronglySorted_inv in Hs as [Hs Hle]. apply Forall_cons in Hb as [Hb0 Hb].
  apply Forall_cons in Hle as [Hle _]. pose proof Hb as Hb'. apply Forall_cons in Hb as [Hb1 _].
  by split_and!; try lia.
Qed.

Lemma decisions_agree order k s st m ts lim bk t0 :
  store_ok s → rate s = rl_rate st → burst s = rl_burst st → 0 < rate s → 0 <= burst s →
  entry s k = Some lim → 0 <= tokens lim → last_seen lim = t0 →
  m !! (rl_prefix st +:+ k)%string = Some bk → same_bucket bk lim (rate s) (burst s) →
  map_order order → in_order t0 ts →
  local_decisions order k s ts = redis_decisions st k m ts.
Proof.
  intros Hok Hr Hb Hr0 Hb0 He Ht Hl Hm Hsame Ho Hord.
  revert s m lim bk t0 Hok Hr Hb Hr0 Hb0 He Ht Hl Hm Hsame Hord.
  induction ts as [|t ts IH]; intros s m lim bk t0 Hok Hr Hb Hr0 Hb0 He Ht Hl Hm Hsame Hord; [done|].
  apply in_order_cons in Hord as (Ht0 & Htm & Hord). cbn [local_decisions redis_decisions].
  destruct (entry_request order t k s lim) as [Hal Hen]; [apply Hok|done|]. rewrite Hal, redis_step, Hm.
  destruct (take_token_refill (rate s) (burst s) t lim) as (H1 & H2 & H3); [lia|unfold max_int64 in *; lia|].
  destruct (script_refill (rl_rate st) (rl_burst st) (secs t) (refill (rate s) (burst s) t lim)
    (read_bucket (server_second t) (Some bk))) as (G1 & G2 & G3 & G4).
  { rewrite <-Hr, <-Hb. apply script_refills_alike; try done; [lia|]. apply secs_nonneg. lia. }
  rewrite H1, G1. f_equal. destruct (step_params order (EAllow t k) s) as [Hr' Hb']. simpl in Hr', Hb'.
  destruct (take_token (rate s) (burst s) t lim) as [ok lim'] eqn:Etk.
  destruct (take_token_bound (rate s) (burst s) t lim ok lim') as (Hpos & _); try done; [lra|lia|].
  cbn [fst snd] in *.
  eapply (IH _ _ lim' _ t); try done; rewrite ?Hr', ?Hb'; try done.
  - by apply Allow_ok.

  - apply lookup_insert_eq.
  - split_and!; cbn [b_tokens b_ts b_expires].
    + by rewrite G2, H2.
    + by rewrite G3, H3.
    + by rewrite G4, H3, Hr, Hb.
Qed.

(** [C14] The Redis limiter and the in-memory limiter are interchangeable: with the
    same rate and a burst of at least one, and arithmetic without rounding, they
    take the same decision on every request of a key, from its first on, whether
    or not the Redis keys expire in between. *)
Theorem redis_limiter_agrees order k s st m t0 ts :
  map_order order → store_ok s → rate s = rl_rate st → burst s = rl_burst st →
  0 < rate s → 1 <= burst s → entry s k = None → m !! (rl_prefix st +:+ k)%string = None →
  in_order t0 ts →
  local_decisions order k s (t0 :: ts) = redis_decisions st k m (t0 :: ts).
Proof.
  intros Ho Hok Hr Hb Hr0 Hb0 He Hm Hord.
  assert (0 <= t0)%Z as Ht0 by (destruct Hord as [_ Hf]; apply Forall_cons in Hf as [Hf _]; lia).
  cbn [local_decisions redis_decisions]. rewrite redis_step, Hm.
  destruct (script_refill (rl_rate st) (rl_burst st) (secs t0) (burst s) (read_bucket (server_second t0) None))
    as (G1 & G2 & G3 & G4).
  { cbn [read_bucket k_tokens k_ts from_option id]. pose proof (secs_nonneg t0 Ht0).
    assert (fltb (secs t0 - 0) 0 = false) as -> by (apply fltb_false; lra).
    assert (0 <= (secs t0 - 0) * rl_rate st) by (apply Qmult_le_0_compat; [lra|rewrite <-Hr; lra]).
    rewrite <-Hb. unfold lua_min. destruct (fltb _ (burst s)) eqn:E; [apply fltb_true in E; lra|done]. }
  assert (fltb (burst s) 1 = false) as Hb1 by (by apply fltb_false).
  destruct (Allow order t0 k s) as [ok s'] eqn:Ea.
  assert (ok = true ∧ entry s' k = Some (mkLimiter (burst s - 1) t0)) as [-> He'].
  { unfold Allow, entry in *. rewrite He in Ea. injection Ea as <- <-. split; [done|].
    rewrite getShard_with_shard; [|apply Hok|apply shard_index_lt]. rewrite decide_True by done.
    apply lookup_insert_eq. }
  rewrite G1, Hb1. f_equal.
  destruct (step_params order (EAllow t0 k) s) as [Hr' Hb']. simpl in Hr', Hb'. rewrite Ea in Hr', Hb'. simpl in *.
  assert (store_ok s') as Hok' by (pose proof (Allow_ok order t0 k s Ho Hok) as Hx; by rewrite Ea in Hx).
  eapply (decisions_agree order k s' st _ ts (mkLimiter (burst s - 1) t0)); try done; rewrite ?Hr', ?Hb'; try done.
  - lra.
  - cbn [tokens]. lra.
  - apply lookup_insert_eq.
  - rewrite Hb1 in G2. split_and!; cbn [b_tokens b_ts b_expires tokens last_seen]; [done|by rewrite G3|].
    by rewrite G4, Hr, Hb.
Qed.
End Exact.

(** Three requests at once against a burst of two, one a second later, and one
    after the keys have expired. *)
Definition demo_limiter : RedisRateLimitStore Q := mkRedisLimiter (1 # 1)%Q (inject_Z 2) "ratelimit_".

Lemma redis_limiter_agrees_witness :
  redis_decisions demo_limiter "k" ∅ [0; 0; 0; 1000000000; 10000000000]%Z = [true; true; false; true; true] ∧
  local_decisions exact_order "k" demo_bucket [0; 0; 0; 1000000000; 10000000000]%Z
  = redis_decisions demo_limiter "k" ∅ [0; 0; 0; 1000000000; 10000000000]%Z.
Proof.
  split; [vm_compute; reflexivity|].
  apply redis_limiter_agrees.
  - intros sh. reflexivity.
  - apply NewStore_ok.
  - reflexivity.
  - reflexivity.
  - vm_compute. reflexivity.
  - vm_compute. discriminate.
  - reflexivity.
  - reflexivity.
  - split; [repeat constructor; lia|]. repeat constructor; unfold max_int64; lia.
Defined.
