(* ===== verification/Http.v ===== *)
(** * HTTP: requests, headers and response writers

    What the framework uses of [net/http]: the header map with its canonical keys,
    the request fields it reads, the server's response writer, [http.Error],
    [http.NotFound] and [http.SetCookie]; and the two response writers of the
    framework that sit on top of it, of which [statusRecorder]
    ([internal/router/status.go]) is here and the firewall's is in [Waf.v].

    A handler runs to completion, panics, or never returns: it waits for a lock it
    already holds. *)

From S2P Require Import Prelude GoStrings HttpErr Session RedisStore.
From Stdlib Require Import Ascii.

(** ** Running *)

Inductive exec (A : Type) :=
  | Done (a : A)
  | Crash (msg : string)
  | Hang.
Arguments Done {A}.
Arguments Crash {A}.
Arguments Hang {A}.

(** A computation with a state; the state survives a panic. *)
Definition M (S A : Type) : Type := S → exec A * S.

#[global] Instance M_ret {S} : MRet (M S) := λ A a s, (Done a, s).
#[global] Instance M_bind {S} : MBind (M S) := λ A B f m s,
  match m s with
  | (Done a, s') => f a s'
  | (Crash p, s') => (Crash p, s')
  | (Hang, s') => (Hang, s')
  end.

Definition getM {S A} (f : S → A) : M S A := λ s, (Done (f s), s).
Definition modM {S} (f : S → S) : M S unit := λ s, (Done (), f s).
Definition crashM {S A} (p : string) : M S A := λ s, (Crash p, s).
Definition hangM {S A} : M S A := λ s, (Hang, s).

(** [defer d] after which the rest [m] of the function runs: [d] runs when [m]
    returns or panics, and its own panic replaces the outcome. *)
Definition deferM {S A} (d : M S unit) (m : M S A) : M S A := λ s,
  match m s with
  | (Hang, s') => (Hang, s')
  | (r, s') =>
      match d s' with
      | (Done _, s'') => (r, s'')
      | (Crash p, s'') => (Crash p, s'')
      | (Hang, s'') => (Hang, s'')
      end
  end.

(** A deferred function that recovers: [h] runs on a panic only. *)
Definition recoverM {S} (h : string → M S unit) (m : M S unit) : M S unit := λ s,
  match m s with
  | (Crash p, s') => h p s'
  | r => r
  end.

(** Run on a component of the state. *)
Definition zoom {S T A} (get : S → T) (put : T → S → S) (m : M T A) : M S A := λ s,
  let '(r, t) := m (get s) in (r, put t s).

(** ** Headers *)

(** [textproto.CanonicalMIMEHeaderKey] of a key of token characters. *)
Fixpoint canonical_go (upper : bool) (s : string) : string :=
  match s with
  | "" => ""
  | String a s' =>
      String (if upper then Strings.upper_byte a else Strings.lower_byte a)
        (canonical_go (bool_decide (a = "-"%char)) s')
  end.
Definition canonical (s : string) : string := canonical_go true s.

Definition headers : Type := gmap string (list string).
Definition Header_Get (k : string) (h : headers) : string :=
  match h !! canonical k with Some (v :: _) => v | _ => "" end.
Definition Header_Set (k v : string) (h : headers) : headers := <[canonical k := [v]]> h.
Definition Header_Add (k v : string) (h : headers) : headers :=
  <[canonical k := default [] (h !! canonical k) ++ [v]]> h.
Definition Header_Del (k : string) (h : headers) : headers := delete (canonical k) h.

(** What a response holds before it is sent: its header map, the [Set-Cookie]
    entries of it being kept apart as cookies. *)
Record head := mkHead { hd_fields : headers; hd_cookies : list Cookie }.
Definition on_fields (f : headers → headers) (h : head) : head := mkHead (f (hd_fields h)) (hd_cookies h).
Definition http_SetCookie (c : Cookie) (h : head) : head := mkHead (hd_fields h) (hd_cookies h ++ [c]).

(** ** Requests *)

(** What is left to read, and the error it ends with instead of the end of file. *)
Record reader := mkReader { rd_data : string; rd_err : option error }.

(** [url.Values]. *)
Definition form_values : Type := gmap string (list string).

(** An uploaded file, and a parsed multipart form: its values and its files. *)
Record FileHeader := mkFile { Filename : string; fh_content : reader }.
Record multipart_Form := mkForm { form_Value : form_values; form_File : gmap string (list FileHeader) }.

Record Request := mkRequest {
  Method : string;
  URL_Path : string;
  RequestURI : string;
  Host : string;
  RemoteAddr : string;
  TLS : bool;
  req_header : headers;
  req_cookies : list (string * string);
  req_query : list (string * string);
  Proto : string;
  req_Body : option reader;
  req_PostForm : option form_values;
  req_MultipartForm : option multipart_Form;
}.

(** A request without a body, nothing of it parsed yet. *)
Definition plain_request (method path uri host addr : string) (tls : bool) (h : headers) : Request :=
  mkRequest method path uri host addr tls h [] [] "HTTP/1.1" None None None.
Definition set_Body (b : option reader) (r : Request) : Request :=
  mkRequest (Method r) (URL_Path r) (RequestURI r) (Host r) (RemoteAddr r) (TLS r) (req_header r) (req_cookies r)
    (req_query r) (Proto r) b (req_PostForm r) (req_MultipartForm r).
Definition set_PostForm (f : option form_values) (r : Request) : Request :=
  mkRequest (Method r) (URL_Path r) (RequestURI r) (Host r) (RemoteAddr r) (TLS r) (req_header r) (req_cookies r)
    (req_query r) (Proto r) (req_Body r) f (req_MultipartForm r).
Definition set_MultipartForm (f : option multipart_Form) (r : Request) : Request :=
  mkRequest (Method r) (URL_Path r) (RequestURI r) (Host r) (RemoteAddr r) (TLS r) (req_header r) (req_cookies r)
    (req_query r) (Proto r) (req_Body r) (req_PostForm r) f.

Definition first_of (k : string) (l : list (string * string)) : option string :=
  snd <$> find_first (λ p, bool_decide (p.1 = k)) l.

(** [req.Cookie(name)] and [req.URL.Query().Get(key)]. *)
Definition Request_Cookie (name : string) (r : Request) : option string := first_of name (req_cookies r).
Definition Query_Get (key : string) (r : Request) : string := default "" (first_of key (req_query r)).

(** ** Response writers *)

(** [http.ResponseWriter], with the header map it shares with its user. *)
Class ResponseWriter (W : Type) := {
  rw_head : W → head;
  rw_set_head : (head → head) → W → W;
  rw_WriteHeader : Z → M W unit;
  rw_Write : string → M W (error + nat);
}.

#[global] Hint Mode ResponseWriter ! : typeclass_instances.

(** The server's own writer: the header map is copied when the status line goes
    out, later changes to it are not seen by the client. *)
Record server_rw := mkServer {
  srv_head : head;
  srv_sent : option (Z * head);
  srv_body : string;
}.
Definition new_server_rw : server_rw := mkServer (mkHead ∅ []) None "".

Definition informational (code : Z) : bool := (100 <=? code)%Z && (code <=? 199)%Z && negb (code =? 101)%Z.
Definition body_allowed (code : Z) : bool :=
  negb ((code <=? 199)%Z || (code =? 204)%Z || (code =? 304)%Z).

Definition server_WriteHeader (code : Z) : M server_rw unit := λ w,
  match srv_sent w with
  | Some _ => (Done (), w)
  | None =>
      if (code <? 100)%Z || (999 <? code)%Z then (Crash ("invalid WriteHeader code " +:+ Strconv.FormatInt code), w)
      else if informational code then (Done (), w)
      else (Done (), mkServer (srv_head w) (Some (code, srv_head w)) (srv_body w))
  end.

Definition ErrBodyNotAllowed : error := ESentinel "http: request method or response status code does not allow body".

Definition server_Write (b : string) : M server_rw (error + nat) := λ w,
  let w := match srv_sent w with
           | Some _ => w
           | None => mkServer (srv_head w) (Some (200%Z, srv_head w)) (srv_body w)
           end in
  match srv_sent w with
  | Some (code, _) =>
      if body_allowed code
      then (Done (inr (String.length b)), mkServer (srv_head w) (srv_sent w) (srv_body w +:+ b))
      else (Done (inl ErrBodyNotAllowed), w)
  | None => (Done (inr 0), w)
  end.

#[global] Instance server_writer : ResponseWriter server_rw := {|
  rw_head := srv_head;
  rw_set_head f w := mkServer (f (srv_head w)) (srv_sent w) (srv_body w);
  rw_WriteHeader := server_WriteHeader;
  rw_Write := server_Write;
|}.

(** [statusRecorder]: remembers the last status it was asked to write. *)
Record statusRecorder (W : Type) := mkRecorder { rec_inner : W; rec_status : Z }.
Arguments mkRecorder {W}.
Arguments rec_inner {W}.
Arguments rec_status {W}.

Definition NewStatusRecorder {W} (w : W) : statusRecorder W := mkRecorder w 200.

Section Recorder.
Context {W : Type} `{ResponseWriter W}.

Definition on_inner {A} (m : M W A) : M (statusRecorder W) A :=
  zoom rec_inner (λ w r, mkRecorder w (rec_status r)) m.

Definition rec_WriteHeader (code : Z) : M (statusRecorder W) unit :=
  modM (λ r, mkRecorder (rec_inner r) code);; on_inner (rw_WriteHeader code).

Definition StatusCode (r : statusRecorder W) : Z := rec_status r.

#[global] Instance recorder_writer : ResponseWriter (statusRecorder W) := {|
  rw_head r := rw_head (rec_inner r);
  rw_set_head f r := mkRecorder (rw_set_head f (rec_inner r)) (rec_status r);
  rw_WriteHeader := rec_WriteHeader;
  rw_Write b := on_inner (rw_Write b);
|}.
End Recorder.

(** ** Helpers of [net/http] *)

Class RedirectText := {
  redirect_location : Request → string → string;
  redirect_note : Request → string → Z → string;
}.

Section Helpers.
Context {W : Type} `{ResponseWriter W}.

Definition set_header (k v : string) : M W unit := modM (rw_set_head (on_fields (Header_Set k v))).
Definition add_header (k v : string) : M W unit := modM (rw_set_head (on_fields (Header_Add k v))).
Definition add_cookie (c : Cookie) : M W unit := modM (rw_set_head (http_SetCookie c)).

Definition newline : string := String "010" "".

Definition http_Error (msg : string) (code : Z) : M W unit :=
  modM (rw_set_head (on_fields (Header_Del "Content-Length")));;
  set_header "Content-Type" "text/plain; charset=utf-8";;
  set_header "X-Content-Type-Options" "nosniff";;
  rw_WriteHeader code;;
  rw_Write (msg +:+ newline);;
  mret ().

Definition http_NotFound : M W unit := http_Error "404 page not found" 404.

(** [http.Redirect]: the location it makes of a URL, absolute or relative to the
    request, and the short note it writes for browsers on a GET whose content type
    nobody has set, are parameters. *)
Definition http_Redirect `{RedirectText} (req : Request) (url : string) (code : Z) : M W unit :=
  h ← getM (λ w, hd_fields (rw_head w));
  let hadCT := bool_decide (is_Some (h !! canonical "Content-Type")) in
  set_header "Location" (redirect_location req url);;
  (if negb hadCT && bool_decide (Method req ∈ ["GET"; "HEAD"])
   then set_header "Content-Type" "text/html; charset=utf-8" else mret ());;
  rw_WriteHeader code;;
  if negb hadCT && bool_decide (Method req = "GET")
  then rw_Write (redirect_note req url code);; mret ()
  else mret ().
End Helpers.

(** ** Lemmas *)

Lemma M_bind_done {S A B} (m : M S A) (f : A → M S B) s a s' :
  m s = (Done a, s') → (m ≫= f) s = f a s'.
Proof. intros Hm. unfold mbind, M_bind. by rewrite Hm. Qed.

(** Once sent, a response keeps its status and header. *)
Lemma server_sent_stable w p :
  srv_sent w = Some p →
  (∀ code, srv_sent (server_WriteHeader code w).2 = Some p) ∧
  (∀ b, srv_sent (server_Write b w).2 = Some p) ∧
  (∀ f, srv_sent (rw_set_head f w) = Some p).
Proof.
  intros Hs. split_and!; [intros code|intros b|done].
  - unfold server_WriteHeader. by rewrite Hs.
  - unfold server_Write. destruct p as [code h]. rewrite Hs. cbn. rewrite Hs. by destruct (body_allowed code).
Qed.
