(* ===== verification/Net.v ===== *)
(** * Client addresses

    [internal/util/net.go] and [parseIPPort] of [internal/security/waf.go], with
    what they use of package [net]: [SplitHostPort], [ParseIP], [IsLoopback] and
    [IsPrivate]. *)

From S2P Require Import Prelude GoStrings Http.
From Stdlib Require Import Ascii.
Import Strings.

(** ** Package [net] *)

(** The part before the last occurrence of a byte and the part after it. *)
Fixpoint split_last (c : ascii) (s : string) : option (string * string) :=
  match s with
  | "" => None
  | String a s' =>
      match split_last c s' with
      | Some (h, p) => Some (String a h, p)
      | None => if bool_decide (a = c) then Some ("", s') else None
      end
  end.

Definition has_byte (c : ascii) (s : string) : bool := negb (str_all (λ a, bool_decide (a ≠ c)) s).

(** [net.SplitHostPort]; [None] is any of its errors. *)
Definition SplitHostPort (hostport : string) : option (string * string) :=
  match split_last ":"%char hostport with
  | None => None
  | Some (before, port) =>
      if HasPrefix hostport "[" then
        match SplitN2 "]"%char (drop 1 hostport) with
        | (_, None) => None
        | (host, Some rest) =>
            if negb (bool_decide (rest = String ":" port)) then None
            else if has_byte "[" host || has_byte "[" rest || has_byte "]" rest then None
            else Some (host, port)
        end
      else if has_byte ":" before then None
      else if has_byte "[" hostport || has_byte "]" hostport then None
      else Some (before, port)
  end.

(** A decimal field of an IPv4 address: no sign, no leading zero, at most 255. *)
Definition ipv4_field (s : string) : option Z :=
  if bool_decide (s = "") then None
  else if HasPrefix s "0" && negb (bool_decide (s = "0")) then None
  else z ← Strconv.parse_digits 0 s; if (z <=? 255)%Z then Some z else None.

Definition parseIPv4 (s : string) : option (list Z) :=
  let fs := Split "."%char s in
  if negb (bool_decide (length fs = 4)) then None else mapM ipv4_field fs.

Definition hex_val (a : ascii) : option Z :=
  if is_digit a then Some (byte_val a - 48)%Z
  else if in_range 97 102 a then Some (byte_val a - 87)%Z
  else if in_range 65 70 a then Some (byte_val a - 55)%Z
  else None.

(** The hexadecimal digits at the front: their number, value and the rest. *)
Fixpoint hex_run (n : nat) (acc : Z) (s : string) : nat * Z * string :=
  match s with
  | String a s' =>
      match hex_val a with
      | Some d => hex_run (S n) (acc * 16 + d) s'
      | None => (n, acc, s)
      end
  | "" => (n, acc, s)
  end.

(** The 16-bit groups of an IPv6 address: those read so far, where the ellipsis
    stood, and the text left.  Every round reads a group, of at most eight. *)
Fixpoint ipv6_loop (fuel : nat) (groups : list Z) (ellipsis : option nat) (s : string)
    : option (list Z * option nat) :=
  match fuel with
  | 0 => if bool_decide (s = "") then Some (groups, ellipsis) else None
  | S fuel' =>
      let '(n, acc, rest) := hex_run 0 0 s in
      if bool_decide (n = 0) || (4 <? n) then None
      else match rest with
      | String "." _ =>
          if (bool_decide (ellipsis = None) && negb (bool_decide (length groups = 6))) || (6 <? length groups) then None
          else b ← parseIPv4 s;
               match b with
               | [b0; b1; b2; b3] => Some (groups ++ [b0 * 256 + b1; b2 * 256 + b3]%Z, ellipsis)
               | _ => None
               end
      | "" => Some (groups ++ [acc], ellipsis)
      | String ":" "" => None
      | String ":" (String ":" s') =>
          if bool_decide (is_Some ellipsis) then None
          else let groups := groups ++ [acc] in
               if bool_decide (s' = "") then Some (groups, Some (length groups))
               else ipv6_loop fuel' groups (Some (length groups)) s'
      | String ":" s' => ipv6_loop fuel' (groups ++ [acc]) ellipsis s'
      | _ => None
      end
  end.

(** A zone makes [net.ParseIP] fail. *)
Definition parseIPv6 (s : string) : option (list Z) :=
  if has_byte "%" s then None
  else
    '(groups, ellipsis) ←
      (if HasPrefix s "::" then
         let s := drop 2 s in if bool_decide (s = "") then Some ([], Some 0) else ipv6_loop 8 [] (Some 0) s
       else ipv6_loop 8 [] None s);
    if length groups <? 8 then
      match ellipsis with
      | None => None
      | Some e => Some (list.take e groups ++ replicate (8 - length groups) 0%Z ++ list.drop e groups)
      end
    else if bool_decide (is_Some ellipsis) then None else Some groups.

(** [net.ParseIP], an address being its eight 16-bit groups. *)
Fixpoint first_sep (s : string) : option ascii :=
  match s with
  | "" => None
  | String a s' => if bool_decide (a ∈ ["."; ":"; "%"]%char) then Some a else first_sep s'
  end.

Definition ParseIP (s : string) : option (list Z) :=
  match first_sep s with
  | Some "."%char =>
      b ← parseIPv4 s;
      match b with
      | [b0; b1; b2; b3] => Some [0; 0; 0; 0; 0; 65535; b0 * 256 + b1; b2 * 256 + b3]%Z
      | _ => None
      end
  | Some ":"%char => parseIPv6 s
  | _ => None
  end.

(** The four bytes of an IPv4 address. *)
Definition To4 (ip : list Z) : option (Z * Z * Z * Z) :=
  match ip with
  | [0; 0; 0; 0; 0; 65535; a; b]%Z => Some (a / 256, a mod 256, b / 256, b mod 256)%Z
  | _ => None
  end.

Definition IsLoopback (ip : list Z) : bool :=
  match To4 ip with
  | Some (b0, _, _, _) => (b0 =? 127)%Z
  | None => bool_decide (ip = [0; 0; 0; 0; 0; 0; 0; 1]%Z)
  end.

Definition IsPrivate (ip : list Z) : bool :=
  match To4 ip with
  | Some (b0, b1, _, _) =>
      (b0 =? 10)%Z || ((b0 =? 172)%Z && (Z.land b1 240 =? 16)%Z) || ((b0 =? 192)%Z && (b1 =? 168)%Z)
  | None =>
      match ip with
      | a :: _ => (Z.land (a / 256) 254 =? 252)%Z
      | [] => false
      end
  end.

(** ** The framework *)

Definition IsPrivateIP (ip : string) : bool :=
  match ParseIP ip with
  | None => false
  | Some ipAddr => if IsLoopback ipAddr then true else if IsPrivate ipAddr then true else false
  end.

(** [TrustProxyHeaders] is the package's switch. *)
Definition RealIP (TrustProxyHeaders : bool) (r : Request) : string :=
  let remoteIP := match SplitHostPort (RemoteAddr r) with
                  | Some (h, _) => h
                  | None => RemoteAddr r
                  end in
  let xff := Header_Get "X-Forwarded-For" (req_header r) in
  let from_xff := if bool_decide (xff = "") then None
                  else find_first (λ ip, negb (bool_decide (ip = "")))
                         (TrimSpace <$> reverse (Split ","%char xff)) in
  let xrip := Header_Get "X-Real-Ip" (req_header r) in
  if IsPrivateIP remoteIP && TrustProxyHeaders then
    match from_xff with
    | Some ip => ip
    | None => if negb (bool_decide (xrip = "")) then xrip else remoteIP
    end
  else remoteIP.

Definition parseIPPort (addr : string) (defaultPort : Z) : string * Z :=
  match SplitHostPort addr with
  | None => (addr, defaultPort)
  | Some (host, portStr) =>
      match Strconv.Atoi portStr with
      | (port, None) => (host, port)
      | (_, Some _) => (host, defaultPort)
      end
  end.

(** ** Forwarding headers *)

Definition with_header (h : headers) (r : Request) : Request :=
  mkRequest (Method r) (URL_Path r) (RequestURI r) (Host r) (RemoteAddr r) (TLS r) h (req_cookies r) (req_query r)
    (Proto r) (req_Body r) (req_PostForm r) (req_MultipartForm r).

(** The address of the peer of the connection. *)
Definition peer (r : Request) : string :=
  match SplitHostPort (RemoteAddr r) with Some (h, _) => h | None => RemoteAddr r end.

(** [C39] A client cannot forge its address: unless proxy headers are trusted and
    the peer of the connection is a loopback or private address, the address is
    that of the peer whatever the headers say; and behind such a proxy that appends
    the address it saw to [X-Forwarded-For], it is that address, whatever the
    client had put there. *)
Theorem RealIP_not_forgeable trust r :
  (trust = false ∨ IsPrivateIP (peer r) = false → ∀ h, RealIP trust (with_header h r) = peer r) ∧
  (∀ h forged ip, trust = true → IsPrivateIP (peer r) = true →
     h !! "X-Forwarded-For" = Some [forged +:+ String "," ip] →
     word ","%char ip → ip ≠ "" → TrimSpace ip ≠ "" →
     RealIP trust (with_header h r) = TrimSpace ip).
Proof.
  split.
  - intros Hno h. unfold RealIP. fold (peer r). cbn [RemoteAddr with_header].
    destruct Hno as [->|Hp]; [by rewrite andb_false_r|].
    unfold peer in *. by rewrite Hp.
  - intros h forged ip -> Hp Hh Hw Hne Ht. unfold RealIP. cbn [RemoteAddr with_header req_header].
    unfold peer in Hp. rewrite Hp. cbn [andb].
    assert (Header_Get "X-Forwarded-For" h = forged +:+ String "," ip) as ->.
    { unfold Header_Get. change (canonical "X-Forwarded-For") with "X-Forwarded-For". by rewrite Hh. }
    rewrite bool_decide_false by (intros [_ ?]%string_app_nil; done).
    rewrite Split_app, (Split_word _ ip) by done. rewrite reverse_app, fmap_app. cbn [find_first app].
    change (reverse [ip]) with [ip]. cbn [fmap list_fmap app find_first]. by rewrite bool_decide_false.
Qed.

Definition demo_request : Request :=
  plain_request "GET" "/" "/" "example.org" "10.0.0.7:51000" false ∅.

Lemma RealIP_not_forgeable_witness :
  RealIP true (with_header {["X-Forwarded-For" := ["1.1.1.1, 203.0.113.9"]]} demo_request) = "203.0.113.9" ∧
  RealIP false (with_header {["X-Forwarded-For" := ["1.1.1.1"]]} demo_request) = "10.0.0.7".
Proof.
  split.
  - apply (proj2 (RealIP_not_forgeable true demo_request) _ "1.1.1.1" " 203.0.113.9"); done.
  - apply (proj1 (RealIP_not_forgeable false demo_request)). by left.
Defined.
