(* ===== verification/Waf.v ===== *)
(** * The web application firewall

    [internal/security/waf.go]: the buffering response writer the firewall gives
    to the rest of the server, and the handler that takes a request through the
    phases of a Coraza transaction.  The engine is the interface [Coraza].  The
    mutex of the writer is part of the model, because some of its methods call one
    another while they hold it. *)

From S2P Require Import Prelude GoStrings Util HttpErr Session RedisStore Http Net.
From Stdlib Require Import Ascii.
Import Strings.

(** ** The engine *)

Record interruption := mkInterruption { RuleID : Z; it_Status : Z }.

(** A Coraza transaction: what the handler feeds it in each phase, and the
    interruption it may have decided on. *)
Class Coraza (T : Type) := {
  NewTransaction : T;
  ProcessConnection : string → Z → string → Z → T → T;
  ProcessURI : string → string → string → T → T;
  AddRequestHeader : string → string → T → T;
  ProcessRequestHeaders : T → T;
  WriteRequestBody : string → T → T;
  ProcessRequestBody : T → T;
  AddResponseHeader : string → string → T → T;
  ProcessResponseHeaders : Z → T → T;
  WriteResponseBody : string → T → T;
  ProcessResponseBody : T → T;
  Interruption : T → option interruption;
}.

(** [for k, v := range h { for _, vv := range v { add(strings.ToLower(k), vv) } }],
    in the order of the map's list. *)
Definition add_headers {T} (add : string → string → T → T) (h : headers) (t : T) : T :=
  foldl (λ t p, foldl (λ t vv, add (ToLowerASCII p.1) vv t) t p.2) t (map_to_list h).

(** ** The writer *)

Section Writer.
Context {W T : Type} `{ResponseWriter W, Coraza T}.

Record wafResponseWriter := mkWaf {
  ww_locked : bool;
  ww_inner : W;
  ww_status : Z;
  ww_body : string;
  ww_wrote : bool;
  ww_streaming : bool;
  ww_maxBufferSize : Z;
  ww_bufferLimitExceeded : bool;
  ww_tx : option T;
  ww_blocked : bool;
}.

Definition set_locked (b : bool) (w : wafResponseWriter) : wafResponseWriter :=
  mkWaf b (ww_inner w) (ww_status w) (ww_body w) (ww_wrote w) (ww_streaming w) (ww_maxBufferSize w)
    (ww_bufferLimitExceeded w) (ww_tx w) (ww_blocked w).
Definition set_inner (i : W) (w : wafResponseWriter) : wafResponseWriter :=
  mkWaf (ww_locked w) i (ww_status w) (ww_body w) (ww_wrote w) (ww_streaming w) (ww_maxBufferSize w)
    (ww_bufferLimitExceeded w) (ww_tx w) (ww_blocked w).
Definition set_status (z : Z) (w : wafResponseWriter) : wafResponseWriter :=
  mkWaf (ww_locked w) (ww_inner w) z (ww_body w) (ww_wrote w) (ww_streaming w) (ww_maxBufferSize w)
    (ww_bufferLimitExceeded w) (ww_tx w) (ww_blocked w).
Definition set_body (b : string) (w : wafResponseWriter) : wafResponseWriter :=
  mkWaf (ww_locked w) (ww_inner w) (ww_status w) b (ww_wrote w) (ww_streaming w) (ww_maxBufferSize w)
    (ww_bufferLimitExceeded w) (ww_tx w) (ww_blocked w).
Definition set_wrote (b : bool) (w : wafResponseWriter) : wafResponseWriter :=
  mkWaf (ww_locked w) (ww_inner w) (ww_status w) (ww_body w) b (ww_streaming w) (ww_maxBufferSize w)
    (ww_bufferLimitExceeded w) (ww_tx w) (ww_blocked w).
Definition set_streaming (b : bool) (w : wafResponseWriter) : wafResponseWriter :=
  mkWaf (ww_locked w) (ww_inner w) (ww_status w) (ww_body w) (ww_wrote w) b (ww_maxBufferSize w)
    (ww_bufferLimitExceeded w) (ww_tx w) (ww_blocked w).
Definition set_exceeded (b : bool) (w : wafResponseWriter) : wafResponseWriter :=
  mkWaf (ww_locked w) (ww_inner w) (ww_status w) (ww_body w) (ww_wrote w) (ww_streaming w) (ww_maxBufferSize w)
    b (ww_tx w) (ww_blocked w).
Definition set_tx (t : option T) (w : wafResponseWriter) : wafResponseWriter :=
  mkWaf (ww_locked w) (ww_inner w) (ww_status w) (ww_body w) (ww_wrote w) (ww_streaming w) (ww_maxBufferSize w)
    (ww_bufferLimitExceeded w) t (ww_blocked w).
Definition set_blocked (b : bool) (w : wafResponseWriter) : wafResponseWriter :=
  mkWaf (ww_locked w) (ww_inner w) (ww_status w) (ww_body w) (ww_wrote w) (ww_streaming w) (ww_maxBufferSize w)
    (ww_bufferLimitExceeded w) (ww_tx w) b.

(** [w.mu.Lock(); defer w.mu.Unlock()]: a goroutine that already holds the mutex
    waits for ever. *)
Definition with_lock {A} (m : M wafResponseWriter A) : M wafResponseWriter A :=
  l ← getM ww_locked;
  if l : bool then hangM else modM (set_locked true);; deferM (modM (set_locked false)) m.

Definition inner {A} (m : M W A) : M wafResponseWriter A := zoom ww_inner set_inner m.

Definition waf_StatusCode : M wafResponseWriter Z := with_lock (getM ww_status).
Definition Written : M wafResponseWriter bool := with_lock (getM ww_wrote).

Definition isBinaryContent (ct : string) : bool :=
  HasPrefix ct "image/" || HasPrefix ct "video/" || HasPrefix ct "audio/" ||
  bool_decide (ct = "application/octet-stream") || bool_decide (ct = "application/pdf") ||
  HasPrefix ct "application/font-" || HasPrefix ct "font/".

(** The body of [WriteHeader], under the lock. *)
Definition WriteHeader_locked (code : Z) : M wafResponseWriter unit :=
  wrote ← getM ww_wrote;
  if wrote : bool then mret ()
  else
    otx ← getM ww_tx;
    '(isBlocked, code) ←
      match otx with
      | None => mret (false, code)
      | Some t =>
          h ← getM (λ w, hd_fields (rw_head (ww_inner w)));
          let t := ProcessResponseHeaders code (add_headers AddResponseHeader h t) in
          modM (set_tx (Some t));;
          match Interruption t with
          | None => mret (false, code)
          | Some it =>
              modM (set_body "Blocked by WAF");;
              inner (set_header "Content-Type" "text/plain");;
              mret (true, it_Status it)
          end
      end;
    ct ← getM (λ w, Header_Get "Content-Type" (hd_fields (rw_head (ww_inner w))));
    (if isBinaryContent ct && negb isBlocked then
       inner (rw_WriteHeader code);;
       modM (set_wrote true);;
       modM (set_streaming true)
     else
       modM (set_status code);;
       modM (set_wrote true));;
    if isBlocked : bool then modM (set_blocked true) else mret ().

Definition waf_WriteHeader (code : Z) : M wafResponseWriter unit := with_lock (WriteHeader_locked code).

Definition FlushToClient : M wafResponseWriter (option error) :=
  w ← getM id;
  if ww_streaming w then mret None
  else if negb (bool_decide (ww_body w = "")) || ww_wrote w then
    (if negb (ww_wrote w) then waf_WriteHeader 200 else mret ());;
    status ← getM ww_status;
    inner (rw_WriteHeader status);;
    body ← getM ww_body;
    r ← inner (rw_Write body);
    mret (match r with inl e => Some e | inr _ => None end)
  else mret None.

Definition waf_Write (b : string) : M wafResponseWriter (error + nat) :=
  with_lock (
    wrote ← getM ww_wrote;
    (if negb wrote then waf_WriteHeader 200 else mret ());;
    w ← getM id;
    if ww_blocked w then mret (inr (String.length b))
    else if ww_streaming w then inner (rw_Write b)
    else if (0 <? ww_maxBufferSize w)%Z &&
            (ww_maxBufferSize w <? Z.of_nat (String.length (ww_body w)) + Z.of_nat (String.length b))%Z then
      modM (set_exceeded true);;
      modM (set_streaming true);;
      FlushToClient;;
      inner (rw_Write b)
    else
      modM (set_body (ww_body w +:+ b));;
      mret (inr (String.length b))).

(** [inner_Flush]: the flush of the wrapped writer, when it has one. *)
Definition Flush (inner_Flush : option (M W unit)) : M wafResponseWriter unit :=
  with_lock (
    match inner_Flush with
    | None => mret ()
    | Some fl =>
        wrote ← getM ww_wrote;
        status ← getM ww_status;
        (if negb wrote then waf_WriteHeader status else mret ());;
        streaming ← getM ww_streaming;
        if streaming : bool then inner fl
        else
          status ← getM ww_status;
          inner (rw_WriteHeader status);;
          body ← getM ww_body;
          (if negb (bool_decide (body = "")) then inner (rw_Write body);; modM (set_body "") else mret ());;
          modM (set_streaming true);;
          inner fl
    end).

(** [hj]: what the wrapped writer's [Hijack] returns, when it has one. *)
Definition Hijack (hj : option (error + unit)) : M wafResponseWriter (error + unit) :=
  with_lock (
    w ← getM id;
    if ww_streaming w || ww_wrote w then
      mret (inl (ENew "cannot hijack after response has been written"))
    else match hj with
         | Some r => modM (set_streaming true);; mret r
         | None => mret (inl (ENew "underlying ResponseWriter does not implement http.Hijacker"))
         end).

#[global] Instance waf_writer : ResponseWriter wafResponseWriter := {|
  rw_head w := rw_head (ww_inner w);
  rw_set_head f w := set_inner (rw_set_head f (ww_inner w)) w;
  rw_WriteHeader := waf_WriteHeader;
  rw_Write := waf_Write;
|}.

(** ** The handler *)

Definition defaultMaxWAFBufferSize : Z := 10485760.

(** [io.ReadAll(http.MaxBytesReader(w, body, max))]: what the client sent and the
    error of reading it, cut at the limit. *)
Definition ErrTooLarge : error := ESentinel "http: request body too large".
Definition read_limited (max : Z) (body : string) (err : option error) : string * option error :=
  if (max <? Z.of_nat (String.length body))%Z then (take (Z.to_nat max) body, Some ErrTooLarge) else (body, err).

Definition reads_body (req : Request) : bool := bool_decide (Method req ∈ ["POST"; "PUT"; "PATCH"]).

Definition new_waf_writer (w : W) (max : Z) : wafResponseWriter :=
  mkWaf false w 200 "" false false max false None false.

Definition block (it : interruption) : M wafResponseWriter unit :=
  inner (rw_WriteHeader (it_Status it));;
  inner (rw_Write "Blocked by WAF");;
  mret ().

(** The phases after the request has passed. *)
Definition inspect_response : M wafResponseWriter unit :=
  w ← getM id;
  if ww_bufferLimitExceeded w then mret ()
  else
    let body := if negb (ww_streaming w) && negb (bool_decide (ww_body w = "")) then ww_body w else "" in
    match ww_tx w with
    | None => crashM "invalid memory address or nil pointer dereference"
    | Some t =>
        let t := ProcessResponseBody (WriteResponseBody body t) in
        modM (set_tx (Some t));;
        match Interruption t with
        | None => mret ()
        | Some it =>
            if negb (ww_streaming w) then
              modM (set_status (it_Status it));;
              modM (set_body "Blocked by WAF (Response Body)");;
              inner (set_header "Content-Type" "text/plain");;
              modM (set_blocked true)
            else mret ()
        end
    end;;
    FlushToClient;; mret ().

(** The transaction after the request's connection, URI and headers. *)
Definition request_tx (serverAddr ip : string) (req : Request) : T :=
  let '(serverIP, serverPort) := parseIPPort serverAddr 80 in
  let t := ProcessURI (RequestURI req) (Method req) (Proto req)
             (ProcessConnection serverIP serverPort ip 0 NewTransaction) in
  let t := if negb (bool_decide (Host req = "")) then AddRequestHeader "host" (Host req) t else t in
  ProcessRequestHeaders (add_headers AddRequestHeader (req_header req) t).

(** [body] and [berr]: the request body and the error of reading it; [next] gets
    the request and the body it will read.  [ip] is [RealIP] of the request. *)
Definition waf_request (max : Z) (serverAddr ip : string) (req : Request) (body : string) (berr : option error)
    (next : string → M wafResponseWriter unit) : M wafResponseWriter unit :=
  let t := request_tx serverAddr ip req in
  modM (set_tx (Some t));;
  match Interruption t with
  | Some it => block it
  | None =>
      let reads := reads_body req in
      let '(got, err) := if reads then read_limited max body berr else (body, None) in
      if bool_decide (err = Some ErrTooLarge) then inner (rw_WriteHeader 413)
      else
        let bodyBytes := if negb reads then "" else if bool_decide (err = None) then got else "" in
        let t := ProcessRequestBody (WriteRequestBody bodyBytes t) in
        modM (set_tx (Some t));;
        match Interruption t with
        | Some it => block it
        | None => next got;; inspect_response
        end
  end.

(** The recovery around it: a 500 through the writer. *)
Definition waf_recover (_ : string) : M wafResponseWriter unit :=
  l ← getM ww_locked;
  if l : bool then hangM
  else
    modM (set_wrote true);;
    modM (set_status 500);;
    modM (set_body "Internal Server Error");;
    inner (set_header "Content-Type" "text/plain; charset=utf-8");;
    FlushToClient;; mret ().

Definition WrapWithWAF (max : Z) (serverAddr ip : string) (req : Request) (body : string) (berr : option error)
    (next : string → M wafResponseWriter unit) : M W unit := λ w,
  let max := if (max <=? 0)%Z then defaultMaxWAFBufferSize else max in
  let '(r, ww) := recoverM waf_recover (waf_request max serverAddr ip req body berr next) (new_waf_writer w max) in
  (r, ww_inner ww).
End Writer.
Arguments wafResponseWriter : clear implicits.

(** The same state over another inner writer. *)
Definition over {W W' T : Type} (i : W') (w : wafResponseWriter W T) : wafResponseWriter W' T :=
  mkWaf (ww_locked w) i (ww_status w) (ww_body w) (ww_wrote w) (ww_streaming w) (ww_maxBufferSize w)
    (ww_bufferLimitExceeded w) (ww_tx w) (ww_blocked w).

(** ** Handlers as sequences of calls on their writer *)

(** Run a computation on a concrete writer. *)
Ltac run_M :=
  cbv [mbind M_bind mret M_ret getM modM deferM recoverM zoom hangM crashM inner with_lock waf_Write
       waf_WriteHeader WriteHeader_locked FlushToClient waf_recover inspect_response block];
  cbn -[Z.ltb Z.leb add_headers Header_Get Header_Set isBinaryContent String.append server_Write
       server_WriteHeader on_fields].

Inductive hop :=
  | HHead (f : head → head)
  | HStatus (code : Z)
  | HWrite (b : string).

Definition run_hop {W} `{ResponseWriter W} (o : hop) : M W unit :=
  match o with
  | HHead f => modM (rw_set_head f)
  | HStatus code => rw_WriteHeader code
  | HWrite b => rw_Write b;; mret ()
  end.

Fixpoint run_hops {W} `{ResponseWriter W} (os : list hop) : M W unit :=
  match os with
  | [] => mret ()
  | o :: os' => run_hop o;; run_hops os'
  end.

(** The header changes and the bytes of a sequence. *)
Definition head_after (os : list hop) (h : head) : head :=
  foldl (λ h o, match o with HHead f => f h | _ => h end) h os.
Definition bytes_of (os : list hop) : string :=
  foldr (λ o s, match o with HWrite b => b +:+ s | _ => s end) "" os.

(** Status codes a response can end with. *)
Definition final_code (code : Z) : Prop := (200 <= code <= 999)%Z.

Section Stopped.
Context {W T : Type} `{ResponseWriter W, Coraza T}.
#[local] Abbreviation waf_rw := (wafResponseWriter W T).

(** The limit in force. *)
Definition limit_of (max : Z) : Z := if (max <=? 0)%Z then defaultMaxWAFBufferSize else max.

(** What the engine is shown of the request body when it is read without error. *)
Definition shown_body (req : Request) (body : string) : string := if reads_body req then body else "".
Definition body_tx (addr ip : string) (req : Request) (body : string) : T :=
  ProcessRequestBody (WriteRequestBody (shown_body req body) (request_tx addr ip req)).

(** A request read whole. *)
Lemma waf_request_read max addr ip req body (next : string → M waf_rw unit) w :
  (Z.of_nat (String.length body) <= max)%Z → Interruption (request_tx addr ip req) = None →
  waf_request max addr ip req body None next w =
  (let t := body_tx addr ip req body in
   modM (set_tx (Some t));;
   match Interruption t with
   | Some it => block it
   | None => next body;; inspect_response
   end) (set_tx (Some (request_tx addr ip req)) w).
Proof.
  intros Hlen Hno. unfold waf_request. unfold mbind at 1, M_bind at 1. unfold modM at 1. rewrite Hno.
  assert ((if reads_body req then read_limited max body None else (body, None)) = (body, None)) as ->.
  { destruct (reads_body req); [|done]. unfold read_limited.
    destruct (Z.ltb_spec max (Z.of_nat (String.length body))); [lia|done]. }
  cbn [bool_decide]. rewrite bool_decide_false by done. unfold body_tx, shown_body.
  rewrite (bool_decide_true (None = None)) by done. by destruct (reads_body req).
Qed.

(** The engine stops the request, by its headers or by its body. *)
Definition stops (addr ip : string) (req : Request) (body : string) (it : interruption) : Prop :=
  Interruption (request_tx addr ip req) = Some it ∨
  Interruption (request_tx addr ip req) = None ∧ Interruption (body_tx addr ip req body) = Some it.

(** What a stopped request does to its writer is the firewall's page. *)
Lemma stopped_page max addr ip req body it (next : string → M waf_rw unit) (w w1 w2 : W) r :
  (Z.of_nat (String.length body) <= limit_of max)%Z → stops addr ip req body it →
  rw_WriteHeader (it_Status it) w = (Done (), w1) → rw_Write "Blocked by WAF" w1 = (Done r, w2) →
  WrapWithWAF max addr ip req body None next w = (Done (), w2).
Proof.
  intros Hlen Hit Hw1 Hw2.
  assert (∀ ww : waf_rw, ww_inner ww = w → block it ww = (Done (), set_inner w2 ww)) as Hblock.
  { intros ww Hw. unfold block, inner, zoom, mbind, M_bind. rewrite Hw, Hw1. cbn [ww_inner set_inner]. by rewrite Hw2. }
  unfold WrapWithWAF, recoverM. fold (limit_of max). destruct Hit as [Hit|[Hno Hit]].
  - unfold waf_request. unfold mbind at 1, M_bind at 1. unfold modM at 1. rewrite Hit. by rewrite Hblock.
  - rewrite waf_request_read by done. cbv zeta. unfold mbind at 1, M_bind at 1. unfold modM at 1.
    rewrite Hit. by rewrite Hblock.
Qed.
End Stopped.

Section Server.
Context {T : Type} `{Coraza T}.
#[local] Abbreviation waf_rw := (wafResponseWriter server_rw T).
Implicit Types w : waf_rw.

(** A transaction that has not been interrupted. *)
Definition clean_tx (o : option T) : Prop := ∃ t, o = Some t ∧ Interruption t = None.

(** A response held back: nothing has gone to the client. *)
Definition buffered (code : Z) (body : string) (h : head) w : Prop :=
  ww_locked w = false ∧ ww_wrote w = true ∧ ww_streaming w = false ∧ ww_blocked w = false ∧
  ww_bufferLimitExceeded w = false ∧ ww_status w = code ∧ ww_body w = body ∧ clean_tx (ww_tx w) ∧
  ww_inner w = mkServer h None "".

Definition set_hd (h : head) : server_rw := mkServer h None "".

Lemma buffered_hop code body h w o :
  buffered code body h w →
  (Z.of_nat (String.length (body +:+ bytes_of [o])) <= ww_maxBufferSize w)%Z →
  ∃ w', run_hop o w = (Done (), w') ∧ buffered code (body +:+ bytes_of [o]) (head_after [o] h) w' ∧
    ww_maxBufferSize w' = ww_maxBufferSize w.
Proof.
  intros (Hl & Hw & Hs & Hb & He & Hst & Hbd & Ht & Hi) Hlen.
  destruct w as [l i st bd wr str mx ex tx bl]. simpl in *. subst.
  destruct o as [f|c|b]; simpl in *.
  - eexists. split; [reflexivity|]. split; [|done]. rewrite string_app_nil_r. repeat split; done.
  - eexists. split; [reflexivity|]. split; [|done]. rewrite string_app_nil_r. repeat split; done.
  - rewrite string_app_nil_r in *. rewrite string_app_length in Hlen.
    run_M.
    destruct (Z.ltb_spec mx (Z.of_nat (String.length body) + Z.of_nat (String.length b))); [lia|].
    destruct (0 <? mx)%Z; (eexists; split; [reflexivity|]; split; [|done]; repeat split; done).
Qed.

Lemma buffered_hops os code body h w :
  buffered code body h w →
  (Z.of_nat (String.length (body +:+ bytes_of os)) <= ww_maxBufferSize w)%Z →
  ∃ w', run_hops os w = (Done (), w') ∧ buffered code (body +:+ bytes_of os) (head_after os h) w' ∧
    ww_maxBufferSize w' = ww_maxBufferSize w.
Proof.
  revert body h w. induction os as [|o os IH]; intros body h w Hb Hlen.
  { exists w. simpl. rewrite string_app_nil_r. done. }
  assert (bytes_of (o :: os) = bytes_of [o] +:+ bytes_of os) as Hbo.
  { destruct o; simpl; [by rewrite string_app_nil_l..|]. by rewrite string_app_nil_r. }
  rewrite Hbo, <-string_app_assoc in Hlen |- *.
  destruct (buffered_hop code body h w o Hb) as (w1 & Hr & Hb1 & Hm1).
  { rewrite string_app_length in Hlen. lia. }
  destruct (IH _ _ w1 Hb1) as (w2 & Hr2 & Hb2 & Hm2); [by rewrite Hm1|].
  exists w2. split; [|split; [done|congruence]].
  cbn [run_hops]. unfold mbind, M_bind. by rewrite Hr.
Qed.

(** The writer before anything is written. *)
Definition unwritten (h : head) w : Prop :=
  ww_locked w = false ∧ ww_wrote w = false ∧ ww_streaming w = false ∧ ww_blocked w = false ∧
  ww_bufferLimitExceeded w = false ∧ ww_body w = "" ∧ clean_tx (ww_tx w) ∧ ww_inner w = mkServer h None "".

Lemma unwritten_heads fs h w :
  unwritten h w →
  ∃ w', run_hops (HHead <$> fs) w = (Done (), w') ∧ unwritten (head_after (HHead <$> fs) h) w' ∧
    ww_maxBufferSize w' = ww_maxBufferSize w.
Proof.
  revert h w. induction fs as [|f fs IH]; intros h w Hu; [by exists w|].
  destruct (IH (f h) (set_inner (mkServer (f h) None "") w)) as (w' & Hr & Hu' & Hm).
  { destruct Hu as (?&?&?&?&?&?&?&Hi). repeat split; done. }
  exists w'. split; [|done]. cbn [fmap list_fmap run_hops run_hop]. unfold mbind, M_bind, modM.
  destruct Hu as (?&?&?&?&?&?&?&Hi). cbn [rw_set_head waf_writer]. rewrite Hi. exact Hr.
Qed.

(** The engine lets the response headers pass. *)
Definition header_rules_pass : Prop :=
  ∀ code h (t : T), Interruption t = None → Interruption (ProcessResponseHeaders code (add_headers AddResponseHeader h t)) = None.

Lemma unwritten_status code h w :
  header_rules_pass → unwritten h w → isBinaryContent (Header_Get "Content-Type" (hd_fields h)) = false →
  ∃ w', run_hop (HStatus code) w = (Done (), w') ∧ buffered code "" h w' ∧
    ww_maxBufferSize w' = ww_maxBufferSize w.
Proof.
  intros Hpass Hu Hct. destruct w as [l i st bd wr str mx ex tx bl].
  destruct Hu as (Hl & Hw & Hs & Hb & He & Hbd & (t & Ht & Hclean) & Hi). simpl in *. subst.
  run_M. rewrite Hpass by done. run_M. rewrite Hct. run_M. eexists. split; [reflexivity|]. split; [|done]. repeat split; [done..|].
  eexists. split; [done|]. by apply Hpass.
Qed.

Lemma run_hops_app l1 l2 (w w' : waf_rw) :
  run_hops l1 w = (Done (), w') → run_hops (l1 ++ l2) w = run_hops l2 w'.
Proof.
  revert w. induction l1 as [|o l1 IH]; intros w Hr; simpl in *.
  - unfold mret, M_ret in Hr. by injection Hr as ->.
  - unfold mbind, M_bind in *. destruct (run_hop o w) as [[[]| |] w1]; try done. by apply IH.
Qed.

(** A handler that sets headers, then the status, then writes. *)
Lemma orderly_run fs code os h w :
  header_rules_pass → unwritten h w →
  isBinaryContent (Header_Get "Content-Type" (hd_fields (head_after (HHead <$> fs) h))) = false →
  (Z.of_nat (String.length (bytes_of os)) <= ww_maxBufferSize w)%Z →
  ∃ w', run_hops ((HHead <$> fs) ++ HStatus code :: os) w = (Done (), w') ∧
    buffered code (bytes_of os) (head_after ((HHead <$> fs) ++ os) h) w' ∧
    ww_maxBufferSize w' = ww_maxBufferSize w.
Proof.
  intros Hpass Hu Hct Hlen.
  destruct (unwritten_heads fs h w Hu) as (w1 & Hr1 & Hu1 & Hm1).
  destruct (unwritten_status code _ w1 Hpass Hu1 Hct) as (w2 & Hr2 & Hb2 & Hm2).
  destruct (buffered_hops os _ _ _ w2 Hb2) as (w3 & Hr3 & Hb3 & Hm3).
  { rewrite string_app_nil_l. congruence. }
  exists w3. rewrite string_app_nil_l in Hb3. split; [|split; [unfold head_after; by rewrite foldl_app|congruence]].
  rewrite (run_hops_app _ _ _ _ Hr1). cbn [run_hops]. unfold mbind at 1, M_bind at 1. rewrite Hr2. exact Hr3.
Qed.

Definition new_response (h : head) : server_rw := mkServer h None "".

(** The error page of the firewall. *)
Definition blocked_response (h : head) (code : Z) (text : string) : server_rw :=
  mkServer h (Some (code, h)) text.

Definition page_code (code : Z) : Prop := final_code code ∧ body_allowed code = true.

Lemma server_page h code b :
  page_code code →
  server_WriteHeader code (new_response h) = (Done (), mkServer h (Some (code, h)) "") ∧
  server_Write b (mkServer h (Some (code, h)) "") = (Done (inr (String.length b)), mkServer h (Some (code, h)) b).
Proof.
  intros [Hc Hb]. unfold final_code in Hc. unfold server_WriteHeader, server_Write, new_response. simpl.
  rewrite Hb. destruct (Z.ltb_spec code 100), (Z.ltb_spec 999 code); try lia. simpl.
  assert (informational code = false) as ->; [|by rewrite string_app_nil_l].
  unfold informational. destruct (Z.leb_spec code 199); [lia|]. by rewrite andb_false_r.
Qed.

(** A request the firewall stops, by its headers or by its body, never reaches
    the handler: whatever the handler is, the client gets the status of the
    interruption and the text of the firewall. *)
Theorem stopped_request_never_served max addr ip req body h it (next : string → M waf_rw unit) :
  page_code (it_Status it) → (Z.of_nat (String.length body) <= limit_of max)%Z → stops addr ip req body it →
  WrapWithWAF max addr ip req body None next (new_response h) =
    (Done (), blocked_response h (it_Status it) "Blocked by WAF").
Proof.
  intros Hp Hlen Hit. destruct (server_page h (it_Status it) "Blocked by WAF" Hp) as [Hw1 Hw2].
  by eapply (stopped_page (W := server_rw)).
Qed.

(** The response body rules of the engine on a body: pass, or interrupt. *)
Definition response_verdict (body : string) (v : option interruption) : Prop :=
  ∀ t : T, Interruption t = None → Interruption (ProcessResponseBody (WriteResponseBody body t)) = v.

(** What the client gets for a response held back to the end. *)
Definition inspected (code : Z) (h : head) (body : string) (v : option interruption) : server_rw :=
  match v with
  | None => mkServer h (Some (code, h)) body
  | Some it =>
      let h := on_fields (Header_Set "Content-Type" "text/plain") h in
      blocked_response h (it_Status it) "Blocked by WAF (Response Body)"
  end.

Lemma inspect_buffered code body h w v :
  buffered code body h w → response_verdict body v → page_code code →
  (∀ it, v = Some it → page_code (it_Status it)) →
  ∃ w', inspect_response w = (Done (), w') ∧ ww_inner w' = inspected code h body v.
Proof.
  intros Hb Hv Hc Hit. destruct w as [l i st bd wr str mx ex tx bl].
  destruct Hb as (Hl & Hw & Hs & Hbl & He & Hst & Hbd & (t & Ht & Hclean) & Hi). simpl in *. subst.
  assert ((if negb (bool_decide (body = "")) then body else "") = body) as Hsame by (by case_bool_decide).
  run_M. rewrite Hsame, (Hv t Hclean). destruct v as [it|].
  - destruct (server_page (on_fields (Header_Set "Content-Type" "text/plain") h) (it_Status it)
      "Blocked by WAF (Response Body)" (Hit it eq_refl)) as [H1 H2].
    unfold new_response in H1. run_M. rewrite orb_true_r. run_M.
    rewrite H1. run_M. rewrite H2. by eexists.
  - destruct (server_page h code body Hc) as [H1 H2]. unfold new_response in H1.
    run_M. rewrite orb_true_r. run_M. rewrite H1.
    run_M. rewrite H2. by eexists.
Qed.


(** A handler that writes without having set a status first never returns
    behind the firewall: [Write] waits for the mutex it holds itself, the client
    gets nothing. *)
Theorem write_before_status_hangs max addr ip req body h (fs : list (head → head)) b (rest : M waf_rw unit) :
  (Z.of_nat (String.length body) <= limit_of max)%Z →
  Interruption (request_tx addr ip req) = None → Interruption (body_tx addr ip req body) = None →
  ∃ sv, WrapWithWAF max addr ip req body None (λ _, run_hops ((HHead <$> fs) ++ [HWrite b]);; rest) (new_response h)
          = (Hang, sv) ∧ srv_sent sv = None ∧ srv_body sv = "".
Proof.
  intros Hlen H1 H2. unfold WrapWithWAF, recoverM. fold (limit_of max).
  rewrite waf_request_read by done. cbv zeta. unfold mbind at 1, M_bind at 1. unfold modM at 1. rewrite H2.
  set (w0 := set_tx _ _).
  assert (unwritten h w0) as Hu by (repeat split; try done; by eexists).
  destruct (unwritten_heads fs h w0 Hu) as (w1 & Hr1 & Hu1 & _).
  assert (∃ w2, run_hops ((HHead <$> fs) ++ [HWrite b]) w0 = (Hang, w2) ∧ ww_inner w2 = ww_inner w1) as (w2 & Hr2 & Hi2).
  { rewrite (run_hops_app _ _ _ _ Hr1). destruct w1 as [l i st bd wr str mx ex tx bl].
    destruct Hu1 as (Hl & Hw & _). simpl in *. subst. eexists. split; reflexivity. }
  destruct Hu1 as (_ & _ & _ & _ & _ & _ & _ & Hi1).
  exists (ww_inner w2). unfold mbind, M_bind. rewrite Hr2. split; [done|]. rewrite Hi2, Hi1. done.
Qed.

(** A response that outgrows the buffer is damaged: what was buffered and the
    status are dropped, and the client gets status 200 with only the bytes written
    from then on. *)
Theorem overflow_drops_buffer max addr ip req body h code a b :
  (Z.of_nat (String.length body) <= limit_of max)%Z →
  Interruption (request_tx addr ip req) = None → Interruption (body_tx addr ip req body) = None →
  header_rules_pass → isBinaryContent (Header_Get "Content-Type" (hd_fields h)) = false →
  (Z.of_nat (String.length a) <= limit_of max)%Z → (0 < limit_of max)%Z →
  (limit_of max < Z.of_nat (String.length a) + Z.of_nat (String.length b))%Z →
  WrapWithWAF max addr ip req body None (λ _, run_hops [HStatus code; HWrite a; HWrite b]) (new_response h) =
    (Done (), mkServer h (Some (200%Z, h)) b).
Proof.
  intros Hlen H1 H2 Hpass Hct Ha Hpos Hover. unfold WrapWithWAF, recoverM. fold (limit_of max).
  rewrite waf_request_read by done. cbv zeta. unfold mbind at 1, M_bind at 1. unfold modM at 1. rewrite H2.
  set (w0 := set_tx _ _).
  destruct (orderly_run [] code [HWrite a] h w0) as (w1 & Hr1 & Hb1 & Hm); try done.
  { repeat split; try done. by eexists. }
  { simpl. by rewrite string_app_nil_r. }
  change [HStatus code; HWrite a; HWrite b] with (((HHead <$> []) ++ HStatus code :: [HWrite a]) ++ [HWrite b]).
  unfold mbind at 1, M_bind at 1. rewrite (run_hops_app _ _ _ _ Hr1).
  destruct w1 as [l i st bd wr str mx ex tx bl].
  destruct Hb1 as (Hl & Hw & Hs & Hbl & He & Hst & Hbd & Ht & Hi). simpl in Hl, Hw, Hs, Hbl, He, Hst, Hbd, Hi, Hm. subst.
  cbn [run_hops run_hop rw_Write waf_writer]. run_M.
  rewrite !string_app_nil_r. destruct (Z.ltb_spec 0 (limit_of max)); [|lia].
  destruct (Z.ltb_spec (limit_of max) (Z.of_nat (String.length a) + Z.of_nat (String.length b))); [|lia].
  run_M. unfold server_Write. cbn -[String.append]. by rewrite string_app_nil_l.
Qed.
End Server.

(** ** An engine with three rules *)

Definition demo_rule (s pat : string) (t : option interruption) : option interruption :=
  match t with
  | Some it => Some it
  | None => if Contains s pat then Some (mkInterruption 942100 403) else None
  end.

#[global] Instance demo_engine : Coraza (option interruption) := {|
  NewTransaction := None;
  ProcessConnection _ _ _ _ t := t;
  ProcessURI uri _ _ t := demo_rule uri "attack" t;
  AddRequestHeader _ _ t := t;
  ProcessRequestHeaders t := t;
  WriteRequestBody b t := demo_rule b "attack" t;
  ProcessRequestBody t := t;
  AddResponseHeader _ _ t := t;
  ProcessResponseHeaders _ t := t;
  WriteResponseBody b t := demo_rule b "secret" t;
  ProcessResponseBody t := t;
  Interruption t := t;
|}.

Lemma demo_header_rules_pass : header_rules_pass (T := option interruption).
Proof.
  intros code h t Ht. cbn in *. subst. unfold add_headers.
  induction (map_to_list h) as [|[k vs] l IH]; simpl; [done|].
  assert (foldl (λ (t : option interruption) _, t) None vs = None) as -> by (by induction vs). done.
Qed.

Definition demo_post : Request := plain_request "POST" "/save" "/save" "example.org" "1.2.3.4:5" false ∅.
Definition demo_head : head := mkHead ∅ [].
Lemma demo_page : page_code 200 ∧ page_code 403.
Proof. by repeat split. Qed.

Lemma stopped_request_never_served_witness :
  WrapWithWAF 0 "" "1.2.3.4" demo_post "x=attack" None
    (λ _, run_hops [HStatus 200; HWrite "done"]) (new_response demo_head)
  = (Done (), blocked_response demo_head 403 "Blocked by WAF").
Proof.
  apply (stopped_request_never_served 0 "" "1.2.3.4" demo_post "x=attack" demo_head (mkInterruption 942100 403)).
  - exact (proj2 demo_page).
  - vm_compute. discriminate.
  - right. split; reflexivity.
Defined.


Lemma write_before_status_hangs_witness :
  ∃ sv, WrapWithWAF 0 "" "1.2.3.4" demo_post "x=1" None
    (λ _, run_hops [HWrite "metrics"];; mret ()) (new_response demo_head) = (Hang, sv) ∧ srv_sent sv = None.
Proof.
  destruct (write_before_status_hangs 0 "" "1.2.3.4" demo_post "x=1" demo_head [] "metrics" (mret ()))
    as (sv & Hh & Hs & _).
  - vm_compute. discriminate.
  - reflexivity.
  - reflexivity.
  - exists sv. split; [exact Hh|exact Hs].
Defined.

Lemma overflow_drops_buffer_witness :
  WrapWithWAF 4 "" "1.2.3.4" demo_request "" None
    (λ _, run_hops [HStatus 500; HWrite "abc"; HWrite "def"]) (new_response demo_head)
  = (Done (), mkServer demo_head (Some (200%Z, demo_head)) "def").
Proof.
  apply (overflow_drops_buffer 4 "" "1.2.3.4" demo_request "" demo_head 500 "abc" "def");
    [vm_compute; discriminate|reflexivity|reflexivity|exact demo_header_rules_pass|reflexivity| | |];
    cbn; lia.
Defined.
