(* ===== verification/Metrics.v ===== *)
(** * Request metrics

    [internal/metrics/metrics.go]: the counters and duration histograms per method
    and status class, and their Prometheus text.  Each entry's mutex makes an
    observation of it one step; the counters are [uint64], the durations
    [float64]. *)

From S2P Require Import Prelude GoStrings GoValue GoFloat Session RateLimit Http.
From Stdlib Require Import Ascii.
Import Strings.

(** The decimal constants of the source, rounded to [float64]. *)
Definition decimal (n d : Z) : spec_float := SFdiv 53 1024 (float_of_Z n) (float_of_Z d).
Definition durationBuckets : list spec_float :=
  [decimal 5 1000; decimal 10 1000; decimal 25 1000; decimal 50 1000; decimal 1 10; decimal 25 100;
   decimal 5 10; decimal 1 1; decimal 25 10; decimal 5 1; decimal 10 1].

Definition counterKey : Type := string * string.

Record counterEntry := mkEntry {
  count : Z;
  seconds : spec_float;
  buckets : list Z;
}.

Record Collector := mkCollector {
  counters : gmap counterKey counterEntry;
  inFlight : Z;
  rateLimited : Z;
}.

Definition New : Collector := mkCollector ∅ 0 0.

Definition wrap_u64 (z : Z) : Z := (z mod 2 ^ 64)%Z.

Definition StartRequest (c : Collector) : Collector :=
  mkCollector (counters c) (wrap64 (inFlight c + 1)) (rateLimited c).
Definition EndRequest (c : Collector) : Collector :=
  mkCollector (counters c) (wrap64 (inFlight c - 1)) (rateLimited c).
Definition IncRateLimited (c : Collector) : Collector :=
  mkCollector (counters c) (inFlight c) (wrap_u64 (rateLimited c + 1)).

Definition statusClass (status : Z) : string :=
  if ((200 <=? status) && (status <? 300))%Z then "2xx"
  else if ((300 <=? status) && (status <? 400))%Z then "3xx"
  else if ((400 <=? status) && (status <? 500))%Z then "4xx"
  else if (500 <=? status)%Z then "5xx"
  else "other".

Definition new_entry : counterEntry :=
  mkEntry 0 (S754_zero false) (replicate (S (length durationBuckets)) 0%Z).

(** The loop over the boundaries, and the total after them. *)
Definition bump_buckets (s : spec_float) (bs : list Z) : list Z :=
  zip_with (λ (b : Z) (le : bool), if le then wrap_u64 (b + 1) else b) bs
    (((λ boundary, SFleb s boundary) <$> durationBuckets) ++ [true]).

Definition observe_entry (d : Z) (e : counterEntry) : counterEntry :=
  let s := Seconds (F := spec_float) d in
  mkEntry (wrap_u64 (count e + 1)) (SFadd 53 1024 (seconds e) s) (bump_buckets s (buckets e)).

(** A nil collector observes nothing. *)
Definition Observe (method : string) (status d : Z) (c : option Collector) : option Collector :=
  match c with
  | None => None
  | Some c =>
      let key := (ToUpperASCII method, statusClass status) in
      let entry := default new_entry (counters c !! key) in
      Some (mkCollector (<[key := observe_entry d entry]> (counters c)) (inFlight c) (rateLimited c))
  end.

(** ** The exposition *)

Definition quote (s : string) : string := String "034" "" +:+ s +:+ String "034" "".

(** [sort.Slice] by method, then class: the first entry of a pair that is not
    smaller comes later. *)
Definition key_le (p q : counterKey * counterEntry) : Prop :=
  let '(m, c) := p.1 in let '(m', c') := q.1 in
  if bool_decide (m ≠ m') then String.leb m m' = true else String.leb c c' = true.
#[global] Instance key_le_dec p q : Decision (key_le p q).
Proof. unfold key_le. destruct p as [[] ?], q as [[] ?]. simpl. case_bool_decide; apply _. Defined.

Section Render.
Context `{FloatText}.

Definition labels (k : counterKey) : string :=
  "method=" +:+ quote k.1 +:+ ",status=" +:+ quote k.2.

Definition line (name lbl val : string) : string :=
  name +:+ "{" +:+ lbl +:+ "} " +:+ val +:+ newline.

Definition render_count (p : counterKey * counterEntry) : string :=
  line "kiya_http_requests_total" (labels p.1) (Strconv.FormatInt (count p.2)).

Definition render_bucket (k : counterKey) (le : string) (n : Z) : string :=
  line "kiya_http_request_duration_seconds_bucket" (labels k +:+ ",le=" +:+ quote le) (Strconv.FormatInt n).

Definition render_histogram (p : counterKey * counterEntry) : string :=
  let '(k, e) := p in
  Join "" (zip_with (λ b n, render_bucket k (FormatFloat b) n) durationBuckets (buckets e)) +:+
  render_bucket k "+Inf" (nth (length durationBuckets) (buckets e) 0%Z) +:+
  line "kiya_http_request_duration_seconds_sum" (labels k) (FormatFloat (seconds e)) +:+
  line "kiya_http_request_duration_seconds_count" (labels k) (Strconv.FormatInt (count e)).

Definition render (c : Collector) : string :=
  let entries := merge_sort key_le (map_to_list (counters c)) in
  "# HELP kiya_http_requests_in_flight Requests currently being served." +:+ newline +:+
  "# TYPE kiya_http_requests_in_flight gauge" +:+ newline +:+
  "kiya_http_requests_in_flight " +:+ Strconv.FormatInt (inFlight c) +:+ newline +:+
  "# HELP kiya_http_requests_rate_limited_total Requests rejected by the rate limiter (HTTP 429)." +:+ newline +:+
  "# TYPE kiya_http_requests_rate_limited_total counter" +:+ newline +:+
  "kiya_http_requests_rate_limited_total " +:+ Strconv.FormatInt (rateLimited c) +:+ newline +:+
  "# HELP kiya_http_requests_total Total HTTP requests, labeled by method and status class." +:+ newline +:+
  "# TYPE kiya_http_requests_total counter" +:+ newline +:+
  Join "" (render_count <$> entries) +:+
  "# HELP kiya_http_request_duration_seconds Request duration, labeled by method and status class." +:+ newline +:+
  "# TYPE kiya_http_request_duration_seconds histogram" +:+ newline +:+
  Join "" (render_histogram <$> entries).

(** The endpoint: it writes its text without setting a status. *)
Definition Handler {W} `{ResponseWriter W} (c : Collector) : M W unit :=
  set_header "Content-Type" "text/plain; version=0.0.4; charset=utf-8";;
  rw_Write (render c);;
  mret ().
End Render.

(** ** The histograms are histograms *)

(** Counts of nested intervals: one per boundary and the total, growing, the last
    being the count. *)
Definition growing (l : list Z) : Prop := ∀ i x y, l !! i = Some x → l !! S i = Some y → (x <= y)%Z.

Definition entry_ok (e : counterEntry) : Prop :=
  length (buckets e) = S (length durationBuckets) ∧ growing (buckets e) ∧
  last (buckets e) = Some (count e) ∧ Forall (λ b, 0 <= b <= count e)%Z (buckets e).

Definition total_count (m : gmap counterKey counterEntry) : Z :=
  map_fold (λ _ e acc, (count e + acc)%Z) 0%Z m.

Definition collector_ok (n : Z) (c : Collector) : Prop :=
  map_Forall (λ _ e, entry_ok e ∧ (0 <= count e <= n)%Z) (counters c) ∧ total_count (counters c) = n.

(** Positive finite floats are ordered by exponent, then mantissa. *)
Definition pos_le (a b : spec_float) : bool :=
  match a, b with
  | S754_finite false m e, S754_finite false m' e' => (e <? e')%Z || ((e =? e')%Z && (m <=? m')%positive)
  | _, _ => false
  end.

Lemma SFleb_pos m e m' e' :
  SFleb (S754_finite false m e) (S754_finite false m' e') = true ↔ (e < e')%Z ∨ e = e' ∧ (m <= m')%positive.
Proof.
  unfold SFleb. simpl. change (Pos.compare_cont Eq m m') with (Pos.compare m m').
  destruct (Z.compare_spec e e'), (Pos.compare_spec m m'); split; try done; try lia; intros; lia.
Qed.

Lemma SFleb_pos_trans s a b : pos_le a b = true → SFleb s a = true → SFleb s b = true.
Proof.
  destruct a as [| | |[] ma ea], b as [| | |[] mb eb]; simpl; try done.
  intros Hab. destruct s as [[]|[]| |[] m e]; try done.
  rewrite !SFleb_pos. apply orb_true_iff in Hab as [Hab|[Hab1 Hab2]%andb_true_iff]; to_prop.
  - lia.
  - apply Pos.leb_le in Hab2. lia.
Qed.

(** A duration under one boundary is under the next. *)
Lemma boundaries_grow s i x y :
  durationBuckets !! i = Some x → durationBuckets !! S i = Some y → SFleb s x = true → SFleb s y = true.
Proof.
  intros Hx Hy. apply SFleb_pos_trans.
  assert (forallb (λ i, match durationBuckets !! i, durationBuckets !! S i with
                        | Some x, Some y => pos_le x y
                        | _, _ => true
                        end) (seq 0 11) = true) as Hall by (vm_compute; reflexivity).
  rewrite forallb_forall in Hall. specialize (Hall i). rewrite Hx, Hy in Hall. apply Hall.
  apply in_seq. apply lookup_lt_Some in Hx. simpl in Hx. lia.
Qed.

Definition flags (s : spec_float) : list bool := ((λ boundary, SFleb s boundary) <$> durationBuckets) ++ [true].

Lemma flags_grow s i f g : flags s !! i = Some f → flags s !! S i = Some g → f = true → g = true.
Proof.
  unfold flags. intros Hf Hg ->.
  apply lookup_app_Some in Hg as [Hg|[Hle Hg]].
  - rewrite lookup_app_l in Hf by (apply lookup_lt_Some in Hg; lia).
    rewrite list_lookup_fmap in Hf, Hg.
    destruct (durationBuckets !! i) as [x|] eqn:Ex; [|done].
    destruct (durationBuckets !! S i) as [y|] eqn:Ey; [|done]. simpl in *. injection Hf as Hf. injection Hg as <-.
    by eapply boundaries_grow.
  - apply list_lookup_singleton_Some in Hg as [_ ->]. done.
Qed.

Lemma bump_length s bs : length bs = S (length durationBuckets) → length (bump_buckets s bs) = S (length durationBuckets).
Proof. intros Hl. unfold bump_buckets. rewrite length_zip_with, Hl. done. Qed.

Lemma wrap_u64_id z : (0 <= z < 2 ^ 64)%Z → wrap_u64 z = z.
Proof. intros. by apply Z.mod_small. Qed.

Lemma observe_entry_ok d e :
  entry_ok e → (count e + 1 < 2 ^ 64)%Z → (0 <= count e)%Z →
  entry_ok (observe_entry d e) ∧ count (observe_entry d e) = (count e + 1)%Z.
Proof.
  intros (Hlen & Hgrow & Hlast & Hall) Hmax Hpos.
  assert (count (observe_entry d e) = (count e + 1)%Z) as Hc by (simpl; by rewrite wrap_u64_id by lia).
  split; [|done]. unfold entry_ok. rewrite Hc. cbn [buckets observe_entry].
  set (s := Seconds d). fold (flags s).
  assert (∀ i x, bump_buckets s (buckets e) !! i = Some x →
    ∃ b f, buckets e !! i = Some b ∧ flags s !! i = Some f ∧ (0 <= b <= count e)%Z ∧
      x = if f : bool then (b + 1)%Z else b) as Hlk.
  { intros i x Hx. unfold bump_buckets in Hx. apply lookup_zip_with_Some in Hx as (b & f & -> & Hb & Hf).
    rewrite Forall_lookup in Hall. specialize (Hall _ _ Hb). exists b, f. split_and!; try done; try lia.
    destruct f; [|done]. apply wrap_u64_id. lia. }
  split_and!.
  - by apply bump_length.
  - intros i x y Hx Hy. destruct (Hlk _ _ Hx) as (b & f & Hb & Hf & Hbr & ->).
    destruct (Hlk _ _ Hy) as (b' & f' & Hb' & Hf' & Hbr' & ->).
    specialize (Hgrow _ _ _ Hb Hb'). pose proof (flags_grow s i f f' Hf Hf').
    destruct f, f'; lia || naive_solver lia.
  - rewrite last_lookup, bump_length by done. cbn [Init.Nat.pred].
    rewrite last_lookup, Hlen in Hlast. cbn [Init.Nat.pred] in Hlast.
    destruct (bump_buckets s (buckets e) !! length durationBuckets) as [x|] eqn:Ex.
    + destruct (Hlk _ _ Ex) as (b & f & Hb & Hf & _ & ->). f_equal.
      assert (f = true) as -> by (by injection Hf). congruence.
    + apply lookup_ge_None in Ex. rewrite bump_length in Ex by done. lia.
  - apply Forall_lookup. intros i x Hx. destruct (Hlk _ _ Hx) as (b & f & _ & _ & Hbr & ->). destruct f; lia.
Qed.

Lemma total_insert m k e e' :
  m !! k = Some e →
  total_count (<[k := e']> m) = (total_count m - count e + count e')%Z.
Proof.
  intros Hk. unfold total_count.
  rewrite <-(insert_delete_id m k e) at 2 by done. rewrite <-(insert_delete_eq m).
  rewrite !map_fold_insert_L; try apply lookup_delete_eq; intros; lia.
Qed.

Lemma total_insert_new m k e' : m !! k = None → total_count (<[k := e']> m) = (total_count m + count e')%Z.
Proof.
  intros Hk. unfold total_count. rewrite map_fold_insert_L; [lia|intros; lia|done].
Qed.

Lemma Observe_ok n method status d c :
  collector_ok n c → (0 <= n)%Z → (n + 1 < 2 ^ 64)%Z →
  ∃ c', Observe method status d (Some c) = Some c' ∧ collector_ok (n + 1) c'.
Proof.
  intros [Hall Htot] Hn Hmax. eexists. split; [reflexivity|].
  set (key := (ToUpperASCII method, statusClass status)).
  assert (entry_ok (default new_entry (counters c !! key)) ∧
          (0 <= count (default new_entry (counters c !! key)) <= n)%Z) as [Hok Hcnt].
  { destruct (counters c !! key) as [e|] eqn:E; simpl; [by apply (Hall key)|].
    split; [|lia]. split_and!; [done| |done|].
    - intros i x y Hx Hy. cbn [buckets new_entry] in Hx, Hy.
      apply lookup_replicate_1 in Hx as [-> _], Hy as [-> _]. done.
    - apply Forall_replicate. simpl. lia. }
  destruct (observe_entry_ok d _ Hok) as [Hok' Hc']; [lia|lia|].
  split; cbn [counters].
  - apply map_Forall_insert_2; [split; [done|rewrite Hc'; lia]|].
    eapply map_Forall_impl; [exact Hall|]. intros k e [? ?]. split; [done|lia].
  - destruct (counters c !! key) as [e|] eqn:E; cbn [from_option id] in *.
    + rewrite (total_insert _ _ e) by done. lia.
    + rewrite total_insert_new by done. change (count new_entry) with 0%Z in *. lia.
Qed.


