(* ===== verification/DbSanitize.v ===== *)
(** * Identifier checks and placeholder dialects
    ([internal/db/sanitize.go], [internal/db/dialect.go])

    The three fixed regular expressions of these files are modelled by scanners
    that compute what the leftmost-first matcher of package [regexp] returns. *)

From S2P Require Import Prelude GoStrings Util.
From Stdlib Require Import Ascii.
Import Strings.

(** ** sanitize.go *)

(** The classes [[a-zA-Z0-9_\.]] and [[a-zA-Z0-9_\.\s,]]. *)
Definition ident_byte (a : ascii) : bool :=
  is_letter a || is_digit a || bool_decide (a ∈ ["_"; "."]%char).
Definition re_space (a : ascii) : bool := bool_decide (a ∈ ["009"; "010"; "012"; "013"; " "]%char).
Definition order_byte (a : ascii) : bool :=
  ident_byte a || re_space a || bool_decide (a = ","%char).

(** [^class+$]: a non-empty text of the class. *)
Definition re_all (cls : ascii → bool) (s : string) : bool :=
  negb (bool_decide (s = "")) && str_all cls s.
Definition reValidIdentifier : string → bool := re_all ident_byte.
Definition reValidOrderBy : string → bool := re_all order_byte.

Definition SanitizeIdentifier (ident : string) : string :=
  if bool_decide (ident = "") then ""
  else if reValidIdentifier ident then ident
  else "".

Section Lower.
Context `{Unicode}.

Definition SanitizeOrderBy (expr : string) : string :=
  let expr := TrimSpace expr in
  if bool_decide (expr = "") then ""
  else
    let lowerExpr := strings_ToLower expr in
    if Contains lowerExpr "select" || Contains lowerExpr "case" || Contains lowerExpr "when" then ""
    else if reValidOrderBy expr then expr
    else "".

Definition SanitizeOnClause (on : string) : string :=
  let onLower := strings_ToLower on in
  if Contains on "--" || Contains on "/*" then "1=0"
  else if Contains on ";" then "1=0"
  else if Contains on "(" || Contains on ")" then "1=0"
  else if Contains onLower "select " || Contains onLower " union " then "1=0"
  else on.
End Lower.

(** ** dialect.go *)

Inductive Dialect := MySQLDialect | PostgresDialect.

Definition Dialect_Name (d : Dialect) : string :=
  match d with MySQLDialect => "mysql" | PostgresDialect => "postgres" end.

Definition quote : ascii := "'"%char.
Definition dollar : ascii := "$"%char.
Definition qmark : ascii := "?"%char.

(** The length of the match of [(?:[^']|'')*'] at the start of [s]: the star
    prefers to go on, so a doubled quote closes the literal only when no later
    quote does. *)
Fixpoint match_quoted (s : string) : option nat :=
  match s with
  | "" => None
  | String c s' =>
      if bool_decide (c = quote) then
        match s' with
        | String q s'' =>
            if bool_decide (q = quote) then
              match match_quoted s'' with Some n => Some (2 + n) | None => Some 1 end
            else Some 1
        | "" => Some 1
        end
      else S <$> match_quoted s'
  end.

(** The length of the match of [.*?\$\$] at the start of [s]. *)
Fixpoint match_dollars (s : string) : option nat :=
  if HasPrefix s "$$" then Some 2
  else match s with
       | "" => None
       | String c s' => if bool_decide (c = "010"%char) then None else S <$> match_dollars s'
       end.

(** The length of the match of the placeholder expression at the start of [s]. *)
Definition match_placeholder (s : string) : option nat :=
  match s with
  | "" => None
  | String c s' =>
      if bool_decide (c = quote) then S <$> match_quoted s'
      else if bool_decide (c = dollar) then
        match s' with
        | String d s'' => if bool_decide (d = dollar) then (λ n, 2 + n) <$> match_dollars s'' else None
        | "" => None
        end
      else if bool_decide (c = qmark) then Some 1
      else None
  end.

(** [ReplaceAllStringFunc] with the closure that numbers the question marks:
    [skip] bytes of the current match are still to be copied, [i] is the
    counter. *)
Fixpoint convert_go (skip : nat) (i : Z) (s : string) : string :=
  match s with
  | "" => ""
  | String c s' =>
      match skip with
      | S k => String c (convert_go k i s')
      | O =>
          match match_placeholder s with
          | None => String c (convert_go 0 i s')
          | Some n =>
              if bool_decide (c = quote) || bool_decide (c = dollar)
              then String c (convert_go (n - 1) i s')
              else "$" +:+ Strconv.FormatInt (i + 1) +:+ convert_go (n - 1) (i + 1) s'
          end
      end
  end.

Definition ConvertPlaceholders (d : Dialect) (query : string) : string :=
  match d with
  | MySQLDialect => query
  | PostgresDialect => convert_go 0 0 query
  end.

(** ** Facts about identifiers *)

Lemma SanitizeIdentifier_cases s :
  SanitizeIdentifier s = "" ∨
  (SanitizeIdentifier s = s ∧ s ≠ "" ∧ str_all ident_byte s = true).
Proof.
  unfold SanitizeIdentifier, reValidIdentifier, re_all.
  case_bool_decide; [by left|]. simpl. destruct (str_all ident_byte s) eqn:E; auto.
Qed.

Lemma SanitizeIdentifier_bytes s : str_all ident_byte (SanitizeIdentifier s) = true.
Proof. destruct (SanitizeIdentifier_cases s) as [->|(-> & _ & ?)]; done. Qed.

Lemma SanitizeIdentifier_idemp s :
  SanitizeIdentifier (SanitizeIdentifier s) = SanitizeIdentifier s.
Proof. destruct (SanitizeIdentifier_cases s) as [->|(Hs & _ & _)]; [done|]. by rewrite !Hs. Qed.

Lemma SanitizeIdentifier_valid s :
  s ≠ "" → str_all ident_byte s = true → SanitizeIdentifier s = s.
Proof.
  intros Hs Hb. unfold SanitizeIdentifier, reValidIdentifier, re_all.
  rewrite bool_decide_false by done. by rewrite Hb.
Qed.

Section OrderBy.
Context `{Unicode}.

Lemma SanitizeOrderBy_bytes s : str_all order_byte (SanitizeOrderBy s) = true.
Proof.
  unfold SanitizeOrderBy, reValidOrderBy, re_all.
  case_bool_decide; [done|]. destruct (_ || _); [done|].
  destruct (_ && _) eqn:E; [|done]. by to_prop.
Qed.

(** What an accepted ON clause lacks. *)
Lemma SanitizeOnClause_chars s c :
  c ∈ [";"; "("; ")"]%char → Contains (SanitizeOnClause s) (String c "") = false.
Proof.
  intros Hc. unfold SanitizeOnClause.
  set_unfold. repeat (case_match; try (destruct_or? Hc; subst; reflexivity)).
  to_prop. by destruct_or? Hc; subst.
Qed.
End OrderBy.

(** Bytes of sanitized text that the scanners treat specially. *)
Definition inert_byte (a : ascii) : bool :=
  negb (bool_decide (a ∈ [quote; dollar; qmark])).

Lemma ident_byte_inert a : ident_byte a = true → inert_byte a = true.
Proof. by destruct a as [[] [] [] [] [] [] [] []]; vm_compute. Qed.
Lemma order_byte_inert a : order_byte a = true → inert_byte a = true.
Proof. by destruct a as [[] [] [] [] [] [] [] []]; vm_compute. Qed.

#[export] Hint Resolve ident_byte_inert order_byte_inert SanitizeIdentifier_bytes : kiya.

(** ** Placeholder conversion against a lexical reading of the query

    A query is read as a sequence of chunks: plain text, a quoted literal (a
    quote inside it is doubled), a dollar-quoted literal, and a placeholder. *)
Inductive chunk :=
  | Text (s : string)
  | Literal (s : string)
  | DollarLiteral (s : string)
  | Placeholder.

Fixpoint double_quotes (s : string) : string :=
  match s with
  | "" => ""
  | String c s' =>
      if bool_decide (c = quote) then String quote (String quote (double_quotes s'))
      else String c (double_quotes s')
  end.

Definition chunk_text (c : chunk) : string :=
  match c with
  | Text s => s
  | Literal s => "'" +:+ double_quotes s +:+ "'"
  | DollarLiteral s => "$$" +:+ s +:+ "$$"
  | Placeholder => "?"
  end.

Fixpoint render (cs : list chunk) : string :=
  match cs with [] => "" | c :: cs' => chunk_text c +:+ render cs' end.

(** The same query with its placeholders numbered from [i + 1]. *)
Fixpoint render_numbered (i : Z) (cs : list chunk) : string :=
  match cs with
  | [] => ""
  | Placeholder :: cs' => "$" +:+ Strconv.FormatInt (i + 1) +:+ render_numbered (i + 1) cs'
  | c :: cs' => chunk_text c +:+ render_numbered i cs'
  end.

(** The chunk is lexically what it says, and a literal is not followed by
    another quote. *)
Definition chunk_ok (c : chunk) (rest : string) : bool :=
  match c with
  | Text s => str_all inert_byte s
  | Literal _ => negb (HasPrefix rest "'")
  | DollarLiteral s => str_all (λ a, negb (bool_decide (a ∈ [dollar; "010"%char]))) s
  | Placeholder => true
  end.

Fixpoint chunks_ok (cs : list chunk) : bool :=
  match cs with [] => true | c :: cs' => chunk_ok c (render cs') && chunks_ok cs' end.

Lemma convert_go_skip p n i t :
  String.length p = n → convert_go n i (p +:+ t) = p +:+ convert_go 0 i t.
Proof.
  revert n. induction p as [|a p IH]; intros [|n] Hn; try done.
  rewrite !string_app_cons. simpl. f_equal. apply IH. by injection Hn.
Qed.

Lemma convert_go_text p i t :
  str_all inert_byte p = true → convert_go 0 i (p +:+ t) = p +:+ convert_go 0 i t.
Proof.
  induction p as [|a p IH]; [done|]. simpl. intros; to_prop.
  unfold inert_byte in H. apply negb_true_iff, bool_decide_eq_false in H. set_unfold.
  rewrite !string_app_cons. simpl. rewrite !bool_decide_false by naive_solver.
  by rewrite IH.
Qed.

Lemma match_quoted_literal s t :
  HasPrefix t "'" = false →
  match_quoted (double_quotes s +:+ String quote t) = Some (String.length (double_quotes s) + 1).
Proof.
  intros Ht. induction s as [|c s IH].
  - change ("" +:+ String quote t) with (String quote t). simpl.
    destruct t as [|q t]; [done|]. simpl in Ht. rewrite bool_decide_false; [done|].
    intros ->. by destruct t.
  - simpl. destruct (decide (c = quote)) as [->|Hc].
    + rewrite bool_decide_true by done. rewrite !string_app_cons. cbn [match_quoted].
      rewrite !(bool_decide_true (quote = quote)) by done. by rewrite IH.
    + rewrite bool_decide_false by done. rewrite string_app_cons. cbn [match_quoted].
      rewrite bool_decide_false by done. by rewrite IH.
Qed.

Lemma match_dollars_literal s t :
  str_all (λ a, negb (bool_decide (a ∈ [dollar; "010"%char]))) s = true →
  match_dollars (s +:+ String dollar (String dollar t)) = Some (String.length s + 2).
Proof.
  induction s as [|c s IH]; intros Hs.
  - rewrite string_app_nil_l. by destruct t.
  - cbn [str_all] in Hs. apply andb_true_iff in Hs as [Hc Hs].
    apply negb_true_iff, bool_decide_eq_false in Hc.
    assert (c ≠ dollar ∧ c ≠ "010"%char) as [Hd Hn] by set_solver.
    change (String c s +:+ ?t) with (String c (s +:+ t)). cbn [match_dollars HasPrefix].
    rewrite (bool_decide_false (c = "$"%char)) by done. cbn [andb].
    rewrite bool_decide_false by done. by rewrite IH.
Qed.

Lemma convert_go_literal s i t :
  HasPrefix t "'" = false →
  convert_go 0 i (chunk_text (Literal s) +:+ t) = chunk_text (Literal s) +:+ convert_go 0 i t.
Proof.
  intros Ht. cbn [chunk_text]. rewrite !string_app_assoc.
  change ("'" +:+ ?s) with (String quote s) at 1 4. cbn [convert_go].
  cbn [match_placeholder]. rewrite bool_decide_true by done.
  change ("'" +:+ t) with (String quote t).
  rewrite match_quoted_literal by done. cbn -[String.append]. f_equal.
  replace (double_quotes s +:+ String quote t) with ((double_quotes s +:+ "'") +:+ t)
    by (by rewrite string_app_assoc).
  rewrite convert_go_skip; [by rewrite string_app_assoc|].
  rewrite string_app_length. simpl. lia.
Qed.

Lemma convert_go_copy c s n i :
  match_placeholder (String c s) = Some n → bool_decide (c = quote) || bool_decide (c = dollar) = true →
  convert_go 0 i (String c s) = String c (convert_go (n - 1) i s).
Proof. intros Hm Hc. cbn [convert_go]. by rewrite Hm, Hc. Qed.

Lemma convert_go_dollar s i t :
  str_all (λ a, negb (bool_decide (a ∈ [dollar; "010"%char]))) s = true →
  convert_go 0 i (chunk_text (DollarLiteral s) +:+ t)
  = chunk_text (DollarLiteral s) +:+ convert_go 0 i t.
Proof.
  intros Hs. cbn [chunk_text]. rewrite !string_app_assoc.
  change ("$$" +:+ t) with (String dollar (String dollar t)).
  change ("$$" +:+ ?s) with (String dollar (String dollar s)) at 1 2.
  rewrite (convert_go_copy _ _ (2 + (String.length s + 2))); [|by cbn; rewrite match_dollars_literal|done].
  replace (String dollar (s +:+ String dollar (String dollar t)))
    with (String dollar (s +:+ "$$") +:+ t) by (by rewrite string_app_cons, string_app_assoc).
  rewrite convert_go_skip.
  - by rewrite string_app_cons, string_app_assoc.
  - cbn [String.length]. rewrite string_app_length. simpl. lia.
Qed.

Lemma convert_go_render cs i :
  chunks_ok cs = true → convert_go 0 i (render cs) = render_numbered i cs.
Proof.
  revert i. induction cs as [|c cs IH]; intros i; [done|]. cbn [chunks_ok]. intros; to_prop.
  destruct c; cbn [chunk_ok render render_numbered] in *.
  - cbn [chunk_text]. by rewrite convert_go_text, IH.
  - apply negb_true_iff in H. by rewrite convert_go_literal, IH.
  - by rewrite convert_go_dollar, IH.
  - cbn [chunk_text]. change ("?" +:+ ?s) with (String qmark s). cbn [convert_go].
    change (match_placeholder (String qmark (render cs))) with (Some 1).
    rewrite !bool_decide_false by done. cbn [orb Nat.sub]. by rewrite IH.
Qed.

(** On a query read as plain text, quoted literals, dollar-quoted literals
    and placeholders, the Postgres conversion numbers exactly the placeholders,
    from [$1] on and in order, and copies everything else, question marks inside
    literals included. *)
Theorem ConvertPlaceholders_numbers cs :
  chunks_ok cs = true →
  ConvertPlaceholders PostgresDialect (render cs) = render_numbered 0 cs.
Proof. apply convert_go_render. Qed.

Lemma ConvertPlaceholders_numbers_witness :
  ConvertPlaceholders PostgresDialect
    (render [Text "a = "; Placeholder; Text " AND b = "; Literal "it's ?";
             Text " AND c = "; Placeholder])
  = "a = $1 AND b = 'it''s ?' AND c = $2".
Proof.
  apply (ConvertPlaceholders_numbers
    [Text "a = "; Placeholder; Text " AND b = "; Literal "it's ?";
     Text " AND c = "; Placeholder]).
  reflexivity.
Defined.
