(* ===== verification/DbModel.v ===== *)
(** * Struct models and columns
    ([internal/db/reflect.go], [helpers.go], [history.go])

    Which struct fields are columns, the maps the builder writes from a struct,
    the scanning of a row into a struct, primary keys, and the audit trail kept
    in a model's [History] field.  Package [encoding/json] is the interface
    [HistoryCodec]. *)

From S2P Require Import Prelude GoStrings GoValue Util.
From Stdlib Require Import Ascii.
Import Strings.

(** ** getStructInfo *)

Record dbCachedField := mkField {
  idx : nat;
  name : string;
  isAutofill : bool;
  isNullable : bool;
  isPrimary : bool;
  isAutoincrement : bool;
  historyExclude : bool;
}.

Record dbCachedStruct := mkStruct {
  defaultName : string;
  fields : list dbCachedField;
  primaryKeys : list string;
  autoIncCol : string;
}.

(** The options after the column name in a [db] tag. *)
Definition apply_option (f : dbCachedField) (opt : string) : dbCachedField :=
  let opt := TrimSpace opt in
  if bool_decide (opt = "autofill") then
    mkField (idx f) (name f) true (isNullable f) (isPrimary f) (isAutoincrement f) (historyExclude f)
  else if bool_decide (opt = "nullable") then
    mkField (idx f) (name f) (isAutofill f) true (isPrimary f) (isAutoincrement f) (historyExclude f)
  else if bool_decide (opt = "primary") then
    mkField (idx f) (name f) (isAutofill f) (isNullable f) true (isAutoincrement f) (historyExclude f)
  else if bool_decide (opt = "autoincrement") then
    mkField (idx f) (name f) (isAutofill f) (isNullable f) (isPrimary f) true (historyExclude f)
  else f.

Definition internal_names : list string := ["__db"; "__res"; "__self"; "__hasSoftDelete"; "__tx"].

(** What the loop body makes of one struct field; [None] is [continue]. *)
Definition cache_field (i : nat) (field : sfield) : option dbCachedField :=
  if negb (sf_exported field) && negb (sf_anonymous field) then None
  else if bool_decide (sf_name field ∈ internal_names) then None
  else
    let tag := Tag_Get field "db" in
    if bool_decide (tag = "") || bool_decide (tag = "-") then None
    else match Split "," tag with
    | [] => None
    | colName :: opts =>
        if bool_decide (colName = "") then None
        else
          let fi := foldl apply_option (mkField i colName false false false false false) opts in
          Some (mkField (idx fi) (name fi) (isAutofill fi) (isNullable fi)
                  (isPrimary fi || isAutoincrement fi) (isAutoincrement fi)
                  (bool_decide (Tag_Get field "history" = "-")))
    end.

Definition add_field (info : dbCachedStruct) (fi : dbCachedField) : dbCachedStruct :=
  mkStruct (defaultName info) (fields info ++ [fi])
    (if isPrimary fi then primaryKeys info ++ [name fi] else primaryKeys info)
    (if isAutoincrement fi && bool_decide (autoIncCol info = "") then name fi else autoIncCol info).

Section Model.
Context `{Unicode} `{Platform}.

(** The result does not depend on the cache [dbStructCache], which only stores it. *)
Definition getStructInfo (n : string) (tn : option string) (fs : list sfield) : dbCachedStruct :=
  let dn := match tn with
            | Some s => if bool_decide (s ≠ "") then s else ToSnakeCase n
            | None => ToSnakeCase n
            end in
  foldl add_field (mkStruct dn [] [] "") (omap id (imap cache_field fs)).

(** The struct type behind a type or value of kind [Struct]; [time.Time] has
    no column. *)
Definition struct_type (t : gotype) : option (string * option string * list sfield) :=
  match t with
  | TStruct n tn fs => Some (n, tn, fs)
  | TTime => Some ("Time", None, [])
  | _ => None
  end.

Definition as_struct (v : value) : option (string * option string * list sfield * list value) :=
  match v with
  | VStruct n tn fs vs => Some (n, tn, fs, vs)
  | VTime _ => Some ("Time", None, [], [])
  | _ => None
  end.

(** [val.Field(i)], and its [Interface()], which panics on an unexported field. *)
Definition field_at (fs : list sfield) (vs : list value) (i : nat) : outcome (sfield * value) :=
  match fs !! i, vs !! i with
  | Some f, Some v => Ret (f, v)
  | _, _ => Panic "reflect: Field index out of range"
  end.

Definition field_interface (fs : list sfield) (vs : list value) (i : nat) : R value :=
  '(f, v) ← lift (field_at fs vs i);
  if sf_exported f then mret v else Panic "reflect.Value.Interface: unexported field".

(** One dereference, as the code's [if val.Kind() == reflect.Ptr]. *)
Inductive deref_result := DNil | DVal (v : value).
Definition deref (v : value) : deref_result :=
  match v with
  | VPtr _ None => DNil
  | VPtr _ (Some w) => DVal w
  | w => DVal w
  end.

(** ** Table names, primary keys *)

Definition getTableNameFromModel (model : value) : R string :=
  match model with
  | VPtr _ None => fail (ENew "model is nil")
  | VNil => Panic "reflect: call of Type on zero Value"
  | _ =>
      let typ := match model with VPtr t _ => Some t | v => type_of v end in
      let typ := match typ with
                 | Some (TSlice (TPtr t)) => Some t
                 | Some (TSlice t) => Some t
                 | t => t
                 end in
      match typ ≫= struct_type with
      | Some (n, tn, fs) => mret (defaultName (getStructInfo n tn fs))
      | None => fail (ENew "model must be a struct or slice of structs")
      end
  end.

Definition GetTableNameFromModel (model : value) : R string := getTableNameFromModel model.

(** [isZero]: [t] is the static type of the reflected value, [None] the zero
    [reflect.Value]. *)
Definition isZero (t : option gotype) (v : value) : bool :=
  match t with
  | None => true
  | Some t =>
      match t, v with
      | TInt _, VInt _ z | TUint _, VUint _ z => (z =? 0)%Z
      | TFloat _, VFloat _ f => float_eqb f (S754_zero false)
      | TString, VString s => bool_decide (s = "")
      | TBool, VBool b => negb b
      | TPtr _, VPtr _ None => true
      | TInterface, VNil => true
      | TTime, VTime z => (z =? 0)%Z
      | TStruct _ _ _, _ => DeepEqual v (zero_value t)
      | TSlice _, VBytes None | TSlice _, VSlice _ None | TMap _, VMap _ None => true
      | TSlice _, VBytes (Some b) => bool_decide (b = "")
      | TSlice _, VSlice _ (Some l) => bool_decide (length l = 0)
      | TMap _, VMap _ (Some m) => bool_decide (length m = 0)
      | _, _ => false
      end
  end.

Record PrimaryKeyInfo := mkPK { ColumnName : string; PkValue : value; IsZero : bool }.

Definition pk_info (fs : list sfield) (vs : list value) (col : string) (f : dbCachedField)
  : R PrimaryKeyInfo :=
  v ← field_interface fs vs (idx f);
  '(sf, _) ← lift (field_at fs vs (idx f));
  mret (mkPK col v (isZero (Some (sf_type sf)) v)).

Fixpoint mapR {A B} (f : A → R B) (l : list A) : R (list B) :=
  match l with
  | [] => mret []
  | x :: l' => y ← f x; ys ← mapR f l'; mret (y :: ys)
  end.

Definition GetPrimaryKeys (model : value) : R (list PrimaryKeyInfo) :=
  match deref model with
  | DNil => mret []
  | DVal v =>
      match as_struct v with
      | None => fail (ENew "model must be a struct")
      | Some (n, tn, fs, vs) =>
          let info := getStructInfo n tn fs in
          if bool_decide (primaryKeys info ≠ [])
          then mapR (λ f, pk_info fs vs (name f) f) (filter (λ f, isPrimary f = true) (fields info))
          else match find_first (λ f, bool_decide (name f = "id")) (fields info) with
               | Some f => pk ← pk_info fs vs "id" f; mret [pk]
               | None => mret []
               end
      end
  end.

Definition toInt64 (v : value) : R Z :=
  match v with
  | VInt _ z => mret z
  | VUint _ z => mret (wrap64 z)
  | _ => fail (ENew "kiya: primary key value is not an integer type")
  end.

Definition PrimaryKeyValue (model : value) : R Z :=
  pks ← GetPrimaryKeys model;
  match pks with
  | [] => fail (ENew "kiya: no primary key field found on model")
  | pk :: _ => toInt64 (PkValue pk)
  end.

Definition PrimaryKeyColumn (model : value) : R string :=
  pks ← GetPrimaryKeys model;
  match pks with
  | pk :: _ => mret (ColumnName pk)
  | [] => mret "id"
  end.

(** [SetInt]/[SetUint] on a field of an integer kind; [None] for other kinds. *)
Definition set_integer (t : gotype) (id : Z) : option value :=
  match t with
  | TInt k => Some (VInt k (wrap_int k id))
  | TUint k => Some (VUint k (wrap_uint k (wrap_uint KInt64 id)))
  | _ => None
  end.

Definition pk_target (info : dbCachedStruct) : option dbCachedField :=
  match find_first isPrimary (fields info) with
  | Some f => Some f
  | None => find_first (λ f, bool_decide (name f = "id")) (fields info)
  end.

(** The new model is returned: the code writes through the pointer. *)
Definition SetPrimaryKeyValue (model : value) (id : Z) : R value :=
  match model with
  | VPtr t (Some v) =>
      match as_struct v with
      | None => fail (ENew "model must point to a struct")
      | Some (n, tn, fs, vs) =>
          match pk_target (getStructInfo n tn fs) with
          | None => fail (ENew "no primary key field found on model")
          | Some f =>
              '(sf, _) ← lift (field_at fs vs (idx f));
              if negb (sf_exported sf) then fail (ENew "primary key field is not settable")
              else match set_integer (sf_type sf) id with
                   | Some x => mret (VPtr t (Some (set_field v (idx f) x)))
                   | None => fail (ENew "primary key field is not an integer type")
                   end
          end
      end
  | _ => fail (ENew "model must be a non-nil pointer")
  end.

(** ** Struct to columns *)

Definition StructToHistoryMap (model : value) (cols : list string) : R (gmap string value) :=
  match deref model with
  | DNil => fail (ENew "struct pointer is nil")
  | DVal v =>
      match as_struct v with
      | None => fail (ENew "input must be a struct")
      | Some (n, tn, fs, vs) =>
          foldl (λ acc f,
            data ← acc;
            if historyExclude f || isPrimary f || isAutoincrement f then mret data
            else if negb (bool_decide (cols = [])) && negb (bool_decide (name f ∈ cols))
            then mret data
            else x ← field_interface fs vs (idx f); mret (<[name f := x]> data))
            (mret ∅) (fields (getStructInfo n tn fs))
      end
  end.

Definition columnsForUpsert (model : value) : R (list string) :=
  match deref model with
  | DNil => fail (ENew "model is nil")
  | DVal v =>
      match as_struct v with
      | None => fail (ENew "model must be a struct")
      | Some (n, tn, fs, _) =>
          mret (name <$> filter (λ f, isPrimary f || isAutoincrement f || isAutofill f = false)
                           (fields (getStructInfo n tn fs)))
      end
  end.

(** The columns written for a field list: the selected ones, or all but those
    the database fills. *)
Definition writes_column (selectedCols : list string) (f : dbCachedField) : bool :=
  if negb (bool_decide (selectedCols = [])) then bool_decide (name f ∈ selectedCols)
  else negb (isAutofill f) && negb (isAutoincrement f).

Definition structToMap (model : value) (selectedCols : list string) : R (gmap string value) :=
  match deref model with
  | DNil => fail (ENew "struct pointer is nil")
  | DVal v =>
      match as_struct v with
      | None => fail (ENew "input must be a struct")
      | Some (n, tn, fs, vs) =>
          foldl (λ acc f,
            data ← acc;
            if negb (writes_column selectedCols f) then mret data
            else
              '(sf, _) ← lift (field_at fs vs (idx f));
              x ← field_interface fs vs (idx f);
              if isNullable f
              then mret (<[name f := if isZero (Some (sf_type sf)) x then VNil else x]> data)
              else mret (<[name f := x]> data))
            (mret ∅) (fields (getStructInfo n tn fs))
      end
  end.

(** [strings.EqualFold(s, "id")]: no letter outside ASCII folds to [i] or [d]. *)
Definition equal_fold_id (s : string) : bool := bool_decide (ToLowerASCII s = "id").

Definition assign_at (model : value) (t : gotype) (v : value) (fs : list sfield) (f : dbCachedField)
    (id : Z) : value :=
  match fs !! idx f with
  | Some sf =>
      if sf_exported sf then
        match set_integer (sf_type sf) id with
        | Some x => VPtr t (Some (set_field v (idx f) x))
        | None => model
        end
      else model
  | None => model
  end.

Definition assignAutoIncrementID (model : value) (id : Z) : value :=
  if (id =? 0)%Z then model
  else match model with
  | VPtr t (Some v) =>
      match as_struct v with
      | None => model
      | Some (n, tn, fs, _) =>
          let info := getStructInfo n tn fs in
          match find_first isAutoincrement (fields info) with
          | Some f => assign_at model t v fs f id
          | None =>
              match find_first (λ f, equal_fold_id (name f)) (fields info) with
              | Some f => assign_at model t v fs f id
              | None => model
              end
          end
      end
  | _ => model
  end.

(** ** Rows to structs *)

(** [ConvertibleTo] and [Convert] for the kinds [setFieldValue] leaves to its
    default case. *)
Definition convert_to (v : value) (t : gotype) : option value :=
  match t, v with
  | TInterface, _ => Some v
  | TSlice (TUint KInt8), VBytes _ => Some v
  | TSlice (TUint KInt8), VString s => Some (VBytes (Some s))
  | TSlice (TInt KInt32), VString s =>
      Some (VSlice (TInt KInt32) (Some (VInt KInt32 <$> Utf8.runes s)))
  | _, _ => match type_of v with
            | Some u => if type_eqb u t then Some v else None
            | None => None
            end
  end.

(** [setFieldValue]: the new content of a field of type [t] that held [cur]. *)
Fixpoint setFieldValue (t : gotype) (cur v : value) : value :=
  match v with
  | VNil => cur
  | _ =>
      match t with
      | TString => match v with
                   | VBytes b => VString (default "" b)
                   | VString s => VString s
                   | _ => cur
                   end
      | TInt k => match v with
                  | VInt KInt64 z => VInt k (wrap_int k z)
                  | VUint KInt64 z => VInt k (wrap_int k (wrap64 z))
                  | VFloat KFloat64 f => VInt k (wrap_int k (float_to_int64 f))
                  | _ => cur
                  end
      | TUint k => match v with
                   | VUint KInt64 z => VUint k (wrap_uint k z)
                   | VInt KInt64 z => VUint k (wrap_uint k (wrap_uint KInt64 z))
                   | VFloat KFloat64 f => VUint k (wrap_uint k (float_to_uint64 f))
                   | _ => cur
                   end
      | TFloat KFloat64 => match v with VFloat KFloat64 f => VFloat KFloat64 f | _ => cur end
      | TFloat KFloat32 =>
          match v with VFloat KFloat64 f => VFloat KFloat32 (float32_round f) | _ => cur end
      | TBool => match v with
                 | VInt KInt64 z => VBool (negb (z =? 0)%Z)
                 | VBool b => VBool b
                 | _ => cur
                 end
      | TStruct _ _ _ | TTime =>
          match type_of v with
          | Some u => if type_eqb u t then v else cur
          | None => cur
          end
      | TPtr t' => VPtr t' (Some (setFieldValue t' (zero_value t') v))
      | _ => default cur (convert_to v t)
      end
  end.

(** The loop of [scanMapToStruct] over the columns. *)
Definition scan_fields (data : gmap string value) (fs : list sfield) (cols : list dbCachedField)
    (vs : list value) : list value :=
  foldl (λ vs f,
    match data !! name f with
    | None | Some VNil => vs
    | Some x =>
        match fs !! idx f with
        | Some sf => if sf_exported sf then alter (λ cur, setFieldValue (sf_type sf) cur x) (idx f) vs
                     else vs
        | None => vs
        end
    end) vs cols.

Definition scanMapToStruct (data : gmap string value) (dest : value) : R value :=
  match dest with
  | VPtr _ None => fail (ENew "destination pointer is nil")
  | VPtr t (Some (VStruct n tn fs vs)) =>
      mret (VPtr t (Some (VStruct n tn fs
        (scan_fields data fs (fields (getStructInfo n tn fs)) vs))))
  | VPtr _ (Some (VTime _)) => mret dest
  | VPtr _ (Some _) => fail (ENew "destination must point to a struct")
  | _ => fail (ENew "destination must be a pointer")
  end.
End Model.

(** ** history.go *)

Record HistoryEntry := mkEntry {
  Action : string;
  Changes : option (gmap string value);
  ActorID : value;
  ActorName : string;
  At : Z;
}.

(** What the code uses of [encoding/json]: [Unmarshal] into a slice of entries
    (the entries the slice holds after the call, whatever the error) and
    [Marshal]. *)
Class HistoryCodec := {
  json_Unmarshal : string → list HistoryEntry * option error;
  json_Marshal : list HistoryEntry → error + string;
}.

Definition is_string_type (t : gotype) : bool := match t with TString => true | _ => false end.

(** [field.Index[0]] of the field [History], when it is a string. *)
Definition historyFieldIndex (self : value) : option nat :=
  match deref self with
  | DNil => None
  | DVal v =>
      '(n, tn, fs, _) ← as_struct v;
      '(path, f) ← FieldByName n tn fs "History";
      if is_string_type (sf_type f) then head path else None
  end.

(** [reflect.Value.String]: the text of a string, a description of other kinds. *)
Definition reflect_String (v : value) : string :=
  match v with
  | VString s => s
  | VStruct n _ _ _ | VPtr (TStruct n _ _) _ => "<" +:+ n +:+ " Value>"
  | _ => "<Value>"
  end.

Definition getHistoryString (self : value) (i : nat) : outcome string :=
  match deref self with
  | DNil => Panic "reflect: call of Field on zero Value"
  | DVal v =>
      match get_path v [i] with
      | Ret x => Ret (reflect_String x)
      | Panic p => Panic p
      end
  end.

(** [f.SetString(s)] when [f] is settable: a field of a struct behind a pointer. *)
Definition set_string_at (self : value) (path : list nat) (exported : bool) (s : string)
  : outcome value :=
  match self with
  | VPtr t (Some v) =>
      if exported then
        match get_path v path with
        | Ret (VString _) => Ret (VPtr t (Some (set_path v path (VString s))))
        | Ret _ => Panic "reflect: call of SetString on non-string Value"
        | Panic p => Panic p
        end
      else Ret self
  | _ => Ret self
  end.

Definition setHistoryString (self : value) (i : nat) (s : string) : outcome value :=
  match deref self with
  | DNil => Panic "reflect: call of Field on zero Value"
  | DVal v =>
      match as_struct v with
      | Some (_, _, fs, _) =>
          match fs !! i with
          | Some f => set_string_at self [i] (sf_exported f) s
          | None => Panic "reflect: Field index out of range"
          end
      | None => Panic "reflect: call of Field on non-struct Value"
      end
  end.

Definition buildHistoryEntry (now : Z) (action : string) (changes : option (gmap string value))
    (actorID : value) (actorName : string) : HistoryEntry :=
  mkEntry action changes actorID actorName now.

Definition appendHistoryJSON `{HistoryCodec} (existingJSON : string) (entry : HistoryEntry) : string :=
  let entries := if bool_decide (existingJSON ≠ "") then (json_Unmarshal existingJSON).1 else [] in
  match json_Marshal (entries ++ [entry]) with
  | inl _ => existingJSON
  | inr b => b
  end.

(** [val.FieldByName(name)]: the path, when it denotes a field. *)
Definition value_FieldByName (self : value) (nm : string) : outcome (option (list nat * sfield * value)) :=
  match deref self with
  | DNil => Panic "reflect: call of FieldByName on zero Value"
  | DVal v =>
      match as_struct v with
      | None => Panic "reflect: call of FieldByName on non-struct Value"
      | Some (n, tn, fs, _) =>
          match FieldByName n tn fs nm with
          | None => Ret None
          | Some (path, f) =>
              match get_path v path with
              | Ret x => Ret (Some (path, f, x))
              | Panic p => Panic p
              end
          end
      end
  end.

Definition setActorField (self : value) (fieldName val : string) : outcome value :=
  if bool_decide (val = "") then Ret self
  else match value_FieldByName self fieldName with
  | Panic p => Panic p
  | Ret None => Ret self
  | Ret (Some (path, f, _)) =>
      if is_string_type (sf_type f) then set_string_at self path (sf_exported f) val else Ret self
  end.

Definition hasField (self : value) (nm : string) : outcome bool :=
  match value_FieldByName self nm with
  | Panic p => Panic p
  | Ret None => Ret false
  | Ret (Some _) => Ret true
  end.

(** The test of the loop: absent before, or a different value. *)
Definition changed (oldMap : gmap string value) (k : string) (newVal : value) : bool :=
  match oldMap !! k with
  | None => true
  | Some oldVal => negb (DeepEqual oldVal newVal)
  end.

Section Diff.
Context `{Unicode}.

Definition diffForHistory (oldSelf newSelf : value) (cols : list string) : R (gmap string value) :=
  newMap ← StructToHistoryMap newSelf cols;
  oldMap ← StructToHistoryMap oldSelf cols;
  mret (filter (λ kv, changed oldMap kv.1 kv.2 = true) newMap).
End Diff.

(** ** Lemmas *)

Section ModelLemmas.
Context `{Unicode} `{Platform}.

(** Folding the fields of [getStructInfo]. *)
Lemma foldl_add_field l info :
  fields (foldl add_field info l) = fields info ++ l ∧
  defaultName (foldl add_field info l) = defaultName info ∧
  primaryKeys (foldl add_field info l) = primaryKeys info ++ (name <$> filter (λ f, isPrimary f = true) l).
Proof.
  revert info. induction l as [|f l IH]; intros info; simpl.
  - by rewrite !app_nil_r.
  - destruct (IH (add_field info f)) as (-> & -> & ->). simpl.
    rewrite <-app_assoc. split; [done|]. split; [done|].
    destruct (isPrimary f) eqn:E; simpl.
    + rewrite filter_cons_True by done. simpl. by rewrite <-app_assoc.
    + rewrite filter_cons_False by congruence. done.
Qed.

Lemma getStructInfo_fields n tn fs :
  fields (getStructInfo n tn fs) = omap id (imap cache_field fs).
Proof. unfold getStructInfo. by destruct (foldl_add_field (omap id (imap cache_field fs))
  (mkStruct (match tn with Some s => if bool_decide (s ≠ "") then s else ToSnakeCase n
             | None => ToSnakeCase n end) [] [] "")) as [-> _]. Qed.

Lemma foldl_apply_option opts f :
  idx (foldl apply_option f opts) = idx f ∧ name (foldl apply_option f opts) = name f.
Proof.
  revert f. induction opts as [|o opts IH]; intros f; [done|]. simpl.
  destruct (IH (apply_option f o)) as [-> ->]. unfold apply_option. by repeat case_bool_decide.
Qed.

(** A cached field points at the struct field it came from. *)
Lemma cache_field_spec i sf f :
  cache_field i sf = Some f →
  idx f = i ∧ name f ≠ "" ∧ (sf_exported sf = true ∨ sf_anonymous sf = true) ∧
  (isAutoincrement f = true → isPrimary f = true).
Proof.
  unfold cache_field. destruct (_ && _) eqn:E1; [done|]. case_bool_decide; [done|].
  destruct (_ || _); [done|]. destruct (Split _ _) as [|c opts]; [done|].
  case_bool_decide; [done|]. intros; simplify_eq/=.
  destruct (foldl_apply_option opts (mkField i c false false false false false)) as [-> ->].
  simpl. split; [done|]. split; [done|]. split.
  - destruct (sf_exported sf), (sf_anonymous sf); auto.
  - intros ->. by rewrite orb_true_r.
Qed.

Lemma getStructInfo_elem n tn fs f :
  f ∈ fields (getStructInfo n tn fs) → ∃ sf, fs !! idx f = Some sf ∧ cache_field (idx f) sf = Some f.
Proof.
  rewrite getStructInfo_fields. intros (x & Hx & Hf)%list_elem_of_omap.
  unfold id in Hf. subst x.
  apply list_elem_of_lookup in Hx as [i Hi]. rewrite list_lookup_imap in Hi.
  destruct (fs !! i) as [sf|] eqn:E; [|done]. simpl in Hi. injection Hi as Hi.
  destruct (cache_field_spec _ _ _ Hi) as [Hidx _]. exists sf. by rewrite Hidx.
Qed.
End ModelLemmas.

(** ** What the columns of a struct hold *)

Section ModelTheorems.
Context `{Unicode} `{Platform}.

Lemma fields_idx_NoDup n tn fs : NoDup (idx <$> fields (getStructInfo n tn fs)).
Proof.
  rewrite getStructInfo_fields.
  assert (∀ fs k, Forall (λ i, k ≤ i) (idx <$> omap id (imap (λ i, cache_field (k + i)) fs)) ∧
                  NoDup (idx <$> omap id (imap (λ i, cache_field (k + i)) fs))) as Hgen.
  { clear fs. induction fs as [|sf fs IH]; intros k; [by split; constructor|].
    rewrite imap_cons. unfold compose.
    rewrite (imap_ext _ (λ i, cache_field (S k + i))) by (intros; f_equal; lia).
    destruct (IH (S k)) as [Hle Hnd].
    assert (Forall (λ i, k ≤ i) (idx <$> omap id (imap (λ i, cache_field (S k + i)) fs))) as Hle'
      by (eapply Forall_impl; [exact Hle|]; simpl; lia).
    simpl. rewrite Nat.add_0_r. destruct (cache_field k sf) as [f|] eqn:E; simpl; [|done].
    destruct (cache_field_spec _ _ _ E) as [-> _].
    split; constructor; try done. intros Hin. rewrite Forall_forall in Hle.
    specialize (Hle _ Hin). simpl in Hle. lia. }
  apply (Hgen fs 0).
Qed.

(** A struct value of a type whose columns are exported fields. *)
Definition struct_wf (n : string) (tn : option string) (fs : list sfield) (vs : list value) : Prop :=
  length vs = length fs ∧
  ∀ f, f ∈ fields (getStructInfo n tn fs) → ∃ sf, fs !! idx f = Some sf ∧ sf_exported sf = true.

Lemma struct_wf_field n tn fs vs f :
  struct_wf n tn fs vs → f ∈ fields (getStructInfo n tn fs) →
  ∃ sf x, fs !! idx f = Some sf ∧ vs !! idx f = Some x ∧
    field_at fs vs (idx f) = Ret (sf, x) ∧ field_interface fs vs (idx f) = mret x.
Proof.
  intros [Hlen Hexp] Hf. destruct (Hexp f Hf) as (sf & Hsf & Hex).
  destruct (lookup_lt_is_Some_2 vs (idx f)) as [x Hx].
  { rewrite Hlen. by eapply lookup_lt_Some. }
  assert (field_at fs vs (idx f) = Ret (sf, x)) as Hat by (unfold field_at; by rewrite Hsf, Hx).
  exists sf, x. repeat split; try done. unfold field_interface. rewrite Hat. simpl. by rewrite Hex.
Qed.

(** What [structToMap] writes for a column. *)
Definition column_value (fs : list sfield) (vs : list value) (f : dbCachedField) : option value :=
  sf ← fs !! idx f; x ← vs !! idx f;
  Some (if isNullable f && isZero (Some (sf_type sf)) x then VNil else x).

Lemma structToMap_fold n tn fs vs cols l m :
  struct_wf n tn fs vs → (∀ f, f ∈ l → f ∈ fields (getStructInfo n tn fs)) →
  NoDup (name <$> l) → (∀ f, f ∈ l → m !! name f = None) →
  ∃ m', foldl (λ acc f,
            data ← acc;
            if negb (writes_column cols f) then mret data
            else
              '(sf, _) ← lift (field_at fs vs (idx f));
              x ← field_interface fs vs (idx f);
              if isNullable f
              then mret (<[name f := if isZero (Some (sf_type sf)) x then VNil else x]> data)
              else mret (<[name f := x]> data)) (mret m : R (gmap string value)) l
        = mret m' ∧
  ∀ k, m' !! k = match find_first (λ f, bool_decide (name f = k) && writes_column cols f) l with
                 | Some f => column_value fs vs f
                 | None => m !! k
                 end.
Proof.
  intros Hwf. revert m. induction l as [|f l IH]; intros m Hsub Hnd Hm; simpl.
  { by exists m. }
  apply NoDup_cons in Hnd as [Hnf Hnd].
  assert (∀ g, g ∈ l → name g ≠ name f) as Hne.
  { intros g Hg Heq. apply Hnf. rewrite <-Heq. by apply list_elem_of_fmap_2. }
  destruct (writes_column cols f) eqn:Hw; simpl.
  - destruct (struct_wf_field n tn fs vs f Hwf) as (sf & x & Hsf & Hx & -> & ->); [by apply Hsub; left|].
    simpl. set (y := if isNullable f && isZero (Some (sf_type sf)) x then VNil else x).
    assert (column_value fs vs f = Some y) as Hcv by (unfold column_value; by rewrite Hsf, Hx).
    replace (if isNullable f then _ else _) with (mret (<[name f:=y]> m) : R (gmap string value))
      by (unfold y; by destruct (isNullable f)).
    destruct (IH (<[name f:=y]> m)) as (m' & Hm' & Hlk); [|done| |].
    { intros g Hg. apply Hsub. by right. }
    { intros g Hg. rewrite lookup_insert_ne by (symmetry; auto). apply Hm. by right. }
    exists m'. split; [done|]. intros k. rewrite Hlk. case_bool_decide as Hk; simpl; [|].
    + rewrite Hcv. replace (find_first _ l) with (@None dbCachedField).
      * subst k. by rewrite lookup_insert_eq.
      * symmetry. apply find_first_None. intros g Hg. rewrite bool_decide_false; [done|].
        rewrite <-Hk. by apply Hne.
    + by rewrite lookup_insert_ne.
  - destruct (IH m) as (m' & Hm' & Hlk); [|done| |].
    { intros g Hg. apply Hsub. by right. }
    { intros g Hg. apply Hm. by right. }
    exists m'. split; [done|]. intros k. rewrite Hlk. by rewrite andb_false_r.
Qed.

(** [structToMap] on a struct whose columns are exported and have distinct
    names succeeds, and its map holds exactly the columns that are written (the
    selected ones, or all but the auto-filled and auto-increment ones), each with
    the field's value, or [nil] when the column is nullable and the value zero. *)
Theorem structToMap_spec t n tn fs vs cols :
  struct_wf n tn fs vs → NoDup (name <$> fields (getStructInfo n tn fs)) →
  ∃ m, structToMap (VPtr t (Some (VStruct n tn fs vs))) cols = mret m ∧
    ∀ k, m !! k =
      match find_first (λ f, bool_decide (name f = k) && writes_column cols f)
              (fields (getStructInfo n tn fs)) with
      | Some f => column_value fs vs f
      | None => None
      end.
Proof.
  intros Hwf Hnd. simpl.
  destruct (structToMap_fold n tn fs vs cols (fields (getStructInfo n tn fs)) ∅ Hwf)
    as (m & Hm & Hlk); [done|done|done|].
  exists m. split; [exact Hm|]. intros k. rewrite Hlk. by destruct (find_first _ _).
Qed.

(** ** Scanning a row *)

(** The driver values that carry a field's value in a row. *)
Fixpoint carries (t : gotype) (v d : value) {struct t} : bool :=
  match t, v, d with
  | TString, VString s, VString s' => bool_decide (s = s')
  | TString, VString s, VBytes (Some s') => bool_decide (s = s')
  | TInt k, VInt _ z, VInt KInt64 z' => (z =? z')%Z
  | TUint k, VUint _ z, VUint KInt64 z' => (z =? z')%Z
  | TFloat KFloat64, VFloat _ f, VFloat KFloat64 f' => bool_decide (f = f')
  | TBool, VBool b, VBool b' => Bool.eqb b b'
  | TBool, VBool b, VInt KInt64 z => Bool.eqb b (negb (z =? 0)%Z)
  | TTime, VTime z, VTime z' => (z =? z')%Z
  | TSlice (TUint KInt8), VBytes b, VBytes b' => bool_decide (b = b')
  | TPtr t', VPtr _ None, VNil => true
  | TPtr t', VPtr _ (Some x), _ => match d with VNil => false | _ => carries t' x d end
  | _, _, _ => false
  end.

Lemma setFieldValue_carries t v d cur :
  has_type t v = true → carries t v d = true → d ≠ VNil → setFieldValue t cur d = v.
Proof.
  revert v d cur.
  induction t as [|k|k|k| | | |t IH|t IH| |n tn fs IH|] using gotype_ind'; intros v d cur Ht Hc Hd.
  - destruct v, d as [| |[]| | | | | | | | | |]; try done; simpl in *; by apply eqb_prop in Hc; subst.
  - destruct v, d as [| |[]| | | | | | | | | |]; try done; simpl in *. to_prop. subst.
    by rewrite wrap_int_id.
  - destruct v, d as [| | |[]| | | | | | | | |]; try done; simpl in *. to_prop. subst.
    by rewrite wrap_uint_id.
  - destruct k, v, d as [| | | |[]| | | | | | | |]; try done; simpl in *; to_prop; by subst.
  - destruct v, d as [| | | | | |[]| | | | | |]; try done; simpl in *; to_prop; by subst.
  - destruct v, d; try done; simpl in *; to_prop; by subst.
  - done.
  - destruct v as [| | | | | | | |u [x|]| | | |]; try (by destruct d); simpl in *; to_prop.
    apply type_eqb_eq in H1. subst u.
    assert (setFieldValue t (zero_value t) d = x) as Hx by (destruct d; try done; by apply IH).
    rewrite <-Hx. by destruct d.
  - destruct t as [| |[]| | | | | | | | |], v, d; try done; simpl in *; to_prop; by subst.
  - by destruct v, d.
  - by destruct v, d.
  - by destruct v, d.
Qed.

Lemma carries_nil t v : has_type t v = true → carries t v VNil = true → v = zero_value t.
Proof.
  destruct t as [| | |[]| | | | |[| |[]| | | | | | | | |]| | |], v as [| | | | | | | |u [x|]| | | |];
    simpl; try done.
  rewrite andb_true_r. intros H1 _. by apply type_eqb_eq in H1 as ->.
Qed.

(** The loop writes each column of the row once, at its own index. *)
Lemma scan_fields_lookup data fs cols vs j :
  NoDup (idx <$> cols) →
  scan_fields data fs cols vs !! j =
  match find_first (λ f, bool_decide (idx f = j)) cols with
  | None => vs !! j
  | Some f =>
      match data !! name f, fs !! j with
      | Some VNil, _ | None, _ | _, None => vs !! j
      | Some x, Some sf =>
          if sf_exported sf then (λ cur, setFieldValue (sf_type sf) cur x) <$> vs !! j else vs !! j
      end
  end.
Proof.
  unfold scan_fields. revert vs. induction cols as [|f cols IH]; intros vs; [done|].
  rewrite fmap_cons. intros [Hnf Hnd]%NoDup_cons. cbn [foldl find_first].
  rewrite IH by done. case_bool_decide as Hj.
  - replace (find_first _ cols) with (@None dbCachedField).
    + subst j. destruct (data !! name f) as [x|]; [|by destruct (fs !! idx f)].
      destruct x; try done; destruct (fs !! idx f) as [sf|]; try done;
        destruct (sf_exported sf); try done; by rewrite list_lookup_alter_eq.
    + symmetry. apply find_first_None. intros g Hg. apply bool_decide_eq_false. intros Hgj.
      apply Hnf. rewrite Hj, <-Hgj. by apply list_elem_of_fmap_2.
  - assert (match data !! name f with
     | None | Some VNil => vs
     | Some x => match fs !! idx f with
        | Some sf => if sf_exported sf then alter (λ cur, setFieldValue (sf_type sf) cur x) (idx f) vs else vs
        | None => vs end end !! j = vs !! j) as ->; [|done].
    destruct (data !! name f) as [x|]; [|done].
    destruct x; try done; destruct (fs !! idx f) as [sf|]; try done;
      destruct (sf_exported sf); try done; by rewrite list_lookup_alter_ne.
Qed.

(** A row carries the columns of a struct. *)
Definition row_of (n : string) (tn : option string) (fs : list sfield) (vs : list value)
    (data : gmap string value) : Prop :=
  ∀ f sf v, f ∈ fields (getStructInfo n tn fs) → fs !! idx f = Some sf → vs !! idx f = Some v →
    has_type (sf_type sf) v = true ∧ ∃ d, data !! name f = Some d ∧ carries (sf_type sf) v d = true.

End ModelTheorems.

(** ** Primary keys *)

Section PrimaryKeys.
Context `{Unicode} `{Platform}.

Definition wide_integer (t : gotype) : bool :=
  match t with
  | TInt KInt | TInt KInt64 | TUint KInt | TUint KInt64 => true
  | _ => false
  end.

Lemma set_integer_wide t id :
  wide_integer t = true → in_int64 id →
  ∃ x, set_integer t id = Some x ∧ toInt64 x = mret id.
Proof.
  intros Hw Hid. unfold in_int64, min_int64, max_int64 in Hid.
  assert (∀ k, ikind_bits k = 64%Z → wrap64 (wrap_uint k (wrap_uint KInt64 id)) = id) as Hu.
  { intros k Hk. unfold wrap_uint. rewrite Hk. simpl ikind_bits. rewrite Z.mod_mod by lia.
    unfold wrap64. rewrite Zplus_mod_idemp_l, Z.mod_small; lia. }
  destruct t as [|[]|[]| | | | | | | | |]; try done; eexists; (split; [done|]); simpl; f_equal.
  1-2: unfold mret, R_ret; rewrite wrap_int_id; [done|simpl; lia].
  all: unfold mret, R_ret; by rewrite Hu.
Qed.

Lemma primaryKeys_nil n tn fs :
  primaryKeys (getStructInfo n tn fs) = [] ↔
  filter (λ f, isPrimary f = true) (fields (getStructInfo n tn fs)) = [].
Proof.
  unfold getStructInfo.
  edestruct (foldl_add_field (omap id (imap cache_field fs))) as (-> & _ & ->). simpl.
  split; [by intros ?%fmap_nil_inv|by intros ->].
Qed.

Lemma find_first_filter {A} (p : A → bool) l : find_first p l = head (filter (λ x, p x = true) l).
Proof.
  induction l as [|x l IH]; [done|]. simpl. destruct (p x) eqn:E.
  - by rewrite filter_cons_True.
  - rewrite filter_cons_False by congruence. done.
Qed.

Lemma mapR_mret {A B} (f : A → R B) (g : A → B) l :
  (∀ x, x ∈ l → f x = mret (g x)) → mapR f l = mret (g <$> l).
Proof.
  induction l as [|x l IH]; intros Hf; [done|]. simpl. rewrite Hf by (by left). simpl.
  rewrite IH; [done|]. intros y Hy. apply Hf. by right.
Qed.

(** The primary key that is read is the field [pk_target] selects. *)
Lemma PrimaryKeyValue_target t n tn fs vs f sf v :
  struct_wf n tn fs vs → pk_target (getStructInfo n tn fs) = Some f →
  fs !! idx f = Some sf → vs !! idx f = Some v →
  PrimaryKeyValue (VPtr t (Some (VStruct n tn fs vs))) = toInt64 v.
Proof.
  intros Hwf Htgt Hsf Hv. unfold PrimaryKeyValue, GetPrimaryKeys. cbn [deref as_struct].
  set (info := getStructInfo n tn fs) in *.
  assert (∀ col g, g ∈ fields info → pk_info fs vs col g =
    mret (mkPK col (default VNil (vs !! idx g))
      (isZero (sf_type <$> fs !! idx g) (default VNil (vs !! idx g))))) as Hpk.
  { intros col g Hg. destruct (struct_wf_field _ _ _ _ _ Hwf Hg) as (sg & x & Hsg & Hx & Hat & Hi).
    unfold pk_info. rewrite Hi. simpl. rewrite Hat. simpl. by rewrite Hsg, Hx. }
  unfold pk_target in Htgt. case_bool_decide as Hpks.
  - rewrite (mapR_mret _ (λ g, mkPK (name g) (default VNil (vs !! idx g))
      (isZero (sf_type <$> fs !! idx g) (default VNil (vs !! idx g))))).
    2:{ intros g [_ Hg]%list_elem_of_filter. by apply Hpk. }
    rewrite find_first_filter in Htgt.
    pose proof (primaryKeys_nil n tn fs) as Hnil. fold info in Hnil.
    destruct (filter _ (fields info)) as [|g gs]; [by destruct Hpks; apply Hnil|].
    simpl in Htgt. simplify_eq/=. by rewrite Hv.
  - assert (find_first isPrimary (fields info) = None) as Hnone.
    { rewrite find_first_filter.
      apply (primaryKeys_nil n tn fs) in Hpks. unfold info. by rewrite Hpks. }
    rewrite Hnone in Htgt. rewrite Htgt.
    apply find_first_Some in Htgt as [Hin _]. rewrite Hpk by done. simpl. by rewrite Hv.
Qed.

Lemma pk_target_elem info f : pk_target info = Some f → f ∈ fields info.
Proof.
  unfold pk_target. destruct (find_first isPrimary _) eqn:E; intros Hf; simplify_eq.
  - by apply find_first_Some in E as [? _].
  - by apply find_first_Some in Hf as [? _].
Qed.

(** Setting the primary key of a model and reading it back gives the id,
    for every [int64] and every 64-bit key field, signed or unsigned. *)
Theorem primary_key_roundtrip t n tn fs vs f sf id :
  struct_wf n tn fs vs → pk_target (getStructInfo n tn fs) = Some f →
  fs !! idx f = Some sf → wide_integer (sf_type sf) = true → in_int64 id →
  ∃ m, SetPrimaryKeyValue (VPtr t (Some (VStruct n tn fs vs))) id = mret m ∧
       PrimaryKeyValue m = mret id.
Proof.
  intros Hwf Htgt Hsf Hw Hid.
  destruct (set_integer_wide _ _ Hw Hid) as (x & Hx & Hrt).
  pose proof (pk_target_elem _ _ Htgt) as Hin.
  destruct (struct_wf_field _ _ _ _ _ Hwf Hin) as (sf' & v & Hsf' & Hv & Hat & Hi).
  destruct (proj2 Hwf f Hin) as (sf2 & Hsf2 & Hex). simplify_eq.
  unfold SetPrimaryKeyValue. cbn [as_struct]. rewrite Htgt, Hat. simpl. rewrite Hex, Hx. simpl.
  eexists. split; [done|]. rewrite <-Hrt.
  eapply PrimaryKeyValue_target; [|done|done|].
  - destruct Hwf as [Hlen Hexp]. split; [by rewrite length_alter|done].
  - by rewrite list_lookup_alter_eq, Hv.
Qed.
End PrimaryKeys.

(** ** The audit trail *)

(** What [encoding/json] promises on the entries it can encode: decoding gives
    back the entries up to a normal form (numbers become [float64], a time loses
    its monotonic reading, …). *)
Class HistoryCodecLaws `{HistoryCodec} := {
  entry_ok : HistoryEntry → Prop;
  norm : HistoryEntry → HistoryEntry;
  norm_ok e : entry_ok e → entry_ok (norm e);
  norm_idemp e : norm (norm e) = norm e;
  marshal_ok l : Forall entry_ok l →
    ∃ s, json_Marshal l = inr s ∧ s ≠ "" ∧ json_Unmarshal s = (norm <$> l, None);
}.

Section History.
Context `{HistoryCodecLaws}.

Lemma appendHistoryJSON_decodes s es e :
  (s = "" ∧ es = [] ∨ s ≠ "" ∧ json_Unmarshal s = (norm <$> es, None)) →
  Forall entry_ok es → entry_ok e →
  appendHistoryJSON s e ≠ "" ∧ json_Unmarshal (appendHistoryJSON s e) = (norm <$> (es ++ [e]), None).
Proof.
  intros Hs Hes He. unfold appendHistoryJSON.
  assert ((if bool_decide (s ≠ "") then (json_Unmarshal s).1 else []) = norm <$> es) as ->.
  { destruct Hs as [[-> ->]|[Hs ->]]; [done|]. by rewrite bool_decide_true. }
  destruct (marshal_ok ((norm <$> es) ++ [e])) as (b & -> & Hb & Hu).
  { apply Forall_app. split; [|by constructor]. apply Forall_fmap.
    eapply Forall_impl; [done|]. apply norm_ok. }
  split; [done|]. rewrite Hu. rewrite !fmap_app, <-list_fmap_compose. f_equal. f_equal.
  apply list_fmap_ext. intros i x _. apply norm_idemp.
Qed.

(** [C33] Appending entries one after another to an empty trail keeps them all,
    in order: the stored text decodes to the normal forms of exactly these
    entries. *)
Theorem history_accumulates es :
  es ≠ [] → Forall entry_ok es →
  json_Unmarshal (foldl appendHistoryJSON "" es) = (norm <$> es, None).
Proof.
  intros Hne Hes.
  assert (∀ es' s done, Forall entry_ok done → Forall entry_ok es' →
    (s = "" ∧ done = [] ∨ s ≠ "" ∧ json_Unmarshal s = (norm <$> done, None)) →
    let s' := foldl appendHistoryJSON s es' in
    s' = "" ∧ done ++ es' = [] ∨ s' ≠ "" ∧ json_Unmarshal s' = (norm <$> (done ++ es'), None)) as Hgen.
  { induction es' as [|e es' IH]; intros s dn Hdn Hes' Hs; simpl; [by rewrite app_nil_r|].
    apply Forall_cons in Hes' as [He Hes'].
    replace (dn ++ e :: es') with ((dn ++ [e]) ++ es') by (by rewrite <-app_assoc).
    apply IH; [apply Forall_app; by split; [|constructor]|done|].
    right. by apply appendHistoryJSON_decodes. }
  destruct (Hgen es "" []) as [[_ Hnil]|[_ Hu]]; [by constructor|done|by left|done|done].
Qed.
End History.

(** ** A model to evaluate the definitions on *)

#[global] Instance demo_platform : Platform := {|
  float_to_int_overflow := λ _, min_int64; float_to_uint_overflow := λ _, min_int64 |}.

Definition col (n : string) (t : gotype) (tag : string) : sfield :=
  SField n t true false [("db", tag)].

Definition user_fields : list sfield :=
  [ col "ID" (TInt KInt64) "id,primary,autoincrement"; col "Name" TString "name";
    col "Nick" (TPtr TString) "nick,nullable"; col "Active" TBool "active";
    SField "History" TString true false [("db", "history"); ("history", "-")] ].

Definition user_values : list value :=
  [VInt KInt64 7; VString "ana"; VPtr TString None; VBool true; VString ""].

Definition user : value := VPtr (TStruct "User" None user_fields)
  (Some (VStruct "User" None user_fields user_values)).

Lemma user_wf : struct_wf "User" None user_fields user_values.
Proof.
  split; [done|]. intros f Hf. vm_compute in Hf.
  repeat (apply elem_of_cons in Hf as [->|Hf]; [vm_compute; by eexists|]). by apply elem_of_nil in Hf.
Defined.

Lemma structToMap_spec_witness :
  ∃ m, structToMap user [] = mret m ∧ m !! "name" = Some (VString "ana") ∧
       m !! "nick" = Some VNil ∧ m !! "id" = None.
Proof.
  destruct (structToMap_spec (TStruct "User" None user_fields) "User" None user_fields user_values [])
    as (m & Hm & Hlk).
  - exact user_wf.
  - apply (bool_decide_unpack _). vm_compute. exact I.
  - exists m. split; [exact Hm|]. rewrite !Hlk. repeat split; vm_compute; reflexivity.
Defined.

Definition user_row : gmap string value :=
  list_to_map [("id", VInt KInt64 7); ("name", VBytes (Some "ana")); ("nick", VNil);
               ("active", VInt KInt64 1); ("history", VString "")].


Lemma primary_key_roundtrip_witness :
  ∃ m, SetPrimaryKeyValue user (-5) = mret m ∧ PrimaryKeyValue m = mret (-5)%Z.
Proof.
  apply (primary_key_roundtrip (TStruct "User" None user_fields) "User" None user_fields user_values
    (mkField 0 "id" false false true true false) (col "ID" (TInt KInt64) "id,primary,autoincrement")).
  - exact user_wf.
  - by vm_compute.
  - done.
  - done.
  - by vm_compute.
Defined.

(** A codec that keeps the action, the actor's name and the time. *)
Definition demo_norm (e : HistoryEntry) : HistoryEntry :=
  mkEntry (Action e) None VNil (ActorName e) (At e).

Definition demo_entry (p : string * string * Z) : HistoryEntry :=
  mkEntry p.1.1 None VNil p.1.2 p.2.

#[global] Instance demo_codec : HistoryCodec := {|
  json_Unmarshal s :=
    match Strconv.parse_digits 0 s with
    | Some z => match decode (A := list (string * string * Z)) (Z.to_pos z) with
                | Some l => (demo_entry <$> l, None)
                | None => ([], Some (ENew "syntax error"))
                end
    | None => ([], Some (ENew "syntax error"))
    end;
  json_Marshal l :=
    inr (pretty (N.pos (encode ((λ e, (Action e, ActorName e, At e)) <$> l))))
|}.

#[global] Instance demo_codec_laws : HistoryCodecLaws.
Proof.
  refine {| entry_ok := λ _, True; norm := demo_norm |}; [done|done|].
  intros l _. eexists. split; [reflexivity|]. split; [apply Strconv.pretty_N_nonempty|].
  cbn [json_Unmarshal demo_codec]. rewrite Strconv.parse_digits_pretty.
  change (Z.to_pos (Z.of_N (N.pos ?p))) with p. rewrite decode_encode.
  f_equal. rewrite <-list_fmap_compose. by apply list_fmap_ext.
Defined.

Lemma history_accumulates_witness :
  (json_Unmarshal (foldl appendHistoryJSON ""
    [mkEntry "created" None VNil "ana" 1; mkEntry "modified" None VNil "budi" 2])).1 =
  [mkEntry "created" None VNil "ana" 1; mkEntry "modified" None VNil "budi" 2].
Proof.
  rewrite (history_accumulates
    [mkEntry "created" None VNil "ana" 1; mkEntry "modified" None VNil "budi" 2]); [done|done|].
  by repeat constructor.
Defined.
