(* ===== verification/DbPrepared.v ===== *)
(** * The cache of prepared statements ([internal/db/prepared.go])

    The operations of [preparedCache] on its map, and the interleavings of the
    goroutines that call [get]: the read-locked lookup, the preparation outside
    the lock and the insertion under the write lock are separate steps.  A
    statement is a number; the runtime decides which entry an iteration over the
    map visits first, so the evicted query is an argument. *)

From S2P Require Import Prelude.

Record preparedCache := mkCache {
  stmts : gmap string nat;
  cache_max : Z;
}.

Definition newPreparedCache (max : Z) : preparedCache :=
  let max := if (max <=? 0)%Z then 200%Z else max in mkCache ∅ max.

(** The lookup of [get], under the read lock. *)
Definition cache_lookup (c : preparedCache) (query : string) : option nat := stmts c !! query.

(** The insertion of [get], under the write lock: the new cache, the statement
    returned and the statements closed. *)
Definition cache_store (c : preparedCache) (query : string) (stmt : nat) (victim : string)
  : preparedCache * nat * list nat :=
  match stmts c !! query with
  | Some existing => (c, existing, [stmt])
  | None =>
      let '(m, closed) :=
        if (cache_max c <=? Z.of_nat (size (stmts c)))%Z then
          match stmts c !! victim with
          | Some s => (delete victim (stmts c), [s])
          | None => (stmts c, [])
          end
        else (stmts c, []) in
      (mkCache (<[query := stmt]> m) (cache_max c), stmt, closed)
  end.

(** [Close]: every statement is closed and the map emptied. *)
Definition cache_close (c : preparedCache) : preparedCache * list nat :=
  (mkCache ∅ (cache_max c), (map_to_list (stmts c)).*2).

(** ** Interleavings *)

(** Where a goroutine is in [get]. *)
Inductive pc :=
  | Idle
  | Missed (query : string)              (* lookup failed, about to prepare *)
  | Prepared (query : string) (stmt : nat) (* prepared, about to take the lock *)
  | Using (stmt : nat).                  (* [get] returned [stmt] *)

Record pstate := mkP {
  p_cache : preparedCache;
  p_open : gset nat;       (* statements prepared and not closed *)
  p_next : nat;            (* the next fresh statement *)
  p_threads : nat → pc;
}.

Definition set_thread (s : nat → pc) (t : nat) (p : pc) : nat → pc :=
  λ u, if decide (u = t) then p else s u.

Inductive pstep : pstate → pstate → Prop :=
  | step_hit s t q n :
      p_threads s t = Idle → cache_lookup (p_cache s) q = Some n →
      pstep s (mkP (p_cache s) (p_open s) (p_next s) (set_thread (p_threads s) t (Using n)))
  | step_miss s t q :
      p_threads s t = Idle → cache_lookup (p_cache s) q = None →
      pstep s (mkP (p_cache s) (p_open s) (p_next s) (set_thread (p_threads s) t (Missed q)))
  | step_prepare s t q :
      p_threads s t = Missed q →
      pstep s (mkP (p_cache s) ({[p_next s]} ∪ p_open s) (S (p_next s))
                 (set_thread (p_threads s) t (Prepared q (p_next s))))
  | step_prepare_error s t q :
      p_threads s t = Missed q →
      pstep s (mkP (p_cache s) (p_open s) (p_next s) (set_thread (p_threads s) t Idle))
  | step_store s t q n victim c m closed :
      p_threads s t = Prepared q n →
      (stmts (p_cache s) ≠ ∅ → is_Some (stmts (p_cache s) !! victim)) →
      cache_store (p_cache s) q n victim = (c, m, closed) →
      pstep s (mkP c (p_open s ∖ list_to_set closed) (p_next s)
                 (set_thread (p_threads s) t (Using m)))
  | step_done s t n :
      p_threads s t = Using n →
      pstep s (mkP (p_cache s) (p_open s) (p_next s) (set_thread (p_threads s) t Idle))
  | step_close s c closed :
      cache_close (p_cache s) = (c, closed) →
      pstep s (mkP c (p_open s ∖ list_to_set closed) (p_next s) (p_threads s)).

Definition p_init (max : Z) : pstate := mkP (newPreparedCache max) ∅ 0 (λ _, Idle).

(** No statement is lost, none is cached after it was closed, and the cache keeps
    its bound. *)
Record pinv (s : pstate) : Prop := {
  inv_max : (0 < cache_max (p_cache s))%Z;
  inv_bound : (Z.of_nat (size (stmts (p_cache s))) <= cache_max (p_cache s))%Z;
  inv_cached_open q n : stmts (p_cache s) !! q = Some n → n ∈ p_open s;
  inv_cached_inj q q' n :
    stmts (p_cache s) !! q = Some n → stmts (p_cache s) !! q' = Some n → q = q';
  inv_open_owned n : n ∈ p_open s →
    (∃ q, stmts (p_cache s) !! q = Some n) ∨ (∃ t q, p_threads s t = Prepared q n);
  inv_prepared_open t q n : p_threads s t = Prepared q n → n ∈ p_open s;
  inv_prepared_private t q n q' : p_threads s t = Prepared q n → stmts (p_cache s) !! q' ≠ Some n;
  inv_prepared_inj t t' q q' n :
    p_threads s t = Prepared q n → p_threads s t' = Prepared q' n → t = t';
  inv_fresh n : n ∈ p_open s → n < p_next s;
}.

(** A change of a thread's program counter that neither gains nor loses a
    prepared statement. *)
Lemma pinv_set_thread s t p :
  pinv s → (∀ q n, p_threads s t ≠ Prepared q n) → (∀ q n, p ≠ Prepared q n) →
  pinv (mkP (p_cache s) (p_open s) (p_next s) (set_thread (p_threads s) t p)).
Proof.
  intros [] Hold Hnew. constructor; simpl; try done.
  - intros n Hn. destruct (inv_open_owned0 n Hn) as [?|(u & q & Hu)]; [by left|].
    right. exists u, q. unfold set_thread. case_decide; [|done]. subst. by edestruct Hold.
  - intros u q n. unfold set_thread. case_decide; [intros; by edestruct Hnew|eauto].
  - intros u q n q'. unfold set_thread. case_decide; [intros; by edestruct Hnew|eauto].
  - intros u u' q q' n. unfold set_thread. repeat case_decide; [intros; by edestruct Hnew..|eauto].
Qed.

Lemma pinv_prepare s t q :
  pinv s → p_threads s t = Missed q →
  pinv (mkP (p_cache s) ({[p_next s]} ∪ p_open s) (S (p_next s))
          (set_thread (p_threads s) t (Prepared q (p_next s)))).
Proof.
  intros [] Ht.
  assert (p_next s ∉ p_open s) as Hfresh by (intros ?%inv_fresh0; lia).
  constructor; simpl; try done.
  - intros q' n Hq'. apply inv_cached_open0 in Hq'. set_solver.
  - intros n [->%elem_of_singleton|Hn]%elem_of_union.
    + right. exists t, q. unfold set_thread. by rewrite decide_True.
    + destruct (inv_open_owned0 n Hn) as [?|(u & q' & Hu)]; [by left|].
      right. exists u, q'. unfold set_thread. case_decide; [congruence|done].
  - intros u q' n. unfold set_thread. case_decide; intros Hu; simplify_eq; [set_solver|].
    apply inv_prepared_open0 in Hu. set_solver.
  - intros u q' n q''. unfold set_thread. case_decide; intros Hu Hq''; simplify_eq.
    + by apply inv_cached_open0 in Hq''.
    + by eapply inv_prepared_private0.
  - intros u u' q1 q2 n. unfold set_thread. repeat case_decide; intros Hu Hu'; simplify_eq; try done.
    + by apply inv_prepared_open0 in Hu'.
    + by apply inv_prepared_open0 in Hu.
    + eauto.
  - intros n [->%elem_of_singleton|Hn]%elem_of_union; [lia|]. apply inv_fresh0 in Hn. lia.
Qed.

(** Removing an entry from the map and closing its statement. *)
Lemma pinv_evict s victim n :
  pinv s → stmts (p_cache s) !! victim = Some n →
  pinv (mkP (mkCache (delete victim (stmts (p_cache s))) (cache_max (p_cache s)))
          (p_open s ∖ {[n]}) (p_next s) (p_threads s)).
Proof.
  intros [] Hv. constructor; simpl; try done.
  - rewrite map_size_delete_Some by (by eexists). lia.
  - intros q m [Hne Hq]%lookup_delete_Some. apply elem_of_difference. split; [eauto|].
    intros ->%elem_of_singleton. eauto.
  - intros q q' m [_ Hq]%lookup_delete_Some [_ Hq']%lookup_delete_Some. eauto.
  - intros m [Hm Hne]%elem_of_difference.
    destruct (inv_open_owned0 m Hm) as [(q & Hq)|?]; [left|by right].
    exists q. apply lookup_delete_Some. split; [|done]. intros ->. set_solver.
  - intros t q m Ht. apply elem_of_difference. split; [eauto|].
    intros ->%elem_of_singleton. by eapply inv_prepared_private0.
  - intros t q m q' Ht [_ Hq]%lookup_delete_Some. by eapply inv_prepared_private0.
  - intros m [Hm _]%elem_of_difference. eauto.
Qed.

(** Caching a statement the thread prepared. *)
Lemma pinv_insert s t q n :
  pinv s → p_threads s t = Prepared q n → stmts (p_cache s) !! q = None →
  (Z.of_nat (size (stmts (p_cache s))) < cache_max (p_cache s))%Z →
  pinv (mkP (mkCache (<[q := n]> (stmts (p_cache s))) (cache_max (p_cache s)))
          (p_open s) (p_next s) (set_thread (p_threads s) t (Using n))).
Proof.
  intros [] Ht Hq Hsz. constructor; simpl; try done.
  - rewrite map_size_insert_None by done. lia.
  - intros q' m [[-> ->]|[? ?]]%lookup_insert_Some; eauto.
  - intros q1 q2 m [[<- <-]|[? H1]]%lookup_insert_Some [[<- ?]|[? H2]]%lookup_insert_Some;
      subst; eauto; exfalso; by eapply inv_prepared_private0.
  - intros m Hm. destruct (inv_open_owned0 m Hm) as [(q' & Hq')|(u & q' & Hu)].
    + left. exists q'. rewrite lookup_insert_ne by congruence. done.
    + destruct (decide (u = t)) as [->|].
      * left. exists q. rewrite Hu in Ht. simplify_eq. by rewrite lookup_insert_eq.
      * right. exists u, q'. unfold set_thread. by rewrite decide_False.
  - intros u q' m. unfold set_thread. case_decide; [done|]. eauto.
  - intros u q' m q''. unfold set_thread. case_decide as Hut; [done|]. intros Hu Hl.
    apply lookup_insert_Some in Hl as [[_ <-]|[_ Hl]]; [|by eapply inv_prepared_private0].
    apply Hut. by eapply inv_prepared_inj0.
  - intros u u' q1 q2 m. unfold set_thread. repeat case_decide; try done. eauto.
Qed.

(** Closing the duplicate when another goroutine was first. *)
Lemma pinv_discard s t q n m :
  pinv s → p_threads s t = Prepared q n →
  pinv (mkP (p_cache s) (p_open s ∖ {[n]}) (p_next s) (set_thread (p_threads s) t (Using m))).
Proof.
  intros [] Ht. constructor; simpl; try done.
  - intros q' k Hq'. apply elem_of_difference. split; [eauto|].
    intros ->%elem_of_singleton. by eapply inv_prepared_private0.
  - intros k [Hk Hne]%elem_of_difference.
    destruct (inv_open_owned0 k Hk) as [?|(u & q' & Hu)]; [by left|right].
    exists u, q'. unfold set_thread. case_decide; [|done]. subst. rewrite Hu in Ht.
    simplify_eq. set_solver.
  - intros u q' k. unfold set_thread. case_decide as Hut; [done|]. intros Hu.
    apply elem_of_difference. split; [eauto|]. intros ->%elem_of_singleton.
    apply Hut. by eapply inv_prepared_inj0.
  - intros u q' k q''. unfold set_thread. case_decide; [done|]. eauto.
  - intros u u' q1 q2 k. unfold set_thread. repeat case_decide; try done. eauto.
  - intros k [Hk _]%elem_of_difference. eauto.
Qed.

Lemma pinv_store s t q n victim c m closed :
  pinv s → p_threads s t = Prepared q n →
  (stmts (p_cache s) ≠ ∅ → is_Some (stmts (p_cache s) !! victim)) →
  cache_store (p_cache s) q n victim = (c, m, closed) →
  pinv (mkP c (p_open s ∖ list_to_set closed) (p_next s) (set_thread (p_threads s) t (Using m))).
Proof.
  intros Hs Ht Hv. unfold cache_store.
  destruct (stmts (p_cache s) !! q) as [existing|] eqn:Hq; [intros; simplify_eq/=|].
  { rewrite union_empty_r_L. by eapply pinv_discard. }
  destruct (Z.leb_spec (cache_max (p_cache s)) (Z.of_nat (size (stmts (p_cache s))))) as [Hfull|Hroom].
  - pose proof (inv_max _ Hs). pose proof (inv_bound _ Hs).
    destruct Hv as [k Hk]. { intros He. rewrite He, map_size_empty in Hfull. lia. }
    rewrite Hk. intros; simplify_eq/=. rewrite union_empty_r_L.
    pose proof (pinv_evict _ _ _ Hs Hk) as Hs'.
    eapply (pinv_insert _ t q m) in Hs'; [exact Hs'|done|..]; simpl.
    + by apply lookup_delete_None; right.
    + rewrite map_size_delete_Some by (by eexists). lia.
  - intros; simplify_eq/=. rewrite difference_empty_L. by apply pinv_insert.
Qed.

Lemma pinv_close s c closed :
  pinv s → cache_close (p_cache s) = (c, closed) →
  pinv (mkP c (p_open s ∖ list_to_set closed) (p_next s) (p_threads s)).
Proof.
  intros [] Hc. injection Hc as <- <-.
  assert (∀ n, n ∈ (list_to_set (map_to_list (stmts (p_cache s))).*2 : gset nat) ↔
    ∃ q, stmts (p_cache s) !! q = Some n) as Hin.
  { intros n. rewrite elem_of_list_to_set, list_elem_of_fmap. split.
    - intros ([q k] & -> & Hq%elem_of_map_to_list). by exists q.
    - intros [q Hq]. exists (q, n). by rewrite elem_of_map_to_list. }
  constructor; simpl; try done.
  - rewrite map_size_empty. lia.
  - intros n [Hn Hne]%elem_of_difference. rewrite Hin in Hne.
    destruct (inv_open_owned0 n Hn) as [?|?]; [done|by right].
  - intros t q n Ht. apply elem_of_difference. split; [eauto|]. rewrite Hin.
    intros [q' Hq']. by eapply inv_prepared_private0.
  - intros n [Hn _]%elem_of_difference. eauto.
Qed.

(** [C36] Under every interleaving of goroutines that look up, prepare, store and
    close, the cache never exceeds its bound, every cached statement is open, and
    every open statement is either cached or held by exactly one goroutine that is
    about to store it: no prepared statement is leaked. *)
Theorem prepared_cache_inv max s : rtc pstep (p_init max) s → pinv s.
Proof.
  intros Hs. assert (pinv (p_init max)) as Hi.
  { constructor; simpl; try done; try (by intros ?? ?%lookup_empty_Some); try set_solver.
    - case_match; to_prop; lia.
    - rewrite map_size_empty. case_match; to_prop; lia. }
  induction Hs as [s|s s' s'' Hstep _ IH]; [done|]. apply IH. clear IH.
  destruct Hstep; try (eapply pinv_set_thread; [done|congruence|congruence]).
  - by apply pinv_prepare.
  - by eapply pinv_store.
  - by eapply pinv_close.
Qed.

(** Two goroutines and a cache of one entry: goroutine 0 prepares and stores
    query [a]; goroutine 1 misses on [b], prepares it and evicts [a]. *)
Definition run0 : pstate := p_init 1.
Definition run1 : pstate := mkP (p_cache run0) ∅ 0 (set_thread (p_threads run0) 0 (Missed "a")).
Definition run2 : pstate :=
  mkP (p_cache run0) ({[0]} ∪ ∅) 1 (set_thread (p_threads run1) 0 (Prepared "a" 0)).
Definition run3 : pstate :=
  mkP (mkCache (<["a" := 0]> ∅) 1) (p_open run2 ∖ list_to_set []) 1
    (set_thread (p_threads run2) 0 (Using 0)).
Definition run4 : pstate :=
  mkP (p_cache run3) (p_open run3) 1 (set_thread (p_threads run3) 1 (Missed "b")).
Definition run5 : pstate :=
  mkP (p_cache run3) ({[1]} ∪ p_open run3) 2 (set_thread (p_threads run4) 1 (Prepared "b" 1)).
Definition run6 : pstate :=
  mkP (mkCache (<["b" := 1]> (delete "a" (stmts (p_cache run3)))) 1)
    (p_open run5 ∖ list_to_set [0]) 2 (set_thread (p_threads run5) 1 (Using 1)).

Lemma run6_reachable : rtc pstep run0 run6.
Proof.
  eapply (rtc_l _ _ run1); [by apply (step_miss run0 0 "a")|].
  eapply (rtc_l _ _ run2); [by apply (step_prepare run1 0 "a")|].
  eapply (rtc_l _ _ run3); [by eapply (step_store run2 0 "a" 0 "a")|].
  eapply (rtc_l _ _ run4); [by apply (step_miss run3 1 "b")|].
  eapply (rtc_l _ _ run5); [by apply (step_prepare run4 1 "b")|].
  eapply (rtc_l _ _ run6); [|done].
  eapply (step_store run5 1 "b" 1 "a" _ _ [0]); [done| |done]. intros _. by exists 0.
Qed.

Lemma prepared_cache_inv_witness : pinv run6 ∧ size (stmts (p_cache run6)) = 1.
Proof. split; [apply (prepared_cache_inv 1 run6); exact run6_reachable|by vm_compute]. Defined.

(** A statement can be closed while a goroutine is about to execute it: an
    insertion into a full cache closes the evicted statement although [get] has
    already returned it elsewhere. *)
Theorem evicted_statement_in_use :
  ∃ s t n, rtc pstep (p_init 1) s ∧ p_threads s t = Using n ∧ n ∉ p_open s.
Proof. exists run6, 0, 0. split; [apply run6_reachable|]. split; [done|]. vm_compute. set_solver. Qed.
