(* ===== verification/DbExec.v ===== *)
(** * Executors ([internal/db/executor.go], [logger.go], [prepared.go], [metrics.go])

    The database is reached through [sqlx] and [database/sql], which are the
    interface [Driver]: each call's answer is an arbitrary function of the calls
    made so far.  [ME] is the effect of the package's methods: the trace of the
    calls, the cache of prepared statements and the savepoint counters are the
    state, and a method returns, fails or panics.  What a destination holds after
    a failed query is not modelled. *)

From S2P Require Import Prelude GoStrings GoValue DbModel DbPrepared.
From Stdlib Require Import Ascii.

(** What the package reads of a [context.Context]; [None] is a nil context. *)
Record context := mkCtx { ctx_request_id : value }.
Definition Background : context := mkCtx VNil.

(** The connection a statement runs on: the pool, a transaction, or a prepared
    statement of the pool. *)
Inductive conn := OnDB | OnTx (tx : nat) | OnStmt (stmt : nat).

(** [sql.Result]. *)
Record Result := mkResult {
  LastInsertId : error + Z;
  RowsAffected : Z * option error;
}.

Record QueryLog := mkLog {
  Query : string;
  Args : list value;
  LogErr : option error;
  Rows : Z;
  LogContext : gmap string value;
}.

(** The calls that leave the package. *)
Inductive event :=
  | EvBegin (tx : nat)
  | EvBeginFailed (e : error)
  | EvCommit (tx : nat) (r : option error)
  | EvRollback (tx : nat) (r : option error)
  | EvExec (c : conn) (query : string) (args : list value)
  | EvQuery (c : conn) (query : string) (args : list value)
  | EvPrepare (query : string)
  | EvCloseStmt (stmt : nat)
  | EvPing
  | EvNow
  | EvLog (sink : string) (q : QueryLog).

(** What a query returns: the rows as [MapScan] delivers them, and [rows.Err()]. *)
Definition rowset : Type := list (error + gmap string value) * option error.

(** [sqlx], the driver and the clock. *)
Class Driver := {
  drv_Begin : list event → option error;
  drv_Commit : list event → nat → option error;
  drv_Rollback : list event → nat → option error;
  drv_Exec : list event → conn → string → list value → error + option Result;
  drv_Query : list event → conn → string → list value → error + rowset;
  drv_Get : list event → conn → value → string → list value → error + value;
  drv_Select : list event → conn → value → string → list value → error + value;
  drv_Prepare : list event → string → option error;
  drv_Ping : list event → option error;
  drv_Now : list event → Z;
  (** the entry an iteration over the statement cache visits first *)
  drv_first_key : list event → list string → string;
  sqlx_Named : string → gmap string value → error + (string * list value);
}.

Record world := mkWorld {
  trace : list event;
  next_tx : nat;
  sp_count : gmap nat Z;
  pcache : preparedCache;
  next_stmt : nat;
}.

Definition ME (A : Type) : Type := world → outcome (error + A) * world.

#[global] Instance ME_ret : MRet ME := λ A a w, (Ret (inr a), w).
#[global] Instance ME_bind : MBind ME := λ A B f m w,
  match m w with
  | (Ret (inr a), w') => f a w'
  | (Ret (inl e), w') => (Ret (inl e), w')
  | (Panic p, w') => (Panic p, w')
  end.

Definition failM {A} (e : error) : ME A := λ w, (Ret (inl e), w).
Definition panicM {A} (p : string) : ME A := λ w, (Panic p, w).
Definition liftR {A} (r : R A) : ME A := λ w, (r, w).
Definition liftO {A} (o : outcome A) : ME A := liftR (lift o).
(** The pair [(result, err)] of a call whose error is inspected. *)
Definition try {A} (m : ME A) : ME (error + A) := λ w,
  match m w with
  | (Ret r, w') => (Ret (inr r), w')
  | (Panic p, w') => (Panic p, w')
  end.
Definition ofsum {A} (r : error + A) : ME A := match r with inl e => failM e | inr a => mret a end.
Definition emit (e : event) : ME unit := λ w,
  (Ret (inr ()), mkWorld (trace w ++ [e]) (next_tx w) (sp_count w) (pcache w) (next_stmt w)).
Definition gets {A} (f : world → A) : ME A := λ w, (Ret (inr (f w)), w).
Definition set_cache (c : preparedCache) : ME unit := λ w,
  (Ret (inr ()), mkWorld (trace w) (next_tx w) (sp_count w) c (next_stmt w)).
Definition fresh_stmt : ME nat := λ w,
  (Ret (inr (next_stmt w)), mkWorld (trace w) (next_tx w) (sp_count w) (pcache w) (S (next_stmt w))).
Definition fresh_tx : ME nat := λ w,
  (Ret (inr (next_tx w)), mkWorld (trace w) (S (next_tx w)) (sp_count w) (pcache w) (next_stmt w)).
(** [atomic.AddInt32(t.spCount, 1)]. *)
Definition next_savepoint (tx : nat) : ME Z := λ w,
  let n := wrap_int KInt32 (default 0%Z (sp_count w !! tx) + 1)%Z in
  (Ret (inr n), mkWorld (trace w) (next_tx w) (<[tx := n]> (sp_count w)) (pcache w) (next_stmt w)).

(** The error paths of a nil context: [database/sql] dereferences it. *)
Definition need_ctx (ctx : option context) : ME context :=
  match ctx with
  | Some c => mret c
  | None => panicM "invalid memory address or nil pointer dereference"
  end.

Definition ErrNoRows : error := ESentinel "sql: no rows in result set".

Section Executors.
Context `{Unicode} `{Platform} `{Driver}.

(** *** Calls to [sqlx] *)

Definition call_Exec (ctx : option context) (c : conn) (q : string) (args : list value)
  : ME (option Result) :=
  _ ← need_ctx ctx;
  tr ← gets trace;
  emit (EvExec c q args);;
  ofsum (drv_Exec tr c q args).

Definition call_Query (ctx : option context) (c : conn) (q : string) (args : list value) : ME rowset :=
  _ ← need_ctx ctx;
  tr ← gets trace;
  emit (EvQuery c q args);;
  ofsum (drv_Query tr c q args).

Definition call_Get (ctx : option context) (c : conn) (dest : value) (q : string) (args : list value)
  : ME value :=
  _ ← need_ctx ctx;
  tr ← gets trace;
  emit (EvQuery c q args);;
  ofsum (drv_Get tr c dest q args).

Definition call_Select (ctx : option context) (c : conn) (dest : value) (q : string)
    (args : list value) : ME value :=
  _ ← need_ctx ctx;
  tr ← gets trace;
  emit (EvQuery c q args);;
  ofsum (drv_Select tr c dest q args).

Definition time_Now : ME Z := tr ← gets trace; emit EvNow;; mret (drv_Now tr).

(** *** Scanning, common to the three executors *)

(** The destination seen as a pointer to a slice: the pointer's type, the
    element type and the elements; a nil pointer or another kind is [None]. *)
Definition slice_dest (dest : value) : option (gotype * gotype * list value) :=
  match dest with
  | VPtr pt (Some (VSlice t l)) => Some (pt, t, default [] l)
  | VPtr pt (Some (VBytes b)) =>
      Some (pt, TUint KInt8,
        VUint KInt8 <$> (byte_val <$> String.list_ascii_of_string (default "" b)))
  | _ => None
  end.

Definition struct_dest (dest : value) : bool :=
  match dest with
  | VPtr _ (Some (VStruct _ _ _ _)) | VPtr _ (Some (VTime _)) => true
  | _ => false
  end.

(** The base type of the elements and whether they are pointers. *)
Definition elem_base (t : gotype) : gotype * bool :=
  match t with TPtr t' => (t', true) | _ => (t, false) end.

(** The loop over the rows: scan each into a new element and append it. *)
Fixpoint scan_rows (t : gotype) (rows : list (error + gmap string value)) (acc : list value)
  : R (list value) :=
  match rows with
  | [] => mret acc
  | inl e :: _ => fail e
  | inr results :: rows' =>
      let '(base, isPtr) := elem_base t in
      newItem ← scanMapToStruct results (VPtr base (Some (zero_value base)));
      let item := if isPtr then newItem
                  else match newItem with VPtr _ (Some x) => x | x => x end in
      scan_rows t rows' (acc ++ [item])
  end.

Definition scan_slice (dest : value) (pt t : gotype) (l : list value) (rs : rowset) : ME value :=
  l' ← liftR (scan_rows t rs.1 l);
  match rs.2 with
  | Some e => failM e
  | None => mret (match rs.1 with [] => dest | _ => VPtr pt (Some (VSlice t (Some l'))) end)
  end.

Definition scan_one (dest : value) (rs : rowset) : ME value :=
  match rs.1 with
  | [] => failM ErrNoRows
  | inl e :: _ => failM e
  | inr results :: _ => liftR (scanMapToStruct results dest)
  end.

(** ** sqlxExecutor *)

Definition sqlxExecutor_Select (ctx : option context) (dest : value) (q : string)
    (args : list value) : ME value :=
  match slice_dest dest with
  | None => call_Select ctx OnDB dest q args
  | Some (pt, t, l) => rs ← call_Query ctx OnDB q args; scan_slice dest pt t l rs
  end.

Definition sqlxExecutor_Get (ctx : option context) (dest : value) (q : string)
    (args : list value) : ME value :=
  if negb (struct_dest dest) then call_Get ctx OnDB dest q args
  else rs ← call_Query ctx OnDB q args; scan_one dest rs.

Definition sqlxExecutor_Exec (ctx : option context) (q : string) (args : list value)
  : ME (option Result) := call_Exec ctx OnDB q args.

(** The executors of the package; a [Tx] is one of [sqlxTx], [sqlxSavepoint] and
    [loggedTx]. *)
Inductive QueryLogger :=
  | frameworkLogger
  | metricsQueryLogger (sink : option string)
  | multiLogger (loggers : list (option QueryLogger))
  | customLogger (sink : string).

Inductive Executor :=
  | sqlxExecutor
  | preparedExecutor
  | sqlxTx (tx : nat)
  | sqlxSavepoint (tx : nat) (sp : string)
  | LoggedExecutor (inner : Executor) (lg : option QueryLogger)
  | loggedTx (inner : Executor) (lg : option QueryLogger).

Definition is_Tx (e : Executor) : bool :=
  match e with sqlxTx _ | sqlxSavepoint _ _ | loggedTx _ _ => true | _ => false end.

Definition sqlxExecutor_Begin (ctx : option context) : ME Executor :=
  _ ← need_ctx ctx;
  tr ← gets trace;
  match drv_Begin tr with
  | Some e => emit (EvBeginFailed e);; failM e
  | None => tx ← fresh_tx; emit (EvBegin tx);; mret (sqlxTx tx)
  end.

(** ** sqlxTx and sqlxSavepoint *)

Definition sqlxTx_Select (tx : nat) (ctx : option context) (dest : value) (q : string)
    (args : list value) : ME value :=
  match slice_dest dest with
  | None => call_Select ctx (OnTx tx) dest q args
  | Some (pt, t, l) => rs ← call_Query ctx (OnTx tx) q args; scan_slice dest pt t l rs
  end.

Definition sqlxTx_Get (tx : nat) (ctx : option context) (dest : value) (q : string)
    (args : list value) : ME value :=
  if negb (struct_dest dest) then call_Get ctx (OnTx tx) dest q args
  else rs ← call_Query ctx (OnTx tx) q args; scan_one dest rs.

Definition sqlxTx_Exec (tx : nat) (ctx : option context) (q : string) (args : list value)
  : ME (option Result) := call_Exec ctx (OnTx tx) q args.

Definition sqlxTx_Begin (tx : nat) (ctx : option context) : ME Executor :=
  n ← next_savepoint tx;
  let nm := "kiya_sp_" +:+ Strconv.FormatInt n in
  _ ← call_Exec ctx (OnTx tx) ("SAVEPOINT " +:+ nm) [];
  mret (sqlxSavepoint tx nm).

Definition sqlxTx_Commit (tx : nat) : ME unit :=
  tr ← gets trace;
  let r := drv_Commit tr tx in
  emit (EvCommit tx r);;
  match r with Some e => failM e | None => mret () end.

Definition sqlxTx_Rollback (tx : nat) : ME unit :=
  tr ← gets trace;
  let r := drv_Rollback tr tx in
  emit (EvRollback tx r);;
  match r with Some e => failM e | None => mret () end.

(** [tx.Exec] runs with the background context. *)
Definition sqlxSavepoint_Commit (tx : nat) (sp : string) : ME unit :=
  _ ← call_Exec (Some Background) (OnTx tx) ("RELEASE SAVEPOINT " +:+ sp) [];
  mret ().

Definition sqlxSavepoint_Rollback (tx : nat) (sp : string) : ME unit :=
  _ ← call_Exec (Some Background) (OnTx tx) ("ROLLBACK TO SAVEPOINT " +:+ sp) [];
  mret ().

(** ** Prepared statements *)

Definition preparedCache_get (ctx : option context) (q : string) : ME nat :=
  c ← gets pcache;
  match cache_lookup c q with
  | Some stmt => mret stmt
  | None =>
      _ ← need_ctx ctx;
      tr ← gets trace;
      emit (EvPrepare q);;
      match drv_Prepare tr q with
      | Some e => failM e
      | None =>
          stmt ← fresh_stmt;
          c ← gets pcache;
          let victim := drv_first_key tr (map_to_list (stmts c)).*1 in
          let '(c', s, closed) := cache_store c q stmt victim in
          set_cache c';;
          foldr (λ n k, emit (EvCloseStmt n);; k) (mret s) closed
      end
  end.

Definition preparedCache_Close : ME unit :=
  c ← gets pcache;
  let '(c', closed) := cache_close c in
  set_cache c';;
  foldr (λ n k, emit (EvCloseStmt n);; k) (mret ()) closed.

Definition preparedExecutor_Select (ctx : option context) (dest : value) (q : string)
    (args : list value) : ME value :=
  r ← try (preparedCache_get ctx q);
  match r with
  | inl _ => sqlxExecutor_Select ctx dest q args
  | inr stmt =>
      match slice_dest dest with
      | None => call_Select ctx (OnStmt stmt) dest q args
      | Some (pt, t, l) => rs ← call_Query ctx (OnStmt stmt) q args; scan_slice dest pt t l rs
      end
  end.

Definition preparedExecutor_Get (ctx : option context) (dest : value) (q : string)
    (args : list value) : ME value :=
  r ← try (preparedCache_get ctx q);
  match r with
  | inl _ => sqlxExecutor_Get ctx dest q args
  | inr stmt =>
      if negb (struct_dest dest) then call_Get ctx (OnStmt stmt) dest q args
      else rs ← call_Query ctx (OnStmt stmt) q args; scan_one dest rs
  end.

Definition preparedExecutor_Exec (ctx : option context) (q : string) (args : list value)
  : ME (option Result) :=
  r ← try (preparedCache_get ctx q);
  match r with
  | inl _ => sqlxExecutor_Exec ctx q args
  | inr stmt => call_Exec ctx (OnStmt stmt) q args
  end.

Definition preparedExecutor_Begin (ctx : option context) : ME Executor := sqlxExecutor_Begin ctx.

(** ** Query logging *)

Fixpoint Logger_Log (l : QueryLogger) (q : QueryLog) : ME unit :=
  match l with
  | frameworkLogger => emit (EvLog "framework" q)
  | metricsQueryLogger None => mret ()
  | metricsQueryLogger (Some sink) => emit (EvLog sink q)
  | multiLogger ls =>
      (fix go (ls : list (option QueryLogger)) : ME unit :=
         match ls with
         | [] => mret ()
         | None :: ls' => go ls'
         | Some l' :: ls' => Logger_Log l' q;; go ls'
         end) ls
  | customLogger sink => emit (EvLog sink q)
  end.

Definition NewMetricsQueryLogger (sink : option string) : option QueryLogger :=
  match sink with None => None | Some s => Some (metricsQueryLogger (Some s)) end.

(** [ctx.Value] on a nil context panics. *)
Definition ctxToMap (ctx : option context) : ME (gmap string value) :=
  c ← need_ctx ctx;
  mret (match ctx_request_id c with
        | VNil => ∅
        | reqID => {["request_id" := reqID]}
        end).

Definition log_query (lg : option QueryLogger) (ctx : option context) (q : string)
    (args : list value) (err : option error) (rows : Z) : ME unit :=
  match lg with
  | None => mret ()
  | Some l => m ← ctxToMap ctx; Logger_Log l (mkLog q args err rows m)
  end.

Definition err_of {A} (r : error + A) : option error := match r with inl e => Some e | inr _ => None end.

(** The error a [Get] logs: an empty result is not one. *)
Definition log_err_of {A} (r : error + A) : option error :=
  match r with
  | inl e => if errors_Is e "sql: no rows in result set" then None else Some e
  | inr _ => None
  end.

(** The rows an [Exec] logs. *)
Definition rows_of (r : error + option Result) : Z :=
  match r with inr (Some res) => (RowsAffected res).1 | _ => 0%Z end.

Definition LoggedExecutor_Select (inner : option context → value → string → list value → ME value)
    (lg : option QueryLogger) (ctx : option context) (dest : value) (q : string) (args : list value)
  : ME value :=
  r ← try (inner ctx dest q args);
  log_query lg ctx q args (err_of r) 0;;
  ofsum r.

Definition LoggedExecutor_Get (inner : option context → value → string → list value → ME value)
    (lg : option QueryLogger) (ctx : option context) (dest : value) (q : string) (args : list value)
  : ME value :=
  r ← try (inner ctx dest q args);
  log_query lg ctx q args (log_err_of r) 0;;
  ofsum r.

Definition LoggedExecutor_Exec (inner : option context → string → list value → ME (option Result))
    (lg : option QueryLogger) (ctx : option context) (q : string) (args : list value)
  : ME (option Result) :=
  r ← try (inner ctx q args);
  log_query lg ctx q args (err_of r) (rows_of r);;
  ofsum r.

Definition LoggedExecutor_Begin (inner : option context → ME Executor) (lg : option QueryLogger)
    (ctx : option context) : ME Executor :=
  tx ← inner ctx; mret (loggedTx tx lg).

Definition loggedTx_Select (inner : option context → value → string → list value → ME value)
    (lg : option QueryLogger) (ctx : option context) (dest : value) (q : string) (args : list value)
  : ME value :=
  r ← try (inner ctx dest q args);
  log_query lg ctx q args (err_of r) 0;;
  ofsum r.

Definition loggedTx_Get (inner : option context → value → string → list value → ME value)
    (lg : option QueryLogger) (ctx : option context) (dest : value) (q : string) (args : list value)
  : ME value :=
  r ← try (inner ctx dest q args);
  log_query lg ctx q args (log_err_of r) 0;;
  ofsum r.

Definition loggedTx_Exec (inner : option context → string → list value → ME (option Result))
    (lg : option QueryLogger) (ctx : option context) (q : string) (args : list value)
  : ME (option Result) :=
  r ← try (inner ctx q args);
  log_query lg ctx q args (err_of r) (rows_of r);;
  ofsum r.

Definition loggedTx_Begin (ctx : option context) : ME Executor :=
  failM (ENew "cannot begin a transaction within a transaction").

(** ** Dispatch of the interfaces [Executor] and [Tx] *)

Fixpoint Executor_Select (e : Executor) (ctx : option context) (dest : value) (q : string)
    (args : list value) : ME value :=
  match e with
  | sqlxExecutor => sqlxExecutor_Select ctx dest q args
  | preparedExecutor => preparedExecutor_Select ctx dest q args
  | sqlxTx tx | sqlxSavepoint tx _ => sqlxTx_Select tx ctx dest q args
  | LoggedExecutor inner lg => LoggedExecutor_Select (Executor_Select inner) lg ctx dest q args
  | loggedTx inner lg => loggedTx_Select (Executor_Select inner) lg ctx dest q args
  end.

Fixpoint Executor_Get (e : Executor) (ctx : option context) (dest : value) (q : string)
    (args : list value) : ME value :=
  match e with
  | sqlxExecutor => sqlxExecutor_Get ctx dest q args
  | preparedExecutor => preparedExecutor_Get ctx dest q args
  | sqlxTx tx | sqlxSavepoint tx _ => sqlxTx_Get tx ctx dest q args
  | LoggedExecutor inner lg => LoggedExecutor_Get (Executor_Get inner) lg ctx dest q args
  | loggedTx inner lg => loggedTx_Get (Executor_Get inner) lg ctx dest q args
  end.

Fixpoint Executor_Exec (e : Executor) (ctx : option context) (q : string) (args : list value)
  : ME (option Result) :=
  match e with
  | sqlxExecutor => sqlxExecutor_Exec ctx q args
  | preparedExecutor => preparedExecutor_Exec ctx q args
  | sqlxTx tx | sqlxSavepoint tx _ => sqlxTx_Exec tx ctx q args
  | LoggedExecutor inner lg => LoggedExecutor_Exec (Executor_Exec inner) lg ctx q args
  | loggedTx inner lg => loggedTx_Exec (Executor_Exec inner) lg ctx q args
  end.

Fixpoint Executor_Begin (e : Executor) (ctx : option context) : ME Executor :=
  match e with
  | sqlxExecutor => sqlxExecutor_Begin ctx
  | preparedExecutor => preparedExecutor_Begin ctx
  | sqlxTx tx | sqlxSavepoint tx _ => sqlxTx_Begin tx ctx
  | LoggedExecutor inner lg => LoggedExecutor_Begin (Executor_Begin inner) lg ctx
  | loggedTx _ _ => loggedTx_Begin ctx
  end.

Fixpoint Tx_Commit (e : Executor) : ME unit :=
  match e with
  | sqlxTx tx => sqlxTx_Commit tx
  | sqlxSavepoint tx sp => sqlxSavepoint_Commit tx sp
  | loggedTx inner _ => Tx_Commit inner
  | _ => panicM "not a transaction"
  end.

Fixpoint Tx_Rollback (e : Executor) : ME unit :=
  match e with
  | sqlxTx tx => sqlxTx_Rollback tx
  | sqlxSavepoint tx sp => sqlxSavepoint_Rollback tx sp
  | loggedTx inner _ => Tx_Rollback inner
  | _ => panicM "not a transaction"
  end.
End Executors.

(** ** Reasoning about effects

    [emits P m]: whatever [m] returns, it only extends the trace, by events that
    satisfy [P]. *)
Definition emits {A} (P : event → Prop) (m : ME A) : Prop :=
  ∀ w, ∃ l, trace (m w).2 = trace w ++ l ∧ Forall P l.

Create HintDb emits.

Section Emits.
Context {A B : Type} (P : event → Prop).

Lemma emits_same (m : ME A) : (∀ w, trace (m w).2 = trace w) → emits P m.
Proof. intros Hm w. exists []. by rewrite Hm, app_nil_r. Qed.

Lemma emits_ret (a : A) : emits P (mret a : ME A).
Proof. by apply emits_same. Qed.
Lemma emits_fail (e : error) : emits P (failM e : ME A).
Proof. by apply emits_same. Qed.
Lemma emits_panic (p : string) : emits P (panicM p : ME A).
Proof. by apply emits_same. Qed.
Lemma emits_liftR (r : R A) : emits P (liftR r).
Proof. by apply emits_same. Qed.
Lemma emits_gets (f : world → A) : emits P (gets f).
Proof. by apply emits_same. Qed.
Lemma emits_ofsum (r : error + A) : emits P (ofsum r).
Proof. destruct r; [apply emits_fail|apply emits_ret]. Qed.

Lemma emits_bind (m : ME A) (f : A → ME B) :
  emits P m → (∀ a, emits P (f a)) → emits P (m ≫= f).
Proof.
  intros Hm Hf w. unfold mbind, ME_bind. specialize (Hm w).
  destruct (m w) as [[[e|a]|p] w']; simpl in *; try done.
  destruct Hm as (l & Hl & HP). destruct (Hf a w') as (l' & Hl' & HP').
  exists (l ++ l'). rewrite Hl', Hl, app_assoc. split; [done|]. by apply Forall_app.
Qed.

Lemma emits_try (m : ME A) : emits P m → emits P (try m).
Proof. intros Hm w. unfold try. specialize (Hm w). by destruct (m w) as [[]]. Qed.

Lemma emits_mono (Q : event → Prop) (m : ME A) :
  (∀ e, P e → Q e) → emits P m → emits Q m.
Proof.
  intros HPQ Hm w. destruct (Hm w) as (l & Hl & HP). exists l. split; [done|].
  eapply Forall_impl; [exact HP|]. exact HPQ.
Qed.
End Emits.

Section EmitsMore.
Variable P : event → Prop.

Lemma emits_emit e : P e → emits P (emit e).
Proof. intros He w. exists [e]. split; [done|]. by constructor. Qed.
Lemma emits_need_ctx ctx : emits P (need_ctx ctx).
Proof. destruct ctx; by apply emits_same. Qed.
Lemma emits_set_cache c : emits P (set_cache c).
Proof. by apply emits_same. Qed.
Lemma emits_fresh_stmt : emits P fresh_stmt.
Proof. by apply emits_same. Qed.
Lemma emits_fresh_tx : emits P fresh_tx.
Proof. by apply emits_same. Qed.
Lemma emits_next_savepoint tx : emits P (next_savepoint tx).
Proof. by apply emits_same. Qed.
Lemma emits_close_all {A} (closed : list nat) (k : ME A) :
  (∀ n, P (EvCloseStmt n)) → emits P k → emits P (foldr (λ n k, emit (EvCloseStmt n);; k) k closed).
Proof.
  intros HP Hk. induction closed as [|n closed IH]; simpl; [done|].
  apply emits_bind; [by apply emits_emit|done].
Qed.
End EmitsMore.

#[export] Hint Resolve emits_ret emits_fail emits_panic emits_liftR emits_gets emits_ofsum
  emits_try emits_emit emits_need_ctx emits_set_cache emits_fresh_stmt emits_fresh_tx
  emits_next_savepoint : emits.

(** Follow the structure of a computation. *)
Ltac emits_step :=
  repeat first
    [ progress intros
    | solve [eauto with emits]
    | apply emits_bind
    | apply emits_try
    | apply emits_close_all
    | match goal with |- emits _ (match ?x with _ => _ end) => destruct x end
    | match goal with |- emits _ (let '(_, _) := ?x in _) => destruct x end ].

(** The connections an executor's statements may run on. *)
Fixpoint on_conn (e : Executor) (c : conn) : Prop :=
  match e with
  | sqlxExecutor => c = OnDB
  | preparedExecutor => match c with OnDB | OnStmt _ => True | OnTx _ => False end
  | sqlxTx tx | sqlxSavepoint tx _ => c = OnTx tx
  | LoggedExecutor e' _ | loggedTx e' _ => on_conn e' c
  end.

(** Whether an executor goes through the statement cache. *)
Fixpoint prepares (e : Executor) : Prop :=
  match e with
  | preparedExecutor => True
  | LoggedExecutor e' _ | loggedTx e' _ => prepares e'
  | _ => False
  end.

(** The events of running one statement through an executor: the statement
    itself, unchanged, on one of its connections; preparing or evicting a prepared
    statement; and log entries about this statement. *)
Definition statement_of (e : Executor) (q : string) (args : list value) (ev : event) : Prop :=
  match ev with
  | EvExec c q' a | EvQuery c q' a => q' = q ∧ a = args ∧ on_conn e c
  | EvPrepare q' => q' = q ∧ prepares e
  | EvCloseStmt _ => prepares e
  | EvLog _ l => Query l = q ∧ Args l = args
  | _ => False
  end.

Section ExecutorEmits.
Context `{Unicode} `{Platform} `{Driver}.

Lemma emits_call_Exec (P : event → Prop) ctx c q args :
  P (EvExec c q args) → emits P (call_Exec ctx c q args).
Proof. intros. unfold call_Exec. emits_step. Qed.
Lemma emits_call_Query (P : event → Prop) ctx c q args :
  P (EvQuery c q args) → emits P (call_Query ctx c q args).
Proof. intros. unfold call_Query. emits_step. Qed.
Lemma emits_call_Get (P : event → Prop) ctx c d q args :
  P (EvQuery c q args) → emits P (call_Get ctx c d q args).
Proof. intros. unfold call_Get. emits_step. Qed.
Lemma emits_call_Select (P : event → Prop) ctx c d q args :
  P (EvQuery c q args) → emits P (call_Select ctx c d q args).
Proof. intros. unfold call_Select. emits_step. Qed.

Lemma emits_scan_slice (P : event → Prop) d pt t l rs : emits P (scan_slice d pt t l rs).
Proof. unfold scan_slice. emits_step. Qed.
Lemma emits_scan_one (P : event → Prop) d rs : emits P (scan_one d rs).
Proof. unfold scan_one. emits_step. Qed.

Lemma emits_cache_get (P : event → Prop) ctx q :
  P (EvPrepare q) → (∀ n, P (EvCloseStmt n)) → emits P (preparedCache_get ctx q).
Proof. intros. unfold preparedCache_get. emits_step. Qed.

Lemma emits_Logger (P : event → Prop) l q : (∀ s, P (EvLog s q)) → emits P (Logger_Log l q).
Proof.
  intros HP. revert l. fix IH 1. intros [|[s|]|ls|s]; simpl; eauto with emits.
  induction ls as [|[l|] ls IHls]; [by apply emits_ret| |done].
  apply emits_bind; [apply IH|done].
Qed.

Lemma emits_log_query (P : event → Prop) lg ctx q args err rows :
  (∀ s l, Query l = q → Args l = args → P (EvLog s l)) →
  emits P (log_query lg ctx q args err rows).
Proof.
  intros HP. unfold log_query. destruct lg as [l|]; [|apply emits_ret].
  apply emits_bind.
  - unfold ctxToMap. emits_step.
  - intros m. apply emits_Logger. intros s. by apply HP.
Qed.

Hint Resolve emits_call_Exec emits_call_Query emits_call_Get emits_call_Select
  emits_scan_slice emits_scan_one : emits.

Lemma Executor_Exec_emits e ctx q args :
  emits (statement_of e q args) (Executor_Exec e ctx q args).
Proof.
  induction e as [| |tx|tx sp|e IH lg|e IH lg]; simpl.
  - apply emits_call_Exec. by split.
  - apply emits_bind; [apply emits_try, emits_cache_get; done|].
    intros [|n]; apply emits_call_Exec; by split.
  - apply emits_call_Exec. by split.
  - apply emits_call_Exec. by split.
  - apply emits_bind; [by apply emits_try|]. intros r.
    apply emits_bind; [|intros []; apply emits_ofsum]. by apply emits_log_query.
  - apply emits_bind; [by apply emits_try|]. intros r.
    apply emits_bind; [|intros []; apply emits_ofsum]. by apply emits_log_query.
Qed.

Lemma Executor_Get_emits e ctx d q args :
  emits (statement_of e q args) (Executor_Get e ctx d q args).
Proof.
  assert (∀ c e, on_conn e c → emits (statement_of e q args)
    (if negb (struct_dest d) then call_Get ctx c d q args
     else rs ← call_Query ctx c q args; scan_one d rs)) as Hone.
  { intros c e' Hc. destruct (negb _); [by apply emits_call_Get|].
    apply emits_bind; [by apply emits_call_Query|]. intros. apply emits_scan_one. }
  induction e as [| |tx|tx sp|e IH lg|e IH lg]; simpl; try (by apply Hone).
  - apply emits_bind; [apply emits_try, emits_cache_get; done|]. intros [|n]; by apply Hone.
  - apply emits_bind; [by apply emits_try|]. intros r.
    apply emits_bind; [|intros []; apply emits_ofsum]. by apply emits_log_query.
  - apply emits_bind; [by apply emits_try|]. intros r.
    apply emits_bind; [|intros []; apply emits_ofsum]. by apply emits_log_query.
Qed.

Lemma Executor_Select_emits e ctx d q args :
  emits (statement_of e q args) (Executor_Select e ctx d q args).
Proof.
  assert (∀ c e, on_conn e c → emits (statement_of e q args)
    (match slice_dest d with
     | None => call_Select ctx c d q args
     | Some (pt, t, l) => rs ← call_Query ctx c q args; scan_slice d pt t l rs
     end)) as Hone.
  { intros c e' Hc. destruct (slice_dest d) as [[[pt t] l]|]; [|by apply emits_call_Select].
    apply emits_bind; [by apply emits_call_Query|]. intros. apply emits_scan_slice. }
  induction e as [| |tx|tx sp|e IH lg|e IH lg]; simpl; try (by apply Hone).
  - apply emits_bind; [apply emits_try, emits_cache_get; done|]. intros [|n]; by apply Hone.
  - apply emits_bind; [by apply emits_try|]. intros r.
    apply emits_bind; [|intros []; apply emits_ofsum]. by apply emits_log_query.
  - apply emits_bind; [by apply emits_try|]. intros r.
    apply emits_bind; [|intros []; apply emits_ofsum]. by apply emits_log_query.
Qed.
End ExecutorEmits.

(** ** Logging does not change what a statement returns *)

Definition is_log (ev : event) : Prop := match ev with EvLog _ _ => True | _ => False end.

Definition add_trace (l : list event) (w : world) : world :=
  mkWorld (trace w ++ l) (next_tx w) (sp_count w) (pcache w) (next_stmt w).

Lemma add_trace_nil w : add_trace [] w = w.
Proof. destruct w. unfold add_trace. simpl. by rewrite app_nil_r. Qed.
Lemma add_trace_app l l' w : add_trace l' (add_trace l w) = add_trace (l ++ l') w.
Proof. unfold add_trace. simpl. by rewrite app_assoc. Qed.

(** [m] succeeds and only appends log entries. *)
Definition only_logs (m : ME unit) : Prop :=
  ∀ w, ∃ logs, m w = (Ret (inr ()), add_trace logs w) ∧ Forall is_log logs.

Lemma only_logs_ret : only_logs (mret ()).
Proof. intros w. exists []. by rewrite add_trace_nil. Qed.
Lemma only_logs_emit s q : only_logs (emit (EvLog s q)).
Proof. intros w. exists [EvLog s q]. split; [done|]. by constructor. Qed.
Lemma only_logs_seq m m' : only_logs m → only_logs m' → only_logs (m;; m').
Proof.
  intros Hm Hm' w. destruct (Hm w) as (l & Hl & HP).
  destruct (Hm' (add_trace l w)) as (l' & Hl' & HP'). exists (l ++ l').
  unfold mbind, ME_bind. rewrite Hl, Hl', add_trace_app. split; [done|]. by apply Forall_app.
Qed.

Lemma only_logs_Logger l q : only_logs (Logger_Log l q).
Proof.
  revert l. fix IH 1. intros [|[s|]|ls|s]; simpl;
    [apply only_logs_emit|apply only_logs_emit|apply only_logs_ret| |apply only_logs_emit].
  induction ls as [|[l|] ls IHls]; [apply only_logs_ret| |done].
  apply only_logs_seq; [apply IH|done].
Qed.

Lemma only_logs_query lg c q args err rows : only_logs (log_query lg (Some c) q args err rows).
Proof. destruct lg as [l|]; [|apply only_logs_ret]. intros w. apply only_logs_Logger. Qed.

Lemma logged_call {A} (m : ME A) lg c q args (f : error + A → option error) (g : error + A → Z) w :
  ∃ logs, (r ← try m; log_query lg (Some c) q args (f r) (g r);; ofsum r) w =
    ((m w).1, add_trace logs (m w).2) ∧ Forall is_log logs.
Proof.
  unfold mbind, ME_bind, try. destruct (m w) as [[r|p] w'].
  - destruct (only_logs_query lg c q args (f r) (g r) w') as (logs & -> & HP).
    exists logs. split; [|done]. by destruct r.
  - exists []. simpl. by rewrite add_trace_nil.
Qed.

Section Logging.
Context `{Unicode} `{Platform} `{Driver}.

(** Wrapping an executor in a query logger changes neither the result, the
    error nor the panic of a statement, nor the calls made to the database: it
    only appends log entries (given a request context, which the logger reads). *)
Theorem logging_transparent e lg c w :
  (∀ q args, ∃ logs,
    Executor_Exec (LoggedExecutor e lg) (Some c) q args w =
      ((Executor_Exec e (Some c) q args w).1, add_trace logs (Executor_Exec e (Some c) q args w).2) ∧
    Forall is_log logs) ∧
  (∀ d q args, ∃ logs,
    Executor_Get (LoggedExecutor e lg) (Some c) d q args w =
      ((Executor_Get e (Some c) d q args w).1, add_trace logs (Executor_Get e (Some c) d q args w).2) ∧
    Forall is_log logs) ∧
  (∀ d q args, ∃ logs,
    Executor_Select (LoggedExecutor e lg) (Some c) d q args w =
      ((Executor_Select e (Some c) d q args w).1,
       add_trace logs (Executor_Select e (Some c) d q args w).2) ∧
    Forall is_log logs).
Proof.
  split; [|split]; intros; simpl.
  - apply (logged_call (Executor_Exec e (Some c) q args)).
  - apply (logged_call (Executor_Get e (Some c) d q args) lg c q args log_err_of (λ _, 0%Z)).
  - apply (logged_call (Executor_Select e (Some c) d q args) lg c q args err_of (λ _, 0%Z)).
Qed.

(** A transaction opened through the logging executor cannot be nested:
    [Begin] on it always fails and issues no [SAVEPOINT]. *)
Theorem logged_transaction_does_not_nest e lg ctx w tx w' ctx' w'' :
  Executor_Begin (LoggedExecutor e lg) ctx w = (Ret (inr tx), w') →
  Executor_Begin tx ctx' w'' =
    (Ret (inl (ENew "cannot begin a transaction within a transaction")), w'').
Proof.
  simpl. unfold LoggedExecutor_Begin, mbind, ME_bind.
  destruct (Executor_Begin e ctx w) as [[[?|tx0]|?] ?]; try done.
  intros Heq. by injection Heq as <- <-.
Qed.
End Logging.

(** A database that accepts everything: a query returns one row, a count 25. *)
#[global] Instance demo_driver : Driver := {|
  drv_Begin := λ _, None;
  drv_Commit := λ _ _, None;
  drv_Rollback := λ _ _, None;
  drv_Exec := λ _ _ _ _, inr (Some (mkResult (inr 1%Z) (1%Z, None)));
  drv_Query := λ _ _ _ _, inr ([inr ({["name" := VString "ana"]})], None);
  drv_Get := λ _ _ d _ _, inr (VPtr (TInt KInt64) (Some (VInt KInt64 25)));
  drv_Select := λ _ _ d _ _, inr d;
  drv_Prepare := λ _ _, None;
  drv_Ping := λ _, None;
  drv_Now := λ tr, Z.of_nat (length tr);
  drv_first_key := λ _ ks, default "" (head ks);
  sqlx_Named := λ q _, inr (q, []);
|}.

Definition world0 : world := mkWorld [] 0 ∅ (newPreparedCache 10) 0.

Lemma logged_transaction_does_not_nest_witness :
  Executor_Begin (loggedTx (sqlxTx 0) None) (Some Background) world0 =
    (Ret (inl (ENew "cannot begin a transaction within a transaction")), world0).
Proof.
  eapply (logged_transaction_does_not_nest sqlxExecutor None (Some Background) world0). reflexivity.
Defined.
