(* ===== verification/DbBuilder.v ===== *)
(** * The query builder ([internal/db/builder.go])

    The builder's state and its fluent operations.  A method that changes the
    receiver and returns it is a function from builder to builder; slices and maps
    are values, so [clone] is the identity on what they hold.  The request's
    resources are the actor they resolve to and the value handed to the scope
    function. *)

From S2P Require Import Prelude GoStrings GoValue Util DbSanitize DbModel DbPrepared DbExec.
From Stdlib Require Import Ascii.
Import Strings.

Record whereClause := mkWhere { w_boolean : string; w_expr : string; w_args : list value }.
Record joinClause := mkJoin { j_typ : string; j_table : string; j_on : string }.
Record selectClause := mkSelect { s_expr : string; s_args : list value }.

(** A value of type [any] used as the request's resources; [res_actor] is what
    its [CurrentUser] does when it is an [ActorResolver]. *)
Record resources := mkRes { res_value : value; res_actor : option (outcome (value * string)) }.

Definition ScopeFunc : Type := list string → value → gmap string value.

Record Builder := mkBuilder {
  b_table : string;
  b_selects : list selectClause;
  b_joins : list joinClause;
  b_wheres : list whereClause;
  b_groupBys : list string;
  b_havings : list whereClause;
  b_orderBys : list string;
  b_limit : option Z;
  b_offset : option Z;
  b_args : list value;
  b_action : string;
  b_inserts : gmap string value;
  b_updates : gmap string value;
  b_insertBatchCols : list string;
  b_insertBatchPlaceholders : list string;
  b_insertBatchArgs : list value;
  b_nullableCols : gset string;
  b_onDuplicateUpdateCols : list string;
  b_primaryKeys : list string;
  b_autoIncCol : string;
  b_rawQuery : string;
  b_rawArgs : list value;
  b_namedArgs : option (gmap string value);
  b_dialect : Dialect;
  b_executor : Executor;
  b_ctx : option context;
  b_dest : value;
  b_res : option resources;
  b_scope : option ScopeFunc;
  b_softDeleteCondition : string;
  b_scopeSkipped : bool;
  b_scopeApplied : bool;
  b_unsafeAllowEmptyWhere : bool;
  b_lockForUpdate : bool;
  b_historyTrackingDisabled : bool;
}.

(** Assignments to a field. *)
Definition set_table (x : string) (b : Builder) : Builder :=
  mkBuilder x (b_selects b) (b_joins b) (b_wheres b) (b_groupBys b) (b_havings b) (b_orderBys b)
    (b_limit b) (b_offset b) (b_args b) (b_action b) (b_inserts b) (b_updates b)
    (b_insertBatchCols b) (b_insertBatchPlaceholders b) (b_insertBatchArgs b) (b_nullableCols b)
    (b_onDuplicateUpdateCols b) (b_primaryKeys b) (b_autoIncCol b) (b_rawQuery b) (b_rawArgs b)
    (b_namedArgs b) (b_dialect b) (b_executor b) (b_ctx b) (b_dest b) (b_res b) (b_scope b)
    (b_softDeleteCondition b) (b_scopeSkipped b) (b_scopeApplied b) (b_unsafeAllowEmptyWhere b)
    (b_lockForUpdate b) (b_historyTrackingDisabled b).
Definition set_selects (x : list selectClause) (b : Builder) : Builder :=
  mkBuilder (b_table b) x (b_joins b) (b_wheres b) (b_groupBys b) (b_havings b) (b_orderBys b)
    (b_limit b) (b_offset b) (b_args b) (b_action b) (b_inserts b) (b_updates b)
    (b_insertBatchCols b) (b_insertBatchPlaceholders b) (b_insertBatchArgs b) (b_nullableCols b)
    (b_onDuplicateUpdateCols b) (b_primaryKeys b) (b_autoIncCol b) (b_rawQuery b) (b_rawArgs b)
    (b_namedArgs b) (b_dialect b) (b_executor b) (b_ctx b) (b_dest b) (b_res b) (b_scope b)
    (b_softDeleteCondition b) (b_scopeSkipped b) (b_scopeApplied b) (b_unsafeAllowEmptyWhere b)
    (b_lockForUpdate b) (b_historyTrackingDisabled b).
Definition set_joins (x : list joinClause) (b : Builder) : Builder :=
  mkBuilder (b_table b) (b_selects b) x (b_wheres b) (b_groupBys b) (b_havings b) (b_orderBys b)
    (b_limit b) (b_offset b) (b_args b) (b_action b) (b_inserts b) (b_updates b)
    (b_insertBatchCols b) (b_insertBatchPlaceholders b) (b_insertBatchArgs b) (b_nullableCols b)
    (b_onDuplicateUpdateCols b) (b_primaryKeys b) (b_autoIncCol b) (b_rawQuery b) (b_rawArgs b)
    (b_namedArgs b) (b_dialect b) (b_executor b) (b_ctx b) (b_dest b) (b_res b) (b_scope b)
    (b_softDeleteCondition b) (b_scopeSkipped b) (b_scopeApplied b) (b_unsafeAllowEmptyWhere b)
    (b_lockForUpdate b) (b_historyTrackingDisabled b).
Definition set_wheres (x : list whereClause) (b : Builder) : Builder :=
  mkBuilder (b_table b) (b_selects b) (b_joins b) x (b_groupBys b) (b_havings b) (b_orderBys b)
    (b_limit b) (b_offset b) (b_args b) (b_action b) (b_inserts b) (b_updates b)
    (b_insertBatchCols b) (b_insertBatchPlaceholders b) (b_insertBatchArgs b) (b_nullableCols b)
    (b_onDuplicateUpdateCols b) (b_primaryKeys b) (b_autoIncCol b) (b_rawQuery b) (b_rawArgs b)
    (b_namedArgs b) (b_dialect b) (b_executor b) (b_ctx b) (b_dest b) (b_res b) (b_scope b)
    (b_softDeleteCondition b) (b_scopeSkipped b) (b_scopeApplied b) (b_unsafeAllowEmptyWhere b)
    (b_lockForUpdate b) (b_historyTrackingDisabled b).
Definition set_groupBys (x : list string) (b : Builder) : Builder :=
  mkBuilder (b_table b) (b_selects b) (b_joins b) (b_wheres b) x (b_havings b) (b_orderBys b)
    (b_limit b) (b_offset b) (b_args b) (b_action b) (b_inserts b) (b_updates b)
    (b_insertBatchCols b) (b_insertBatchPlaceholders b) (b_insertBatchArgs b) (b_nullableCols b)
    (b_onDuplicateUpdateCols b) (b_primaryKeys b) (b_autoIncCol b) (b_rawQuery b) (b_rawArgs b)
    (b_namedArgs b) (b_dialect b) (b_executor b) (b_ctx b) (b_dest b) (b_res b) (b_scope b)
    (b_softDeleteCondition b) (b_scopeSkipped b) (b_scopeApplied b) (b_unsafeAllowEmptyWhere b)
    (b_lockForUpdate b) (b_historyTrackingDisabled b).
Definition set_havings (x : list whereClause) (b : Builder) : Builder :=
  mkBuilder (b_table b) (b_selects b) (b_joins b) (b_wheres b) (b_groupBys b) x (b_orderBys b)
    (b_limit b) (b_offset b) (b_args b) (b_action b) (b_inserts b) (b_updates b)
    (b_insertBatchCols b) (b_insertBatchPlaceholders b) (b_insertBatchArgs b) (b_nullableCols b)
    (b_onDuplicateUpdateCols b) (b_primaryKeys b) (b_autoIncCol b) (b_rawQuery b) (b_rawArgs b)
    (b_namedArgs b) (b_dialect b) (b_executor b) (b_ctx b) (b_dest b) (b_res b) (b_scope b)
    (b_softDeleteCondition b) (b_scopeSkipped b) (b_scopeApplied b) (b_unsafeAllowEmptyWhere b)
    (b_lockForUpdate b) (b_historyTrackingDisabled b).
Definition set_orderBys (x : list string) (b : Builder) : Builder :=
  mkBuilder (b_table b) (b_selects b) (b_joins b) (b_wheres b) (b_groupBys b) (b_havings b) x
    (b_limit b) (b_offset b) (b_args b) (b_action b) (b_inserts b) (b_updates b)
    (b_insertBatchCols b) (b_insertBatchPlaceholders b) (b_insertBatchArgs b) (b_nullableCols b)
    (b_onDuplicateUpdateCols b) (b_primaryKeys b) (b_autoIncCol b) (b_rawQuery b) (b_rawArgs b)
    (b_namedArgs b) (b_dialect b) (b_executor b) (b_ctx b) (b_dest b) (b_res b) (b_scope b)
    (b_softDeleteCondition b) (b_scopeSkipped b) (b_scopeApplied b) (b_unsafeAllowEmptyWhere b)
    (b_lockForUpdate b) (b_historyTrackingDisabled b).
Definition set_limit (x : option Z) (b : Builder) : Builder :=
  mkBuilder (b_table b) (b_selects b) (b_joins b) (b_wheres b) (b_groupBys b) (b_havings b)
    (b_orderBys b) x (b_offset b) (b_args b) (b_action b) (b_inserts b) (b_updates b)
    (b_insertBatchCols b) (b_insertBatchPlaceholders b) (b_insertBatchArgs b) (b_nullableCols b)
    (b_onDuplicateUpdateCols b) (b_primaryKeys b) (b_autoIncCol b) (b_rawQuery b) (b_rawArgs b)
    (b_namedArgs b) (b_dialect b) (b_executor b) (b_ctx b) (b_dest b) (b_res b) (b_scope b)
    (b_softDeleteCondition b) (b_scopeSkipped b) (b_scopeApplied b) (b_unsafeAllowEmptyWhere b)
    (b_lockForUpdate b) (b_historyTrackingDisabled b).
Definition set_offset (x : option Z) (b : Builder) : Builder :=
  mkBuilder (b_table b) (b_selects b) (b_joins b) (b_wheres b) (b_groupBys b) (b_havings b)
    (b_orderBys b) (b_limit b) x (b_args b) (b_action b) (b_inserts b) (b_updates b)
    (b_insertBatchCols b) (b_insertBatchPlaceholders b) (b_insertBatchArgs b) (b_nullableCols b)
    (b_onDuplicateUpdateCols b) (b_primaryKeys b) (b_autoIncCol b) (b_rawQuery b) (b_rawArgs b)
    (b_namedArgs b) (b_dialect b) (b_executor b) (b_ctx b) (b_dest b) (b_res b) (b_scope b)
    (b_softDeleteCondition b) (b_scopeSkipped b) (b_scopeApplied b) (b_unsafeAllowEmptyWhere b)
    (b_lockForUpdate b) (b_historyTrackingDisabled b).
Definition set_args (x : list value) (b : Builder) : Builder :=
  mkBuilder (b_table b) (b_selects b) (b_joins b) (b_wheres b) (b_groupBys b) (b_havings b)
    (b_orderBys b) (b_limit b) (b_offset b) x (b_action b) (b_inserts b) (b_updates b)
    (b_insertBatchCols b) (b_insertBatchPlaceholders b) (b_insertBatchArgs b) (b_nullableCols b)
    (b_onDuplicateUpdateCols b) (b_primaryKeys b) (b_autoIncCol b) (b_rawQuery b) (b_rawArgs b)
    (b_namedArgs b) (b_dialect b) (b_executor b) (b_ctx b) (b_dest b) (b_res b) (b_scope b)
    (b_softDeleteCondition b) (b_scopeSkipped b) (b_scopeApplied b) (b_unsafeAllowEmptyWhere b)
    (b_lockForUpdate b) (b_historyTrackingDisabled b).
Definition set_action (x : string) (b : Builder) : Builder :=
  mkBuilder (b_table b) (b_selects b) (b_joins b) (b_wheres b) (b_groupBys b) (b_havings b)
    (b_orderBys b) (b_limit b) (b_offset b) (b_args b) x (b_inserts b) (b_updates b)
    (b_insertBatchCols b) (b_insertBatchPlaceholders b) (b_insertBatchArgs b) (b_nullableCols b)
    (b_onDuplicateUpdateCols b) (b_primaryKeys b) (b_autoIncCol b) (b_rawQuery b) (b_rawArgs b)
    (b_namedArgs b) (b_dialect b) (b_executor b) (b_ctx b) (b_dest b) (b_res b) (b_scope b)
    (b_softDeleteCondition b) (b_scopeSkipped b) (b_scopeApplied b) (b_unsafeAllowEmptyWhere b)
    (b_lockForUpdate b) (b_historyTrackingDisabled b).
Definition set_inserts (x : gmap string value) (b : Builder) : Builder :=
  mkBuilder (b_table b) (b_selects b) (b_joins b) (b_wheres b) (b_groupBys b) (b_havings b)
    (b_orderBys b) (b_limit b) (b_offset b) (b_args b) (b_action b) x (b_updates b)
    (b_insertBatchCols b) (b_insertBatchPlaceholders b) (b_insertBatchArgs b) (b_nullableCols b)
    (b_onDuplicateUpdateCols b) (b_primaryKeys b) (b_autoIncCol b) (b_rawQuery b) (b_rawArgs b)
    (b_namedArgs b) (b_dialect b) (b_executor b) (b_ctx b) (b_dest b) (b_res b) (b_scope b)
    (b_softDeleteCondition b) (b_scopeSkipped b) (b_scopeApplied b) (b_unsafeAllowEmptyWhere b)
    (b_lockForUpdate b) (b_historyTrackingDisabled b).
Definition set_updates (x : gmap string value) (b : Builder) : Builder :=
  mkBuilder (b_table b) (b_selects b) (b_joins b) (b_wheres b) (b_groupBys b) (b_havings b)
    (b_orderBys b) (b_limit b) (b_offset b) (b_args b) (b_action b) (b_inserts b) x
    (b_insertBatchCols b) (b_insertBatchPlaceholders b) (b_insertBatchArgs b) (b_nullableCols b)
    (b_onDuplicateUpdateCols b) (b_primaryKeys b) (b_autoIncCol b) (b_rawQuery b) (b_rawArgs b)
    (b_namedArgs b) (b_dialect b) (b_executor b) (b_ctx b) (b_dest b) (b_res b) (b_scope b)
    (b_softDeleteCondition b) (b_scopeSkipped b) (b_scopeApplied b) (b_unsafeAllowEmptyWhere b)
    (b_lockForUpdate b) (b_historyTrackingDisabled b).
Definition set_insertBatchCols (x : list string) (b : Builder) : Builder :=
  mkBuilder (b_table b) (b_selects b) (b_joins b) (b_wheres b) (b_groupBys b) (b_havings b)
    (b_orderBys b) (b_limit b) (b_offset b) (b_args b) (b_action b) (b_inserts b) (b_updates b)
    x (b_insertBatchPlaceholders b) (b_insertBatchArgs b) (b_nullableCols b)
    (b_onDuplicateUpdateCols b) (b_primaryKeys b) (b_autoIncCol b) (b_rawQuery b) (b_rawArgs b)
    (b_namedArgs b) (b_dialect b) (b_executor b) (b_ctx b) (b_dest b) (b_res b) (b_scope b)
    (b_softDeleteCondition b) (b_scopeSkipped b) (b_scopeApplied b) (b_unsafeAllowEmptyWhere b)
    (b_lockForUpdate b) (b_historyTrackingDisabled b).
Definition set_insertBatchPlaceholders (x : list string) (b : Builder) : Builder :=
  mkBuilder (b_table b) (b_selects b) (b_joins b) (b_wheres b) (b_groupBys b) (b_havings b)
    (b_orderBys b) (b_limit b) (b_offset b) (b_args b) (b_action b) (b_inserts b) (b_updates b)
    (b_insertBatchCols b) x (b_insertBatchArgs b) (b_nullableCols b) (b_onDuplicateUpdateCols b)
    (b_primaryKeys b) (b_autoIncCol b) (b_rawQuery b) (b_rawArgs b) (b_namedArgs b) (b_dialect
    b) (b_executor b) (b_ctx b) (b_dest b) (b_res b) (b_scope b) (b_softDeleteCondition b)
    (b_scopeSkipped b) (b_scopeApplied b) (b_unsafeAllowEmptyWhere b) (b_lockForUpdate b)
    (b_historyTrackingDisabled b).
Definition set_insertBatchArgs (x : list value) (b : Builder) : Builder :=
  mkBuilder (b_table b) (b_selects b) (b_joins b) (b_wheres b) (b_groupBys b) (b_havings b)
    (b_orderBys b) (b_limit b) (b_offset b) (b_args b) (b_action b) (b_inserts b) (b_updates b)
    (b_insertBatchCols b) (b_insertBatchPlaceholders b) x (b_nullableCols b)
    (b_onDuplicateUpdateCols b) (b_primaryKeys b) (b_autoIncCol b) (b_rawQuery b) (b_rawArgs b)
    (b_namedArgs b) (b_dialect b) (b_executor b) (b_ctx b) (b_dest b) (b_res b) (b_scope b)
    (b_softDeleteCondition b) (b_scopeSkipped b) (b_scopeApplied b) (b_unsafeAllowEmptyWhere b)
    (b_lockForUpdate b) (b_historyTrackingDisabled b).
Definition set_nullableCols (x : gset string) (b : Builder) : Builder :=
  mkBuilder (b_table b) (b_selects b) (b_joins b) (b_wheres b) (b_groupBys b) (b_havings b)
    (b_orderBys b) (b_limit b) (b_offset b) (b_args b) (b_action b) (b_inserts b) (b_updates b)
    (b_insertBatchCols b) (b_insertBatchPlaceholders b) (b_insertBatchArgs b) x
    (b_onDuplicateUpdateCols b) (b_primaryKeys b) (b_autoIncCol b) (b_rawQuery b) (b_rawArgs b)
    (b_namedArgs b) (b_dialect b) (b_executor b) (b_ctx b) (b_dest b) (b_res b) (b_scope b)
    (b_softDeleteCondition b) (b_scopeSkipped b) (b_scopeApplied b) (b_unsafeAllowEmptyWhere b)
    (b_lockForUpdate b) (b_historyTrackingDisabled b).
Definition set_onDuplicateUpdateCols (x : list string) (b : Builder) : Builder :=
  mkBuilder (b_table b) (b_selects b) (b_joins b) (b_wheres b) (b_groupBys b) (b_havings b)
    (b_orderBys b) (b_limit b) (b_offset b) (b_args b) (b_action b) (b_inserts b) (b_updates b)
    (b_insertBatchCols b) (b_insertBatchPlaceholders b) (b_insertBatchArgs b) (b_nullableCols b)
    x (b_primaryKeys b) (b_autoIncCol b) (b_rawQuery b) (b_rawArgs b) (b_namedArgs b) (b_dialect
    b) (b_executor b) (b_ctx b) (b_dest b) (b_res b) (b_scope b) (b_softDeleteCondition b)
    (b_scopeSkipped b) (b_scopeApplied b) (b_unsafeAllowEmptyWhere b) (b_lockForUpdate b)
    (b_historyTrackingDisabled b).
Definition set_primaryKeys (x : list string) (b : Builder) : Builder :=
  mkBuilder (b_table b) (b_selects b) (b_joins b) (b_wheres b) (b_groupBys b) (b_havings b)
    (b_orderBys b) (b_limit b) (b_offset b) (b_args b) (b_action b) (b_inserts b) (b_updates b)
    (b_insertBatchCols b) (b_insertBatchPlaceholders b) (b_insertBatchArgs b) (b_nullableCols b)
    (b_onDuplicateUpdateCols b) x (b_autoIncCol b) (b_rawQuery b) (b_rawArgs b) (b_namedArgs b)
    (b_dialect b) (b_executor b) (b_ctx b) (b_dest b) (b_res b) (b_scope b)
    (b_softDeleteCondition b) (b_scopeSkipped b) (b_scopeApplied b) (b_unsafeAllowEmptyWhere b)
    (b_lockForUpdate b) (b_historyTrackingDisabled b).
Definition set_autoIncCol (x : string) (b : Builder) : Builder :=
  mkBuilder (b_table b) (b_selects b) (b_joins b) (b_wheres b) (b_groupBys b) (b_havings b)
    (b_orderBys b) (b_limit b) (b_offset b) (b_args b) (b_action b) (b_inserts b) (b_updates b)
    (b_insertBatchCols b) (b_insertBatchPlaceholders b) (b_insertBatchArgs b) (b_nullableCols b)
    (b_onDuplicateUpdateCols b) (b_primaryKeys b) x (b_rawQuery b) (b_rawArgs b) (b_namedArgs b)
    (b_dialect b) (b_executor b) (b_ctx b) (b_dest b) (b_res b) (b_scope b)
    (b_softDeleteCondition b) (b_scopeSkipped b) (b_scopeApplied b) (b_unsafeAllowEmptyWhere b)
    (b_lockForUpdate b) (b_historyTrackingDisabled b).
Definition set_rawQuery (x : string) (b : Builder) : Builder :=
  mkBuilder (b_table b) (b_selects b) (b_joins b) (b_wheres b) (b_groupBys b) (b_havings b)
    (b_orderBys b) (b_limit b) (b_offset b) (b_args b) (b_action b) (b_inserts b) (b_updates b)
    (b_insertBatchCols b) (b_insertBatchPlaceholders b) (b_insertBatchArgs b) (b_nullableCols b)
    (b_onDuplicateUpdateCols b) (b_primaryKeys b) (b_autoIncCol b) x (b_rawArgs b) (b_namedArgs
    b) (b_dialect b) (b_executor b) (b_ctx b) (b_dest b) (b_res b) (b_scope b)
    (b_softDeleteCondition b) (b_scopeSkipped b) (b_scopeApplied b) (b_unsafeAllowEmptyWhere b)
    (b_lockForUpdate b) (b_historyTrackingDisabled b).
Definition set_rawArgs (x : list value) (b : Builder) : Builder :=
  mkBuilder (b_table b) (b_selects b) (b_joins b) (b_wheres b) (b_groupBys b) (b_havings b)
    (b_orderBys b) (b_limit b) (b_offset b) (b_args b) (b_action b) (b_inserts b) (b_updates b)
    (b_insertBatchCols b) (b_insertBatchPlaceholders b) (b_insertBatchArgs b) (b_nullableCols b)
    (b_onDuplicateUpdateCols b) (b_primaryKeys b) (b_autoIncCol b) (b_rawQuery b) x (b_namedArgs
    b) (b_dialect b) (b_executor b) (b_ctx b) (b_dest b) (b_res b) (b_scope b)
    (b_softDeleteCondition b) (b_scopeSkipped b) (b_scopeApplied b) (b_unsafeAllowEmptyWhere b)
    (b_lockForUpdate b) (b_historyTrackingDisabled b).
Definition set_namedArgs (x : option (gmap string value)) (b : Builder) : Builder :=
  mkBuilder (b_table b) (b_selects b) (b_joins b) (b_wheres b) (b_groupBys b) (b_havings b)
    (b_orderBys b) (b_limit b) (b_offset b) (b_args b) (b_action b) (b_inserts b) (b_updates b)
    (b_insertBatchCols b) (b_insertBatchPlaceholders b) (b_insertBatchArgs b) (b_nullableCols b)
    (b_onDuplicateUpdateCols b) (b_primaryKeys b) (b_autoIncCol b) (b_rawQuery b) (b_rawArgs b)
    x (b_dialect b) (b_executor b) (b_ctx b) (b_dest b) (b_res b) (b_scope b)
    (b_softDeleteCondition b) (b_scopeSkipped b) (b_scopeApplied b) (b_unsafeAllowEmptyWhere b)
    (b_lockForUpdate b) (b_historyTrackingDisabled b).
Definition set_dialect (x : Dialect) (b : Builder) : Builder :=
  mkBuilder (b_table b) (b_selects b) (b_joins b) (b_wheres b) (b_groupBys b) (b_havings b)
    (b_orderBys b) (b_limit b) (b_offset b) (b_args b) (b_action b) (b_inserts b) (b_updates b)
    (b_insertBatchCols b) (b_insertBatchPlaceholders b) (b_insertBatchArgs b) (b_nullableCols b)
    (b_onDuplicateUpdateCols b) (b_primaryKeys b) (b_autoIncCol b) (b_rawQuery b) (b_rawArgs b)
    (b_namedArgs b) x (b_executor b) (b_ctx b) (b_dest b) (b_res b) (b_scope b)
    (b_softDeleteCondition b) (b_scopeSkipped b) (b_scopeApplied b) (b_unsafeAllowEmptyWhere b)
    (b_lockForUpdate b) (b_historyTrackingDisabled b).
Definition set_executor (x : Executor) (b : Builder) : Builder :=
  mkBuilder (b_table b) (b_selects b) (b_joins b) (b_wheres b) (b_groupBys b) (b_havings b)
    (b_orderBys b) (b_limit b) (b_offset b) (b_args b) (b_action b) (b_inserts b) (b_updates b)
    (b_insertBatchCols b) (b_insertBatchPlaceholders b) (b_insertBatchArgs b) (b_nullableCols b)
    (b_onDuplicateUpdateCols b) (b_primaryKeys b) (b_autoIncCol b) (b_rawQuery b) (b_rawArgs b)
    (b_namedArgs b) (b_dialect b) x (b_ctx b) (b_dest b) (b_res b) (b_scope b)
    (b_softDeleteCondition b) (b_scopeSkipped b) (b_scopeApplied b) (b_unsafeAllowEmptyWhere b)
    (b_lockForUpdate b) (b_historyTrackingDisabled b).
Definition set_ctx (x : option context) (b : Builder) : Builder :=
  mkBuilder (b_table b) (b_selects b) (b_joins b) (b_wheres b) (b_groupBys b) (b_havings b)
    (b_orderBys b) (b_limit b) (b_offset b) (b_args b) (b_action b) (b_inserts b) (b_updates b)
    (b_insertBatchCols b) (b_insertBatchPlaceholders b) (b_insertBatchArgs b) (b_nullableCols b)
    (b_onDuplicateUpdateCols b) (b_primaryKeys b) (b_autoIncCol b) (b_rawQuery b) (b_rawArgs b)
    (b_namedArgs b) (b_dialect b) (b_executor b) x (b_dest b) (b_res b) (b_scope b)
    (b_softDeleteCondition b) (b_scopeSkipped b) (b_scopeApplied b) (b_unsafeAllowEmptyWhere b)
    (b_lockForUpdate b) (b_historyTrackingDisabled b).
Definition set_dest (x : value) (b : Builder) : Builder :=
  mkBuilder (b_table b) (b_selects b) (b_joins b) (b_wheres b) (b_groupBys b) (b_havings b)
    (b_orderBys b) (b_limit b) (b_offset b) (b_args b) (b_action b) (b_inserts b) (b_updates b)
    (b_insertBatchCols b) (b_insertBatchPlaceholders b) (b_insertBatchArgs b) (b_nullableCols b)
    (b_onDuplicateUpdateCols b) (b_primaryKeys b) (b_autoIncCol b) (b_rawQuery b) (b_rawArgs b)
    (b_namedArgs b) (b_dialect b) (b_executor b) (b_ctx b) x (b_res b) (b_scope b)
    (b_softDeleteCondition b) (b_scopeSkipped b) (b_scopeApplied b) (b_unsafeAllowEmptyWhere b)
    (b_lockForUpdate b) (b_historyTrackingDisabled b).
Definition set_res (x : option resources) (b : Builder) : Builder :=
  mkBuilder (b_table b) (b_selects b) (b_joins b) (b_wheres b) (b_groupBys b) (b_havings b)
    (b_orderBys b) (b_limit b) (b_offset b) (b_args b) (b_action b) (b_inserts b) (b_updates b)
    (b_insertBatchCols b) (b_insertBatchPlaceholders b) (b_insertBatchArgs b) (b_nullableCols b)
    (b_onDuplicateUpdateCols b) (b_primaryKeys b) (b_autoIncCol b) (b_rawQuery b) (b_rawArgs b)
    (b_namedArgs b) (b_dialect b) (b_executor b) (b_ctx b) (b_dest b) x (b_scope b)
    (b_softDeleteCondition b) (b_scopeSkipped b) (b_scopeApplied b) (b_unsafeAllowEmptyWhere b)
    (b_lockForUpdate b) (b_historyTrackingDisabled b).
Definition set_scope (x : option ScopeFunc) (b : Builder) : Builder :=
  mkBuilder (b_table b) (b_selects b) (b_joins b) (b_wheres b) (b_groupBys b) (b_havings b)
    (b_orderBys b) (b_limit b) (b_offset b) (b_args b) (b_action b) (b_inserts b) (b_updates b)
    (b_insertBatchCols b) (b_insertBatchPlaceholders b) (b_insertBatchArgs b) (b_nullableCols b)
    (b_onDuplicateUpdateCols b) (b_primaryKeys b) (b_autoIncCol b) (b_rawQuery b) (b_rawArgs b)
    (b_namedArgs b) (b_dialect b) (b_executor b) (b_ctx b) (b_dest b) (b_res b) x
    (b_softDeleteCondition b) (b_scopeSkipped b) (b_scopeApplied b) (b_unsafeAllowEmptyWhere b)
    (b_lockForUpdate b) (b_historyTrackingDisabled b).
Definition set_softDeleteCondition (x : string) (b : Builder) : Builder :=
  mkBuilder (b_table b) (b_selects b) (b_joins b) (b_wheres b) (b_groupBys b) (b_havings b)
    (b_orderBys b) (b_limit b) (b_offset b) (b_args b) (b_action b) (b_inserts b) (b_updates b)
    (b_insertBatchCols b) (b_insertBatchPlaceholders b) (b_insertBatchArgs b) (b_nullableCols b)
    (b_onDuplicateUpdateCols b) (b_primaryKeys b) (b_autoIncCol b) (b_rawQuery b) (b_rawArgs b)
    (b_namedArgs b) (b_dialect b) (b_executor b) (b_ctx b) (b_dest b) (b_res b) (b_scope b) x
    (b_scopeSkipped b) (b_scopeApplied b) (b_unsafeAllowEmptyWhere b) (b_lockForUpdate b)
    (b_historyTrackingDisabled b).
Definition set_scopeSkipped (x : bool) (b : Builder) : Builder :=
  mkBuilder (b_table b) (b_selects b) (b_joins b) (b_wheres b) (b_groupBys b) (b_havings b)
    (b_orderBys b) (b_limit b) (b_offset b) (b_args b) (b_action b) (b_inserts b) (b_updates b)
    (b_insertBatchCols b) (b_insertBatchPlaceholders b) (b_insertBatchArgs b) (b_nullableCols b)
    (b_onDuplicateUpdateCols b) (b_primaryKeys b) (b_autoIncCol b) (b_rawQuery b) (b_rawArgs b)
    (b_namedArgs b) (b_dialect b) (b_executor b) (b_ctx b) (b_dest b) (b_res b) (b_scope b)
    (b_softDeleteCondition b) x (b_scopeApplied b) (b_unsafeAllowEmptyWhere b) (b_lockForUpdate
    b) (b_historyTrackingDisabled b).
Definition set_scopeApplied (x : bool) (b : Builder) : Builder :=
  mkBuilder (b_table b) (b_selects b) (b_joins b) (b_wheres b) (b_groupBys b) (b_havings b)
    (b_orderBys b) (b_limit b) (b_offset b) (b_args b) (b_action b) (b_inserts b) (b_updates b)
    (b_insertBatchCols b) (b_insertBatchPlaceholders b) (b_insertBatchArgs b) (b_nullableCols b)
    (b_onDuplicateUpdateCols b) (b_primaryKeys b) (b_autoIncCol b) (b_rawQuery b) (b_rawArgs b)
    (b_namedArgs b) (b_dialect b) (b_executor b) (b_ctx b) (b_dest b) (b_res b) (b_scope b)
    (b_softDeleteCondition b) (b_scopeSkipped b) x (b_unsafeAllowEmptyWhere b) (b_lockForUpdate
    b) (b_historyTrackingDisabled b).
Definition set_unsafeAllowEmptyWhere (x : bool) (b : Builder) : Builder :=
  mkBuilder (b_table b) (b_selects b) (b_joins b) (b_wheres b) (b_groupBys b) (b_havings b)
    (b_orderBys b) (b_limit b) (b_offset b) (b_args b) (b_action b) (b_inserts b) (b_updates b)
    (b_insertBatchCols b) (b_insertBatchPlaceholders b) (b_insertBatchArgs b) (b_nullableCols b)
    (b_onDuplicateUpdateCols b) (b_primaryKeys b) (b_autoIncCol b) (b_rawQuery b) (b_rawArgs b)
    (b_namedArgs b) (b_dialect b) (b_executor b) (b_ctx b) (b_dest b) (b_res b) (b_scope b)
    (b_softDeleteCondition b) (b_scopeSkipped b) (b_scopeApplied b) x (b_lockForUpdate b)
    (b_historyTrackingDisabled b).
Definition set_lockForUpdate (x : bool) (b : Builder) : Builder :=
  mkBuilder (b_table b) (b_selects b) (b_joins b) (b_wheres b) (b_groupBys b) (b_havings b)
    (b_orderBys b) (b_limit b) (b_offset b) (b_args b) (b_action b) (b_inserts b) (b_updates b)
    (b_insertBatchCols b) (b_insertBatchPlaceholders b) (b_insertBatchArgs b) (b_nullableCols b)
    (b_onDuplicateUpdateCols b) (b_primaryKeys b) (b_autoIncCol b) (b_rawQuery b) (b_rawArgs b)
    (b_namedArgs b) (b_dialect b) (b_executor b) (b_ctx b) (b_dest b) (b_res b) (b_scope b)
    (b_softDeleteCondition b) (b_scopeSkipped b) (b_scopeApplied b) (b_unsafeAllowEmptyWhere b)
    x (b_historyTrackingDisabled b).
Definition set_historyTrackingDisabled (x : bool) (b : Builder) : Builder :=
  mkBuilder (b_table b) (b_selects b) (b_joins b) (b_wheres b) (b_groupBys b) (b_havings b)
    (b_orderBys b) (b_limit b) (b_offset b) (b_args b) (b_action b) (b_inserts b) (b_updates b)
    (b_insertBatchCols b) (b_insertBatchPlaceholders b) (b_insertBatchArgs b) (b_nullableCols b)
    (b_onDuplicateUpdateCols b) (b_primaryKeys b) (b_autoIncCol b) (b_rawQuery b) (b_rawArgs b)
    (b_namedArgs b) (b_dialect b) (b_executor b) (b_ctx b) (b_dest b) (b_res b) (b_scope b)
    (b_softDeleteCondition b) (b_scopeSkipped b) (b_scopeApplied b) (b_unsafeAllowEmptyWhere b)
    (b_lockForUpdate b) x.

(** [sort.Strings]. *)
Definition sort_strings (l : list string) : list string := merge_sort String.le l.

Section Ops.
Context `{Unicode}.

Definition Bind (dst : value) (b : Builder) : Builder := set_dest dst b.
Definition SetResources (r : option resources) (b : Builder) : Builder := set_res r b.
Definition WithContext (c : option context) (b : Builder) : Builder := set_ctx c b.
Definition Use (tx : Executor) (b : Builder) : Builder := set_executor tx b.
Definition NoScope (b : Builder) : Builder := set_scopeSkipped true b.
Definition Unsafe (b : Builder) : Builder := set_unsafeAllowEmptyWhere true b.
Definition NoHistory (b : Builder) : Builder := set_historyTrackingDisabled true b.
Definition LockForUpdate (b : Builder) : Builder := set_lockForUpdate true b.

Definition Cols (cols : list string) (b : Builder) : Builder :=
  foldl (λ b c, set_selects (b_selects b ++ [mkSelect c []]) b) b cols.

Definition Nullable (cols : list string) (b : Builder) : Builder :=
  set_nullableCols (foldl (λ s c, {[c]} ∪ s) (b_nullableCols b) cols) b.

Definition OnConflictUpdate (cols : list string) (b : Builder) : Builder :=
  set_onDuplicateUpdateCols cols b.

Definition Where (expr : string) (args : list value) (b : Builder) : Builder :=
  set_wheres (b_wheres b ++ [mkWhere "AND" expr args]) b.

Definition OrWhere (expr : string) (args : list value) (b : Builder) : Builder :=
  set_wheres (b_wheres b ++ [mkWhere "OR" expr args]) b.

Definition WhereEq (col : string) (val : value) (b : Builder) : Builder :=
  let safeCol := SanitizeIdentifier col in
  if bool_decide (safeCol = "") then b else Where (safeCol +:+ " = ?") [val] b.

Definition WhereNotEq (col : string) (val : value) (b : Builder) : Builder :=
  let safeCol := SanitizeIdentifier col in
  if bool_decide (safeCol = "") then b else Where (safeCol +:+ " != ?") [val] b.

Definition WhereGt (col : string) (val : value) (b : Builder) : Builder :=
  let safeCol := SanitizeIdentifier col in
  if bool_decide (safeCol = "") then b else Where (safeCol +:+ " > ?") [val] b.

Definition WhereGte (col : string) (val : value) (b : Builder) : Builder :=
  let safeCol := SanitizeIdentifier col in
  if bool_decide (safeCol = "") then b else Where (safeCol +:+ " >= ?") [val] b.

Definition WhereLt (col : string) (val : value) (b : Builder) : Builder :=
  let safeCol := SanitizeIdentifier col in
  if bool_decide (safeCol = "") then b else Where (safeCol +:+ " < ?") [val] b.

Definition WhereLte (col : string) (val : value) (b : Builder) : Builder :=
  let safeCol := SanitizeIdentifier col in
  if bool_decide (safeCol = "") then b else Where (safeCol +:+ " <= ?") [val] b.

Definition WhereLike (col pattern : string) (b : Builder) : Builder :=
  let safeCol := SanitizeIdentifier col in
  if bool_decide (safeCol = "") then b else Where (safeCol +:+ " LIKE ?") [VString pattern] b.

Definition WhereIn (col : string) (vals : list value) (b : Builder) : Builder :=
  let safeCol := SanitizeIdentifier col in
  if bool_decide (safeCol = "") then b
  else if bool_decide (length vals = 0) then Where "1 = 0" [] b
  else
    let placeholders := replicate (length vals) "?" in
    Where (safeCol +:+ " IN (" +:+ Strings.Join ", " placeholders +:+ ")") vals b.

Definition WhereNotIn (col : string) (vals : list value) (b : Builder) : Builder :=
  let safeCol := SanitizeIdentifier col in
  if bool_decide (safeCol = "") then b
  else if bool_decide (length vals = 0) then b
  else
    let placeholders := replicate (length vals) "?" in
    Where (safeCol +:+ " NOT IN (" +:+ Strings.Join ", " placeholders +:+ ")") vals b.

Definition WhereNull (col : string) (b : Builder) : Builder :=
  let safeCol := SanitizeIdentifier col in
  if bool_decide (safeCol = "") then b else Where (safeCol +:+ " IS NULL") [] b.

Definition Join (table on typ : string) (b : Builder) : Builder :=
  let safeTable := SanitizeIdentifier table in
  if bool_decide (safeTable = "") then b
  else set_joins (b_joins b ++ [mkJoin typ safeTable (SanitizeOnClause on)]) b.

Definition LeftJoin (table on : string) (b : Builder) : Builder := Join table on "LEFT" b.
Definition RightJoin (table on : string) (b : Builder) : Builder := Join table on "RIGHT" b.
Definition InnerJoin (table on : string) (b : Builder) : Builder := Join table on "INNER" b.

Definition GroupBy (cols : list string) (b : Builder) : Builder :=
  let cols := SanitizeIdentifier <$> cols in
  set_groupBys (b_groupBys b ++ filter (λ c, c ≠ "") cols) b.

Definition Having (expr : string) (args : list value) (b : Builder) : Builder :=
  set_havings (b_havings b ++ [mkWhere "AND" expr args]) b.

Definition OrderBy (expr : string) (b : Builder) : Builder :=
  let safeExpr := SanitizeOrderBy expr in
  if bool_decide (safeExpr ≠ "") then set_orderBys (b_orderBys b ++ [safeExpr]) b else b.

Definition Limit (n : Z) (b : Builder) : Builder := set_limit (Some n) b.
Definition Offset (n : Z) (b : Builder) : Builder := set_offset (Some n) b.

(** helpers.go *)
Definition SetSoftDeleteCondition (cond : string) (b : Builder) : Builder :=
  set_softDeleteCondition cond b.
Definition ClearSoftDeleteCondition (b : Builder) : Builder := set_softDeleteCondition "" b.

Definition copy_where (w : whereClause) : whereClause :=
  mkWhere (w_boolean w) (w_expr w) (match w_args w with [] => [] | l => l end).
Definition copy_select (s : selectClause) : selectClause :=
  mkSelect (s_expr s) (match s_args s with [] => [] | l => l end).

(** The copy of every slice and map. *)
Definition clone (b : Builder) : Builder :=
  let b := set_selects (copy_select <$> b_selects b) b in
  let b := set_wheres (copy_where <$> b_wheres b) b in
  set_havings (copy_where <$> b_havings b) b.

(** The columns handed to the scope function; [None] is the early return on a
    nil destination. *)
Definition scope_fields (b : Builder) : option (list string) :=
  match b_selects b with
  | _ :: _ => Some (s_expr <$> b_selects b)
  | [] =>
      match b_dest b with
      | VNil => Some []
      | d =>
          match deref d with
          | DNil => None
          | DVal v =>
              match as_struct v with
              | Some (n, tn, fs, _) => Some (name <$> fields (getStructInfo n tn fs))
              | None => Some []
              end
          end
      end
  end.

(** One round of the loop that writes [col = ?] for each condition. *)
Definition scope_step (conds : gmap string value) (acc : string * list value * bool) (k : string)
  : string * list value * bool :=
  let '(groupExpr, groupArgs, first) := acc in
  let safeCol := SanitizeIdentifier k in
  if bool_decide (safeCol = "") then acc
  else ((if negb first then groupExpr +:+ " AND " else groupExpr) +:+ safeCol +:+ " = ?",
        groupArgs ++ [default VNil (conds !! k)], false).

(** The existing clauses written out, each after its connective. *)
Fixpoint write_clauses (first : bool) (ws : list whereClause) : string :=
  match ws with
  | [] => ""
  | w :: ws' =>
      (if first then "" else " " +:+ w_boolean w +:+ " ") +:+ w_expr w +:+ write_clauses false ws'
  end.

Definition applyScope (b : Builder) : Builder :=
  if b_scopeApplied b then b
  else
    let b := set_scopeApplied true b in
    match b_scope b, b_res b, b_scopeSkipped b with
    | Some scope, Some r, false =>
        match scope_fields b with
        | None => b
        | Some fields =>
            let conds := scope fields (res_value r) in
            if bool_decide (size conds = 0) then b
            else
              let keys := sort_strings (map_to_list conds).*1 in
              let '(groupExpr, groupArgs, _) := foldl (scope_step conds) ("", [], true) keys in
              if bool_decide (groupExpr = "") then b
              else
                let group := mkWhere "AND" ("(" +:+ groupExpr +:+ ")") groupArgs in
                match b_wheres b with
                | _ :: _ =>
                    set_wheres
                      [mkWhere "AND" ("(" +:+ write_clauses true (b_wheres b) +:+ ")")
                         (b_wheres b ≫= w_args); group] b
                | [] => set_wheres (b_wheres b ++ [group]) b
                end
        end
    | _, _, _ => b
    end.

(** history_ops.go *)
Definition resolveOperand (args : list value) (b : Builder) : value :=
  match args with d :: _ => d | [] => b_dest b end.

Definition actor (b : Builder) : outcome (value * string) :=
  match b_res b with
  | Some r => match res_actor r with Some a => a | None => Ret (VNil, "") end
  | None => Ret (VNil, "")
  end.

Definition selectedColNames (b : Builder) : list string := s_expr <$> b_selects b.

(** builder_write.go *)
Definition checkWhereRequired (b : Builder) : option error :=
  match b_wheres b with
  | _ :: _ => None
  | [] => if b_unsafeAllowEmptyWhere b then None
          else Some (ESentinel "kiya: update/delete requires a WHERE clause (safety check)")
  end.

Definition resultAffected (res : option Result) : Z :=
  match res with None => 0%Z | Some r => (RowsAffected r).1 end.
End Ops.

Definition structPtr (d : value) : bool :=
  match d with
  | VPtr _ (Some (VStruct _ _ _ _)) | VPtr _ (Some (VTime _)) => true
  | _ => false
  end.

Lemma clone_id b : clone b = b.
Proof.
  assert (∀ ws : list whereClause, copy_where <$> ws = ws) as Hw.
  { induction ws as [|[? ? []] ws IH]; [done|..]; by rewrite fmap_cons, IH. }
  assert (∀ ss : list selectClause, copy_select <$> ss = ss) as Hs.
  { induction ss as [|[? []] ss IH]; [done|..]; by rewrite fmap_cons, IH. }
  unfold clone. rewrite Hs, Hw, Hw. by destruct b.
Qed.
