(* ===== verification/DbSql.v ===== *)
(** * SQL generation ([internal/db/builder_sql.go], [Build] of [builder_read.go])

    [strings.Builder] and the argument list [b.args] are a pair that the building
    functions extend. *)

From S2P Require Import Prelude GoStrings GoValue Util DbSanitize DbModel DbPrepared DbExec DbBuilder.
From Stdlib Require Import Ascii.
Import Strings.

Definition sqlw : Type := string * list value.
Definition WriteString (s : string) (w : sqlw) : sqlw := (w.1 +:+ s, w.2).
Definition addArgs (l : list value) (w : sqlw) : sqlw := (w.1, w.2 ++ l).

Declare Scope sqlw_scope.
(** Statements in the order of the code. *)
Notation "w |> f" := (f w) (at level 50, left associativity, only parsing) : sqlw_scope.
Open Scope sqlw_scope.

(** The loop over clauses, each after its connective. *)
Fixpoint writeClauses (first : bool) (ws : list whereClause) (w : sqlw) : sqlw :=
  match ws with
  | [] => w
  | c :: ws' =>
      let w := if first then w
               else WriteString " " (WriteString (w_boolean c) (WriteString " " w)) in
      writeClauses false ws' (addArgs (w_args c) (WriteString (w_expr c) w))
  end.

Definition writeAnds (ws : list whereClause) (w : sqlw) : sqlw :=
  foldl (λ w c, addArgs (w_args c) (WriteString (w_expr c) (WriteString " AND " w))) w ws.

Definition buildWheres (b : Builder) (w : sqlw) : sqlw :=
  if bool_decide (length (b_wheres b) = 0) && bool_decide (b_softDeleteCondition b = "") then w
  else
    let w := WriteString " WHERE " w in
    if bool_decide (b_softDeleteCondition b ≠ "") then
      let w := WriteString (b_softDeleteCondition b) w in
      if bool_decide (length (b_wheres b) = 0) then w
      else
        let hasOR := existsb (λ c, bool_decide (w_boolean c = "OR")) (b_wheres b) in
        if hasOR then
          w |> WriteString " AND (" |> writeClauses true (b_wheres b) |> WriteString ")"
        else writeAnds (b_wheres b) w
    else writeClauses true (b_wheres b) w.

Fixpoint writeSelects (first : bool) (ss : list selectClause) (w : sqlw) : sqlw :=
  match ss with
  | [] => w
  | s :: ss' =>
      let w := if first then w else WriteString ", " w in
      writeSelects false ss' (addArgs (s_args s) (WriteString (s_expr s) w))
  end.

Definition writeJoin (w : sqlw) (j : joinClause) : sqlw :=
  WriteString (" " +:+ j_typ j +:+ " JOIN " +:+ j_table j +:+ " ON " +:+ j_on j) w.

Definition buildSelect (b : Builder) (w : sqlw) : sqlw :=
  let w := WriteString "SELECT " w in
  let w := match b_selects b with
           | _ :: _ => writeSelects true (b_selects b) w
           | [] => WriteString "*" w
           end in
  let w := if bool_decide (b_table b = "") then WriteString " FROM undefined_table " w
           else w |> WriteString " FROM " |> WriteString (b_table b) in
  let w := foldl writeJoin w (b_joins b) in
  let w := buildWheres b w in
  let w := match b_groupBys b with
           | _ :: _ => w |> WriteString " GROUP BY " |> WriteString (Strings.Join ", " (b_groupBys b))
           | [] => w
           end in
  let w := match b_havings b with
           | _ :: _ => w |> WriteString " HAVING " |> writeClauses true (b_havings b)
           | [] => w
           end in
  let w := match b_orderBys b with
           | _ :: _ => w |> WriteString " ORDER BY " |> WriteString (Strings.Join ", " (b_orderBys b))
           | [] => w
           end in
  let w := match b_limit b with
           | Some n => w |> WriteString " LIMIT ?" |> addArgs [VInt KInt n]
           | None => w
           end in
  let w := match b_offset b with
           | Some n => w |> WriteString " OFFSET ?" |> addArgs [VInt KInt n]
           | None => w
           end in
  if b_lockForUpdate b then WriteString " FOR UPDATE" w else w.

(** The columns of a map that pass the identifier check, sorted. *)
Definition valid_keys (m : gmap string value) : list string :=
  sort_strings (filter (λ k, SanitizeIdentifier k ≠ "") (map_to_list m).*1).

(** The assignments of an upsert, one per valid column. *)
Definition conflict_updates (fmt : string → string) (cols : list string) : list string :=
  fmt <$> filter (λ c, c ≠ "") (SanitizeIdentifier <$> cols).

Definition writeConflict (b : Builder) (w : sqlw) : sqlw :=
  match b_onDuplicateUpdateCols b with
  | [] => w
  | cols =>
      match b_dialect b with
      | MySQLDialect =>
          match conflict_updates (λ c, c +:+ " = VALUES(" +:+ c +:+ ")") cols with
          | [] => w
          | updates => w |> WriteString " ON DUPLICATE KEY UPDATE "
                         |> WriteString (Strings.Join ", " updates)
          end
      | PostgresDialect =>
          match conflict_updates (λ c, c +:+ " = EXCLUDED." +:+ c) cols with
          | [] => w
          | updates =>
              let conflictCols := match b_primaryKeys b with
                                  | [] => "id"
                                  | pks => Strings.Join ", " pks
                                  end in
              w |> WriteString (" ON CONFLICT (" +:+ conflictCols +:+ ") DO UPDATE SET ")
                |> WriteString (Strings.Join ", " updates)
          end
      end
  end.

Definition buildInsert (b : Builder) (w : sqlw) : sqlw :=
  let keys := valid_keys (b_inserts b) in
  let cols := SanitizeIdentifier <$> keys in
  let placeholders := (λ _, "?") <$> keys in
  let w := addArgs ((λ k, default VNil (b_inserts b !! k)) <$> keys) w in
  match cols with
  | [] => w
  | _ =>
      let w := WriteString ("INSERT INTO " +:+ b_table b +:+ " (" +:+ Strings.Join ", " cols
                 +:+ ") VALUES (" +:+ Strings.Join ", " placeholders +:+ ")") w in
      let w := writeConflict b w in
      if bool_decide (b_autoIncCol b ≠ "") && bool_decide (Dialect_Name (b_dialect b) = "postgres")
      then WriteString (" RETURNING " +:+ SanitizeIdentifier (b_autoIncCol b)) w
      else w
  end.

Definition buildInsertBatch (b : Builder) (w : sqlw) : sqlw :=
  match b_insertBatchCols b, b_insertBatchPlaceholders b with
  | [], _ | _, [] => w
  | cols, phs =>
      let w := WriteString ("INSERT INTO " +:+ b_table b +:+ " (" +:+ Strings.Join ", " cols
                 +:+ ") VALUES " +:+ Strings.Join ", " phs) w in
      writeConflict b (addArgs (b_insertBatchArgs b) w)
  end.

Definition buildUpdate (b : Builder) (w : sqlw) : sqlw :=
  let keys := valid_keys (b_updates b) in
  let sets := (λ k, SanitizeIdentifier k +:+ " = ?") <$> keys in
  let w := addArgs ((λ k, default VNil (b_updates b !! k)) <$> keys) w in
  match sets with
  | [] => w
  | _ =>
      let w := WriteString ("UPDATE " +:+ b_table b +:+ " SET " +:+ Strings.Join ", " sets) w in
      buildWheres b w
  end.

Definition buildDelete (b : Builder) (w : sqlw) : sqlw :=
  w |> WriteString "DELETE FROM " |> WriteString (b_table b) |> buildWheres b.

Definition build_action (b : Builder) : string * list value :=
  let w : sqlw := ("", []) in
  if bool_decide (b_action b = "insert") then buildInsert b w
  else if bool_decide (b_action b = "insert_batch") then buildInsertBatch b w
  else if bool_decide (b_action b = "update") then buildUpdate b w
  else if bool_decide (b_action b = "delete") then buildDelete b w
  else buildSelect b w.

Section Build.
Context `{Driver}.

Definition buildRaw (b : Builder) : string * list value :=
  match b_namedArgs b, bool_decide (b_rawQuery b ≠ "") with
  | Some named, true =>
      match sqlx_Named (b_rawQuery b) named with
      | inl _ => (b_rawQuery b, [])
      | inr qa => qa
      end
  | None, true => (b_rawQuery b, b_rawArgs b)
  | _, false => build_action b
  end.

Definition Build (b : Builder) : string * list value :=
  let '(raw, args) := buildRaw b in (ConvertPlaceholders (b_dialect b) raw, args).

Definition ToSQL (b : Builder) : string := (Build b).1.
End Build.

(** ** Placeholders and arguments agree *)

Definition qmarks (s : string) : Z := Z.of_nat (count_char qmark s).

(** Placeholders written less arguments collected. *)
Definition excess (w : sqlw) : Z := (qmarks w.1 - Z.of_nat (length w.2))%Z.

Definition clause_ok (expr : string) (args : list value) : Prop := count_char qmark expr = length args.

Lemma qmarks_app s t : qmarks (s +:+ t) = (qmarks s + qmarks t)%Z.
Proof. unfold qmarks. rewrite count_char_app. lia. Qed.

Lemma excess_write s w : excess (WriteString s w) = (excess w + qmarks s)%Z.
Proof. unfold excess, WriteString. simpl. rewrite qmarks_app. lia. Qed.

Lemma excess_args l w : excess (addArgs l w) = (excess w - Z.of_nat (length l))%Z.
Proof. unfold excess, addArgs. simpl. rewrite length_app. lia. Qed.

Lemma qmarks_inert s : str_all inert_byte s = true → qmarks s = 0%Z.
Proof. intros Hs. unfold qmarks. by rewrite (count_char_zero qmark inert_byte). Qed.

Lemma qmarks_ident s : str_all ident_byte s = true → qmarks s = 0%Z.
Proof. intros Hs. apply qmarks_inert. revert Hs. apply str_all_impl, ident_byte_inert. Qed.

Lemma qmarks_sanitized s : qmarks (SanitizeIdentifier s) = 0%Z.
Proof. apply qmarks_ident, SanitizeIdentifier_bytes. Qed.

Lemma qmarks_Join sep l :
  qmarks sep = 0%Z → qmarks (Strings.Join sep l) = foldr (λ s n, qmarks s + n)%Z 0%Z l.
Proof.
  intros Hsep. induction l as [|x [|y l] IH]; [done|simpl; unfold qmarks; lia|].
  change (Strings.Join sep (x :: y :: l)) with (x +:+ sep +:+ Strings.Join sep (y :: l)).
  rewrite !qmarks_app, IH, Hsep. simpl. lia.
Qed.

Lemma qmarks_Join_zero sep l :
  qmarks sep = 0%Z → Forall (λ s, qmarks s = 0%Z) l → qmarks (Strings.Join sep l) = 0%Z.
Proof.
  intros Hsep Hl. rewrite qmarks_Join by done. induction Hl as [|x l Hx Hl IH]; simpl; [done|].
  rewrite Hx, IH. done.
Qed.

Lemma qmarks_Join_one sep l :
  qmarks sep = 0%Z → Forall (λ s, qmarks s = 1%Z) l →
  qmarks (Strings.Join sep l) = Z.of_nat (length l).
Proof.
  intros Hsep Hl. rewrite qmarks_Join by done. induction Hl as [|x l Hx Hl IH]; simpl; [done|].
  rewrite Hx, IH. lia.
Qed.

(** The clauses of a builder carry as many arguments as they have
    placeholders, and its other texts have none. *)
Definition clauses_ok (ws : list whereClause) : Prop :=
  Forall (λ w, clause_ok (w_expr w) (w_args w) ∧ qmarks (w_boolean w) = 0%Z) ws.

Record builder_ok (b : Builder) : Prop := {
  ok_table : qmarks (b_table b) = 0%Z;
  ok_selects : Forall (λ s, clause_ok (s_expr s) (s_args s)) (b_selects b);
  ok_joins : Forall (λ j, qmarks (j_typ j) = 0%Z ∧ qmarks (j_table j) = 0%Z ∧ qmarks (j_on j) = 0%Z)
               (b_joins b);
  ok_wheres : clauses_ok (b_wheres b);
  ok_havings : clauses_ok (b_havings b);
  ok_groups : Forall (λ s, qmarks s = 0%Z) (b_groupBys b);
  ok_orders : Forall (λ s, qmarks s = 0%Z) (b_orderBys b);
  ok_soft : qmarks (b_softDeleteCondition b) = 0%Z;
  ok_pks : Forall (λ s, qmarks s = 0%Z) (b_primaryKeys b);
  ok_batch_cols : Forall (λ s, qmarks s = 0%Z) (b_insertBatchCols b);
  ok_batch : b_insertBatchCols b = [] ∨ b_insertBatchPlaceholders b = [] ∨
    qmarks (Strings.Join ", " (b_insertBatchPlaceholders b)) = Z.of_nat (length (b_insertBatchArgs b));
}.

Lemma excess_clauses first ws w : clauses_ok ws → excess (writeClauses first ws w) = excess w.
Proof.
  intros Hws. revert first w. induction Hws as [|c ws [Hc Hb] Hws IH]; intros first w; [done|].
  cbn [writeClauses]. rewrite IH, excess_args, excess_write.
  unfold clause_ok in Hc. destruct first; rewrite ?excess_write, ?Hb; unfold qmarks; rewrite ?Hc; simpl; lia.
Qed.

Lemma excess_ands ws w : clauses_ok ws → excess (writeAnds ws w) = excess w.
Proof.
  intros Hws. unfold writeAnds. revert w. induction Hws as [|c ws [Hc Hb] Hws IH]; intros w; [done|].
  simpl. rewrite IH, excess_args, !excess_write.
  unfold clause_ok in Hc. unfold qmarks. rewrite Hc. simpl. lia.
Qed.

Lemma excess_wheres b w : builder_ok b → excess (buildWheres b w) = excess w.
Proof.
  intros Hb. unfold buildWheres.
  repeat case_match; rewrite ?excess_write, ?excess_clauses, ?excess_ands, ?excess_write by apply Hb;
    rewrite ?(ok_soft b Hb); unfold qmarks; simpl; lia.
Qed.

Lemma excess_selects first ss w :
  Forall (λ s, clause_ok (s_expr s) (s_args s)) ss → excess (writeSelects first ss w) = excess w.
Proof.
  intros Hss. revert first w. induction Hss as [|s ss Hs Hss IH]; intros first w; [done|].
  cbn [writeSelects]. rewrite IH, excess_args, excess_write. unfold clause_ok in Hs.
  destruct first; rewrite ?excess_write; unfold qmarks; rewrite ?Hs; simpl; lia.
Qed.

Lemma excess_joins b w : builder_ok b → excess (foldl writeJoin w (b_joins b)) = excess w.
Proof.
  intros Hb. pose proof (ok_joins b Hb) as Hj. revert w.
  induction Hj as [|j js (H1 & H2 & H3) Hj IH]; intros w; [done|]. simpl. rewrite IH.
  unfold writeJoin. rewrite excess_write, !qmarks_app, H1, H2, H3. unfold qmarks. simpl. lia.
Qed.

Ltac qm := rewrite ?excess_write, ?excess_args, ?qmarks_app, ?qmarks_sanitized; unfold qmarks;
  simpl; rewrite ?excess_args; simpl; try lia.

Lemma excess_select b w : builder_ok b → excess (buildSelect b w) = excess w.
Proof.
  intros Hb. unfold buildSelect.
  assert (qmarks (Strings.Join ", " (b_groupBys b)) = 0%Z) as Hg by (apply qmarks_Join_zero, Hb; done).
  assert (qmarks (Strings.Join ", " (b_orderBys b)) = 0%Z) as Ho by (apply qmarks_Join_zero, Hb; done).
  set (w1 := match b_selects b with [] => _ | _ => _ end).
  assert (excess w1 = excess w) as H1.
  { unfold w1. destruct (b_selects b) eqn:E; [by qm|].
    rewrite excess_selects by (rewrite <-E; apply Hb). by qm. }
  clearbody w1.
  set (w2 := if bool_decide (b_table b = "") then _ else _).
  assert (excess w2 = excess w) as H2.
  { unfold w2. case_match; rewrite ?excess_write, H1, ?(ok_table b Hb); by qm. }
  clearbody w2. rewrite <-H2, <-(excess_joins b w2 Hb). generalize (foldl writeJoin w2 (b_joins b)).
  clear -Hb Hg Ho. intros w. rewrite <-(excess_wheres b w Hb). generalize (buildWheres b w). clear w. intros w.
  destruct (b_groupBys b) as [|? ?]; [|rewrite <-(Z.add_0_r (excess w)), <-Hg, <-(Z.add_0_r (excess w))];
    destruct (b_havings b) as [|h hs] eqn:Eh; destruct (b_orderBys b) as [|? ?];
    destruct (b_limit b), (b_offset b), (b_lockForUpdate b);
    rewrite ?excess_write, ?excess_args, ?excess_write, ?excess_args, ?excess_write, ?Ho,
      ?excess_clauses by (rewrite <-Eh; apply Hb);
    rewrite ?excess_write, ?Hg; qm.
Qed.

Lemma excess_conflict b w : builder_ok b → excess (writeConflict b w) = excess w.
Proof.
  intros Hb. unfold writeConflict.
  assert (∀ fmt cols, (∀ c, qmarks c = 0%Z → qmarks (fmt c) = 0%Z) →
    qmarks (Strings.Join ", " (conflict_updates fmt cols)) = 0%Z) as Hcu.
  { intros fmt cols Hfmt. apply qmarks_Join_zero; [done|]. unfold conflict_updates.
    apply Forall_fmap, Forall_forall. intros c [_ Hc]%list_elem_of_filter.
    apply list_elem_of_fmap in Hc as (c' & -> & _). apply Hfmt, qmarks_sanitized. }
  assert (qmarks (match b_primaryKeys b with [] => "id" | pks => Strings.Join ", " pks end) = 0%Z) as Hpk.
  { pose proof (ok_pks b Hb) as Hpk. destruct (b_primaryKeys b) eqn:E; [done|].
    by apply qmarks_Join_zero. }
  destruct (b_onDuplicateUpdateCols b) as [|c cs]; [done|]. destruct (b_dialect b).
  - pose proof (Hcu (λ c, c +:+ " = VALUES(" +:+ c +:+ ")") (c :: cs)) as Hu.
    destruct (conflict_updates _ _); [done|]. rewrite !excess_write, Hu; [by qm|].
    intros d Hd. rewrite !qmarks_app, Hd. by qm.
  - pose proof (Hcu (λ c, c +:+ " = EXCLUDED." +:+ c) (c :: cs)) as Hu.
    destruct (conflict_updates _ _); [done|]. rewrite !excess_write, Hu, !qmarks_app, Hpk; [by qm|].
    intros d Hd. rewrite !qmarks_app, Hd. by qm.
Qed.

Lemma excess_insert b w : builder_ok b → excess (buildInsert b w) = excess w.
Proof.
  intros Hb. unfold buildInsert. set (keys := valid_keys (b_inserts b)).
  destruct (decide (keys = [])) as [E|E]; [rewrite E; by qm|].
  destruct (SanitizeIdentifier <$> keys) eqn:Ec; [by apply fmap_nil_inv in Ec|]. rewrite <-Ec.
  assert (qmarks (Strings.Join ", " (SanitizeIdentifier <$> keys)) = 0%Z) as Hc.
  { apply qmarks_Join_zero; [done|]. apply Forall_fmap, Forall_forall. intros x _. apply qmarks_sanitized. }
  assert (qmarks (Strings.Join ", " ((λ _, "?") <$> keys)) = Z.of_nat (length keys)) as Hp.
  { rewrite qmarks_Join_one; [by rewrite length_fmap|done|]. apply Forall_fmap, Forall_forall. done. }
  case_match; rewrite ?excess_write, excess_conflict by done;
    rewrite excess_write, excess_args, !qmarks_app, Hc, Hp, (ok_table b Hb), length_fmap; qm.
Qed.

Lemma excess_batch b w : builder_ok b → excess (buildInsertBatch b w) = excess w.
Proof.
  intros Hb. unfold buildInsertBatch.
  destruct (b_insertBatchCols b) as [|c cs] eqn:Ec; [done|].
  destruct (b_insertBatchPlaceholders b) as [|p ps] eqn:Ep; [done|]. rewrite <-Ec, <-Ep.
  rewrite excess_conflict, excess_args, excess_write, !qmarks_app, (ok_table b Hb) by done.
  rewrite (qmarks_Join_zero ", " (b_insertBatchCols b)); [|done|apply Hb].
  destruct (ok_batch b Hb) as [?|[?|Hph]]; [congruence..|]. rewrite Hph. qm.
Qed.

Lemma excess_update b w : builder_ok b → excess (buildUpdate b w) = excess w.
Proof.
  intros Hb. unfold buildUpdate. set (keys := valid_keys (b_updates b)).
  destruct (decide (keys = [])) as [E|E]; [rewrite E; by qm|].
  destruct ((λ k, SanitizeIdentifier k +:+ " = ?") <$> keys) eqn:Ec; [by apply fmap_nil_inv in Ec|]. rewrite <-Ec.
  assert (qmarks (Strings.Join ", " ((λ k, SanitizeIdentifier k +:+ " = ?") <$> keys))
    = Z.of_nat (length keys)) as Hp.
  { rewrite qmarks_Join_one; [by rewrite length_fmap|done|]. apply Forall_fmap, Forall_forall.
    intros x _. simpl. by qm. }
  rewrite excess_wheres, excess_write, excess_args, !qmarks_app, Hp, (ok_table b Hb), length_fmap by done.
  qm.
Qed.

Lemma excess_delete b w : builder_ok b → excess (buildDelete b w) = excess w.
Proof.
  intros Hb. unfold buildDelete. rewrite excess_wheres, !excess_write, (ok_table b Hb) by done. qm.
Qed.

Lemma build_action_balanced b : builder_ok b →
  count_char qmark (build_action b).1 = length (build_action b).2.
Proof.
  intros Hb. assert (excess (build_action b) = 0%Z) as He.
  { unfold build_action. repeat case_match;
      rewrite ?excess_insert, ?excess_batch, ?excess_update, ?excess_delete, ?excess_select by done; done. }
  unfold excess, qmarks in He. lia.
Qed.

(** ** Sequences of builder operations *)

(** A builder as [DB.Table] makes it. *)
Definition fresh_builder (tbl : string) (d : Dialect) (e : Executor) (c : option context)
    (sc : option ScopeFunc) : Builder :=
  mkBuilder tbl [] [] [] [] [] [] None None [] "" ∅ ∅ [] [] [] ∅ [] [] "" "" [] None
    d e c VNil None sc "" false false false false false.

Inductive comparison_op := OEq | ONotEq | OGt | OGte | OLt | OLte.

Inductive bop :=
  | OpBind (d : value) | OpSetResources (r : option resources) | OpWithContext (c : option context)
  | OpUse (tx : Executor) | OpNoScope | OpUnsafe | OpNoHistory | OpLockForUpdate
  | OpCols (cols : list string) | OpNullable (cols : list string) | OpOnConflictUpdate (cols : list string)
  | OpWhere (expr : string) (args : list value) | OpOrWhere (expr : string) (args : list value)
  | OpCompare (o : comparison_op) (c : string) (v : value) | OpWhereLike (c pat : string)
  | OpWhereIn (c : string) (vs : list value) | OpWhereNotIn (c : string) (vs : list value)
  | OpWhereNull (c : string) | OpJoin (tbl on typ : string) | OpGroupBy (cols : list string)
  | OpHaving (expr : string) (args : list value) | OpOrderBy (expr : string)
  | OpLimit (n : Z) | OpOffset (n : Z) | OpSoftDelete (cond : string) | OpApplyScope | OpClone
  | OpAction (a : string) (ins upd : gmap string value).

Section Sequences.
Context `{Unicode}.

Definition compare_op (o : comparison_op) : string → value → Builder → Builder :=
  match o with
  | OEq => WhereEq | ONotEq => WhereNotEq | OGt => WhereGt | OGte => WhereGte
  | OLt => WhereLt | OLte => WhereLte
  end.

Definition run_op (o : bop) (b : Builder) : Builder :=
  match o with
  | OpBind d => Bind d b | OpSetResources r => SetResources r b | OpWithContext c => WithContext c b
  | OpUse tx => Use tx b | OpNoScope => NoScope b | OpUnsafe => Unsafe b
  | OpNoHistory => NoHistory b | OpLockForUpdate => LockForUpdate b
  | OpCols cols => Cols cols b | OpNullable cols => Nullable cols b
  | OpOnConflictUpdate cols => OnConflictUpdate cols b
  | OpWhere e a => Where e a b | OpOrWhere e a => OrWhere e a b
  | OpCompare o c v => compare_op o c v b | OpWhereLike c pat => WhereLike c pat b
  | OpWhereIn c vs => WhereIn c vs b | OpWhereNotIn c vs => WhereNotIn c vs b
  | OpWhereNull c => WhereNull c b | OpJoin tbl on typ => DbBuilder.Join tbl on typ b
  | OpGroupBy cols => GroupBy cols b | OpHaving e a => Having e a b | OpOrderBy e => OrderBy e b
  | OpLimit n => Limit n b | OpOffset n => Offset n b
  | OpSoftDelete c => SetSoftDeleteCondition c b | OpApplyScope => applyScope b
  | OpClone => clone b
  | OpAction a ins upd => set_action a (set_inserts ins (set_updates upd b))
  end.

(** What the caller must respect: raw fragments carry their own arguments. *)
Definition op_ok (o : bop) : Prop :=
  match o with
  | OpCols cols => Forall (λ c, qmarks c = 0%Z) cols
  | OpWhere e a | OpOrWhere e a | OpHaving e a => clause_ok e a
  | OpJoin _ on typ => qmarks on = 0%Z ∧ qmarks typ = 0%Z
  | OpSoftDelete c => qmarks c = 0%Z
  | _ => True
  end.

Lemma builder_ok_wheres b ws : builder_ok b → clauses_ok ws → builder_ok (set_wheres ws b).
Proof. intros [] Hws. by constructor. Qed.

Lemma Where_ok b e a : builder_ok b → clause_ok e a → builder_ok (Where e a b).
Proof.
  intros Hb He. apply builder_ok_wheres; [done|]. apply Forall_app. split; [apply Hb|].
  by repeat constructor.
Qed.

Lemma clause_ok_one s e v : count_char qmark e = 1 → clause_ok (SanitizeIdentifier s +:+ e) [v].
Proof.
  intros He. unfold clause_ok. rewrite count_char_app, He.
  pose proof (qmarks_sanitized s). unfold qmarks in *. simpl. lia.
Qed.

Lemma clause_ok_list s o vs :
  count_char qmark o = 0 → vs ≠ [] →
  clause_ok (SanitizeIdentifier s +:+ o +:+ Strings.Join ", " (replicate (length vs) "?") +:+ ")") vs.
Proof.
  intros Ho Hvs. unfold clause_ok. rewrite !count_char_app, Ho.
  pose proof (qmarks_sanitized s) as Hs.
  pose proof (qmarks_Join_one ", " (replicate (length vs) "?")) as Hj.
  rewrite length_replicate in Hj. unfold qmarks in *.
  assert (count_char qmark (SanitizeIdentifier s) = 0) as -> by lia.
  assert (count_char qmark (Strings.Join ", " (replicate (length vs) "?")) = length vs) as ->.
  { apply Nat2Z.inj. rewrite Hj; [done|done|]. by apply Forall_replicate. }
  simpl. lia.
Qed.

Lemma scope_group_ok conds keys acc :
  clause_ok acc.1.1 acc.1.2 →
  clause_ok (foldl (scope_step conds) acc keys).1.1 (foldl (scope_step conds) acc keys).1.2.
Proof.
  revert acc. induction keys as [|k keys IH]; intros acc Hacc; [done|]. simpl. apply IH.
  destruct acc as [[e a] first]. unfold scope_step. case_bool_decide; [done|]. simpl in *.
  unfold clause_ok in *. rewrite !count_char_app, length_app. simpl.
  pose proof (qmarks_sanitized k). unfold qmarks in *.
  destruct first; simpl; rewrite ?count_char_app, Hacc; simpl; lia.
Qed.

Lemma write_clauses_ok first ws :
  clauses_ok ws → clause_ok (write_clauses first ws) (ws ≫= w_args).
Proof.
  intros Hws. unfold clause_ok. revert first. induction Hws as [|w ws [Hw Hb] Hws IH]; intros first; [done|].
  cbn [write_clauses]. rewrite !count_char_app, IH. unfold clause_ok, qmarks in *.
  change ((w :: ws) ≫= w_args) with (w_args w ++ (ws ≫= w_args)). rewrite length_app, Hw.
  destruct first; rewrite ?count_char_app; simpl; lia.
Qed.

Lemma clause_ok_paren e a : clause_ok e a → clause_ok ("(" +:+ e +:+ ")") a.
Proof. unfold clause_ok. rewrite !count_char_app. simpl. lia. Qed.

Lemma applyScope_ok b : builder_ok b → builder_ok (applyScope b).
Proof.
  intros Hb. unfold applyScope. destruct (b_scopeApplied b); [done|].
  set (b' := set_scopeApplied true b).
  assert (builder_ok b') as Hb' by (by destruct Hb; constructor).
  clearbody b'. clear Hb b. rename b' into b.
  destruct (b_scope b); [|done]. destruct (b_res b); [|done]. destruct (b_scopeSkipped b); [done|].
  destruct (scope_fields b); [|done]. case_bool_decide; [done|].
  pose proof (scope_group_ok (s l (res_value r)) (sort_strings (map_to_list (s l (res_value r))).*1)
    ("", [], true) eq_refl) as Hg.
  destruct (foldl _ _ _) as [[ge ga] f]. simpl in Hg. case_bool_decide; [done|].
  assert (clauses_ok [mkWhere "AND" ("(" +:+ ge +:+ ")") ga]) as Hgroup.
  { repeat constructor; simpl. by apply clause_ok_paren. }
  destruct (b_wheres b) as [|w ws] eqn:E; apply builder_ok_wheres; try done.
  constructor; [|done]. split; [|done]. cbn [w_expr w_args]. apply clause_ok_paren.
  rewrite <-E. apply write_clauses_ok, Hb'.
Qed.

Lemma run_op_ok o b : op_ok o → builder_ok b → builder_ok (run_op o b).
Proof.
  intros Ho Hb. destruct o; simpl in *; try (destruct Hb; by constructor).
  - unfold Cols. revert b Hb. induction Ho as [|c cols Hc Ho IH]; intros b Hb; [done|].
    simpl. apply IH. destruct Hb. constructor; try done. simpl. apply Forall_app. split; [done|].
    repeat constructor. unfold clause_ok, qmarks in *. simpl. lia.
  - by apply Where_ok.
  - apply builder_ok_wheres; [done|]. apply Forall_app. split; [apply Hb|]. by repeat constructor.
  - destruct o; simpl; unfold WhereEq, WhereNotEq, WhereGt, WhereGte, WhereLt, WhereLte;
      (case_bool_decide; [done|]); apply Where_ok; try done; by apply clause_ok_one.
  - unfold WhereLike. case_bool_decide; [done|]. apply Where_ok; [done|]. by apply clause_ok_one.
  - unfold WhereIn. case_bool_decide; [done|]. case_bool_decide; [by apply Where_ok|].
    apply Where_ok; [done|]. apply (clause_ok_list _ " IN ("); [done|]. by intros ->.
  - unfold WhereNotIn. case_bool_decide; [done|]. case_bool_decide; [done|].
    apply Where_ok; [done|]. apply (clause_ok_list _ " NOT IN ("); [done|]. by intros ->.
  - unfold WhereNull. case_bool_decide; [done|]. apply Where_ok; [done|].
    unfold clause_ok. rewrite count_char_app. pose proof (qmarks_sanitized c). unfold qmarks in *. simpl. lia.
  - unfold DbBuilder.Join. case_bool_decide; [done|]. destruct Ho as [Hon Htyp].
    destruct Hb. constructor; try done. simpl. apply Forall_app. split; [done|].
    repeat constructor; simpl; [done|apply qmarks_sanitized|].
    unfold SanitizeOnClause. by repeat case_match.
  - destruct Hb. constructor; try done. simpl. apply Forall_app. split; [done|].
    apply Forall_forall. intros x [_ Hx]%list_elem_of_filter.
    apply list_elem_of_fmap in Hx as (y & -> & _). apply qmarks_sanitized.
  - destruct Hb. constructor; try done. simpl. apply Forall_app. split; [done|]. by repeat constructor.
  - unfold OrderBy. case_bool_decide; [|done]. destruct Hb. constructor; try done. simpl.
    apply Forall_app. split; [done|]. repeat constructor. apply qmarks_inert.
    eapply str_all_impl; [apply order_byte_inert|apply SanitizeOrderBy_bytes].
  - by apply applyScope_ok.
  - by rewrite clone_id.
Qed.

(** [C2] Whatever sequence of builder operations is applied to a fresh builder,
    the statement built for any action has exactly as many placeholders as it has
    arguments, provided each raw fragment the caller supplies does. *)
Theorem build_placeholders_match tbl d e c sc ops :
  Forall op_ok ops →
  let b := foldl (λ b o, run_op o b) (fresh_builder (SanitizeIdentifier tbl) d e c sc) ops in
  count_char qmark (build_action b).1 = length (build_action b).2.
Proof.
  intros Hops. apply build_action_balanced.
  assert (builder_ok (fresh_builder (SanitizeIdentifier tbl) d e c sc)) as Hb.
  { constructor; simpl; auto; [apply qmarks_sanitized|by constructor..]. }
  revert Hb. generalize (fresh_builder (SanitizeIdentifier tbl) d e c sc).
  induction Hops as [|o ops Ho Hops IH]; intros b Hb; simpl; [done|]. by apply IH, run_op_ok.
Qed.
End Sequences.

Lemma build_placeholders_match_witness :
  let b := foldl (λ b o, run_op o b) (fresh_builder (SanitizeIdentifier "users") MySQLDialect sqlxExecutor None None)
    [OpWhere "age > ?" [VInt KInt 17]; OpWhereIn "role" [VString "a"; VString "b"]; OpLimit 5] in
  count_char qmark (build_action b).1 = length (build_action b).2.
Proof.
  apply (build_placeholders_match "users" MySQLDialect sqlxExecutor None None
    [OpWhere "age > ?" [VInt KInt 17]; OpWhereIn "role" [VString "a"; VString "b"]; OpLimit 5]).
  by repeat constructor.
Defined.

Example build_example :
  let b := foldl (λ b o, run_op o b) (fresh_builder (SanitizeIdentifier "users") MySQLDialect sqlxExecutor None None)
    [OpWhere "age > ?" [VInt KInt 17]; OpWhereIn "role" [VString "a"; VString "b"];
     OpSoftDelete "deleted_at IS NULL"; OpOrderBy "name DESC"; OpLimit 5] in
  build_action b =
  ("SELECT * FROM users WHERE deleted_at IS NULL AND age > ? AND role IN (?, ?) ORDER BY name DESC LIMIT ?",
   [VInt KInt 17; VString "a"; VString "b"; VInt KInt 5]).
Proof. vm_compute. reflexivity. Qed.

(** ** The meaning of the WHERE clause

    The text after [WHERE] is read as a sequence of tokens and evaluated with
    SQL's precedence ([AND] binds tighter than [OR], parentheses group).  [rho]
    gives the truth of each atomic condition on a row. *)
Inductive tok := TAtom (s : string) | TAnd | TOr | TOpen | TClose.

Definition tok_text (t : tok) : string :=
  match t with
  | TAtom s => s
  | TAnd => " AND "
  | TOr => " OR "
  | TOpen => "("
  | TClose => ")"
  end.

Fixpoint toks_text (l : list tok) : string :=
  match l with [] => "" | t :: l' => tok_text t +:+ toks_text l' end.

(** Left-to-right evaluation: [o] is the disjunction of the finished conjunctions,
    [a] the conjunction being read, [stk] the enclosing levels; [operand] tells
    whether an operand or an operator comes next. *)
Fixpoint ev (rho : string → bool) (operand o a : bool) (stk : list (bool * bool)) (l : list tok)
  : option bool :=
  match l, operand with
  | [], false => match stk with [] => Some (o || a) | _ => None end
  | TAtom s :: l', true => ev rho false o (a && rho s) stk l'
  | TOpen :: l', true => ev rho true false true ((o, a) :: stk) l'
  | TAnd :: l', false => ev rho true o a stk l'
  | TOr :: l', false => ev rho true (o || a) true stk l'
  | TClose :: l', false =>
      match stk with
      | (o', a') :: stk' => ev rho false o' (a' && (o || a)) stk' l'
      | [] => None
      end
  | _, _ => None
  end.

Definition sql_eval (rho : string → bool) (l : list tok) : option bool := ev rho true false true [] l.

(** What a list of clauses means: conjunctions separated by the [OR]s. *)
Fixpoint where_sem_go (rho : string → bool) (o a : bool) (ws : list whereClause) : bool :=
  match ws with
  | [] => o || a
  | w :: ws' =>
      if bool_decide (w_boolean w = "OR") then where_sem_go rho (o || a) (rho (w_expr w)) ws'
      else where_sem_go rho o (a && rho (w_expr w)) ws'
  end.

(** The connective of the first clause is not written. *)
Definition where_sem (rho : string → bool) (ws : list whereClause) : bool :=
  match ws with
  | [] => true
  | w :: ws' => where_sem_go rho false (rho (w_expr w)) ws'
  end.

Definition connective (w : whereClause) : tok := if bool_decide (w_boolean w = "OR") then TOr else TAnd.

Fixpoint clause_toks (first : bool) (ws : list whereClause) : list tok :=
  match ws with
  | [] => []
  | w :: ws' => (if first then [] else [connective w]) ++ [TAtom (w_expr w)] ++ clause_toks false ws'
  end.

Definition and_toks (ws : list whereClause) : list tok := ws ≫= λ w, [TAnd; TAtom (w_expr w)].

Definition has_or (ws : list whereClause) : bool := existsb (λ c, bool_decide (w_boolean c = "OR")) ws.

(** The tokens of the WHERE clause [buildWheres] writes. *)
Definition where_toks (soft : string) (ws : list whereClause) : list tok :=
  if bool_decide (soft ≠ "") then
    TAtom soft ::
    match ws with
    | [] => []
    | _ => if has_or ws then [TAnd; TOpen] ++ clause_toks true ws ++ [TClose] else and_toks ws
    end
  else clause_toks true ws.

(** Clauses come from [Where], [OrWhere] and the scope: their connective is [AND]
    or [OR]. *)
Definition connectives_ok (ws : list whereClause) : Prop :=
  Forall (λ w, w_boolean w = "AND" ∨ w_boolean w = "OR") ws.

Lemma toks_text_app l l' : toks_text (l ++ l') = toks_text l +:+ toks_text l'.
Proof. induction l; [done|]. cbn [toks_text app]. by rewrite IHl, string_app_assoc. Qed.

Lemma connective_text w :
  w_boolean w = "AND" ∨ w_boolean w = "OR" → tok_text (connective w) = " " +:+ w_boolean w +:+ " ".
Proof. unfold connective. intros [-> | ->]; reflexivity. Qed.

Lemma writeClauses_text first ws w :
  connectives_ok ws →
  (writeClauses first ws w).1 = w.1 +:+ toks_text (clause_toks first ws).
Proof.
  intros Hws. revert first w. induction Hws as [|c ws Hc Hws IH]; intros first w.
  - by rewrite string_app_nil_r.
  - cbn [writeClauses clause_toks]. rewrite IH. destruct first; simpl.
    + by rewrite !string_app_assoc.
    + rewrite connective_text by done. by rewrite !string_app_assoc.
Qed.

Lemma write_clauses_text first ws :
  connectives_ok ws → write_clauses first ws = toks_text (clause_toks first ws).
Proof.
  intros Hws. revert first. induction Hws as [|c ws Hc Hws IH]; intros first; [done|].
  cbn [write_clauses clause_toks]. rewrite IH. destruct first; simpl; [done|].
  rewrite connective_text by done. by rewrite !string_app_assoc.
Qed.

Lemma writeAnds_text ws w : (writeAnds ws w).1 = w.1 +:+ toks_text (and_toks ws).
Proof.
  unfold writeAnds. revert w. induction ws as [|c ws IH]; intros w.
  - by rewrite string_app_nil_r.
  - simpl. rewrite IH. unfold and_toks. simpl. by rewrite !string_app_assoc.
Qed.

Lemma buildWheres_text b w :
  connectives_ok (b_wheres b) →
  (buildWheres b w).1 =
  if bool_decide (length (b_wheres b) = 0) && bool_decide (b_softDeleteCondition b = "") then w.1
  else w.1 +:+ " WHERE " +:+ toks_text (where_toks (b_softDeleteCondition b) (b_wheres b)).
Proof.
  intros Hws. unfold buildWheres. destruct (_ && _); [done|]. unfold where_toks.
  case_bool_decide.
  - destruct (b_wheres b) as [|c ws] eqn:E; [simpl; by rewrite string_app_nil_r, string_app_assoc|].
    rewrite bool_decide_false by done. unfold has_or. destruct (existsb _ _).
    + cbn [WriteString fst]. rewrite writeClauses_text by done.
      cbn [toks_text app]. rewrite toks_text_app. cbn -[clause_toks]. by rewrite !string_app_assoc.
    + rewrite writeAnds_text. simpl. by rewrite !string_app_assoc.
  - rewrite writeClauses_text by done. simpl. by rewrite string_app_assoc.
Qed.

Fixpoint where_state (rho : string → bool) (o a : bool) (ws : list whereClause) : bool * bool :=
  match ws with
  | [] => (o, a)
  | w :: ws' =>
      if bool_decide (w_boolean w = "OR") then where_state rho (o || a) (rho (w_expr w)) ws'
      else where_state rho o (a && rho (w_expr w)) ws'
  end.

Lemma where_sem_state rho o a ws :
  where_sem_go rho o a ws = (where_state rho o a ws).1 || (where_state rho o a ws).2.
Proof. revert o a. induction ws as [|w ws IH]; intros o a; simpl; [done|]. by case_bool_decide. Qed.

Lemma ev_clauses rho o a stk ws rest :
  ev rho false o a stk (clause_toks false ws ++ rest) =
  ev rho false (where_state rho o a ws).1 (where_state rho o a ws).2 stk rest.
Proof.
  revert o a. induction ws as [|w ws IH]; intros o a; [done|].
  cbn [clause_toks where_state]. unfold connective. case_bool_decide; simpl; by rewrite IH.
Qed.

(** A list of clauses in parentheses is one operand with the clauses' meaning. *)
Lemma ev_group rho o a stk w ws rest :
  ev rho true o a stk (TOpen :: clause_toks true (w :: ws) ++ TClose :: rest) =
  ev rho false o (a && where_sem rho (w :: ws)) stk rest.
Proof.
  cbn [clause_toks app ev]. rewrite ev_clauses. cbn [ev]. cbn [where_sem].
  by rewrite where_sem_state.
Qed.

Lemma ev_ands rho o a stk ws rest :
  ev rho false o a stk (and_toks ws ++ rest) =
  ev rho false o (a && forallb (λ w, rho (w_expr w)) ws) stk rest.
Proof.
  revert a. induction ws as [|w ws IH]; intros a; simpl; [by rewrite andb_true_r|].
  unfold and_toks in IH. rewrite IH. by rewrite andb_assoc.
Qed.

(** Without an [OR] the clauses are a conjunction. *)
Lemma where_sem_ands rho ws :
  has_or ws = false → where_sem rho ws = forallb (λ w, rho (w_expr w)) ws.
Proof.
  assert (∀ ws a, has_or ws = false →
    where_sem_go rho false a ws = a && forallb (λ w, rho (w_expr w)) ws) as Hgo.
  { clear ws. induction ws as [|w ws IH]; intros a Hor; simpl in *; [by rewrite andb_true_r|].
    apply orb_false_iff in Hor as [-> Hor]. rewrite IH by done. by rewrite andb_assoc. }
  destruct ws as [|w ws]; [done|]. simpl. intros [_ Hor]%orb_false_iff. by apply Hgo.
Qed.

(** The tokens of the WHERE clause mean: the soft-delete condition and the
    clauses. *)
Lemma where_toks_sem rho soft ws :
  soft ≠ "" ∨ ws ≠ [] →
  sql_eval rho (where_toks soft ws) =
  Some ((if bool_decide (soft ≠ "") then rho soft else true) && where_sem rho ws).
Proof.
  intros Hne. unfold sql_eval, where_toks. case_bool_decide as Hs.
  - destruct ws as [|w ws]; [simpl; by rewrite andb_true_r|]. destruct (has_or (w :: ws)) eqn:Hor.
    + change (TAtom soft :: [TAnd; TOpen] ++ clause_toks true (w :: ws) ++ [TClose])
        with (TAtom soft :: TAnd :: TOpen :: clause_toks true (w :: ws) ++ [TClose]).
      remember (TOpen :: clause_toks true (w :: ws) ++ [TClose]) as l eqn:Hl.
      cbn [ev]. rewrite Hl, ev_group. simpl. done.
    + cbn [ev]. rewrite <-(app_nil_r (and_toks (w :: ws))), ev_ands.
      rewrite where_sem_ands by done. done.
  - destruct Hne as [?|Hne]; [done|]. destruct ws as [|w ws]; [done|].
    cbn [clause_toks app ev where_sem].
    rewrite <-(app_nil_r (clause_toks false ws)), ev_clauses. simpl. by rewrite where_sem_state.
Qed.


(** A builder with a soft-delete condition and an [OrWhere]. *)
Definition soft_builder (ops : list bop) : Builder :=
  foldl (λ b o, run_op o b) (fresh_builder "users" MySQLDialect sqlxExecutor None None)
    (OpSoftDelete "deleted_at IS NULL" :: ops).


(** A raw fragment that contains an [OR] at its top level does escape the
    soft-delete condition when no other clause is an [OrWhere]: the text
    [deleted_at IS NULL AND a = 1 OR b = 1] holds of a deleted row with [b = 1]. *)
Theorem raw_or_escapes_soft_delete :
  (buildWheres (soft_builder [OpWhere "a = 1 OR b = 1" []]) ("", [])).1
    = " WHERE " +:+ toks_text [TAtom "deleted_at IS NULL"; TAnd; TAtom "a = 1"; TOr; TAtom "b = 1"] ∧
  sql_eval (λ s, bool_decide (s = "b = 1"))
    [TAtom "deleted_at IS NULL"; TAnd; TAtom "a = 1"; TOr; TAtom "b = 1"] = Some true.
Proof. by split; vm_compute. Qed.

(** ** The scope is always a conjunct *)

Definition scope_clause (k : string) : whereClause := mkWhere "AND" (k +:+ " = ?") [].

Lemma SanitizeIdentifier_nonempty k : SanitizeIdentifier k ≠ "" → SanitizeIdentifier k = k.
Proof. intros Hk. by destruct (SanitizeIdentifier_cases k) as [?|(-> & _ & _)]. Qed.

Lemma scope_fold_expr conds keys e a first :
  (foldl (scope_step conds) (e, a, first) keys).1.1 =
  e +:+ write_clauses first (scope_clause <$> filter (λ k, SanitizeIdentifier k ≠ "") keys).
Proof.
  revert e a first. induction keys as [|k keys IH]; intros e a first.
  - simpl. by rewrite string_app_nil_r.
  - simpl foldl. case_bool_decide as Hk.
    + rewrite IH. by rewrite filter_cons_False by (intros Hn; by apply Hn).
    + rewrite IH. rewrite filter_cons_True by done.
      rewrite (SanitizeIdentifier_nonempty k) by done.
      rewrite fmap_cons. cbn [write_clauses scope_clause w_boolean w_expr].
      destruct first; cbn [negb]; rewrite !string_app_assoc; reflexivity.
Qed.

Lemma write_clauses_scope_nonempty k ks : write_clauses true (scope_clause <$> k :: ks) ≠ "".
Proof.
  rewrite fmap_cons. cbn [write_clauses scope_clause w_expr]. rewrite string_app_nil_l.
  rewrite string_app_assoc. intros [_ [? _]%string_app_nil]%string_app_nil. done.
Qed.

Lemma where_sem_scope rho ks :
  where_sem rho (scope_clause <$> ks) = forallb (λ k, rho (k +:+ " = ?")) ks.
Proof.
  rewrite where_sem_ands.
  - induction ks as [|k ks IH]; [done|]. rewrite fmap_cons. cbn [forallb]. by rewrite IH.
  - unfold has_or. induction ks as [|k ks IH]; [done|]. rewrite fmap_cons. cbn [existsb]. by rewrite IH.
Qed.

Lemma scope_connectives ks : connectives_ok (scope_clause <$> ks).
Proof. unfold connectives_ok. apply Forall_fmap, Forall_forall. intros. by left. Qed.

Section Scope.
Context `{Unicode}.

(** The conditions of the scope that have valid column names, in the order they
    are written. *)
Definition scope_keys (conds : gmap string value) : list string :=
  filter (λ k, SanitizeIdentifier k ≠ "") (sort_strings (map_to_list conds).*1).

(** The clauses after the scope has been applied. *)
Lemma applyScope_wheres b sc r fs :
  b_scopeApplied b = false → b_scope b = Some sc → b_res b = Some r → b_scopeSkipped b = false →
  scope_fields b = Some fs → scope_keys (sc fs (res_value r)) ≠ [] →
  b_softDeleteCondition (applyScope b) = b_softDeleteCondition b ∧
  ∃ args args',
  b_wheres (applyScope b) =
    match b_wheres b with
    | [] => []
    | _ => [mkWhere "AND" ("(" +:+ write_clauses true (b_wheres b) +:+ ")") args]
    end ++ [mkWhere "AND" ("(" +:+ write_clauses true (scope_clause <$> scope_keys (sc fs (res_value r)))
                           +:+ ")") args'].
Proof.
  intros Ha Hsc Hr Hsk Hf Hne. unfold applyScope. rewrite Ha.
  change (scope_fields (set_scopeApplied true b)) with (scope_fields b).
  cbn [set_scopeApplied b_scope b_res b_scopeSkipped b_wheres]. rewrite Hsc, Hr, Hsk, Hf.
  set (conds := sc fs (res_value r)) in *.
  destruct (bool_decide_reflect (size conds = 0)) as [Hsz|_].
  { exfalso. apply Hne. apply map_size_empty_inv in Hsz. unfold scope_keys. by rewrite Hsz, map_to_list_empty. }
  pose proof (scope_fold_expr conds (sort_strings (map_to_list conds).*1) "" [] true) as Hfold.
  rewrite string_app_nil_l in Hfold. fold (scope_keys conds) in Hfold.
  destruct (foldl _ _ _) as [[ge ga] fl]. simpl in Hfold. subst ge.
  rewrite bool_decide_false.
  - destruct (b_wheres b) as [|w ws] eqn:E; (split; [done|]); [by exists [], ga|by eexists _, ga].
  - destruct (scope_keys conds); [done|]. apply write_clauses_scope_nonempty.
Qed.

(** When a request scope is configured, every WHERE clause written after
    [applyScope] means: the soft-delete condition, and the caller's clauses, and
    every condition of the scope with a valid column name.  No combination of
    [Where] and [OrWhere] widens a query beyond its scope. *)
Theorem scope_always_applies b sc r fs rho :
  connectives_ok (b_wheres b) →
  b_scopeApplied b = false → b_scope b = Some sc → b_res b = Some r → b_scopeSkipped b = false →
  scope_fields b = Some fs → scope_keys (sc fs (res_value r)) ≠ [] →
  ∃ toks, (buildWheres (applyScope b) ("", [])).1 = " WHERE " +:+ toks_text toks ∧
    sql_eval rho toks = Some
      ((if bool_decide (b_softDeleteCondition b ≠ "") then rho (b_softDeleteCondition b) else true)
       && where_sem rho (b_wheres b)
       && forallb (λ k, rho (k +:+ " = ?")) (scope_keys (sc fs (res_value r)))).
Proof.
  intros Hws Ha Hsc Hr Hsk Hf Hne.
  destruct (applyScope_wheres b sc r fs) as (Hsoft & args & args' & Hw); try done.
  set (ks := scope_keys (sc fs (res_value r))) in *.
  set (soft := b_softDeleteCondition b) in *.
  exists ((if bool_decide (soft ≠ "") then [TAtom soft; TAnd] else []) ++
     (match b_wheres b with [] => [] | ws => [TOpen] ++ clause_toks true ws ++ [TClose; TAnd] end) ++
     [TOpen] ++ clause_toks true (scope_clause <$> ks) ++ [TClose]).
  split.
  - rewrite buildWheres_text.
    2:{ rewrite Hw. apply Forall_app. split; [|by repeat constructor; left].
        destruct (b_wheres b); by repeat constructor; left. }
    rewrite Hw, Hsoft, !toks_text_app, <-(write_clauses_text true (scope_clause <$> ks)) by apply scope_connectives.
    fold soft. rewrite (bool_decide_false (length _ = 0)) by (by destruct (b_wheres b)).
    cbn [andb]. unfold where_toks, has_or.
    pose proof (write_clauses_text true (b_wheres b) Hws) as Htx.
    destruct (b_wheres b) as [|w ws]; (destruct (bool_decide (soft ≠ "")));
      rewrite ?toks_text_app, <-?Htx;
      cbn -[String.append write_clauses bool_decide];
      change (bool_decide ("AND" = "OR")) with false;
      cbn -[String.append write_clauses];
      rewrite ?string_app_nil_r, ?string_app_nil_l, ?string_app_assoc; reflexivity.
  - unfold sql_eval. destruct ks as [|k ks]; [done|]. rewrite <-(where_sem_scope rho (k :: ks)).
    set (G := [TOpen] ++ clause_toks true (scope_clause <$> k :: ks) ++ [TClose]).
    assert (∀ a, ev rho true false a [] G = Some (a && where_sem rho (scope_clause <$> k :: ks))) as HG.
    { intros a. unfold G. rewrite fmap_cons.
      change ([TOpen] ++ ?l ++ [TClose]) with (TOpen :: l ++ TClose :: []). rewrite ev_group. done. }
    set (E := match b_wheres b with [] => [] | _ => _ end).
    assert (∀ a, ev rho true false a [] (E ++ G) = Some (a && where_sem rho (b_wheres b) &&
      where_sem rho (scope_clause <$> k :: ks))) as HE.
    { intros a. unfold E. destruct (b_wheres b) as [|w ws]; [by rewrite HG, andb_true_r|].
      change (([TOpen] ++ clause_toks true (w :: ws) ++ [TClose; TAnd]) ++ G)
        with (TOpen :: (clause_toks true (w :: ws) ++ [TClose; TAnd]) ++ G).
      rewrite <-app_assoc. change ([TClose; TAnd] ++ G) with (TClose :: TAnd :: G).
      rewrite ev_group. cbn [ev]. by rewrite HG. }
    case_bool_decide; simpl; by rewrite HE.
Qed.

(** Every operation writes [AND] or [OR] as the connective. *)
Lemma run_op_connectives o b : connectives_ok (b_wheres b) → connectives_ok (b_wheres (run_op o b)).
Proof.
  intros Hb.
  assert (∀ e a, connectives_ok (b_wheres (Where e a b))) as Hw.
  { intros e a. apply Forall_app. split; [done|]. by repeat constructor. }
  destruct o; simpl; try done; try exact (Hw _ _).
  - unfold Cols. revert b Hb Hw. induction cols as [|c cols IH]; intros b Hb Hw; [done|]. by apply IH.
  - apply Forall_app. split; [done|]. constructor; [by right|constructor].
  - destruct o; simpl; unfold WhereEq, WhereNotEq, WhereGt, WhereGte, WhereLt, WhereLte;
      by case_bool_decide.
  - unfold WhereLike. by case_bool_decide.
  - unfold WhereIn. by repeat case_bool_decide.
  - unfold WhereNotIn. by repeat case_bool_decide.
  - unfold WhereNull. by case_bool_decide.
  - unfold DbBuilder.Join. by case_bool_decide.
  - unfold OrderBy. by case_bool_decide.
  - unfold applyScope.
    repeat case_match; simpl in *; try done; repeat constructor; simpl; auto.
  - change (connectives_ok (b_wheres (clone b))). by rewrite clone_id.
Qed.
End Scope.

Definition tenant_scope : ScopeFunc := λ _ _, {["tenant_id" := VInt KInt64 3]}.

Definition tenant_builder : Builder :=
  foldl (λ b o, run_op o b) (fresh_builder "users" MySQLDialect sqlxExecutor None (Some tenant_scope))
    [OpSetResources (Some (mkRes VNil None)); OpWhere "a = 1" []; OpOrWhere "b = 1" []].

Lemma scope_always_applies_witness :
  ∃ toks, " WHERE (a = 1 OR b = 1) AND (tenant_id = ?)" = " WHERE " +:+ toks_text toks ∧
    sql_eval (λ s, negb (bool_decide (s = "tenant_id = ?"))) toks = Some false.
Proof.
  destruct (scope_always_applies tenant_builder tenant_scope (mkRes VNil None) []
    (λ s, negb (bool_decide (s = "tenant_id = ?")))) as (toks & Ht & He).
  - vm_compute. repeat (apply Forall_cons_2; [auto|]). apply Forall_nil_2.
  - done.
  - done.
  - done.
  - done.
  - done.
  - by vm_compute.
  - exists toks. rewrite <-Ht, He. by split; vm_compute.
Defined.
