(* ===== verification/DbRead.v ===== *)
(** * Queries ([internal/db/builder_read.go], [errors.go], [Pagination] of
    [helpers.go])

    A terminal method runs in [ME].  The receiver's only change is [applyScope],
    so a method's later use of the builder is written with [applyScope b]. *)

From S2P Require Import Prelude GoStrings GoValue Util HttpErr DbSanitize DbModel DbPrepared DbExec.
From S2P Require Import DbBuilder DbSql.
From Stdlib Require Import Ascii.

(** ** errors.go *)

Definition ErrWhereClauseRequired : error :=
  ESentinel "kiya: update/delete requires a WHERE clause (safety check)".
Definition ErrEmptyData : error := ESentinel "kiya: insert/update data cannot be empty".
Definition ErrTableRequired : error := ESentinel "kiya: table name is required".
Definition ErrInvalidTableName : error := ESentinel "kiya: invalid table name".
Definition ErrDestinationNil : error := ESentinel "kiya: destination is nil".
Definition ErrModelNil : error := ESentinel "kiya: model is nil".
Definition ErrRecordNotFound : error := ESentinel "kiya: record not found".

Definition notFoundErr : error := New 404 "data tidak ditemukan" [ErrRecordNotFound].

Record Pagination := mkPage { Total : Z; Page : Z; PerPage : Z; LastPage : Z }.

Section Read.
Context `{Unicode} `{Platform} `{Driver}.

(** The element type of a destination, through one slice and one pointer. *)
Definition dest_elem (t : gotype) : gotype :=
  match t with
  | TSlice (TPtr t') => t'
  | TSlice t' => t'
  | t => t
  end.

(** The columns and the table a struct type supplies when the builder has none. *)
Definition with_struct (n : string) (tn : option string) (fs : list sfield) (b : Builder) : Builder :=
  let info := getStructInfo n tn fs in
  let b := match b_selects b with
           | [] => foldl (λ b f, Cols [name f] b) b (fields info)
           | _ => b
           end in
  if bool_decide (b_table b = "") then set_table (SanitizeIdentifier (defaultName info)) b else b.

(** [fmt.Errorf(prefix+": %v", err)] on a failure. *)
Definition with_prefix {A} (prefix : string) (m : R A) : R A :=
  match m with
  | Ret (inl e) => fail (errorf prefix e)
  | r => r
  end.

(** The table of a destination when the builder has none. *)
Definition with_model_table (prefix : string) (d : value) (b : Builder) : R Builder :=
  if bool_decide (b_table b = "") then
    tblName ← with_prefix prefix (getTableNameFromModel d);
    mret (set_table (SanitizeIdentifier tblName) b)
  else mret b.

Definition require_table (b : Builder) : R Builder :=
  if bool_decide (b_table b = "") then fail ErrTableRequired else mret b.

Definition find_builder (d : value) (b : Builder) : R Builder :=
  if bool_decide (b_rawQuery b = "") then
    let b := Limit 1 b in
    match d with
    | VPtr t (Some _) =>
        b' ← match struct_type (dest_elem t) with
             | Some (n, tn, fs) => mret (with_struct n tn fs b)
             | None => with_model_table "Find: " d b
             end;
        require_table b'
    | _ => fail ErrModelNil
    end
  else mret b.

Definition pick_dest (dest : list value) (b : Builder) : value :=
  match dest with d :: _ => d | [] => b_dest b end.

Definition is_nil (v : value) : bool := match v with VNil => true | _ => false end.

(** [Find]: whether a row was found, and the destination after the scan. *)
Definition Find (dest : list value) (b : Builder) : ME (bool * value) :=
  let b := applyScope b in
  let d := pick_dest dest b in
  if is_nil d then failM ErrDestinationNil
  else
    c ← liftR (find_builder d (clone b));
    let '(query, args) := Build c in
    r ← try (Executor_Get (b_executor c) (b_ctx c) d query args);
    match r with
    | inl e => if errors_Is e "sql: no rows in result set" then mret (false, d) else failM e
    | inr d' => mret (true, d')
    end.

Definition FindOrFail (dest : list value) (b : Builder) : ME value :=
  '(found, d) ← Find dest b;
  if negb found then failM notFoundErr else mret d.

Definition findall_builder (d : value) (b : Builder) : R Builder :=
  if bool_decide (b_rawQuery b = "") then
    b' ← match slice_dest d with
         | None => with_model_table "FindAll: " d b
         | Some (_, t, _) =>
             match struct_type (elem_base t).1 with
             | Some (n, tn, fs) => mret (with_struct n tn fs b)
             | None => mret b
             end
         end;
    require_table b'
  else mret b.

Definition FindAll (dest : list value) (b : Builder) : ME value :=
  let b := applyScope b in
  let d := pick_dest dest b in
  if is_nil d then failM ErrDestinationNil
  else
    c ← liftR (findall_builder d (clone b));
    let '(query, args) := Build c in
    Executor_Select (b_executor c) (b_ctx c) d query args.

(** The integer behind a scanned destination. *)
Definition scanned_int (d : value) : Z := match d with VPtr _ (Some (VInt _ z)) => z | _ => 0%Z end.

Definition Count (b : Builder) : ME Z :=
  let b := applyScope b in
  let c := Cols ["COUNT(*)"] (set_selects [] (clone b)) in
  c ← liftR (require_table c);
  let '(query, args) := Build c in
  d ← Executor_Get (b_executor c) (b_ctx c) (VPtr (TInt KInt64) (Some (VInt KInt64 0))) query args;
  mret (scanned_int d).

Definition Exist (b : Builder) : ME bool :=
  let b := applyScope b in
  let c := Limit 1 (Cols ["1"] (set_selects [] (clone b))) in
  c ← liftR (require_table c);
  let '(query, args) := Build c in
  r ← try (Executor_Get (b_executor c) (b_ctx c) (VPtr (TInt KInt) (Some (VInt KInt 0))) query args);
  match r with
  | inl e => if errors_Is e "sql: no rows in result set" then mret false else failM e
  | inr _ => mret true
  end.

(** [page] and [perPage] after the clamping. *)
Definition clamp_page (page : Z) : Z := if (page <? 1)%Z then 1%Z else page.
Definition clamp_perPage (perPage : Z) : Z :=
  let perPage := if (perPage <? 1)%Z then 10%Z else perPage in
  if (100 <? perPage)%Z then 100%Z else perPage.

(** [int((total + int64(perPage) - 1) / int64(perPage))]: the division truncates. *)
Definition last_page (total perPage : Z) : Z :=
  if (0 <? perPage)%Z then Z.quot (wrap64 (wrap64 (total + perPage) - 1)) perPage else 0%Z.

Definition page_offset (page perPage : Z) : Z := wrap64 (wrap64 (page - 1) * perPage).

(** The page and the destination, unchanged when there is nothing to read. *)
Definition Paginate (dest : value) (page perPage : Z) (b : Builder) : ME (Pagination * value) :=
  let page := clamp_page page in
  let perPage := clamp_perPage perPage in
  total ← Count b;
  let b := applyScope b in
  let p := mkPage total page perPage (last_page total perPage) in
  if (total =? 0)%Z then mret (p, dest)
  else
    d ← FindAll [dest] (Offset (page_offset page perPage) (Limit perPage b));
    mret (p, d).

Definition Exec (b : Builder) : ME Z :=
  let c := clone b in
  let '(query, args) := Build c in
  res ← Executor_Exec (b_executor c) (b_ctx c) query args;
  mret (resultAffected res).

Definition Debug (b : Builder) : string * list value := Build b.
End Read.

(** ** Pagination *)

Lemma clamp_perPage_range p : (1 <= clamp_perPage p <= 100)%Z.
Proof. unfold clamp_perPage. repeat case_match; to_prop; lia. Qed.

Lemma clamp_page_range p : (1 <= clamp_page p)%Z.
Proof. unfold clamp_page. case_match; to_prop; lia. Qed.

(** The number of pages is the ceiling of the quotient. *)
Lemma last_page_ceil total perPage :
  (1 <= perPage <= 100)%Z → (0 <= total <= max_int64 - 100)%Z →
  ((last_page total perPage - 1) * perPage < total <= last_page total perPage * perPage)%Z.
Proof.
  intros Hp Ht. unfold max_int64 in Ht. unfold last_page. rewrite (proj2 (Z.ltb_lt _ _)) by lia.
  rewrite (wrap64_id (total + perPage)) by (unfold in_int64, min_int64, max_int64; lia).
  rewrite wrap64_id by (unfold in_int64, min_int64, max_int64; lia).
  rewrite Z.quot_div_nonneg by lia.
  pose proof (Z.div_mod (total + perPage - 1) perPage ltac:(lia)).
  pose proof (Z.mod_pos_bound (total + perPage - 1) perPage ltac:(lia)). nia.
Qed.

Lemma page_offset_exact total page perPage :
  (1 <= perPage <= 100)%Z → (0 <= total <= max_int64 - 100)%Z →
  (1 <= page <= last_page total perPage)%Z →
  page_offset page perPage = ((page - 1) * perPage)%Z ∧ (0 <= (page - 1) * perPage < total)%Z.
Proof.
  intros Hp Ht Hpg. pose proof (last_page_ceil total perPage Hp Ht) as Hl.
  assert (0 <= (page - 1) * perPage < total)%Z as Hb by nia.
  unfold page_offset. unfold max_int64 in Ht.
  rewrite (wrap64_id (page - 1)) by (unfold in_int64, min_int64, max_int64; nia).
  rewrite wrap64_id by (unfold in_int64, min_int64, max_int64; lia). done.
Qed.

Section PaginateTheorems.
Context `{Unicode} `{Platform} `{Driver}.

Lemma Paginate_result dest page perPage b w p d w' :
  Paginate dest page perPage b w = (Ret (inr (p, d)), w') →
  p = mkPage (Total p) (clamp_page page) (clamp_perPage perPage)
        (last_page (Total p) (clamp_perPage perPage)).
Proof.
  unfold Paginate, mbind, ME_bind. destruct (Count b w) as [[[?|total]|?] w1]; try done.
  destruct (total =? 0)%Z.
  - intros Heq. by injection Heq as <- <- <-.
  - destruct (FindAll _ _ w1) as [[[?|d1]|?] w2]; try done. intros Heq. by injection Heq as <- <- <-.
Qed.

(** A page that is returned has between 1 and 100 entries per page and a
    page number of at least 1; for any total the database can report (up to
    [2^63 - 101]) the last page is the ceiling of the total over the page size, and
    a page number up to it gives an offset inside the result, with no overflow. *)
Theorem Paginate_bounds dest page perPage b w p d w' :
  Paginate dest page perPage b w = (Ret (inr (p, d)), w') →
  (1 <= PerPage p <= 100 ∧ 1 <= Page p)%Z ∧
  ((0 <= Total p <= max_int64 - 100)%Z →
     ((LastPage p - 1) * PerPage p < Total p <= LastPage p * PerPage p)%Z ∧
     ((Page p <= LastPage p)%Z →
        page_offset (Page p) (PerPage p) = ((Page p - 1) * PerPage p)%Z ∧
        (0 <= (Page p - 1) * PerPage p < Total p)%Z)).
Proof.
  intros Hp%Paginate_result. rewrite Hp. simpl.
  pose proof (clamp_perPage_range perPage). pose proof (clamp_page_range page).
  split; [lia|]. intros Ht. split; [by apply last_page_ceil|]. intros Hl.
  by apply page_offset_exact with (total := Total p).
Qed.
End PaginateTheorems.

(** The page number is not bounded above: a large one makes the offset
    computation overflow, and a negative OFFSET is sent to the database. *)
Theorem page_offset_overflows : (page_offset (2 ^ 62) 100 < 0)%Z ∧ in_int64 (2 ^ 62).
Proof. by vm_compute. Qed.

Lemma Paginate_bounds_witness :
  (1 <= 10 <= 100 ∧ 1 <= 3)%Z ∧ ((3 - 1) * 10 < 25 <= 3 * 10)%Z.
Proof.
  destruct (Paginate_bounds (VPtr TTime (Some (VTime 0))) 3 0
    (fresh_builder "users" MySQLDialect sqlxExecutor (Some Background) None) world0
    (mkPage 25 3 10 3) (VPtr TTime (Some (VTime 0)))
    (Paginate (VPtr TTime (Some (VTime 0))) 3 0
      (fresh_builder "users" MySQLDialect sqlxExecutor (Some Background) None) world0).2) as [H1 H2].
  - vm_compute. reflexivity.
  - split; [exact H1|]. apply H2. by vm_compute.
Defined.
