(* ===== verification/DbWrite.v ===== *)
(** * Writes and the audit trail
    ([internal/db/builder_write.go], [history_ops.go], [Upsert] of [builder.go])

    Insert, update, delete, restore, purge, retain and upsert, raw and with
    history.  A method that writes through a model pointer returns the model it
    leaves behind. *)

From S2P Require Import Prelude GoStrings GoValue Util HttpErr DbSanitize DbModel DbPrepared DbExec.
From S2P Require Import DbBuilder DbSql DbRead.
From Stdlib Require Import Ascii.

Section Write.
Context `{Unicode} `{Platform} `{Driver} `{HistoryCodec}.

(** ** Raw statements *)

(** The columns taken from a [map[string]any]: valid names, selected if any
    column is selected, zero values of nullable columns as NULL. *)
Definition filter_map (b : Builder) (m : gmap string value) : gmap string value :=
  let selectedCols := selectedColNames b in
  map_imap (λ k v,
    if bool_decide (SanitizeIdentifier k = "") then None
    else if negb (bool_decide (selectedCols = [])) && negb (bool_decide (k ∈ selectedCols)) then None
    else Some (if bool_decide (k ∈ b_nullableCols b)
               then if isZero (type_of v) v then VNil else v
               else v)) m.

Definition is_map (v : value) : bool := match v with VMap _ _ => true | _ => false end.

(** The table name and the columns of a struct or map operand. *)
Definition operand_data (b : Builder) (d : value) : R (string * gmap string value) :=
  if is_map d then
    match as_map d with
    | Some m => mret ("", filter_map b m)
    | None => fail (ENew "unsupported map type")
    end
  else
    tableName ← getTableNameFromModel d;
    m ← structToMap d (selectedColNames b);
    mret (tableName, m).

(** The builder's table, or the operand's when it has none. *)
Definition resolve_table (tableName : string) (b : Builder) : R Builder :=
  if bool_decide (b_table b = "") then
    if bool_decide (tableName = "") then fail ErrTableRequired
    else
      let t := SanitizeIdentifier tableName in
      if bool_decide (t = "") then fail ErrInvalidTableName else mret (set_table t b)
  else mret b.

Definition operand_struct (d : value) : option dbCachedStruct :=
  if is_map d then None
  else match deref d with
       | DNil => None
       | DVal v => (λ '(n, tn, fs, _), getStructInfo n tn fs) <$> as_struct v
       end.

Definition with_keys (info : option dbCachedStruct) (b : Builder) : Builder :=
  match info with
  | None => b
  | Some i =>
      let b := match primaryKeys i with [] => b | pks => set_primaryKeys pks b end in
      if bool_decide (autoIncCol i ≠ "") then set_autoIncCol (autoIncCol i) b else b
  end.

(** The number of rows and the operand with its generated key. *)
Definition execInsertRaw (d : value) (b : Builder) : ME (Z * value) :=
  '(tableName, mapData) ← liftR (operand_data b d);
  if bool_decide (size mapData = 0) then failM ErrEmptyData
  else
    let c := set_inserts mapData (set_action "insert" (clone b)) in
    let c := with_keys (operand_struct d) c in
    c ← liftR (resolve_table tableName c);
    let '(query, args) := Build c in
    if bool_decide (b_autoIncCol c ≠ "") && bool_decide (Dialect_Name (b_dialect c) = "postgres") then
      r ← Executor_Get (b_executor c) (b_ctx c) (VPtr (TInt KInt64) (Some (VInt KInt64 0))) query args;
      mret (1%Z, assignAutoIncrementID d (scanned_int r))
    else
      res ← Executor_Exec (b_executor c) (b_ctx c) query args;
      let d := match res with
               | Some r => match LastInsertId r with
                           | inr id => assignAutoIncrementID d id
                           | inl _ => d
                           end
               | None => d
               end in
      mret (resultAffected res, d).

(** The rows of a batch: one placeholder list and one argument list per row. *)
Definition batch_row (cols : list string) (m : gmap string value) : string * list value :=
  ("(" +:+ Strings.Join ", " ((λ _, "?") <$> cols) +:+ ")",
   (λ c, default VNil (m !! c)) <$> cols).

Definition InsertBatch (data : list value) (b : Builder) : ME Z :=
  match data with
  | [] => failM ErrEmptyData
  | first :: _ =>
      tableName ← liftR (getTableNameFromModel first);
      maps ← liftR (mapR (λ item, structToMap item (selectedColNames b)) data);
      match filter (λ m : gmap string value, size m ≠ 0) maps with
      | [] => failM (wrapf "" ErrEmptyData " after processing")
      | m0 :: ms =>
          let cols := sort_strings (filter (λ k, SanitizeIdentifier k ≠ "") (map_to_list m0).*1) in
          let rows := batch_row cols <$> (m0 :: ms) in
          let c := set_action "insert_batch" (clone b) in
          let c := set_table (SanitizeIdentifier tableName) c in
          let c := set_insertBatchCols cols c in
          let c := set_insertBatchPlaceholders rows.*1 c in
          let c := set_insertBatchArgs (rows ≫= snd) c in
          let c := match operand_struct first with
                   | Some i => match primaryKeys i with [] => c | pks => set_primaryKeys pks c end
                   | None => c
                   end in
          let '(query, args) := Build c in
          res ← Executor_Exec (b_executor c) (b_ctx c) query args;
          mret (resultAffected res)
      end
  end.

Definition execUpdate (data : value) (skipWhereCheck : bool) (b : Builder) : ME Z :=
  let b := applyScope b in
  match (if negb skipWhereCheck then checkWhereRequired b else None) with
  | Some e => failM e
  | None =>
      '(tableName, mapData) ← liftR (operand_data b data);
      if bool_decide (size mapData = 0) then failM ErrEmptyData
      else
        let c := set_updates mapData (set_action "update" (clone b)) in
        c ← liftR (resolve_table tableName c);
        let '(query, args) := Build c in
        res ← Executor_Exec (b_executor c) (b_ctx c) query args;
        mret (resultAffected res)
  end.

(** The table of a delete: the model's when the builder has none. *)
Definition delete_table (model : value) (b : Builder) : R Builder :=
  b ← match model with
      | VNil => mret b
      | _ =>
          tblName ← getTableNameFromModel model;
          if bool_decide (b_table b = "") then
            let t := SanitizeIdentifier tblName in
            if bool_decide (t = "") then fail ErrInvalidTableName else mret (set_table t b)
          else mret b
      end;
  if bool_decide (b_table b = "") then fail ErrTableRequired else mret b.

Definition map1 (k : string) (v : value) : gmap string value := {[k := v]}.

Definition execDelete (model : value) (skipWhereCheck : bool) (b : Builder) : ME Z :=
  let b := applyScope b in
  if bool_decide (b_softDeleteCondition b ≠ "") then
    now ← time_Now;
    execUpdate (map_value (map1 "deleted_at" (VTime now))) skipWhereCheck b
  else
    match (if negb skipWhereCheck then checkWhereRequired b else None) with
    | Some e => failM e
    | None =>
        c ← liftR (delete_table model (set_action "delete" (clone b)));
        let '(query, args) := Build c in
        res ← Executor_Exec (b_executor c) (b_ctx c) query args;
        mret (resultAffected res)
    end.

Definition execHardDelete (model : value) (b : Builder) : ME Z :=
  c ← liftR (delete_table model (set_action "delete" (set_softDeleteCondition "" (clone b))));
  let '(query, args) := Build c in
  res ← Executor_Exec (b_executor c) (b_ctx c) query args;
  mret (resultAffected res).

(** helpers.go *)
Definition UpdateAll (data : value) (b : Builder) : ME Z := execUpdate data true b.
Definition DeleteAll (data : value) (b : Builder) : ME Z := execDelete data true b.

(** ** Transactions *)

(** [defer func() { if p := recover(); p != nil { tx.Rollback(); panic(p) } }()]. *)
Definition defer_rollback {A} (tx : Executor) (m : ME A) : ME A := λ w,
  match m w with
  | (Panic p, w') =>
      match Tx_Rollback tx w' with
      | (Panic p', w'') => (Panic p', w'')
      | (_, w'') => (Panic p, w'')
      end
  | r => r
  end.

Definition withTx {A} (b : Builder) (fn : Builder → ME A) : ME A :=
  if is_Tx (b_executor b) then fn b
  else
    let ctx := match b_ctx b with None => Some Background | c => c end in
    tx ← Executor_Begin (b_executor b) ctx;
    let tb := set_executor tx (clone b) in
    defer_rollback tx
      (r ← try (fn tb);
       match r with
       | inl e => _ ← try (Tx_Rollback tx); failM e
       | inr a => Tx_Commit tx;; mret a
       end).

(** ** Rows under lock, history columns *)

Definition ensureAuxCol (self : value) (structField colName : string) (b : Builder) : outcome Builder :=
  match b_selects b with
  | [] => Ret b
  | _ =>
      match hasField self structField with
      | Panic p => Panic p
      | Ret false => Ret b
      | Ret true =>
          if existsb (λ s, bool_decide (s_expr s = colName)) (b_selects b) then Ret b
          else Ret (set_selects (b_selects b ++ [mkSelect colName []]) b)
      end
  end.

(** Errors of both calls are ignored. *)
Definition syncPrimaryKey (self old : value) : outcome value :=
  match PrimaryKeyValue old with
  | Panic p => Panic p
  | Ret (inl _) => Ret self
  | Ret (inr id) =>
      match SetPrimaryKeyValue self id with
      | Panic p => Panic p
      | Ret (inl _) => Ret self
      | Ret (inr self') => Ret self'
      end
  end.

(** [reflect.New(reflect.TypeOf(self).Elem())]. *)
Definition new_like (self : value) : value :=
  match self with VPtr t _ => VPtr t (Some (zero_value t)) | _ => VNil end.

(** The locked row and whether it exists. *)
Definition lockCurrentRow (self : value) (b : Builder) : ME (value * bool) :=
  let lb := set_selects [] (set_dest VNil (clone b)) in
  '(found, old) ← Find [new_like self] (LockForUpdate lb);
  mret (old, found).

Definition history_row_fields : list sfield := [SField "History" TString true false [("db", "history")]].
Definition historyOnlyRow : gotype := TStruct "historyOnlyRow" None history_row_fields.

Definition row_history (row : value) : string :=
  match row with VPtr _ (Some (VStruct _ _ _ [VString s])) => s | _ => "" end.

Definition loadRawHistoryColumn (lock : bool) (b : Builder) : ME (string * bool) :=
  let c := Cols ["history"] (set_selects [] (set_dest VNil (clone b))) in
  let c := if lock then LockForUpdate c else c in
  '(found, row) ← Find [VPtr historyOnlyRow (Some (zero_value historyOnlyRow))] c;
  mret (row_history row, found).

Definition historyColumnHint (e : error) : error :=
  wrapf "kiya: gagal membaca kolom history (kalau tabel ini tidak punya kolom history, panggil .NoHistory()): " e "".

(** [m], its error replaced. *)
Definition map_err {A} (f : error → error) (m : ME A) : ME A :=
  r ← try m; match r with inl e => failM (f e) | inr a => mret a end.

(** A history entry dated now. *)
Definition new_entry (action : string) (changes : option (gmap string value)) (who : value * string)
  : ME HistoryEntry :=
  now ← time_Now;
  mret (buildHistoryEntry now action changes who.1 who.2).

(** ** Writes with history *)

(** The [CreatedBy]/[ModifiedBy] column of a model, set to the actor. *)
Definition stamp_actor (field column actorName : string) (self : value) (b : Builder)
  : R (value * Builder) :=
  has ← lift (hasField self field);
  if has : bool then
    self ← lift (setActorField self field actorName);
    b ← lift (ensureAuxCol self field column b);
    mret (self, b)
  else mret (self, b).

(** The history field of [self] set to [text], and its column selected. *)
Definition store_history (i : nat) (text : string) (self : value) (b : Builder) : R (value * Builder) :=
  self ← lift (setHistoryString self i text);
  b ← lift (ensureAuxCol self "History" "history" b);
  mret (self, b).

Definition insertWithHistory (self : value) (b : Builder) : ME value :=
  who ← liftO (actor b);
  '(self, b) ←
    (if negb (b_historyTrackingDisabled b) then
       changes ← liftR (StructToHistoryMap self (selectedColNames b));
       match historyFieldIndex self with
       | Some i =>
           entry ← new_entry "created" (Some changes) who;
           liftR (store_history i (appendHistoryJSON "" entry) self b)
       | None => mret (self, b)
       end
     else mret (self, b));
  '(self, b) ← liftR (stamp_actor "CreatedBy" "created_by" who.2 self b);
  '(_, self) ← execInsertRaw self b;
  mret self.

Definition updateExistingOrNotFound (self : value) (b : Builder) : ME value :=
  '(old, found) ← lockCurrentRow self b;
  if negb found then failM notFoundErr
  else
    who ← liftO (actor b);
    '(self, b) ←
      (if negb (b_historyTrackingDisabled b) then
         changes ← liftR (diffForHistory old self (selectedColNames b));
         match historyFieldIndex old with
         | Some i =>
             if bool_decide (size changes = 0) then mret (self, b)
             else
               hist ← liftO (getHistoryString old i);
               entry ← new_entry "modified" (Some changes) who;
               liftR (store_history i (appendHistoryJSON hist entry) self b)
         | None => mret (self, b)
         end
       else mret (self, b));
    '(self, b) ← liftR (stamp_actor "ModifiedBy" "modified_by" who.2 self b);
    affected ← execUpdate self true b;
    if (affected =? 0)%Z then failM notFoundErr
    else liftO (syncPrimaryKey self old).

(** The check of an update or delete before its transaction. *)
Definition guarded {A} (b : Builder) (k : Builder → ME A) : ME A :=
  let b := applyScope b in
  match checkWhereRequired b with Some e => failM e | None => k b end.

Definition updateWithHistory (self : value) (b : Builder) : ME value :=
  guarded b (λ b, withTx b (λ tb, updateExistingOrNotFound self tb)).

Definition upsertWithHistory (self : value) (b : Builder) : ME value :=
  match b_wheres b with
  | [] => insertWithHistory self b
  | _ =>
      let b := applyScope b in
      withTx b (λ tb, updateExistingOrNotFound self tb)
  end.

(** The history column of a soft delete or a restore, when the model has one. *)
Definition history_column (action : string) (who : value * string) (old : value)
    (data : gmap string value) (tb : Builder) : ME (gmap string value) :=
  if negb (b_historyTrackingDisabled tb) then
    match historyFieldIndex old with
    | Some i =>
        hist ← liftO (getHistoryString old i);
        entry ← new_entry action None who;
        mret (<["history" := VString (appendHistoryJSON hist entry)]> data)
    | None => mret data
    end
  else mret data.

(** The final update of a soft delete or restore. *)
Definition update_found (data : gmap string value) (tb : Builder) : ME unit :=
  affected ← execUpdate (map_value data) true (set_selects [] tb);
  if (affected =? 0)%Z then failM notFoundErr else mret ().

Definition deleteWithHistory (self : value) (b : Builder) : ME value :=
  guarded b (λ b, withTx b (λ tb,
    '(old, found) ← lockCurrentRow self tb;
    if negb found then failM notFoundErr
    else
      who ← liftO (actor tb);
      if bool_decide (b_softDeleteCondition tb = "") then
        _ ← execHardDelete self tb;
        liftO (syncPrimaryKey self old)
      else
        now ← time_Now;
        let data := map1 "deleted_at" (VTime now) in
        has ← liftO (hasField self "DeletedBy");
        let data := if has : bool then <["deleted_by" := VString who.2]> data else data in
        data ← history_column "deleted" who old data tb;
        update_found data tb;;
        liftO (syncPrimaryKey self old))).

Definition restoreWithHistory (self : value) (b : Builder) : ME value :=
  guarded (set_softDeleteCondition "" b) (λ b, withTx b (λ tb,
    '(old, found) ← lockCurrentRow self tb;
    if negb found then failM notFoundErr
    else
      who ← liftO (actor tb);
      let data := map1 "deleted_at" VNil in
      has ← liftO (hasField self "DeletedBy");
      let data := if has : bool then <["deleted_by" := VNil]> data else data in
      data ← history_column "restored" who old data tb;
      update_found data tb;;
      liftO (syncPrimaryKey self old))).

Definition purgeWithModel (self : value) (b : Builder) : ME value :=
  guarded (set_softDeleteCondition "" b) (λ b, withTx b (λ tb,
    '(old, found) ← lockCurrentRow self tb;
    if negb found then failM notFoundErr
    else
      _ ← execHardDelete self tb;
      liftO (syncPrimaryKey self old))).

Definition insertMapWithHistory (data : gmap string value) (b : Builder) : ME unit :=
  who ← liftO (actor b);
  entry ← new_entry "created" (Some data) who;
  _ ← execInsertRaw (map_value (<["history" := VString (appendHistoryJSON "" entry)]> data)) b;
  mret ().

(** The stored history of the row under lock, or the not-found error. *)
Definition locked_history (tb : Builder) : ME string :=
  '(hist, found) ← map_err historyColumnHint (loadRawHistoryColumn true tb);
  if negb found then failM notFoundErr else mret hist.

Definition updateMapWithHistory (data : gmap string value) (b : Builder) : ME unit :=
  guarded b (λ b, withTx b (λ tb,
    existingHist ← locked_history tb;
    who ← liftO (actor tb);
    entry ← new_entry "modified" (Some data) who;
    update_found (<["history" := VString (appendHistoryJSON existingHist entry)]> data) tb)).

Definition deleteRawWithHistory (model : value) (b : Builder) : ME unit :=
  guarded b (λ b, withTx b (λ tb,
    if bool_decide (b_softDeleteCondition tb = "") then
      exists_ ← Exist tb;
      if negb exists_ then failM notFoundErr
      else _ ← execHardDelete model (applyScope tb); mret ()
    else
      existingHist ← locked_history tb;
      who ← liftO (actor tb);
      now ← time_Now;
      entry ← new_entry "deleted" None who;
      update_found (<["history" := VString (appendHistoryJSON existingHist entry)]>
                      (map1 "deleted_at" (VTime now))) tb)).

Definition restoreRawWithHistory (b : Builder) : ME unit :=
  guarded (set_softDeleteCondition "" b) (λ b, withTx b (λ tb,
    existingHist ← locked_history tb;
    who ← liftO (actor tb);
    entry ← new_entry "restored" None who;
    update_found (<["history" := VString (appendHistoryJSON existingHist entry)]>
                    (map1 "deleted_at" VNil)) tb)).

(** ** The public operations

    The result is the operand after the operation. *)

Definition upsertRawConstraint (d : value) (b : Builder) : ME value :=
  b ← match b_onDuplicateUpdateCols b with
      | [] =>
          match b_selects b with
          | [] =>
              cols ← liftR (columnsForUpsert d);
              mret (set_onDuplicateUpdateCols cols b)
          | ss => mret (set_onDuplicateUpdateCols (s_expr <$> ss) b)
          end
      | _ => mret b
      end;
  '(_, d) ← execInsertRaw d b;
  mret d.

Definition Upsert (data : list value) (b : Builder) : ME value :=
  let d := resolveOperand data b in
  if is_nil d then failM ErrEmptyData
  else if structPtr d then upsertWithHistory d b
  else upsertRawConstraint d b.

Definition Insert (data : list value) (b : Builder) : ME value :=
  let d := resolveOperand data b in
  if is_nil d then failM ErrEmptyData
  else if structPtr d then insertWithHistory d b
  else
    match as_map d, b_historyTrackingDisabled b with
    | Some m, false => insertMapWithHistory m b;; mret d
    | _, _ => '(_, d) ← execInsertRaw d b; mret d
    end.

Definition Update (data : list value) (b : Builder) : ME value :=
  let d := resolveOperand data b in
  if is_nil d then failM ErrEmptyData
  else if structPtr d then updateWithHistory d b
  else
    match as_map d, b_historyTrackingDisabled b with
    | Some m, false => updateMapWithHistory m b;; mret d
    | _, _ => _ ← execUpdate d false b; mret d
    end.

Definition Delete (models : list value) (b : Builder) : ME value :=
  let d := resolveOperand models b in
  if structPtr d then deleteWithHistory d b
  else if negb (b_historyTrackingDisabled b) then deleteRawWithHistory d b;; mret d
  else _ ← execDelete d false b; mret d.

Definition Purge (models : list value) (b : Builder) : ME value :=
  let d := resolveOperand models b in
  if structPtr d then purgeWithModel d b
  else _ ← execDelete d false (set_softDeleteCondition "" b); mret d.

Definition PurgeAll (models : list value) (b : Builder) : ME Z :=
  let d := resolveOperand models b in
  execDelete d true (set_softDeleteCondition "" b).

Definition Restore (models : list value) (b : Builder) : ME value :=
  let d := resolveOperand models b in
  if structPtr d then restoreWithHistory d b
  else if negb (b_historyTrackingDisabled b) then restoreRawWithHistory b;; mret d
  else
    _ ← execUpdate (map_value (map1 "deleted_at" VNil)) false (set_softDeleteCondition "" b);
    mret d.

(** A [WhereFunc] changes the builder it is given. *)
Definition Retain (keepIDs : list Z) (purge : bool) (where_ : list (Builder → Builder)) (b : Builder)
  : ME Z :=
  if is_nil (b_dest b) then
    failM (ENew "kiya: Retain requires a bound model (call Bind() first)")
  else
    pkCol ← liftR (PrimaryKeyColumn (b_dest b));
    let b := match keepIDs with
             | [] => b
             | _ => WhereNotIn pkCol (VInt KInt64 <$> keepIDs) b
             end in
    let b := foldl (λ b f, f b) b where_ in
    let b := if purge then set_softDeleteCondition "" b else b in
    DeleteAll (b_dest b) b.
End Write.
