(* ===== verification/DbSafety.v ===== *)
(** * Safety of the write operations

    Updates and deletes without a WHERE clause are refused before any statement
    is issued, and every write with history runs in one transaction that is
    committed exactly when the operation succeeds.  The theorems hold for every
    driver. *)

From S2P Require Import Prelude GoStrings GoValue Util HttpErr DbSanitize DbModel DbPrepared DbExec.
From S2P Require Import DbBuilder DbSql DbRead DbWrite.

(** ** What a builder keeps *)

Section Keeps.
Context `{Unicode} `{Platform} `{Driver} `{HistoryCodec}.

Lemma applyScope_executor b : b_executor (applyScope b) = b_executor b.
Proof. unfold applyScope. repeat case_match; done. Qed.

Lemma applyScope_soft b x :
  applyScope (set_softDeleteCondition x b) = set_softDeleteCondition x (applyScope b).
Proof.
  unfold applyScope.
  change (scope_fields (set_scopeApplied true (set_softDeleteCondition x b)))
    with (scope_fields (set_scopeApplied true b)).
  cbn [set_softDeleteCondition set_scopeApplied b_scopeApplied b_scope b_res b_scopeSkipped b_wheres].
  repeat case_match; done.
Qed.

Lemma applyScope_applied b : b_scopeApplied (applyScope b) = true.
Proof. unfold applyScope. repeat case_match; done. Qed.

Lemma applyScope_idemp b : applyScope (applyScope b) = applyScope b.
Proof. unfold applyScope at 1. by rewrite applyScope_applied. Qed.

Lemma applyScope_unsafe b : b_unsafeAllowEmptyWhere (applyScope b) = b_unsafeAllowEmptyWhere b.
Proof. unfold applyScope. repeat case_match; done. Qed.

Lemma Cols_executor cols b : b_executor (Cols cols b) = b_executor b.
Proof. unfold Cols. revert b. induction cols as [|c cols IH]; intros b; simpl; [done|]. by rewrite IH. Qed.

Lemma exec_Limit n b : b_executor (Limit n b) = b_executor b.
Proof. reflexivity. Qed.
Lemma exec_set_selects l b : b_executor (set_selects l b) = b_executor b.
Proof. reflexivity. Qed.
Lemma exec_set_dest d b : b_executor (set_dest d b) = b_executor b.
Proof. reflexivity. Qed.
Lemma exec_LockForUpdate b : b_executor (LockForUpdate b) = b_executor b.
Proof. reflexivity. Qed.

Lemma require_table_eq b b' : require_table b = mret b' → b' = b.
Proof. unfold require_table. case_bool_decide; intros Heq; [done|]. by injection Heq as <-. Qed.

Lemma with_struct_executor n tn fs b : b_executor (with_struct n tn fs b) = b_executor b.
Proof.
  unfold with_struct.
  assert (∀ l b, b_executor (foldl (λ b f, Cols [name f] b) b l) = b_executor b) as Hf.
  { induction l as [|f l IH]; intros b'; simpl; [done|]. by rewrite IH. }
  repeat case_match; simpl; auto.
Qed.

Lemma find_builder_executor d b b' :
  find_builder d b = mret b' → b_executor b' = b_executor b.
Proof.
  unfold find_builder, with_model_table, require_table.
  case_bool_decide; [|intros; by simplify_eq/=].
  destruct d; try done. destruct v; try done.
  intros (b1 & Hb1 & Hreq)%R_bind_ret. case_bool_decide; [done|]. injection Hreq as <-.
  destruct (struct_type (dest_elem t)) as [[[n tn] fs]|].
  - injection Hb1 as <-. by rewrite with_struct_executor.
  - case_bool_decide; [|by injection Hb1 as <-].
    apply R_bind_ret in Hb1 as (tbl & _ & Hb1). by injection Hb1 as <-.
Qed.

Lemma resolve_table_executor t b b' : resolve_table t b = mret b' → b_executor b' = b_executor b.
Proof. unfold resolve_table. repeat case_match; intros Heq; try done; by injection Heq as <-. Qed.

Lemma delete_table_executor m b b' : delete_table m b = mret b' → b_executor b' = b_executor b.
Proof.
  unfold delete_table. intros (b1 & Hb1 & Hreq)%R_bind_ret.
  case_bool_decide; [done|]. injection Hreq as <-.
  assert ((tblName ← getTableNameFromModel m;
    if bool_decide (b_table b = "") then
      if bool_decide (SanitizeIdentifier tblName = "") then fail ErrInvalidTableName
      else mret (set_table (SanitizeIdentifier tblName) b) else mret b) = mret b1 →
    b_executor b1 = b_executor b) as Hm.
  { intros (tbl & _ & Hb2)%R_bind_ret. repeat case_match; try done; by injection Hb2 as <-. }
  destruct m; try (by apply Hm). by injection Hb1 as <-.
Qed.

Lemma ensureAuxCol_executor self f c b b' :
  ensureAuxCol self f c b = Ret b' → b_executor b' = b_executor b.
Proof. unfold ensureAuxCol. repeat case_match; intros; by simplify_eq/=. Qed.

Lemma stamp_actor_executor f c nm self b self' b' :
  stamp_actor f c nm self b = mret (self', b') → b_executor b' = b_executor b.
Proof.
  unfold stamp_actor. intros (has & _ & Hm)%R_bind_ret. destruct has; [|by injection Hm as <- <-].
  apply R_bind_ret in Hm as (s & _ & Hm). apply R_bind_ret in Hm as (b1 & Hb1 & Hm).
  injection Hm as <- <-. destruct (ensureAuxCol s f c b) eqn:E; [|done]. injection Hb1 as <-.
  by eapply ensureAuxCol_executor.
Qed.

Lemma store_history_executor i t self b self' b' :
  store_history i t self b = mret (self', b') → b_executor b' = b_executor b.
Proof.
  unfold store_history. intros (s & _ & Hm)%R_bind_ret. apply R_bind_ret in Hm as (b1 & Hb1 & Hm).
  injection Hm as <- <-. destruct (ensureAuxCol _ _ _ b) eqn:E; [|done]. injection Hb1 as <-.
  by eapply ensureAuxCol_executor.
Qed.
End Keeps.

(** ** Refusal without a WHERE clause *)

Section Refusal.
Context `{Unicode} `{Platform} `{Driver} `{HistoryCodec}.

(** No call to the database: at most the clock is read. *)
Definition only_clock (ev : event) : Prop := ev = EvNow.

Definition unfiltered (b : Builder) : Prop :=
  b_wheres (applyScope b) = [] ∧ b_unsafeAllowEmptyWhere b = false.

Lemma unfiltered_check b : unfiltered b → checkWhereRequired (applyScope b) = Some ErrWhereClauseRequired.
Proof. intros [Hw Hu]. unfold checkWhereRequired. rewrite Hw, applyScope_unsafe, Hu. done. Qed.

Lemma unfiltered_soft b x : unfiltered b → unfiltered (set_softDeleteCondition x b).
Proof. intros [Hw Hu]. split; [|done]. by rewrite applyScope_soft. Qed.

Lemma unfiltered_scope b : unfiltered b → unfiltered (applyScope b).
Proof. intros [Hw Hu]. split; [by rewrite applyScope_idemp|by rewrite applyScope_unsafe]. Qed.

Lemma guarded_refuses {A} b (k : Builder → ME A) w :
  unfiltered b → guarded b k w = (Ret (inl ErrWhereClauseRequired), w).
Proof. intros Hb. unfold guarded. by rewrite unfiltered_check. Qed.

Lemma execUpdate_refuses d b w :
  unfiltered b → execUpdate d false b w = (Ret (inl ErrWhereClauseRequired), w).
Proof. intros Hb. unfold execUpdate. simpl. by rewrite unfiltered_check. Qed.

(** The operation returns the error and leaves the database alone. *)
Definition refused {A} (m : ME A) : Prop :=
  ∀ w, (m w).1 = Ret (inl ErrWhereClauseRequired) ∧
       ∃ l, trace (m w).2 = trace w ++ l ∧ Forall only_clock l.

Lemma refused_same {A} (m : ME A) :
  (∀ w, m w = (Ret (inl ErrWhereClauseRequired), w)) → refused m.
Proof. intros Hm w. rewrite Hm. split; [done|]. exists []. by rewrite app_nil_r. Qed.

Lemma refused_bind {A B} (m : ME A) (f : A → ME B) : refused m → refused (m ≫= f).
Proof.
  intros Hm w. specialize (Hm w). unfold mbind, ME_bind. destruct (m w) as [r w'].
  simpl in *. destruct Hm as [-> Hl]. done.
Qed.

Lemma execDelete_refuses d b : unfiltered b → refused (execDelete d false b).
Proof.
  intros Hb w. unfold execDelete. case_bool_decide.
  - unfold mbind, ME_bind, time_Now. simpl.
    rewrite execUpdate_refuses by (by apply unfiltered_scope). simpl. split; [done|].
    exists [EvNow]. split; [done|]. by constructor.
  - cbn [negb]. rewrite unfiltered_check by done. simpl. split; [done|]. exists []. by rewrite app_nil_r.
Qed.

Lemma writes_refused b d :
  unfiltered b →
  (d ≠ VNil → refused (Update [d] b)) ∧ refused (Delete [d] b) ∧
  refused (Purge [d] b) ∧ refused (Restore [d] b).
Proof.
  intros Hb. pose proof (unfiltered_soft b "" Hb) as Hb'.
  assert (∀ A (k : Builder → ME A), refused (guarded b k)) as Hg
    by (intros; apply refused_same; intros; by apply guarded_refuses).
  assert (∀ A (k : Builder → ME A), refused (guarded (set_softDeleteCondition "" b) k)) as Hg'
    by (intros; apply refused_same; intros; by apply guarded_refuses).
  split; [|split; [|split]].
  - intros Hd. unfold Update. simpl. destruct (is_nil d) eqn:E; [by destruct d|].
    destruct (structPtr d); [apply Hg|].
    repeat case_match; apply refused_bind; try apply Hg;
      apply refused_same; intros; by apply execUpdate_refuses.
  - unfold Delete. simpl. destruct (structPtr d); [apply Hg|].
    destruct (b_historyTrackingDisabled b); apply refused_bind; [by apply execDelete_refuses|apply Hg].
  - unfold Purge. simpl. destruct (structPtr d); [apply Hg'|].
    apply refused_bind. by apply execDelete_refuses.
  - unfold Restore. simpl. destruct (structPtr d); [apply Hg'|].
    destruct (b_historyTrackingDisabled b); apply refused_bind; [|apply Hg'].
    apply refused_same. intros. by apply execUpdate_refuses.
Qed.

(** [C4] An update, delete, purge or restore whose builder has no condition after
    the scope (and was not marked [Unsafe]) is refused with
    [ErrWhereClauseRequired], for every operand, with or without history, and
    before any statement reaches the database. *)
Theorem write_requires_where b d :
  unfiltered b →
  (d ≠ VNil → refused (Update [d] b)) ∧ refused (Delete [d] b) ∧
  refused (Purge [d] b) ∧ refused (Restore [d] b).
Proof. apply writes_refused. Qed.
End Refusal.

Lemma write_requires_where_witness :
  refused (Delete [VNil] (fresh_builder "users" MySQLDialect sqlxExecutor (Some Background) None)).
Proof.
  apply (write_requires_where (fresh_builder "users" MySQLDialect sqlxExecutor (Some Background) None) VNil).
  by split.
Defined.

(** ** Transactions *)

(** An executor on the connection pool, as [NewDatabase] builds it. *)
Fixpoint is_pool (e : Executor) : Prop :=
  match e with
  | sqlxExecutor | preparedExecutor => True
  | LoggedExecutor e' _ => is_pool e'
  | _ => False
  end.

(** The transaction an executor runs in (not a savepoint). *)
Fixpoint tx_id (e : Executor) : option nat :=
  match e with
  | sqlxTx n => Some n
  | loggedTx e' _ => tx_id e'
  | _ => None
  end.

(** An event inside transaction [tx]: statements run on its connection, and it
    is neither committed nor rolled back. *)
Definition in_tx (tx : nat) (ev : event) : Prop :=
  match ev with
  | EvExec c _ _ | EvQuery c _ _ => c = OnTx tx
  | EvNow | EvLog _ _ => True
  | _ => False
  end.

Section Transactions.
Context `{Unicode} `{Platform} `{Driver} `{HistoryCodec}.

Lemma tx_id_conn e tx c : tx_id e = Some tx → on_conn e c → c = OnTx tx.
Proof. induction e; simpl; intros; simplify_eq; auto. Qed.

Lemma tx_id_prepares e tx : tx_id e = Some tx → ¬ prepares e.
Proof. induction e; simpl; intros Htx; try done; auto. Qed.

Lemma statement_in_tx e tx q args ev : tx_id e = Some tx → statement_of e q args ev → in_tx tx ev.
Proof.
  intros Htx. pose proof (tx_id_prepares e tx Htx) as Hp.
  destruct ev; simpl; try done; try tauto; intros (_ & _ & Hc); by eapply tx_id_conn.
Qed.

Lemma Begin_pool e c w :
  is_pool e →
  (∃ err, Executor_Begin e (Some c) w = (Ret (inl err), add_trace [EvBeginFailed err] w)) ∨
  (∃ txe w', Executor_Begin e (Some c) w = (Ret (inr txe), w') ∧ tx_id txe = Some (next_tx w) ∧
     trace w' = trace w ++ [EvBegin (next_tx w)]).
Proof.
  induction e as [| | | |e IH lg|]; simpl; intros Hp; try done.
  1-2: unfold preparedExecutor_Begin, sqlxExecutor_Begin, mbind, ME_bind; simpl;
    destruct (drv_Begin (trace w)) as [err|]; [left; by exists err|right; by eexists _, _].
  destruct (IH Hp) as [[err Herr]|(txe & w' & Hr & Htx & Htr)].
  - left. exists err. unfold LoggedExecutor_Begin, mbind, ME_bind. by rewrite Herr.
  - right. exists (loggedTx txe lg), w'. unfold LoggedExecutor_Begin, mbind, ME_bind. by rewrite Hr.
Qed.

Lemma Commit_tx e tx w :
  tx_id e = Some tx →
  ∃ r, Tx_Commit e w = (match r with Some err => Ret (inl err) | None => Ret (inr ()) end,
                        add_trace [EvCommit tx r] w).
Proof.
  induction e as [| |n| | |e IH lg]; simpl; intros; simplify_eq; [|auto].
  exists (drv_Commit (trace w) tx). unfold sqlxTx_Commit, mbind, ME_bind. simpl.
  by destruct (drv_Commit _ _).
Qed.

Lemma Rollback_tx e tx w :
  tx_id e = Some tx →
  ∃ r, Tx_Rollback e w = (match r with Some err => Ret (inl err) | None => Ret (inr ()) end,
                          add_trace [EvRollback tx r] w).
Proof.
  induction e as [| |n| | |e IH lg]; simpl; intros; simplify_eq; [|auto].
  exists (drv_Rollback (trace w) tx). unfold sqlxTx_Rollback, mbind, ME_bind. simpl.
  by destruct (drv_Rollback _ _).
Qed.

(** How a transactional operation ends: refused at [Begin], or one transaction
    whose statements all run on its connection and which is closed once, by a
    commit exactly when the operation succeeds. *)
Inductive tx_outcome {A} : outcome (error + A) → list event → Prop :=
  | tx_not_begun err : tx_outcome (Ret (inl err)) [EvBeginFailed err]
  | tx_committed a tx body :
      Forall (in_tx tx) body → tx_outcome (Ret (inr a)) (EvBegin tx :: body ++ [EvCommit tx None])
  | tx_commit_failed err tx body :
      Forall (in_tx tx) body →
      tx_outcome (Ret (inl err)) (EvBegin tx :: body ++ [EvCommit tx (Some err)])
  | tx_rolled_back r tx body rb :
      Forall (in_tx tx) body → (∀ a, r ≠ Ret (inr a)) →
      tx_outcome r (EvBegin tx :: body ++ [EvRollback tx rb]).

Lemma withTx_outcome {A} b (fn : Builder → ME A) w :
  is_pool (b_executor b) →
  (∀ e tx, tx_id e = Some tx → emits (in_tx tx) (fn (set_executor e b))) →
  ∃ l, trace (withTx b fn w).2 = trace w ++ l ∧ tx_outcome (withTx b fn w).1 l.
Proof.
  intros Hp Hfn.
  enough (∃ r w' l, withTx b fn w = (r, w') ∧ trace w' = trace w ++ l ∧ tx_outcome r l)
    as (r & w' & l & -> & ? & ?) by (by exists l).
  unfold withTx. assert (is_Tx (b_executor b) = false) as -> by (by destruct (b_executor b)).
  set (ctx := match b_ctx b with None => Some Background | c => c end).
  assert (∃ c, ctx = Some c) as [c ->] by (unfold ctx; destruct (b_ctx b); by eexists).
  unfold mbind at 1, ME_bind at 1.
  destruct (Begin_pool (b_executor b) c w Hp) as [[err ->]|(txe & w1 & -> & Htx & Htr)].
  { eexists _, _, [EvBeginFailed err]. split; [done|]. split; [done|constructor]. }
  rewrite clone_id. destruct (Hfn txe _ Htx w1) as (body & Hbody & HP).
  unfold defer_rollback, mbind, ME_bind, try.
  destruct (fn (set_executor txe b) w1) as [[[err|a]|p] w2]; simpl in Hbody.
  - destruct (Rollback_tx txe _ w2 Htx) as (rb & ->).
    eexists _, _, (EvBegin (next_tx w) :: body ++ [EvRollback (next_tx w) rb]).
    destruct rb; simpl; (split; [done|]); simpl;
      (split; [by rewrite Hbody, Htr, <-!app_assoc|by constructor]).
  - destruct (Commit_tx txe _ w2 Htx) as (r & ->). destruct r as [err|]; simpl.
    + eexists _, _, (EvBegin (next_tx w) :: body ++ [EvCommit (next_tx w) (Some err)]).
      split; [done|]. split; [simpl; by rewrite Hbody, Htr, <-!app_assoc|by constructor].
    + eexists _, _, (EvBegin (next_tx w) :: body ++ [EvCommit (next_tx w) None]).
      split; [done|]. split; [simpl; by rewrite Hbody, Htr, <-!app_assoc|by constructor].
  - destruct (Rollback_tx txe _ w2 Htx) as (rb & ->).
    eexists _, _, (EvBegin (next_tx w) :: body ++ [EvRollback (next_tx w) rb]).
    destruct rb; simpl; (split; [done|]); simpl;
      (split; [by rewrite Hbody, Htr, <-!app_assoc|by constructor]).
Qed.

(** *** The operations inside a transaction *)

Lemma emits_bind_liftR {A B} (P : event → Prop) (r : R A) (f : A → ME B) :
  (∀ a, r = mret a → emits P (f a)) → emits P (liftR r ≫= f).
Proof.
  intros Hf w. unfold mbind, ME_bind, liftR. destruct r as [[e|a]|p]; simpl.
  - exists []. by rewrite app_nil_r.
  - by apply Hf.
  - exists []. by rewrite app_nil_r.
Qed.

Lemma emits_time_Now (P : event → Prop) : P EvNow → emits P time_Now.
Proof. intros. unfold time_Now. emits_step. Qed.

Lemma time_Now_in_tx tx : emits (in_tx tx) time_Now.
Proof. by apply emits_time_Now. Qed.

Lemma Exec_in_tx tx e ctx q args : tx_id e = Some tx → emits (in_tx tx) (Executor_Exec e ctx q args).
Proof. intros Htx. eapply emits_mono; [|apply Executor_Exec_emits]. intros. by eapply statement_in_tx. Qed.
Lemma Get_in_tx tx e ctx d q args : tx_id e = Some tx → emits (in_tx tx) (Executor_Get e ctx d q args).
Proof. intros Htx. eapply emits_mono; [|apply Executor_Get_emits]. intros. by eapply statement_in_tx. Qed.

Lemma Find_in_tx tx dest b : tx_id (b_executor b) = Some tx → emits (in_tx tx) (Find dest b).
Proof.
  intros Htx. unfold Find. destruct (is_nil _); [apply emits_fail|].
  apply emits_bind_liftR. intros c Hc%find_builder_executor. rewrite clone_id, applyScope_executor in Hc.
  destruct (Build c) as [q args]. apply emits_bind.
  - apply emits_try, Get_in_tx. congruence.
  - intros [e|d]; [destruct (errors_Is _ _)|]; eauto with emits.
Qed.

Lemma Exist_in_tx tx b : tx_id (b_executor b) = Some tx → emits (in_tx tx) (Exist b).
Proof.
  intros Htx. unfold Exist. apply emits_bind_liftR. intros c Hc%require_table_eq.
  destruct (Build c) as [q args]. apply emits_bind.
  - apply emits_try, Get_in_tx. rewrite Hc.
    by rewrite exec_Limit, Cols_executor, exec_set_selects, clone_id, applyScope_executor.
  - intros [e|d]; [destruct (errors_Is _ _)|]; eauto with emits.
Qed.

Lemma execUpdate_in_tx tx d sk b :
  tx_id (b_executor b) = Some tx → emits (in_tx tx) (execUpdate d sk b).
Proof.
  intros Htx. unfold execUpdate. destruct (if negb sk then _ else _); [apply emits_fail|].
  apply emits_bind_liftR. intros [tn m] _. case_bool_decide; [apply emits_fail|].
  apply emits_bind_liftR. intros c Hc%resolve_table_executor.
  cbn [set_updates set_action b_executor] in Hc. rewrite clone_id, applyScope_executor in Hc.
  destruct (Build c) as [q args]. apply emits_bind; [|eauto with emits].
  apply Exec_in_tx. congruence.
Qed.

Lemma execHardDelete_in_tx tx m b :
  tx_id (b_executor b) = Some tx → emits (in_tx tx) (execHardDelete m b).
Proof.
  intros Htx. unfold execHardDelete. apply emits_bind_liftR. intros c Hc%delete_table_executor.
  cbn [set_action set_softDeleteCondition b_executor] in Hc. rewrite clone_id in Hc.
  destruct (Build c) as [q args]. apply emits_bind; [|eauto with emits].
  apply Exec_in_tx. congruence.
Qed.

Lemma lockCurrentRow_in_tx tx self b :
  tx_id (b_executor b) = Some tx → emits (in_tx tx) (lockCurrentRow self b).
Proof.
  intros Htx. unfold lockCurrentRow. apply emits_bind; [|intros [? ?]; eauto with emits].
  apply Find_in_tx. by rewrite exec_LockForUpdate, exec_set_selects, exec_set_dest, clone_id.
Qed.

Lemma loadRawHistoryColumn_in_tx tx lock b :
  tx_id (b_executor b) = Some tx → emits (in_tx tx) (loadRawHistoryColumn lock b).
Proof.
  intros Htx. unfold loadRawHistoryColumn. apply emits_bind; [|intros [? ?]; eauto with emits].
  apply Find_in_tx.
  by destruct lock; rewrite ?exec_LockForUpdate, Cols_executor, exec_set_selects, exec_set_dest, clone_id.
Qed.

Lemma new_entry_in_tx tx a ch who : emits (in_tx tx) (new_entry a ch who).
Proof. unfold new_entry. apply emits_bind; [by apply emits_time_Now|eauto with emits]. Qed.

Lemma locked_history_in_tx tx b :
  tx_id (b_executor b) = Some tx → emits (in_tx tx) (locked_history b).
Proof.
  intros Htx. unfold locked_history, map_err. apply emits_bind.
  - apply emits_bind; [by apply emits_try, loadRawHistoryColumn_in_tx|]. intros []; eauto with emits.
  - intros [h f]. destruct (negb f); eauto with emits.
Qed.

Lemma update_found_in_tx tx data b :
  tx_id (b_executor b) = Some tx → emits (in_tx tx) (update_found data b).
Proof.
  intros Htx. unfold update_found. apply emits_bind; [by apply execUpdate_in_tx|].
  intros n. destruct (n =? 0)%Z; eauto with emits.
Qed.

Lemma history_column_in_tx tx a who old data b : emits (in_tx tx) (history_column a who old data b).
Proof.
  unfold history_column, liftO. destruct (negb _); [|eauto with emits].
  destruct (historyFieldIndex old); [|eauto with emits].
  apply emits_bind; [eauto with emits|]. intros. apply emits_bind; [apply new_entry_in_tx|eauto with emits].
Qed.
End Transactions.

#[export] Hint Resolve Find_in_tx Exist_in_tx execUpdate_in_tx execHardDelete_in_tx lockCurrentRow_in_tx
  loadRawHistoryColumn_in_tx new_entry_in_tx locked_history_in_tx update_found_in_tx
  history_column_in_tx time_Now_in_tx : emits.

Section Atomicity.
Context `{Unicode} `{Platform} `{Driver} `{HistoryCodec}.

(** Runs in one transaction, whatever the database answers. *)
Definition atomic {A} (m : ME A) : Prop :=
  ∀ w, ∃ l, trace (m w).2 = trace w ++ l ∧ tx_outcome (m w).1 l.

(** Inside a transaction. *)
Definition transactional {A} (fn : Builder → ME A) : Prop :=
  ∀ b tx, tx_id (b_executor b) = Some tx → emits (in_tx tx) (fn b).

Lemma atomic_withTx {A} b (fn : Builder → ME A) :
  is_pool (b_executor b) → transactional fn → atomic (withTx b fn).
Proof. intros Hp Hfn w. apply withTx_outcome; [done|]. intros e tx Htx. by apply Hfn. Qed.

Lemma atomic_guarded {A} b (fn : Builder → ME A) :
  is_pool (b_executor b) → checkWhereRequired (applyScope b) = None → transactional fn →
  atomic (guarded b (λ b, withTx b fn)).
Proof.
  intros Hp Hc Hfn. unfold guarded. rewrite Hc. apply atomic_withTx; [|done].
  by rewrite applyScope_executor.
Qed.

(** Returning a value after an atomic operation. *)
Lemma atomic_ret {A B} (m : ME A) (d : B) : atomic m → atomic (m;; mret d).
Proof.
  intros Hm w. destruct (Hm w) as (l & Hl & Ho). exists l. unfold mbind, ME_bind.
  destruct (m w) as [r w']. simpl in *.
  destruct Ho as [err|a tx body HP|err tx body HP|r tx body rb HP Hr]; simpl;
    try (split; [done|by constructor]).
  destruct r as [[e|a]|p]; [|by edestruct Hr|]; simpl; (split; [done|by constructor]).
Qed.

(** Every value [m] returns satisfies [Q]. *)
Definition returns {A} (Q : A → Prop) (m : ME A) : Prop :=
  ∀ w a w', m w = (Ret (inr a), w') → Q a.

Lemma returns_bind {A B} (Q : B → Prop) (m : ME A) (f : A → ME B) :
  (∀ a, returns Q (f a)) → returns Q (m ≫= f).
Proof.
  intros Hf w b w'. unfold mbind, ME_bind. destruct (m w) as [[[e|a]|p] w1]; try done. apply Hf.
Qed.

Lemma returns_ret {A} (Q : A → Prop) a : Q a → returns Q (mret a : ME A).
Proof. intros HQ w b w' Heq. by injection Heq as <- <-. Qed.

Lemma returns_liftR {A} (Q : A → Prop) (r : R A) : (∀ a, r = mret a → Q a) → returns Q (liftR r).
Proof. intros HQ w a w' Heq. unfold liftR in Heq. injection Heq as Hr _. by apply HQ. Qed.

Lemma emits_bind_returns {A B} (P : event → Prop) (Q : A → Prop) (m : ME A) (f : A → ME B) :
  emits P m → returns Q m → (∀ a, Q a → emits P (f a)) → emits P (m ≫= f).
Proof.
  intros Hm HQ Hf w. specialize (Hm w). specialize (HQ w). unfold mbind, ME_bind.
  destruct (m w) as [[[e|a]|p] w1]; simpl in *; try done.
  destruct Hm as (l & Hl & HP). destruct (Hf a (HQ a w1 eq_refl) w1) as (l' & Hl' & HP').
  exists (l ++ l'). rewrite Hl', Hl, app_assoc. split; [done|]. by apply Forall_app.
Qed.

(** The pair of a model and a builder that keeps its executor. *)
Definition same_exec (b : Builder) (p : value * Builder) : Prop := b_executor p.2 = b_executor b.

Lemma stamp_actor_emits {B} (P : event → Prop) f c nm self b (k : value * Builder → ME B) :
  (∀ self' b', b_executor b' = b_executor b → emits P (k (self', b'))) →
  emits P (liftR (stamp_actor f c nm self b) ≫= k).
Proof.
  intros Hk. apply emits_bind_liftR. intros [s b'] Hs%stamp_actor_executor. by apply Hk.
Qed.

Lemma store_history_returns i t self b : returns (same_exec b) (liftR (store_history i t self b)).
Proof. apply returns_liftR. intros [s b'] Hs%store_history_executor. exact Hs. Qed.

Lemma updateExisting_transactional self : transactional (updateExistingOrNotFound self).
Proof.
  intros b tx Htx. unfold updateExistingOrNotFound.
  apply emits_bind; [by apply lockCurrentRow_in_tx|]. intros [old found].
  destruct (negb found); [apply emits_fail|].
  apply emits_bind; [unfold liftO; eauto with emits|]. intros who.
  apply emits_bind_returns with (Q := same_exec b).
  - destruct (negb _); [|eauto with emits]. apply emits_bind; [eauto with emits|]. intros ch.
    destruct (historyFieldIndex old); [|eauto with emits]. case_bool_decide; [eauto with emits|].
    unfold liftO. emits_step.
  - destruct (negb _); [|by apply returns_ret]. apply returns_bind. intros ch.
    destruct (historyFieldIndex old); [|by apply returns_ret]. case_bool_decide; [by apply returns_ret|].
    apply returns_bind. intros. apply returns_bind. intros. apply store_history_returns.
  - intros [self' b'] Hb'. apply stamp_actor_emits. intros self2 b2 Hb2. apply emits_bind.
    + apply execUpdate_in_tx. unfold same_exec in Hb'. simpl in Hb'. congruence.
    + intros n. destruct (n =? 0)%Z; unfold liftO; eauto with emits.
Qed.

Lemma model_writes_atomic b d :
  is_pool (b_executor b) → structPtr d = true →
  checkWhereRequired (applyScope b) = None →
  atomic (Update [d] b) ∧ atomic (Delete [d] b) ∧ atomic (Restore [d] b) ∧ atomic (Purge [d] b).
Proof.
  intros Hp Hd Hc.
  assert (checkWhereRequired (applyScope (set_softDeleteCondition "" b)) = None) as Hc'
    by (by rewrite applyScope_soft).
  assert (is_nil d = false) as Hn by (by destruct d).
  unfold Update, Delete, Restore, Purge. cbn [resolveOperand]. rewrite Hn, Hd.
  split; [|split; [|split]]; apply atomic_guarded; try done.
  - apply updateExisting_transactional.
  - intros tb tx Htx. unfold liftO. emits_step.
  - intros tb tx Htx. unfold liftO. emits_step.
  - intros tb tx Htx. unfold liftO. emits_step.
Qed.

(** [C3] An update, delete, restore or purge of a model that passes the WHERE
    check runs in exactly one transaction on the pool: every statement between
    [Begin] and the end uses the transaction's connection, the transaction ends
    exactly once, it is committed only when the operation succeeds, and any error
    or panic in between rolls it back.  This holds for every behaviour of the
    database, failures of the commit and of the rollback included. *)
Theorem model_writes_are_atomic b d :
  is_pool (b_executor b) → structPtr d = true →
  checkWhereRequired (applyScope b) = None →
  atomic (Update [d] b) ∧ atomic (Delete [d] b) ∧ atomic (Restore [d] b) ∧ atomic (Purge [d] b).
Proof. apply model_writes_atomic. Qed.

(** The same for an update with a map and for a delete or restore without a
    model, when the history is kept: one transaction, closed once, committed exactly
    on success. *)
Theorem raw_writes_are_atomic b m d :
  is_pool (b_executor b) → structPtr d = false → b_historyTrackingDisabled b = false →
  checkWhereRequired (applyScope b) = None →
  atomic (Update [map_value m] b) ∧ atomic (Delete [d] b) ∧ atomic (Restore [d] b).
Proof.
  intros Hp Hd Hh Hc.
  assert (checkWhereRequired (applyScope (set_softDeleteCondition "" b)) = None) as Hc'
    by (by rewrite applyScope_soft).
  unfold Update, Delete, Restore. cbn [resolveOperand]. rewrite as_map_map_value, Hh, Hd.
  cbn [map_value is_nil structPtr negb].
  split; [|split]; apply atomic_ret, atomic_guarded; try done; intros tb tx Htx.
  - emits_step.
  - assert (tx_id (b_executor (applyScope tb)) = Some tx) by (by rewrite applyScope_executor).
    case_bool_decide; emits_step.
  - emits_step.
Qed.
End Atomicity.

Definition pool_builder : Builder :=
  Where "id = ?" [VInt KInt64 7]
    (fresh_builder "users" MySQLDialect (LoggedExecutor sqlxExecutor None) (Some Background) None).

Lemma model_writes_are_atomic_witness : atomic (Update [user] pool_builder).
Proof. exact (proj1 (model_writes_are_atomic pool_builder user I eq_refl eq_refl)). Defined.

Lemma raw_writes_are_atomic_witness : atomic (Delete [VNil] pool_builder).
Proof. exact (proj1 (proj2 (raw_writes_are_atomic pool_builder ∅ VNil I eq_refl eq_refl eq_refl))). Defined.

(** The calls of an update on a database that accepts everything. *)
Example update_trace :
  trace (Update [map_value (map1 "name" (VString "budi"))]
    (NoScope pool_builder) world0).2 =
  [EvBegin 0;
   EvQuery (OnTx 0) "SELECT history FROM users WHERE id = ? LIMIT ? FOR UPDATE" [VInt KInt64 7; VInt KInt 1];
   EvNow;
   EvExec (OnTx 0) "UPDATE users SET history = ?, name = ? WHERE id = ?"
     [VString (appendHistoryJSON "" (mkEntry "modified" (Some (map1 "name" (VString "budi"))) VNil "" 2));
      VString "budi"; VInt KInt64 7];
   EvCommit 0 None].
Proof. vm_compute. reflexivity. Qed.
