(* ===== verification/DbFacade.v ===== *)
(** * The database handle and the base model
    ([internal/db/database.go], [models.go], [DebugSQL] and its formatting in
    [logger.go])

    [DB] is the handle an application holds; [BaseModel] is embedded in its
    models and starts a builder bound to the model, with the soft-delete
    condition when the model has a [DeletedAt] field. *)

From S2P Require Import Prelude GoStrings GoValue Util HttpErr DbSanitize DbModel DbPrepared DbExec.
From S2P Require Import DbBuilder DbSql DbRead DbWrite DbSafety.
From Stdlib Require Import Ascii.

(** ** The handle *)

Record dbOptions := mkOptions {
  extraLoggers : list QueryLogger;
  preparedStatements : bool;
  preparedCacheSize : Z;
}.

Definition WithQueryLogger (l : option QueryLogger) (o : dbOptions) : dbOptions :=
  match l with
  | Some l => mkOptions (extraLoggers o ++ [l]) (preparedStatements o) (preparedCacheSize o)
  | None => o
  end.

Definition WithPreparedStatements (cacheSize : Z) (o : dbOptions) : dbOptions :=
  mkOptions (extraLoggers o) true cacheSize.

(** [closeFunc] is what closing returns, when the handle owns the pool. *)
Record DB := mkDB {
  db_dialect : Dialect;
  db_executor : Executor;
  db_logger : option QueryLogger;
  db_closeFunc : option (option error);
  db_ctx : option context;
  db_scope : option ScopeFunc;
  db_prepared : bool;
}.

(** The handle, and the cache a prepared executor starts with. *)
Definition NewDatabase (dialect : Dialect) (closeFunc : option (option error)) (scope : option ScopeFunc)
    (opts : list (option (dbOptions → dbOptions))) : DB * preparedCache :=
  let cfg := foldl (λ c o, match o with Some f => f c | None => c end) (mkOptions [] false 0) opts in
  let exec := if preparedStatements cfg then preparedExecutor else sqlxExecutor in
  let ql := match extraLoggers cfg with
            | [] => frameworkLogger
            | ls => multiLogger (Some frameworkLogger :: (Some <$> ls))
            end in
  (mkDB dialect (LoggedExecutor exec (Some ql)) (Some ql) closeFunc None scope (preparedStatements cfg),
   newPreparedCache (preparedCacheSize cfg)).

Section Facade.
Context `{Unicode} `{Platform} `{Driver} `{HistoryCodec}.

Definition DB_Close (db : DB) : ME unit :=
  (if db_prepared db then preparedCache_Close else mret ());;
  match db_closeFunc db with
  | Some (Some e) => failM e
  | _ => mret ()
  end.

(** The executor under the logging and prepared layers. *)
Definition unwrap_logged (e : Executor) : Executor :=
  match e with LoggedExecutor inner _ => inner | e => e end.
Definition unwrap_prepared (e : Executor) : Executor :=
  match e with preparedExecutor => sqlxExecutor | e => e end.

Definition DB_Ping (db : DB) : ME unit :=
  match unwrap_prepared (unwrap_logged (db_executor db)) with
  | sqlxExecutor =>
      tr ← gets trace;
      emit EvPing;;
      match drv_Ping tr with Some e => failM e | None => mret () end
  | _ => failM (ENew "ping not supported on this executor type")
  end.

Definition Table (nm : string) (db : DB) : Builder :=
  fresh_builder (SanitizeIdentifier nm) (db_dialect db) (db_executor db) (db_ctx db) (db_scope db).

Definition DB_Where (expr : string) (args : list value) (db : DB) : Builder :=
  Where expr args (Table "" db).

Definition Raw (query : string) (args : list value) (db : DB) : Builder :=
  set_rawArgs args (set_rawQuery query
    (fresh_builder "" (db_dialect db) (db_executor db) (db_ctx db) (db_scope db))).

Definition NamedRaw (query : string) (args : gmap string value) (db : DB) : Builder :=
  set_namedArgs (Some args) (set_rawQuery query
    (fresh_builder "" (db_dialect db) (db_executor db) (db_ctx db) (db_scope db))).

(** [fmt.Errorf(prefix+": %w", err)]. *)
Definition table_of (prefix : string) (data : value) : ME string :=
  map_err (λ e, wrapf prefix e "") (liftR (getTableNameFromModel data)).

Definition DB_Insert (data : value) (db : DB) : ME value :=
  tableName ← table_of "Insert: " data; Insert [data] (Table tableName db).

Definition DB_InsertBatch (data : list value) (db : DB) : ME Z :=
  match data with
  | [] => failM (wrapf "InsertBatch: " ErrEmptyData "")
  | first :: _ => tableName ← table_of "InsertBatch: " first; InsertBatch data (Table tableName db)
  end.

Definition DB_Upsert (data : value) (db : DB) : ME value :=
  tableName ← table_of "Upsert: " data; Upsert [data] (Table tableName db).

Definition DB_Update (data : value) (db : DB) : ME unit :=
  failM (wrapf "Update: " ErrWhereClauseRequired " (use db.Where(...).Update() or db.UpdateAll())").

Definition DB_UpdateAll (data : value) (db : DB) : ME Z :=
  tableName ← table_of "UpdateAll: " data; execUpdate data true (Table tableName db).

Definition DB_Delete (data : value) (db : DB) : ME unit :=
  failM (wrapf "Delete: " ErrWhereClauseRequired " (use db.Where(...).Delete() or db.DeleteAll())").

Definition DB_DeleteAll (data : value) (db : DB) : ME Z :=
  tableName ← table_of "DeleteAll: " data; execDelete data true (Table tableName db).

Definition DB_Find (dest : value) (db : DB) : ME (bool * value) :=
  tableName ← table_of "Find: " dest; Find [dest] (Table tableName db).

Definition DB_FindAll (dest : value) (db : DB) : ME value :=
  tableName ← table_of "FindAll: " dest; FindAll [dest] (Table tableName db).

Definition DB_Paginate (dest : value) (page perPage : Z) (db : DB) : ME (Pagination * value) :=
  tableName ← table_of "Paginate: " dest; Paginate dest page perPage (Table tableName db).

Definition or_ctx (ctx : option context) (db : DB) : option context :=
  match ctx with None => db_ctx db | c => c end.

Definition DB_Begin (ctx : option context) (db : DB) : ME Executor :=
  Executor_Begin (db_executor db) (or_ctx ctx db).

Definition Transaction {A} (ctx : option context) (fn : Executor → ME A) (db : DB) : ME A :=
  let ctx := or_ctx ctx db in
  tx ← DB_Begin ctx db;
  defer_rollback tx
    (r ← try (fn tx);
     match r with
     | inl e => _ ← try (Tx_Rollback tx); failM e
     | inr a => Tx_Commit tx;; mret a
     end).

Definition DB_WithContext (ctx : option context) (db : DB) : DB :=
  mkDB (db_dialect db) (db_executor db) (db_logger db) None ctx (db_scope db) false.

Definition DB_Use (tx : Executor) (db : DB) : DB :=
  mkDB (db_dialect db) tx (db_logger db) None (db_ctx db) (db_scope db) false.
End Facade.

(** ** The base model *)

(** What a model uses of the request: the [id] of the query string and its
    decryption, and the resources handed to the builder. *)
Record model_ctx := mkModelCtx {
  mc_get_id : string;
  mc_decrypt_id : string → error + Z;
  mc_resources : resources;
}.

Record BaseModel := mkModel {
  bm_db : option DB;
  bm_ctx : option model_ctx;
  bm_self : value;
  bm_hasSoftDelete : bool;
  bm_tx : option Executor;
}.

(** [SetResources(b.__ctx)]: a nil [*Context] in the interface is not a nil
    interface, and calling [CurrentUser] on it dereferences it. *)
Definition model_resources (c : option model_ctx) : option resources :=
  Some match c with
       | Some c => mc_resources c
       | None => mkRes (VPtr (TOther "Context") None)
                   (Some (Panic "invalid memory address or nil pointer dereference"))
       end.

Section Models.
Context `{Unicode} `{Platform} `{Driver} `{HistoryCodec}.

(** [field.IsValid()] for the field [DeletedAt]; the zero model keeps its flag. *)
Definition Init (database : option DB) (ctx : option model_ctx) (self : value) (b : BaseModel)
  : outcome BaseModel :=
  let b' := mkModel database ctx self (bm_hasSoftDelete b) (bm_tx b) in
  match deref self with
  | DNil => Ret b'
  | DVal v =>
      match as_struct v with
      | None => Ret b'
      | Some _ =>
          match hasField self "DeletedAt" with
          | Panic p => Panic p
          | Ret true => Ret (mkModel database ctx self true (bm_tx b))
          | Ret false => Ret b'
          end
      end
  end.

Definition SetTx (tx : option Executor) (b : BaseModel) : BaseModel :=
  mkModel (bm_db b) (bm_ctx b) (bm_self b) (bm_hasSoftDelete b) tx.

(** [name, _ := GetTableNameFromModel(self)]. *)
Definition TableName (b : BaseModel) : outcome string :=
  if is_nil (bm_self b) then Ret ""
  else match GetTableNameFromModel (bm_self b) with
       | Ret (inr n) => Ret n
       | Ret (inl _) => Ret ""
       | Panic p => Panic p
       end.

Definition newBuilder (b : BaseModel) : outcome Builder :=
  match bm_db b, is_nil (bm_self b) with
  | Some db, false =>
      let dbConn := match bm_tx b with Some tx => DB_Use tx db | None => db end in
      match TableName b with
      | Panic p => Panic p
      | Ret tn =>
          let builder := SetResources (model_resources (bm_ctx b)) (Bind (bm_self b) (Table tn dbConn)) in
          Ret (if bm_hasSoftDelete b then SetSoftDeleteCondition "deleted_at IS NULL" builder else builder)
      end
  | _, _ => Panic "kiya: model is not initialized properly"
  end.

Definition resolveIDFromURL (b : BaseModel) : R Z :=
  match bm_ctx b with
  | None => fail (ENew "kiya: no request context available to resolve id from url")
  | Some c =>
      if bool_decide (mc_get_id c = "") then
        fail (ENew "kiya: id is required in url for this operation")
      else match mc_decrypt_id c (mc_get_id c) with
           | inl e => fail (wrapf "kiya: invalid id in url: " e "")
           | inr id => mret id
           end
  end.

(** The builder of the model restricted to the row of the URL. *)
Definition builder_by_id (cols : list string) (b : BaseModel) : ME Builder :=
  id ← liftR (resolveIDFromURL b);
  pkCol ← liftR (PrimaryKeyColumn (bm_self b));
  nb ← liftO (newBuilder b);
  mret (WhereEq pkCol (VInt KInt64 id) (Cols cols nb)).

Definition Model_Insert (b : BaseModel) : ME value := nb ← liftO (newBuilder b); Insert [] nb.

(** The row of the URL's id: nothing without a request or an id. *)
Definition Model_Find (b : BaseModel) : ME (bool * value) :=
  match bm_ctx b with
  | None => mret (false, bm_self b)
  | Some c =>
      if bool_decide (mc_get_id c = "") then mret (false, bm_self b)
      else
        pkCol ← liftR (PrimaryKeyColumn (bm_self b));
        id ← match mc_decrypt_id c (mc_get_id c) with
             | inl e => failM (wrapf "kiya: invalid id in url: " e "")
             | inr id => mret id
             end;
        nb ← liftO (newBuilder b);
        Find [] (WhereEq pkCol (VInt KInt64 id) nb)
  end.

Definition Model_FindOrFail (b : BaseModel) : ME value :=
  match bm_ctx b with
  | None => failM notFoundErr
  | Some c =>
      if bool_decide (mc_get_id c = "") then failM notFoundErr
      else
        pkCol ← liftR (PrimaryKeyColumn (bm_self b));
        id ← match mc_decrypt_id c (mc_get_id c) with
             | inl e => failM (wrapf "kiya: invalid id in url: " e "")
             | inr id => mret id
             end;
        nb ← liftO (newBuilder b);
        FindOrFail [] (WhereEq pkCol (VInt KInt64 id) nb)
  end.

Definition Model_FindAll (b : BaseModel) : ME value := nb ← liftO (newBuilder b); FindAll [] nb.

Definition Model_UpdateAll (b : BaseModel) : ME Z := nb ← liftO (newBuilder b); UpdateAll (bm_self b) nb.

Definition Model_Upsert (cols : list string) (b : BaseModel) : ME value :=
  match bm_ctx b with
  | None => failM (ENew "kiya: Upsert requires request context to resolve id from url")
  | Some c =>
      nb ← liftO (newBuilder b);
      let builder := Cols cols nb in
      if bool_decide (mc_get_id c = "") then Upsert [] builder
      else
        pkCol ← liftR (PrimaryKeyColumn (bm_self b));
        id ← match mc_decrypt_id c (mc_get_id c) with
             | inl e => failM (wrapf "kiya: invalid id in url: " e "")
             | inr id => mret id
             end;
        Upsert [] (WhereEq pkCol (VInt KInt64 id) builder)
  end.

Definition Model_Update (cols : list string) (b : BaseModel) : ME value :=
  nb ← builder_by_id cols b; Update [] nb.
Definition Model_Delete (b : BaseModel) : ME value := nb ← builder_by_id [] b; Delete [] nb.
Definition Model_Restore (b : BaseModel) : ME value := nb ← builder_by_id [] b; Restore [] nb.
Definition Model_Purge (b : BaseModel) : ME value := nb ← builder_by_id [] b; Purge [] nb.

Definition Model_PurgeAll (b : BaseModel) : ME Z :=
  nb ← liftO (newBuilder b); PurgeAll [bm_self b] nb.

Definition Model_Retain (keepIDs : list Z) (purge : bool) (where_ : list (Builder → Builder))
    (b : BaseModel) : ME Z :=
  nb ← liftO (newBuilder b); Retain keepIDs purge where_ nb.

Definition Model_Count (b : BaseModel) : ME Z := nb ← liftO (newBuilder b); Count nb.
Definition Model_Exist (b : BaseModel) : ME bool := nb ← liftO (newBuilder b); Exist nb.
Definition Model_Paginate (page perPage : Z) (b : BaseModel) : ME (Pagination * value) :=
  nb ← liftO (newBuilder b); Paginate (bm_self b) page perPage nb.

Definition WithDeleted (b : BaseModel) : outcome Builder :=
  match newBuilder b with
  | Ret nb => Ret (ClearSoftDeleteCondition nb)
  | Panic p => Panic p
  end.

Definition Model_Raw (query : string) (args : list value) (b : BaseModel) : outcome Builder :=
  match bm_db b with
  | None => Panic "kiya: model is not initialized, database is nil"
  | Some db => Ret (SetResources (model_resources (bm_ctx b)) (Raw query args db))
  end.

Definition Model_Table (nm : string) (b : BaseModel) : outcome Builder :=
  match bm_db b with
  | None => Panic "kiya: model is not initialized, database is nil"
  | Some db => Ret (SetResources (model_resources (bm_ctx b)) (Table nm db))
  end.

(** The fluent shortcuts of a model start a builder and apply the operation. *)
Definition start (op : Builder → Builder) (b : BaseModel) : outcome Builder :=
  match newBuilder b with Ret nb => Ret (op nb) | Panic p => Panic p end.
End Models.

(** ** Theorems *)

Section FacadeTheorems.
Context `{Unicode} `{Platform} `{Driver} `{HistoryCodec}.

(** The handle [NewDatabase] returns works on the pool, whatever its options. *)
Lemma NewDatabase_pool d cf sc opts : is_pool (db_executor (NewDatabase d cf sc opts).1).
Proof. unfold NewDatabase. simpl. by case_match. Qed.

(** [DB.Transaction] commits exactly when its function returns no error:
    for every function that uses the transaction it is given, and every behaviour
    of the database, the calls are one [Begin], the function's statements on that
    transaction, and one commit or rollback; an error or a panic rolls back. *)
Theorem Transaction_commits_iff_ok {A} d cf sc opts c (fn : Executor → ME A) :
  (∀ e tx, tx_id e = Some tx → emits (in_tx tx) (fn e)) →
  atomic (Transaction (Some c) fn (NewDatabase d cf sc opts).1).
Proof.
  intros Hfn w. pose proof (NewDatabase_pool d cf sc opts) as Hp.
  set (db := (NewDatabase d cf sc opts).1) in *.
  set (b := set_executor (db_executor db) (fresh_builder "" d sqlxExecutor (Some c) None)).
  destruct (withTx_outcome b (λ tb, fn (b_executor tb)) w) as (l & Hl & Ho).
  - done.
  - intros e tx Htx. by apply Hfn.
  - exists l. unfold withTx in Hl, Ho.
    assert (is_Tx (b_executor b) = false) as Hnt by (unfold b; simpl; by destruct (db_executor db)).
    rewrite Hnt in Hl, Ho. split; [exact Hl|exact Ho].
Qed.

(** The operations that leave the executor of a builder alone. *)
Definition keeps_executor (o : bop) : bool := match o with OpUse _ => false | _ => true end.

Lemma run_op_executor o b : keeps_executor o = true → b_executor (run_op o b) = b_executor b.
Proof.
  destruct o; simpl; intros; try done; try apply Cols_executor; try apply applyScope_executor;
    try (destruct o; simpl);
    unfold WhereEq, WhereNotEq, WhereGt, WhereGte, WhereLt, WhereLte, WhereLike, WhereIn, WhereNotIn,
      WhereNull, DbBuilder.Join, OrderBy; repeat case_bool_decide; try done.
Qed.


(** A model initialised without a request context cannot be inserted: the
    nil [*Context] passes the type assertion of [actor], and its [CurrentUser]
    dereferences it. *)
Theorem insert_without_request_panics db self hsd tx nb w :
  structPtr self = true →
  newBuilder (mkModel (Some db) None self hsd tx) = Ret nb →
  Model_Insert (mkModel (Some db) None self hsd tx) w =
    (Panic "invalid memory address or nil pointer dereference", w).
Proof.
  intros Hs Hnb. unfold Model_Insert, liftO, mbind, ME_bind. rewrite Hnb. simpl.
  unfold newBuilder in Hnb. simpl in Hnb. destruct (is_nil self) eqn:Hn; [done|].
  destruct (TableName _) as [tn|p]; [|done].
  assert (b_dest nb = self ∧ actor nb = Panic "invalid memory address or nil pointer dereference")
    as [Hd Ha] by (destruct hsd; by injection Hnb as <-).
  unfold Insert. cbn [resolveOperand]. rewrite Hd, Hn, Hs.
  unfold insertWithHistory, liftO, mbind, ME_bind. by rewrite Ha.
Qed.
End FacadeTheorems.

Definition demo_db : DB := (NewDatabase MySQLDialect None None []).1.

Lemma Transaction_commits_iff_ok_witness :
  atomic (Transaction (Some Background) (λ e, Executor_Exec e (Some Background) "DELETE FROM logs" []) demo_db).
Proof.
  apply (Transaction_commits_iff_ok MySQLDialect None None [] Background
    (λ e, Executor_Exec e (Some Background) "DELETE FROM logs" [])).
  intros e tx Htx. by apply Exec_in_tx.
Defined.


Lemma insert_without_request_panics_witness :
  Model_Insert (mkModel (Some demo_db) None user false None) world0 =
    (Panic "invalid memory address or nil pointer dereference", world0).
Proof.
  eapply (insert_without_request_panics demo_db user false None); [reflexivity|].
  vm_compute. reflexivity.
Defined.
