(* ===== verification/Context.v ===== *)
(** * The request context

    [context.go] and [locals.go]: what a handler gets for one request, the values
    it keeps in it, and the ways it writes its response.  A context lives in the
    state of the request ([rstate]) next to the response writer, the session
    store, the rate limiter and the database it works with. *)

From S2P Require Import Prelude GoStrings GoValue GoFloat HttpErr RouterTree Session RedisStore RateLimit Http Metrics.
From S2P Require Import DbModel DbPrepared DbExec DbBuilder DbFacade.
From Stdlib Require Import Ascii.

(** ** Locals *)

(** The store is nil until the first [Set]. *)
Definition Locals : Type := option (gmap string value).
Definition NewLocals : Locals := Some ∅.

Definition Locals_Set (key : string) (v : value) (g : Locals) : Locals := Some (<[key := v]> (default ∅ g)).
Definition Locals_Get (key : string) (g : Locals) : value :=
  match g with None => VNil | Some m => default VNil (m !! key) end.
Definition Locals_Has (key : string) (g : Locals) : bool :=
  match g with None => false | Some m => bool_decide (is_Some (m !! key)) end.
Definition Locals_Del (key : string) (g : Locals) : Locals := delete key <$> g.
Definition Locals_Clear (g : Locals) : Locals := (λ _, ∅) <$> g.

Section LocalsTyped.
Context `{Platform, FloatText}.

Definition Locals_GetString (key : string) (g : Locals) : string :=
  match Locals_Get key g with VString s => s | _ => "" end.
Definition Locals_GetInt (key : string) (g : Locals) : Z :=
  match Locals_Get key g with
  | VInt KInt z => z
  | VFloat KFloat64 f => float_to_int64 f
  | VString s => (Strconv.Atoi s).1
  | _ => 0
  end%Z.
Definition Locals_GetInt64 (key : string) (g : Locals) : Z :=
  match Locals_Get key g with
  | VInt KInt z | VInt KInt64 z => z
  | VFloat KFloat64 f => float_to_int64 f
  | VString s => (Strconv.ParseInt 64 s).1
  | _ => 0
  end%Z.
Definition Locals_GetFloat64 (key : string) (g : Locals) : spec_float :=
  match Locals_Get key g with
  | VFloat KFloat64 f => f
  | VInt KInt z => float_of_Z z
  | VString s => default (S754_zero false) (ParseFloat s)
  | _ => S754_zero false
  end.
Definition Locals_GetBool (key : string) (g : Locals) : bool :=
  match Locals_Get key g with
  | VBool b => b
  | VString s => default false (Strconv.ParseBool s)
  | VInt KInt z => negb (z =? 0)%Z
  | VFloat KFloat64 f => negb (SFeqb f (S754_zero false))
  | _ => false
  end.
Definition Locals_GetTime (key : string) (g : Locals) : value :=
  match Locals_Get key g with VTime t => VTime t | _ => zero_time end.
End LocalsTyped.

(** ** The context *)

(** [c_currentUser] says whether the application's function is installed. *)
Record Context := mkContext {
  c_request : option Request;
  c_session : option Session;
  c_database : option DB;
  c_params : list Param;
  c_locals : option Locals;
  c_written : bool;
  c_aborted : bool;
  c_body : option string;
  c_encryptKey : string;
  c_currentUser : bool;
  c_browserID : string;
  c_browserValid : bool;
}.

(** [&Context{}]. *)
Definition zero_context : Context := mkContext None None None [] None false false None "" false "" false.

Definition reset (req : option Request) (c : Context) : Context :=
  mkContext req None None [] 
    (Some (match c_locals c with None => NewLocals | Some g => Locals_Clear g end))
    false false None "" false "" false.

Definition with_session (s : option Session) (c : Context) : Context :=
  mkContext (c_request c) s (c_database c) (c_params c) (c_locals c) (c_written c) (c_aborted c) (c_body c)
    (c_encryptKey c) (c_currentUser c) (c_browserID c) (c_browserValid c).
Definition with_database (d : option DB) (c : Context) : Context :=
  mkContext (c_request c) (c_session c) d (c_params c) (c_locals c) (c_written c) (c_aborted c) (c_body c)
    (c_encryptKey c) (c_currentUser c) (c_browserID c) (c_browserValid c).
Definition with_params (p : list Param) (c : Context) : Context :=
  mkContext (c_request c) (c_session c) (c_database c) p (c_locals c) (c_written c) (c_aborted c) (c_body c)
    (c_encryptKey c) (c_currentUser c) (c_browserID c) (c_browserValid c).
Definition with_written (b : bool) (c : Context) : Context :=
  mkContext (c_request c) (c_session c) (c_database c) (c_params c) (c_locals c) b (c_aborted c) (c_body c)
    (c_encryptKey c) (c_currentUser c) (c_browserID c) (c_browserValid c).
Definition with_aborted (b : bool) (c : Context) : Context :=
  mkContext (c_request c) (c_session c) (c_database c) (c_params c) (c_locals c) (c_written c) b (c_body c)
    (c_encryptKey c) (c_currentUser c) (c_browserID c) (c_browserValid c).
Definition with_router (key : string) (cu : bool) (c : Context) : Context :=
  mkContext (c_request c) (c_session c) (c_database c) (c_params c) (c_locals c) (c_written c) (c_aborted c)
    (c_body c) key cu (c_browserID c) (c_browserValid c).
Definition with_browser (id : string) (valid : bool) (c : Context) : Context :=
  mkContext (c_request c) (c_session c) (c_database c) (c_params c) (c_locals c) (c_written c) (c_aborted c)
    (c_body c) (c_encryptKey c) (c_currentUser c) id valid.

(** ** The state of a request *)

(** [W] is the response writer, [SW] the server behind the session store, [L] the
    rate limiter. *)
Record rstate (W SW L : Type) := mkState {
  s_w : W;
  s_ctx : Context;
  s_pool : list Context;
  s_store : store_world SW;
  s_lim : L;
  s_db : DbExec.world;
  s_metrics : option Collector;
}.
Arguments mkState {W SW L}.
Arguments s_w {W SW L}.
Arguments s_ctx {W SW L}.
Arguments s_pool {W SW L}.
Arguments s_store {W SW L}.
Arguments s_lim {W SW L}.
Arguments s_db {W SW L}.
Arguments s_metrics {W SW L}.

Section State.
Context {W SW L : Type}.
#[local] Abbreviation st := (rstate W SW L).

Definition set_w (w : W) (s : st) : st :=
  mkState w (s_ctx s) (s_pool s) (s_store s) (s_lim s) (s_db s) (s_metrics s).
Definition set_ctx (c : Context) (s : st) : st :=
  mkState (s_w s) c (s_pool s) (s_store s) (s_lim s) (s_db s) (s_metrics s).
Definition set_pool (p : list Context) (s : st) : st :=
  mkState (s_w s) (s_ctx s) p (s_store s) (s_lim s) (s_db s) (s_metrics s).
Definition set_store (x : store_world SW) (s : st) : st :=
  mkState (s_w s) (s_ctx s) (s_pool s) x (s_lim s) (s_db s) (s_metrics s).
Definition set_lim (l : L) (s : st) : st :=
  mkState (s_w s) (s_ctx s) (s_pool s) (s_store s) l (s_db s) (s_metrics s).
Definition set_db (d : DbExec.world) (s : st) : st :=
  mkState (s_w s) (s_ctx s) (s_pool s) (s_store s) (s_lim s) d (s_metrics s).
Definition set_metrics (m : option Collector) (s : st) : st :=
  mkState (s_w s) (s_ctx s) (s_pool s) (s_store s) (s_lim s) (s_db s) m.

Definition onW {A} (m : M W A) : M st A := zoom s_w set_w m.
Definition on_ctx (f : Context → Context) : M st unit := modM (λ s, set_ctx (f (s_ctx s)) s).
Definition ctx {A} (f : Context → A) : M st A := getM (λ s, f (s_ctx s)).

(** A database operation: its error is a value, its panic a panic. *)
Definition onDB {A} (m : DbExec.ME A) : M st (error + A) := λ s,
  match m (s_db s) with
  | (Ret r, d) => (Done r, set_db d s)
  | (Panic p, d) => (Crash p, set_db d s)
  end.

(** An operation on the session of the context. *)
Definition on_session (f : Session → outcome Session) : M st unit := λ s,
  match c_session (s_ctx s) with
  | None => (Crash "runtime error: invalid memory address or nil pointer dereference", s)
  | Some x =>
      match f x with
      | Ret x' => (Done (), set_ctx (with_session (Some x') (s_ctx s)) s)
      | Panic p => (Crash p, s)
      end
  end.

End State.

(** [HandlerFunc] and [Middleware]: a handler acts on the state and returns an
    error or nil. *)
Abbreviation HandlerFunc W SW L := (M (rstate W SW L) (option error)).
Abbreviation Middleware W SW L := (HandlerFunc W SW L → HandlerFunc W SW L).

(** ** Responses *)

(** [json.NewEncoder(w).Encode] and [json.Marshal]. *)
Class JsonEncoder := json_Encode : value → error + string.

Section Responses.
Context {W SW L : Type} `{ResponseWriter W} `{JsonEncoder} `{RedirectText}.
#[local] Abbreviation st := (rstate W SW L).

Definition Abort : M st unit := on_ctx (with_aborted true).
Definition IsAborted : M st bool := ctx c_aborted.

(** The status goes out once. *)
Definition Status (code : Z) : M st unit :=
  written ← ctx c_written;
  if written : bool then mret ()
  else onW (rw_WriteHeader code);; on_ctx (with_written true).

Definition AbortWithStatus (code : Z) : M st unit := Status code;; Abort.

Definition write_error (r : error + nat) : option error := match r with inl e => Some e | inr _ => None end.

Definition Context_String (code : Z) (s : string) : HandlerFunc W SW L :=
  onW (set_header "Content-Type" "text/plain; charset=utf-8");;
  Status code;;
  r ← onW (rw_Write s);
  mret (write_error r).

Definition JSON (code : Z) (obj : value) : HandlerFunc W SW L :=
  onW (set_header "Content-Type" "application/json; charset=utf-8");;
  Status code;;
  match json_Encode obj with
  | inl e => mret (Some e)
  | inr out => r ← onW (rw_Write (out +:+ newline)); mret (write_error r)
  end.

(** [errs] is [None] for a nil map. *)
Definition APIResponse (code : Z) (message : string) (errs : option (gmap string (list string))) (data : value)
    : HandlerFunc W SW L :=
  let data := match data with VNil => VSlice TString (Some []) | d => d end in
  let errs := default ∅ errs in
  let j := VMap TInterface (Some [
    ("status", VInt KInt code); ("message", VString message);
    ("errors", VMap (TSlice TString) (Some ((λ p, (p.1, VSlice TString (Some (VString <$> p.2)))) <$> map_to_list errs)));
    ("data", data)]) in
  onW (set_header "Content-Type" "application/json; charset=utf-8");;
  Status code;;
  match json_Encode j with
  | inl e => mret (Some e)
  | inr out => r ← onW (rw_Write out); mret (write_error r)
  end.

Definition isValidRedirectCode (code : Z) : bool := (300 <=? code)%Z && (code <? 400)%Z.

Definition Context_Redirect (code : Z) (url : string) : HandlerFunc W SW L :=
  if negb (isValidRedirectCode code) then
    mret (Some (ENew "redirect status code must be 3xx (300-399)"))
  else
    req ← ctx c_request;
    match req with
    | None => crashM "runtime error: invalid memory address or nil pointer dereference"
    | Some req => onW (http_Redirect req url code);; on_ctx (with_written true);; mret None
    end.

(** ** The request *)

Definition Context_Param (key : string) (c : Context) : string :=
  default "" (Value <$> find_first (λ p, bool_decide (Key p = key)) (c_params c)).

Definition IsAJAX (req : Request) : bool :=
  Strings.Contains (Header_Get "Accept" (req_header req)) "application/json" ||
  Strings.Contains (Header_Get "Content-Type" (req_header req)) "application/json" ||
  bool_decide (Header_Get "X-Requested-With" (req_header req) = "XMLHttpRequest").
End Responses.

(** ** Isolation of requests *)

(** A context taken from the pool carries nothing of the request that used it
    before: after [reset] it differs from a new context that was reset in nothing
    but a nil store of locals, and that reads as empty. *)
Lemma reset_isolates req c :
  (∃ g, reset req c = mkContext req None None [] (Some g) false false None "" false "" false ∧
        ∀ key, Locals_Get key g = VNil) ∧
  (c_locals c ≠ Some None → reset req c = reset req zero_context).
Proof.
  split.
  - eexists. split; [reflexivity|]. intros key. unfold Locals_Clear. by destruct (c_locals c) as [[m|]|].
  - intros Hne. unfold reset. by destruct (c_locals c) as [[m|]|].
Qed.
