(* ===== verification/Router.v ===== *)
(** * The router and the request pipeline

    [router.go]: registration with middleware and prefixes, and [serveInternal],
    the path of every request from the first header to the last deferred function,
    composed of the components of the other files.  The defers of the function are
    nested as they are registered: what follows a [defer] in the source is the
    computation the deferred one wraps.

    The server's response writer is wrapped in a [statusRecorder] from the start of
    the model, and not from the moment the handler is called: no status written
    before that moment is ever read, because every such write is followed by a
    return.  The 15 second timeout of the request context, the temporary files of
    multipart forms and the log lines are not part of the state. *)

From S2P Require Import Prelude GoStrings GoValue HttpErr RouterTree Session RedisStore Crypto RateLimit.
From S2P Require Import RedisRateLimit Http Net Waf Metrics DbModel DbPrepared DbExec DbBuilder DbSafety DbFacade Context.
From Stdlib Require Import Ascii.
Import Strings.

(** ** What the pipeline calls *)

(** [security.RateLimitStore]. *)
Class RateLimitStore (L : Type) := limiter_Allow : Z → string → L → bool * L.

(** [hex(hmac_sha256(key, message))]. *)
Class Hmac := hmac_hex : string → string → string.

(** The status a writer reports at the end ([router.StatusRecorder]). *)
Class StatusWriter (W : Type) := rw_status : M W Z.
#[global] Hint Mode StatusWriter ! : typeclass_instances.

#[global] Instance recorder_status {W} : StatusWriter (statusRecorder W) := getM StatusCode.
#[global] Instance waf_status {W T} : StatusWriter (wafResponseWriter W T) := waf_StatusCode.

(** The random bytes of one request: its identifier, the browser's salt and the
    session's token. *)
Record Random := mkRandom { rnd_request : string; rnd_browser : string; rnd_token : string }.

Record CORSConfig := mkCORS {
  cors_Enabled : bool;
  AllowOrigins : list string;
  AllowMethods : list string;
  AllowHeaders : list string;
  ExposeHeaders : list string;
  AllowCredentials : bool;
  cors_MaxAge : Z;
}.

Section Pipeline.
Context {W SW L : Type} `{ResponseWriter W} `{StatusWriter W} `{RateLimitStore L} `{Hmac} `{JsonEncoder}
  `{RedirectText} `{SessionStore (store_world SW)} `{RegexpEngine} `{Unicode} `{Platform} `{Driver}.

#[local] Abbreviation st := (rstate W SW L).
#[local] Abbreviation Handler := (HandlerFunc W SW L).

(** ** Middleware *)

(** The handler under [middlewares]: each is skipped, with everything under it, once
    the context is aborted. *)
Definition guard (h : Handler) : Handler :=
  aborted ← IsAborted;
  if aborted : bool then mret None else h.

Definition chain (h : option Handler) (m : list (Middleware W SW L)) : option Handler :=
  match h with
  | None => None
  | Some h => Some (foldr (λ mw next, guard (mw next)) h m)
  end.

Record Router := mkRouter {
  tree : @Tree _ Handler;
  middleware : list (Middleware W SW L);
  errorHandler : Z → string → error → M st unit;
  noRoute : option Handler;
  noMethod : option Handler;
  prefix : string;
  database : option DB;
  sessions_on : bool;
  sessionResolver : option (Request → string * string);
  browserCookieEnabled : bool;
  browserCookieName : string;
  browserSecret : string;
  rateLimiter : bool;
  keyFunc : Request → option Session → string;
  forceHTTPS : bool;
  debug : bool;
  sameSite : Z;
  encryptKey : string;
  cachePaths : list string;
  csp : string;
  cspExemptPaths : list string;
  corsConfig : CORSConfig;
  routeNames : gmap string string;
  currentUserFunc : bool;
  requestScopeFunc : option (M st (error + (string * list value)));
}.

Definition set_tree (t : @Tree _ Handler) (r : Router) : Router :=
  mkRouter t (middleware r) (errorHandler r) (noRoute r) (noMethod r) (prefix r) (database r) (sessions_on r)
    (sessionResolver r) (browserCookieEnabled r) (browserCookieName r) (browserSecret r) (rateLimiter r) (keyFunc r)
    (forceHTTPS r) (debug r) (sameSite r) (encryptKey r) (cachePaths r) (csp r) (cspExemptPaths r) (corsConfig r)
    (routeNames r) (currentUserFunc r) (requestScopeFunc r).
Definition set_middleware (m : list (Middleware W SW L)) (r : Router) : Router :=
  mkRouter (tree r) m (errorHandler r) (noRoute r) (noMethod r) (prefix r) (database r) (sessions_on r)
    (sessionResolver r) (browserCookieEnabled r) (browserCookieName r) (browserSecret r) (rateLimiter r) (keyFunc r)
    (forceHTTPS r) (debug r) (sameSite r) (encryptKey r) (cachePaths r) (csp r) (cspExemptPaths r) (corsConfig r)
    (routeNames r) (currentUserFunc r) (requestScopeFunc r).
Definition set_prefix (p : string) (r : Router) : Router :=
  mkRouter (tree r) (middleware r) (errorHandler r) (noRoute r) (noMethod r) p (database r) (sessions_on r)
    (sessionResolver r) (browserCookieEnabled r) (browserCookieName r) (browserSecret r) (rateLimiter r) (keyFunc r)
    (forceHTTPS r) (debug r) (sameSite r) (encryptKey r) (cachePaths r) (csp r) (cspExemptPaths r) (corsConfig r)
    (routeNames r) (currentUserFunc r) (requestScopeFunc r).
Definition set_routeNames (n : gmap string string) (r : Router) : Router :=
  mkRouter (tree r) (middleware r) (errorHandler r) (noRoute r) (noMethod r) (prefix r) (database r) (sessions_on r)
    (sessionResolver r) (browserCookieEnabled r) (browserCookieName r) (browserSecret r) (rateLimiter r) (keyFunc r)
    (forceHTTPS r) (debug r) (sameSite r) (encryptKey r) (cachePaths r) (csp r) (cspExemptPaths r) (corsConfig r)
    n (currentUserFunc r) (requestScopeFunc r).

Definition Use (m : list (Middleware W SW L)) (r : Router) : Router := set_middleware (middleware r ++ m) r.

(** ** Registration *)

(** [name] is the optional route name; the tree's panics are the caller's. *)
Definition addRoute (method path : string) (h : option Handler) (name : list string) (r : Router)
    : Router * add_result :=
  let fullPath := (prefix r +:+ path)%string in
  let fullHandler := chain h (middleware r) in
  let '(t, res) := AddRoute (tree r) method fullPath fullHandler in
  let r := set_tree t r in
  match res with
  | AddPanic _ => (r, res)
  | _ =>
      match name with
      | n :: _ => (if bool_decide (n ≠ "") then set_routeNames (<[n := fullPath]> (routeNames r)) r else r, res)
      | [] => (r, res)
      end
  end.

(** A group works on a copy of the router that shares the tree and the names; the
    copy has no request scope. *)
Definition clone (r : Router) : Router :=
  mkRouter (tree r) (middleware r) (errorHandler r) (noRoute r) (noMethod r) (prefix r) (database r) (sessions_on r)
    (sessionResolver r) (browserCookieEnabled r) (browserCookieName r) (browserSecret r) (rateLimiter r) (keyFunc r)
    (forceHTTPS r) (debug r) (sameSite r) (encryptKey r) (cachePaths r) (csp r) (cspExemptPaths r) (corsConfig r)
    (routeNames r) (currentUserFunc r) None.
Definition Route (p : string) (fn : Router → Router) (r : Router) : Router :=
  let sub := fn (set_prefix (prefix r +:+ p)%string (clone r)) in
  set_routeNames (routeNames sub) (set_tree (tree sub) r).

(** ** The stages of [serveInternal] *)

Definition has_prefix_of (path : string) (ps : list string) : bool := existsb (HasPrefix path) ps.
Definition shouldCache (r : Router) (path : string) : bool := has_prefix_of path (cachePaths r).

Definition when (b : bool) (m : M st unit) : M st unit := if b then m else mret ().
Definition header (k v : string) : M st unit := onW (set_header k v).

(** Cross-origin headers; [true] when a preflight has been answered. *)
Definition cors_allowed (c : CORSConfig) (origin : string) : bool :=
  match AllowOrigins c with
  | [] => true
  | os => existsb (λ o, bool_decide (o = "*") || bool_decide (o = origin)) os
  end.

Definition serve_cors (r : Router) (req : Request) : M st bool :=
  let c := corsConfig r in
  let origin := Header_Get "Origin" (req_header req) in
  if negb (cors_Enabled c && negb (bool_decide (origin = "")) && cors_allowed c origin) then mret false
  else
    header "Access-Control-Allow-Origin" origin;;
    when (AllowCredentials c) (header "Access-Control-Allow-Credentials" "true");;
    if bool_decide (Method req = "OPTIONS") then
      when (negb (bool_decide (AllowMethods c = []))) (header "Access-Control-Allow-Methods" (Join ", " (AllowMethods c)));;
      when (negb (bool_decide (AllowHeaders c = []))) (header "Access-Control-Allow-Headers" (Join ", " (AllowHeaders c)));;
      when (0 <? cors_MaxAge c)%Z
        (header "Access-Control-Max-Age" (Strconv.FormatInt (float_to_int64 (Seconds (cors_MaxAge c)))));;
      onW (rw_WriteHeader 204);;
      mret true
    else
      when (negb (bool_decide (ExposeHeaders c = []))) (header "Access-Control-Expose-Headers" (Join ", " (ExposeHeaders c)));;
      mret false.

(** [true] when the request has been sent to https. *)
Definition serve_https (r : Router) (req : Request) : M st bool :=
  let isSecure := TLS req || bool_decide (Header_Get "X-Forwarded-Proto" (req_header req) = "https") in
  if forceHTTPS r && negb isSecure then
    onW (http_Redirect req ("https://" +:+ Host req +:+ RequestURI req) 301);; mret true
  else mret false.

Definition security_headers (r : Router) (req : Request) : M st unit :=
  header "X-Content-Type-Options" "nosniff";;
  header "X-Frame-Options" "SAMEORIGIN";;
  header "Referrer-Policy" "strict-origin-when-cross-origin";;
  header "Permissions-Policy" "geolocation=(), microphone=(), camera=()";;
  header "Cross-Origin-Opener-Policy" "same-origin";;
  header "Cross-Origin-Resource-Policy" "same-origin";;
  header "X-DNS-Prefetch-Control" "off";;
  when (forceHTTPS r) (header "Strict-Transport-Security" "max-age=31536000; includeSubDomains");;
  when (negb (bool_decide (csp r = "")) && negb (has_prefix_of (URL_Path req) (cspExemptPaths r)))
    (header "Content-Security-Policy" (csp r));;
  if shouldCache r (URL_Path req) then header "Cache-Control" "public, max-age=3600"
  else
    header "Cache-Control" "no-store, no-cache, must-revalidate, max-age=0";;
    header "Pragma" "no-cache";;
    header "Expires" "0".

(** The pool of contexts. *)
Definition pool_get : M st unit := modM (λ s,
  match s_pool s with
  | [] => set_ctx zero_context s
  | c :: p => set_pool p (set_ctx c s)
  end).
Definition pool_put : M st unit := modM (λ s,
  let c := reset None (s_ctx s) in set_pool (c :: s_pool s) (set_ctx c s)).

(** The deferred save: the store's cookies go to the response's header. *)
Definition save_session : M st unit := λ s,
  match c_session (s_ctx s) with
  | None => (Done (), s)
  | Some x =>
      match Session_Save x (s_store s) with
      | Panic p => (Crash p, s)
      | Ret (_, x', w') =>
          let s := set_ctx (with_session (Some x') (s_ctx s)) s in
          let s := set_store (RedisStore.mkWorld (sw_redis w') [] (sw_draws w')) s in
          (foldr (λ c m, onW (add_cookie c);; m) (mret ()) (sw_cookies w')) s
      end
  end.

(** The signed browser cookie. *)
Definition compute_hmac (r : Router) (ua salt : string) : string := hmac_hex (browserSecret r) (salt +:+ ":" +:+ ua).
Definition user_agent (req : Request) : string :=
  let ua := Header_Get "User-Agent" (req_header req) in if bool_decide (ua = "") then "unknown-ua" else ua.

Definition valid_browser (r : Router) (ua v : string) : bool :=
  match Split "."%char v with
  | [salt; sig] =>
      negb (bool_decide (salt = "")) && negb (bool_decide (sig = "")) && bool_decide (sig = compute_hmac r ua salt)
  | _ => false
  end.

Definition new_browser (r : Router) (ua rnd : string) : string :=
  let salt := hex_EncodeToString rnd in salt +:+ "." +:+ compute_hmac r ua salt.

Definition browser_cookie (r : Router) (rnd : Random) (req : Request) : M st unit :=
  when (browserCookieEnabled r) (
    let ua := user_agent req in
    let sent := default "" (Request_Cookie (browserCookieName r) req) in
    let isValid := negb (bool_decide (sent = "")) && valid_browser r ua sent in
    let currentVal := if isValid then sent else new_browser r ua (rnd_browser rnd) in
    on_ctx (with_browser currentVal isValid);;
    onW (add_cookie (mkCookie (browserCookieName r) currentVal
      (Session.mkOptions "/" (30 * 86400) true (forceHTTPS r) (sameSite r))))).

(** The session of the request, with its token. *)
Definition set_path (p : string) (x : raw_session) : raw_session :=
  let o := raw_Options x in
  mkRaw (raw_ID x) (raw_Values x) (Session.mkOptions p (MaxAge o) (HttpOnly o) (Secure o) (SameSite o)) (raw_IsNew x) (raw_name x).

Definition open_session (r : Router) (rnd : Random) (req : Request) : M st unit :=
  when (sessions_on r) (λ s,
    let '(name, path) :=
      match sessionResolver r with
      | None => ("sessions", "")
      | Some f => let '(n, p) := f req in if bool_decide (n = "") then ("sessions", "") else (n, p)
      end in
    let x := (store_New name (Request_Cookie name req) (s_store s)).1 in
    let x := if bool_decide (path = "") then x else set_path path x in
    let sess := NewSession (Some x) in
    (on_ctx (with_session (Some sess));;
     match Session_Get "_t" sess with
     | VNil => on_session (Session_Set "_t" (VString (hex_EncodeToString (rnd_token rnd))))
     | _ => mret ()
     end) s).

(** [true] when the request has been refused. *)
Definition rate_limit (r : Router) (now : Z) (req : Request) : M st bool :=
  if negb (rateLimiter r) then mret false
  else
    sess ← ctx c_session;
    lim ← getM s_lim;
    let '(ok, lim') := limiter_Allow now (keyFunc r req sess) lim in
    modM (set_lim lim');;
    if ok : bool then mret false
    else
      modM (λ s, set_metrics (IncRateLimited <$> s_metrics s) s);;
      header "Content-Type" "text/plain; charset=utf-8";;
      header "Retry-After" "1";;
      onW (rw_WriteHeader 429);;
      onW (rw_Write "Too Many Requests");;
      mret true.

Definition server_error : M st unit := onW (http_Error "Internal Server Error" 500).

(** The request's transaction: [None] when the request has been answered with an
    error, [Some None] without a transaction. *)
Definition request_scope (r : Router) (c : DbExec.context) : M st (option (option Executor)) :=
  match requestScopeFunc r, database r with
  | Some f, Some _ =>
      q ← f;
      match q with
      | inl _ => server_error;; mret None
      | inr (query, args) =>
          if bool_decide (query = "") then mret (Some None)
          else
            odb ← ctx c_database;
            match odb with
            | None => crashM "runtime error: invalid memory address or nil pointer dereference"
            | Some db =>
                tx ← onDB (DB_Begin (Some c) db);
                match tx with
                | inl _ => server_error;; mret None
                | inr tx =>
                    x ← onDB (Executor_Exec tx (Some c) query args);
                    match x with
                    | inl _ => onDB (Tx_Rollback tx);; server_error;; mret None
                    | inr _ => on_ctx (λ k, with_database (Some (DB_Use tx db)) k);; mret (Some (Some tx))
                    end
                end
            end
      end
  | _, _ => mret (Some None)
  end.

(** ** Errors *)

(** [errors.As] into an [*HTTPError]. *)
Fixpoint as_http (e : error) : option (Z * string) :=
  match e with
  | EHTTP code msg _ => Some (code, msg)
  | EWrap _ e' => as_http e'
  | _ => None
  end.

Definition error_page (e : error) : Z * string :=
  match as_http e with
  | None => (500%Z, "Internal Server Error")
  | Some (code, msg) =>
      (if (0 <? code)%Z then code else 500%Z, if bool_decide (msg = "") then "Internal Server Error" else msg)
  end.

Definition handleError (r : Router) (e : error) : M st unit :=
  let '(code, msg) := error_page e in
  written ← ctx c_written;
  if written : bool then mret () else errorHandler r code msg e.

Definition defaultErrorHandler (dbg : bool) (code : Z) (msg : string) (e : error) : M st unit :=
  req ← ctx c_request;
  match req with
  | None => crashM "runtime error: invalid memory address or nil pointer dereference"
  | Some req =>
      if IsAJAX req then
        APIResponse code (StatusText code) (Some ∅) (VSlice TString (Some []));; mret ()
      else
        let text := Strconv.FormatInt code +:+ " " +:+ StatusText code in
        Context_String code (if dbg then text +:+ newline +:+ newline +:+ msg else text);; mret ()
  end.

Definition defaultNoRoute : Handler := Context_String 404 "404 page not found".
Definition defaultNoMethod : Handler := Context_String 405 "405 method not allowed".

(** ** The handler and what follows it *)

Definition find_handler (r : Router) (req : Request) : M st (option Handler) :=
  match FindRoute (tree r) (Method req) (URL_Path req) with
  | (Some h, params) => on_ctx (with_params params);; mret (Some h)
  | (None, _) =>
      if AnyMethodExists (tree r) (URL_Path req) then mret (chain (noMethod r) (middleware r))
      else mret (chain (noRoute r) (middleware r))
  end.

Definition finish_tx (otx : option Executor) (err : option error) : M st unit :=
  match otx, err with
  | None, _ => mret ()
  | Some tx, None => onDB (Tx_Commit tx);; mret ()
  | Some tx, Some _ => onDB (Tx_Rollback tx);; mret ()
  end.

Definition finish_metrics (dur : Z) (req : Request) : M st unit :=
  status ← onW rw_status;
  modM (λ s, set_metrics (Observe (Method req) status dur (s_metrics s)) s).

Definition dispatch (r : Router) (dur : Z) (req : Request) (otx : option Executor) : M st unit :=
  oh ← find_handler r req;
  match oh with
  | None => crashM "runtime error: invalid memory address or nil pointer dereference"
  | Some h =>
      err ← h;
      match err with Some e => handleError r e | None => mret () end;;
      finish_tx otx err;;
      finish_metrics dur req
  end.

(** The request's transaction around the handler; its deferred rollback does
    nothing after a commit. *)
Definition serve_scoped (r : Router) (c : DbExec.context) (dur : Z) (req : Request) : M st unit :=
  scope ← request_scope r c;
  match scope with
  | None => mret ()
  | Some None => dispatch r dur req None
  | Some (Some tx) => deferM (onDB (Tx_Rollback tx);; mret ()) (dispatch r dur req (Some tx))
  end.

(** ** [serveInternal] *)

Definition request_id (rnd : Random) (req : Request) : string :=
  let h := Header_Get "X-Request-Id" (req_header req) in
  if bool_decide (h = "") then hex_EncodeToString (rnd_request rnd) else h.

(** What the saving of the session is deferred for. *)
Definition serve_session (r : Router) (rnd : Random) (now dur : Z) (req : Request) : M st unit :=
  let c := mkCtx (VString (request_id rnd req)) in
  browser_cookie r rnd req;;
  on_ctx (with_database (DB_WithContext (Some c) <$> database r));;
  open_session r rnd req;;
  refused ← rate_limit r now req;
  if refused : bool then mret () else serve_scoped r c dur req.

(** With the context taken from the pool. *)
Definition serve_context (r : Router) (rnd : Random) (now dur : Z) (req : Request) : M st unit :=
  on_ctx (reset (Some req));;
  on_ctx (with_router (encryptKey r) (currentUserFunc r));;
  deferM save_session (serve_session r rnd now dur req).

Definition serve_body (r : Router) (rnd : Random) (now dur : Z) (req : Request) : M st unit :=
  header "X-Request-Id" (request_id rnd req);;
  answered ← serve_cors r req;
  if answered : bool then mret ()
  else
    redirected ← serve_https r req;
    if redirected : bool then mret ()
    else
      security_headers r req;;
      pool_get;;
      deferM pool_put (serve_context r rnd now dur req).

Definition serveInternal (r : Router) (rnd : Random) (now dur : Z) (req : Request) : M st unit :=
  modM (λ s, set_metrics (StartRequest <$> s_metrics s) s);;
  deferM (modM (λ s, set_metrics (EndRequest <$> s_metrics s) s))
    (recoverM (λ _, server_error) (serve_body r rnd now dur req)).
End Pipeline.

(** ** What a stage leaves alone *)

Section Keeps.
Context {W SW L X : Type} (f : rstate W SW L → X).
#[local] Abbreviation st := (rstate W SW L).

Definition keeps {A} (m : M st A) : Prop := ∀ s, f (m s).2 = f s.

Lemma keeps_ret {A} (a : A) : keeps (mret a).
Proof. done. Qed.
Lemma keeps_get {A} (g : st → A) : keeps (getM g).
Proof. done. Qed.
Lemma keeps_crash {A} p : keeps (crashM p : M st A).
Proof. done. Qed.
Lemma keeps_mod (g : st → st) : (∀ s, f (g s) = f s) → keeps (modM g).
Proof. intros Hg s. apply Hg. Qed.
Lemma keeps_bind {A B} (m : M st A) (k : A → M st B) : keeps m → (∀ a, keeps (k a)) → keeps (m ≫= k).
Proof.
  intros Hm Hk s. unfold mbind, M_bind. specialize (Hm s). destruct (m s) as [[a|p|] s']; simpl in *; [|done..].
  by rewrite Hk.
Qed.
Lemma keeps_defer {A} (d : M st unit) (m : M st A) : keeps d → keeps m → keeps (deferM d m).
Proof.
  intros Hd Hm s. unfold deferM. specialize (Hm s).
  destruct (m s) as [[a|p|] s']; simpl in *; [..|done];
    (specialize (Hd s'); destruct (d s') as [[[]|p'|] s'']; simpl in *; congruence).
Qed.
Lemma keeps_recover h (m : M st unit) : (∀ p, keeps (h p)) → keeps m → keeps (recoverM h m).
Proof.
  intros Hh Hm s. unfold recoverM. specialize (Hm s). destruct (m s) as [[a|p|] s']; simpl in *; [done| |done].
  by rewrite Hh.
Qed.
Lemma keeps_when (b : bool) (m : M st unit) : keeps m → keeps (when b m).
Proof. by destruct b. Qed.
Lemma keeps_onW {A} (m : M W A) : (∀ w s, f (set_w w s) = f s) → keeps (onW m).
Proof. intros Hw s. unfold onW, zoom. destruct (m (s_w s)). apply Hw. Qed.
Lemma keeps_on_head `{ResponseWriter W} (m : head → head) :
  (∀ g s, f (set_w (rw_set_head g (s_w s)) s) = f s) → keeps (onW (modM (rw_set_head m))).
Proof. intros Hh s. apply Hh. Qed.
Lemma keeps_on_ctx g : (∀ c s, f (set_ctx c s) = f s) → keeps (on_ctx g).
Proof. intros Hc s. apply Hc. Qed.
Lemma keeps_on_session g : (∀ c s, f (set_ctx c s) = f s) → keeps (on_session g).
Proof.
  intros Hc s. unfold on_session. destruct (c_session (s_ctx s)); [|done]. by destruct (g _); simpl.
Qed.
Lemma keeps_onDB {A} (m : DbExec.ME A) : (∀ d s, f (set_db d s) = f s) → keeps (onDB m).
Proof. intros Hd s. unfold onDB. destruct (m (s_db s)) as [[|] ?]; apply Hd. Qed.
End Keeps.

Create HintDb keeps.
#[export] Hint Resolve keeps_ret keeps_get keeps_crash keeps_bind keeps_defer keeps_recover keeps_when keeps_onW
  keeps_on_ctx keeps_on_session keeps_onDB keeps_mod : keeps.

(** The stages, each of which leaves alone what it does not name. *)
Section Stages.
Context {W SW L : Type} `{ResponseWriter W} `{StatusWriter W} `{RateLimitStore L} `{Hmac} `{JsonEncoder}
  `{RedirectText} `{SessionStore (store_world SW)} `{RegexpEngine} `{Unicode} `{Platform} `{Driver}.
#[local] Abbreviation st := (rstate W SW L).
Context {X : Type} (f : st → X).
Hypothesis Hw : ∀ w s, f (set_w w s) = f s.
Hypothesis Hc : ∀ c s, f (set_ctx c s) = f s.
Hypothesis Hp : ∀ p s, f (set_pool p s) = f s.
Hypothesis Hst : ∀ x s, f (set_store x s) = f s.
Hypothesis Hl : ∀ l s, f (set_lim l s) = f s.

Hypothesis Hh : ∀ g s, f (set_w (rw_set_head g (s_w s)) s) = f s.

#[local] Hint Resolve Hw Hh Hc Hp Hst Hl : keeps.

Ltac keeps_tac :=
  repeat first
    [ apply keeps_ret | apply keeps_get | apply keeps_crash | apply keeps_when
    | apply keeps_on_head; exact Hh | apply keeps_onW; exact Hw | apply keeps_on_ctx; auto | apply keeps_on_session; auto
    | apply keeps_bind; [|intros ?]
    | match goal with |- keeps _ (match ?x with _ => _ end) => destruct x end
    | apply keeps_mod; intros ?; auto ].

Lemma keeps_cors r req : keeps f (serve_cors (r : Router) req : M st bool).
Proof. unfold serve_cors, header. keeps_tac. Qed.
Lemma keeps_https r req : keeps f (serve_https (r : Router) req : M st bool).
Proof. unfold serve_https. keeps_tac. Qed.
Lemma keeps_security r req : keeps f (security_headers (r : Router) req : M st unit).
Proof. unfold security_headers, header. keeps_tac. Qed.
Lemma keeps_pool_get : keeps f (pool_get : M st unit).
Proof. apply keeps_mod. intros s. destruct (s_pool s); [apply Hc|]. by rewrite Hp, Hc. Qed.
Lemma keeps_pool_put : keeps f (pool_put : M st unit).
Proof. apply keeps_mod. intros s. simpl. by rewrite Hp, Hc. Qed.
Lemma keeps_browser r rnd req : keeps f (browser_cookie (r : Router) rnd req : M st unit).
Proof. unfold browser_cookie. keeps_tac. Qed.
Lemma keeps_open_session r rnd req : keeps f (open_session (r : Router) rnd req : M st unit).
Proof.
  unfold open_session. apply keeps_when. intros s. case_match.
  match goal with |- f (snd (?m s)) = _ => assert (keeps f m) as Hm end; [|apply Hm].
  keeps_tac.
Qed.
Lemma keeps_save_session : keeps f (save_session : M st unit).
Proof.
  intros s. unfold save_session. destruct (c_session (s_ctx s)); [|done].
  destruct (Session_Save _ _) as [[[e x'] w']|p]; [|done]. simpl.
  set (s1 := set_store _ _). assert (f s1 = f s) as <- by (unfold s1; by rewrite Hst, Hc).
  clearbody s1. induction (sw_cookies w') as [|c l IH] in s1 |- *; simpl; [done|].
  unfold mbind, M_bind. pose proof (keeps_on_head f (http_SetCookie c) Hh s1 : f (onW (add_cookie c) s1).2 = f s1) as Hk.
  destruct (onW (add_cookie c) s1) as [[a|p|] s2]; simpl in *; [|done..]. by rewrite IH.
Qed.
Lemma keeps_server_error : keeps f (server_error : M st unit).
Proof. by apply keeps_onW. Qed.
End Stages.

(** ** The request's transaction *)

Definition is_rollback (tx : nat) (ev : DbExec.event) : Prop := ∃ r, ev = EvRollback tx r.

Section Scope.
Context {W SW L : Type} `{ResponseWriter W} `{StatusWriter W} `{RateLimitStore L} `{Hmac} `{JsonEncoder}
  `{RedirectText} `{SessionStore (store_world SW)} `{RegexpEngine} `{Unicode} `{Platform} `{Driver}.
#[local] Abbreviation st := (rstate W SW L).
#[local] Abbreviation Handler := (HandlerFunc W SW L).

Definition db_trace (s : st) : list DbExec.event := trace (s_db s).

(** A handler that works on the database only through its context's handle. *)
Definition uses_own_handle (h : Handler) : Prop :=
  ∀ s tx d, c_database (s_ctx s) = Some d → tx_id (db_executor d) = Some tx →
    ∃ body, db_trace (h s).2 = db_trace s ++ body ∧ Forall (in_tx tx) body.

(** What the transaction's end shows of the handler's outcome. *)
Definition ends_with (tx : nat) (o : exec (option error)) (returned : Prop) (tail : list DbExec.event) : Prop :=
  match o with
  | Done None => ∃ r rest, tail = EvCommit tx r :: rest ∧ Forall (is_rollback tx) rest
  | _ => Forall (is_rollback tx) tail ∧ (returned → tail ≠ [])
  end.

Lemma onDB_Rollback txe tx (s : st) :
  tx_id txe = Some tx → ∃ r x, onDB (Tx_Rollback txe) s = (Done x, set_db (add_trace [EvRollback tx r] (s_db s)) s).
Proof.
  intros Htx. destruct (Rollback_tx txe tx (s_db s) Htx) as (r & Hr). unfold onDB. rewrite Hr.
  exists r. destruct r; by eexists.
Qed.

Lemma onDB_Commit txe tx (s : st) :
  tx_id txe = Some tx → ∃ r x, onDB (Tx_Commit txe) s = (Done x, set_db (add_trace [EvCommit tx r] (s_db s)) s).
Proof.
  intros Htx. destruct (Commit_tx txe tx (s_db s) Htx) as (r & Hr). unfold onDB. rewrite Hr.
  exists r. destruct r; by eexists.
Qed.

Lemma keeps_finish_metrics dur req : keeps s_db (finish_metrics dur req : M st unit).
Proof.
  unfold finish_metrics. apply keeps_bind; [by apply keeps_onW|]. intros status. by apply keeps_mod.
Qed.

(** The handler and the end of the transaction, before the deferred rollback. *)
Lemma dispatch_ends r dur req h params txe tx s :
  FindRoute (tree r) (Method req) (URL_Path req) = (Some h, params) →
  tx_id txe = Some tx → (∀ code msg e, keeps s_db (errorHandler r code msg e)) →
  let s1 := set_ctx (with_params params (s_ctx s)) s in
  ∃ tail, db_trace (dispatch r dur req (Some txe) s).2 = db_trace (h s1).2 ++ tail ∧
    ends_with tx (h s1).1 False tail ∧
    ((h s1).1 = Hang → (dispatch r dur req (Some txe) s).1 = Hang).
Proof.
  intros Hf Htx Heh s1.
  set (cont := λ err : option error, (match err with Some e => handleError r e | None => mret () end;;
     finish_tx (Some txe) err;; finish_metrics dur req : M st unit)).
  assert (dispatch r dur req (Some txe) s =
    match h s1 with
    | (Done a, s2) => cont a s2
    | (Crash p, s2) => (Crash p, s2)
    | (Hang, s2) => (Hang, s2)
    end) as ->.
  { unfold dispatch, find_handler. rewrite Hf. done. }
  destruct (h s1) as [[[e|]|p|] s2]; simpl; unfold cont.
  - assert (keeps s_db (handleError r e)) as Hk.
    { unfold handleError. destruct (error_page e) as [code msg]. apply keeps_bind; [apply keeps_get|].
      intros []; [apply keeps_ret|apply Heh]. }
    unfold mbind at 1, M_bind at 1. specialize (Hk s2). unfold db_trace.
    destruct (handleError r e s2) as [[[]|p|] s3]; simpl in *.
    + destruct (onDB_Rollback txe tx s3 Htx) as (rb & x & Hrb).
      unfold mbind, M_bind. rewrite Hrb. simpl.
      pose proof (keeps_finish_metrics dur req (set_db (add_trace [EvRollback tx rb] (s_db s3)) s3)) as Hm.
      rewrite Hm. simpl. rewrite Hk. exists [EvRollback tx rb]. split_and!; [done|constructor; [by eexists|constructor]|done|done].
    + exists []. rewrite app_nil_r, Hk. split; [done|]. split; [split; [apply Forall_nil_2|by intros []]|done].
    + exists []. rewrite app_nil_r, Hk. split; [done|]. split; [split; [apply Forall_nil_2|by intros []]|done].
  - destruct (onDB_Commit txe tx s2 Htx) as (r' & x & Hcm).
    unfold mbind, M_bind, mret, M_ret, finish_tx, mbind, M_bind. rewrite Hcm. simpl. unfold db_trace.
    pose proof (keeps_finish_metrics dur req (set_db (add_trace [EvCommit tx r'] (s_db s2)) s2)) as Hm.
    rewrite Hm. simpl. exists [EvCommit tx r']. split_and!; [done|by eexists _, []|done].
  - exists []. rewrite app_nil_r. split; [done|]. split; [split; [apply Forall_nil_2|by intros []]|done].
  - exists []. rewrite app_nil_r. split; [done|]. split; [split; [apply Forall_nil_2|by intros []]|done].
Qed.

(** The deferred rollback after that end. *)
Lemma scoped_ends r dur req h params txe tx (s s' : st) res :
  FindRoute (tree r) (Method req) (URL_Path req) = (Some h, params) →
  tx_id txe = Some tx → (∀ code msg e, keeps s_db (errorHandler r code msg e)) →
  deferM (onDB (Tx_Rollback txe);; mret ()) (dispatch r dur req (Some txe)) s = (res, s') →
  let s1 := set_ctx (with_params params (s_ctx s)) s in
  ∃ tail, db_trace s' = db_trace (h s1).2 ++ tail ∧ ends_with tx (h s1).1 (res ≠ Hang) tail.
Proof.
  intros Hf Htx Heh Hrun s1.
  destruct (dispatch_ends r dur req h params txe tx s Hf Htx Heh) as (tail & Htail & Hends & Hhang).
  fold s1 in Htail, Hends, Hhang. unfold deferM in Hrun.
  destruct (dispatch r dur req (Some txe) s) as [o s2]. simpl in Htail, Hhang.
  destruct (onDB_Rollback txe tx s2 Htx) as (rb & y & Hrb).
  assert (o = Hang ∧ res = Hang ∧ s' = s2 ∨ o ≠ Hang ∧ db_trace s' = db_trace s2 ++ [EvRollback tx rb]) as Hcase.
  { destruct o as [a|p|]; [right|right|left; by injection Hrun as -> ->]; (split; [done|]);
      unfold mbind, M_bind in Hrun; rewrite Hrb in Hrun; by injection Hrun as _ <-. }
  destruct Hcase as [(-> & -> & ->)|(Hno & Htr')].
  - exists tail. split; [done|]. unfold ends_with in *.
    destruct (h s1).1 as [[e|]|p|]; [|exact Hends|..]; destruct Hends as [Hends _]; (split; [done|by intros []]).
  - exists (tail ++ [EvRollback tx rb]). split; [by rewrite Htr', Htail, <-app_assoc|].
    assert (Forall (is_rollback tx) [EvRollback tx rb]) as Hrb1 by (constructor; [by eexists|constructor]).
    assert (Forall (is_rollback tx) tail →
      Forall (is_rollback tx) (tail ++ [EvRollback tx rb]) ∧ (res ≠ Hang → tail ++ [EvRollback tx rb] ≠ [])) as Hend.
    { intros Ht. split; [by apply Forall_app|]. intros _. by destruct tail. }
    unfold ends_with in *. destruct (h s1).1 as [[e|]|p|]; try by apply Hend, Hends.
    + destruct Hends as (r' & rest & -> & Hrest). exists r', (rest ++ [EvRollback tx rb]).
      split; [done|]. by apply Forall_app.
Qed.

(** A statement on a transaction returns: it does not panic. *)
Lemma tx_Exec_returns e tx c q args w :
  tx_id e = Some tx → ∃ x w', Executor_Exec e (Some c) q args w = (Ret x, w').
Proof.
  induction e as [| |n| | |e IH lg]; simpl; intros Htx; try done.
  - unfold sqlxTx_Exec, call_Exec, mbind, ME_bind. simpl. unfold ofsum. destruct (drv_Exec _ _ _ _); by eexists _, _.
  - unfold loggedTx_Exec. destruct (IH Htx) as (x & w' & Hx).
    destruct (logged_call (Executor_Exec e (Some c) q args) lg c q args err_of rows_of w) as (logs & Hl & _).
    rewrite Hl, Hx. by eexists _, _.
Qed.

(** The scope's transaction, from where it is opened. *)
Lemma scoped_run (r : @Router W SW L _) c dur req fn query args db (s : st) :
  requestScopeFunc r = Some fn → database r ≠ None → fn s = (Done (inr (query, args)), s) → query ≠ "" →
  c_database (s_ctx s) = Some db →
  serve_scoped r c dur req s =
  (tx ← onDB (Executor_Begin (db_executor db) (Some c));
   match tx with
   | inl _ => server_error;; mret ()
   | inr tx =>
       x ← onDB (Executor_Exec tx (Some c) query args);
       match x with
       | inl _ => onDB (Tx_Rollback tx);; server_error;; mret ()
       | inr _ =>
           on_ctx (λ k, with_database (Some (DB_Use tx db)) k);;
           deferM (onDB (Tx_Rollback tx);; mret ()) (dispatch r dur req (Some tx))
       end
   end) s.
Proof.
  intros Hfn Hrdb Hfs Hq Hdb. unfold serve_scoped, request_scope, mbind, M_bind, ctx, getM. rewrite Hfn.
  destruct (database r); [|done]. rewrite Hfs. rewrite bool_decide_false by done. rewrite Hdb. unfold DB_Begin, or_ctx.
  destruct (onDB (Executor_Begin _ _) s) as [[[e|tx]|p|] s1]; [| |done..].
  - destruct (server_error s1) as [[[]|p|] s2]; done.
  - destruct (onDB (Executor_Exec _ _ _ _) s1) as [[[e|x]|p|] s2]; [| |done..].
    + destruct (onDB (Tx_Rollback tx) s2) as [[y|p|] s3]; [|done..].
      destruct (server_error s3) as [[[]|p|] s4]; done.
    + done.
Qed.

(** How a request under a request scope ends with outcome [res] in state [s']: the
    transaction could not be opened; or the scope's statement failed, and nothing
    but it and the rollback was run; or the handler [h] was called in a state [s1]
    whose database handle is the transaction, and all it did is on it. *)
Definition in_one_transaction (h : Handler) (c : DbExec.context) (params : list Param) (query : string)
    (args : list value) (db : DB) (s : st) (res : exec unit) (s' : st) : Prop :=
  (∃ e, Executor_Begin (db_executor db) (Some c) (s_db s) = (Ret (inl e), add_trace [EvBeginFailed e] (s_db s)) ∧
     db_trace s' = db_trace s ++ [EvBeginFailed e]) ∨
  (∃ tx txe w1 w2, Executor_Begin (db_executor db) (Some c) (s_db s) = (Ret (inr txe), w1) ∧
     tx_id txe = Some tx ∧ trace w1 = db_trace s ++ [EvBegin tx] ∧
     ((∃ e rb, Executor_Exec txe (Some c) query args w1 = (Ret (inl e), w2) ∧
         db_trace s' = trace w2 ++ [EvRollback tx rb]) ∨
      (∃ x s1 body tail, Executor_Exec txe (Some c) query args w1 = (Ret (inr x), w2) ∧
         s_db s1 = w2 ∧ c_database (s_ctx s1) = Some (DB_Use txe db) ∧ c_params (s_ctx s1) = params ∧
         db_trace (h s1).2 = trace w2 ++ body ∧ Forall (in_tx tx) body ∧
         db_trace s' = trace w2 ++ body ++ tail ∧ ends_with tx (h s1).1 (res ≠ Hang) tail)) ∧
     ∃ init, trace w2 = trace w1 ++ init ∧ Forall (in_tx tx) init).

(** [C6] A request under a request scope runs in one transaction: its first
    statement is the scope's, all of the handler's statements are on that
    transaction, and it is committed if and only if the handler returns without an
    error; when the handler returns an error or panics the transaction is rolled
    back.  When the transaction cannot be opened or the scope's statement fails the
    handler is not called. *)
Theorem request_transaction (r : @Router W SW L _) c dur req h params fn query args db (s : st) :
  FindRoute (tree r) (Method req) (URL_Path req) = (Some h, params) →
  uses_own_handle h → (∀ code msg e, keeps s_db (errorHandler r code msg e)) →
  requestScopeFunc r = Some fn → database r ≠ None → fn s = (Done (inr (query, args)), s) → query ≠ "" →
  c_database (s_ctx s) = Some db → is_pool (db_executor db) →
  let '(res, s') := serve_scoped r c dur req s in in_one_transaction h c params query args db s res s'.
Proof.
  intros Hf Hh Heh Hfn Hrdb Hfs Hq Hdb Hpool.
  destruct (serve_scoped r c dur req s) as [res s'] eqn:Hrun.
  rewrite (scoped_run r c dur req fn query args db s) in Hrun by done.
  unfold mbind at 1, M_bind at 1, onDB at 1 in Hrun.
  destruct (Begin_pool (db_executor db) c (s_db s) Hpool) as [[e He]|(txe & w1 & He & Htx & Htr)]; rewrite He in Hrun.
  { left. exists e. split; [done|].
    assert (keeps s_db (server_error : M st unit)) as Hk by (by apply keeps_onW).
    unfold mbind, M_bind in Hrun. specialize (Hk (set_db (add_trace [EvBeginFailed e] (s_db s)) s)).
    unfold db_trace. destruct (server_error _) as [[[]|p|] s2]; simpl in *; injection Hrun as <- <-; by rewrite Hk. }
  right. set (tx := next_tx (s_db s)) in *.
  destruct (Exec_in_tx tx txe (Some c) query args Htx w1) as (init & Hinit & Hall).
  unfold mbind at 1, M_bind at 1, onDB at 1 in Hrun. cbn [s_db set_db] in Hrun.
  destruct (Executor_Exec txe (Some c) query args w1) as [[[e|x]|p] w2] eqn:Hex; simpl in Hinit.
  - exists tx, txe, w1, w2. split_and!; [done|done|done| |by exists init]. left.
    destruct (onDB_Rollback txe tx (set_db w2 (set_db w1 s)) Htx) as (rb & y & Hrb).
    assert (keeps s_db (server_error : M st unit)) as Hk by (by apply keeps_onW).
    unfold mbind, M_bind in Hrun. rewrite Hrb in Hrun.
    match type of Hrun with context [server_error ?z] => specialize (Hk z); destruct (server_error z) as [[[]|p|] s2] end;
      simpl in *; injection Hrun as <- <-; exists e, rb; (split; [done|]);
      unfold db_trace; by rewrite Hk.
  - exists tx, txe, w1, w2. split_and!; [done|done|done| |by exists init]. right.
    set (s1 := set_ctx (with_database (Some (DB_Use txe db)) (s_ctx s)) (set_db w2 (set_db w1 s))).
    assert ((res, s') = deferM (onDB (Tx_Rollback txe);; mret ()) (dispatch r dur req (Some txe)) s1) as Hrun' by done.
    destruct (scoped_ends r dur req h params txe tx s1 s' res Hf Htx Heh) as (tail & Htail & Hends); [done|].
    set (sh := set_ctx (with_params params (s_ctx s1)) s1) in *.
    destruct (Hh sh tx (DB_Use txe db)) as (body & Hbody & Hin); [done|done|].
    exists x, sh, body, tail. split_and!; [done..| |done]. rewrite Htail, Hbody. by rewrite <-app_assoc.
  - destruct (tx_Exec_returns txe tx c query args w1 Htx) as (x & w3 & Hx). rewrite Hex in Hx. discriminate Hx.
Qed.
End Scope.
