(* ===== verification/RouterSafety.v ===== *)
(** * Properties of the request pipeline *)

From S2P Require Import Prelude GoStrings GoValue HttpErr RouterTree Session RedisStore Crypto RateLimit.
From S2P Require Import RedisRateLimit Http Net Waf Metrics DbModel DbPrepared DbExec DbBuilder DbSafety DbFacade.
From S2P Require Import Context Router.
From Stdlib Require Import Ascii.
Import Strings.

(** ** The gauge of requests in flight *)

Section InFlight.
Context {W SW L : Type} `{ResponseWriter W} `{StatusWriter W} `{RateLimitStore L} `{Hmac} `{JsonEncoder}
  `{RedirectText} `{SessionStore (store_world SW)} `{RegexpEngine} `{Unicode} `{Platform} `{Driver}.
#[local] Abbreviation st := (rstate W SW L).

Definition in_flight (s : st) : option Z := inFlight <$> s_metrics s.

(** The application's functions do not touch what [f] sees. *)
Record app_keeps {X} (f : st → X) (r : @Router W SW L _) : Prop := {
  app_routes m p h ps : FindRoute (tree r) m p = (Some h, ps) → keeps f h;
  app_noRoute h : chain (noRoute r) (middleware r) = Some h → keeps f h;
  app_noMethod h : chain (noMethod r) (middleware r) = Some h → keeps f h;
  app_error code msg e : keeps f (errorHandler r code msg e);
  app_scope m : requestScopeFunc r = Some m → keeps f m;
}.

Lemma in_flight_w w (s : st) : in_flight (set_w w s) = in_flight s. Proof. done. Qed.
Lemma in_flight_ctx c (s : st) : in_flight (set_ctx c s) = in_flight s. Proof. done. Qed.
Lemma in_flight_db d (s : st) : in_flight (set_db d s) = in_flight s. Proof. done. Qed.

Lemma keeps_rate_limit {X} (f : st → X) r now req :
  (∀ w s, f (set_w w s) = f s) → (∀ l s, f (set_lim l s) = f s) →
  (∀ s, f (set_metrics (IncRateLimited <$> s_metrics s) s) = f s) →
  keeps f (rate_limit (r : @Router W SW L _) now req).
Proof.
  intros Hw Hl Hm. unfold rate_limit, header. destruct (negb _); [apply keeps_ret|].
  apply keeps_bind; [apply keeps_get|intros sess]. apply keeps_bind; [apply keeps_get|intros lim].
  destruct (limiter_Allow _ _ _) as [[] lim']; (apply keeps_bind; [by apply keeps_mod|intros _]); [apply keeps_ret|].
  apply keeps_bind; [by apply keeps_mod|intros _].
  repeat (apply keeps_bind; [by apply keeps_onW|intros ?]). apply keeps_ret.
Qed.
Lemma in_flight_limited (s : st) : in_flight (set_metrics (IncRateLimited <$> s_metrics s) s) = in_flight s.
Proof. unfold in_flight. simpl. by destruct (s_metrics s). Qed.

(** The application's part of a request, for what its stages do not touch. *)
Section AppStages.
Context {X : Type} (f : st → X) (r : @Router W SW L _).
Hypothesis Hw : ∀ w s, f (set_w w s) = f s.
Hypothesis Hc : ∀ c s, f (set_ctx c s) = f s.
Hypothesis Hd : ∀ d s, f (set_db d s) = f s.
Hypothesis Hm : ∀ m code dur s, f (set_metrics (Observe m code dur (s_metrics s)) s) = f s.
Hypothesis Ha : app_keeps f r.

Lemma keeps_request_scope c : keeps f (request_scope r c).
Proof.
  unfold request_scope.
  destruct (requestScopeFunc r) as [m|] eqn:E; [|apply keeps_ret]. destruct (database r); [|apply keeps_ret].
  assert (keeps f (server_error : M st unit)) as He by (by apply keeps_onW).
  apply keeps_bind; [by eapply app_scope|]. intros [e|[q args]].
  { apply keeps_bind; [done|]. intros ?. apply keeps_ret. }
  case_bool_decide; [apply keeps_ret|]. apply keeps_bind; [apply keeps_get|]. intros [db|]; [|apply keeps_crash].
  apply keeps_bind; [by apply keeps_onDB|]. intros [e|tx].
  { apply keeps_bind; [done|]. intros ?. apply keeps_ret. }
  apply keeps_bind; [by apply keeps_onDB|]. intros [e|x].
  - apply keeps_bind; [by apply keeps_onDB|]. intros ?. apply keeps_bind; [done|]. intros ?. apply keeps_ret.
  - apply keeps_bind; [by apply keeps_on_ctx|]. intros ?. apply keeps_ret.
Qed.

Lemma keeps_find_handler req : keeps f (find_handler r req).
Proof.
  unfold find_handler. destruct (FindRoute _ _ _) as [[h|] ps].
  - apply keeps_bind; [by apply keeps_on_ctx|]. intros ?. apply keeps_ret.
  - destruct (AnyMethodExists _ _); apply keeps_ret.
Qed.

Lemma find_handler_result req (s s' : st) oh :
  find_handler r req s = (Done oh, s') →
  (∃ ps h, FindRoute (tree r) (Method req) (URL_Path req) = (Some h, ps) ∧ oh = Some h) ∨
  oh = chain (noMethod r) (middleware r) ∨ oh = chain (noRoute r) (middleware r).
Proof.
  unfold find_handler. destruct (FindRoute _ _ _) as [[h|] ps].
  - intros Heq. injection Heq as <- <-. left. eauto.
  - destruct (AnyMethodExists _ _); intros Heq; injection Heq as <- <-; auto.
Qed.

Lemma keeps_dispatch dur req otx : keeps f (dispatch r dur req otx).
Proof.
  intros s. unfold dispatch, mbind at 1, M_bind at 1.
  pose proof (keeps_find_handler req s) as Hf.
  destruct (find_handler r req s) as [[oh|p|] s1] eqn:E; simpl in *; [|done..].
  rewrite <-Hf. destruct oh as [h|]; [|done].
  assert (keeps f h) as Hh.
  { apply find_handler_result in E as [(ps & h' & Hfr & [= <-])|[E|E]];
      [by eapply app_routes|by eapply app_noMethod|by eapply app_noRoute]. }
  match goal with |- f (snd (?m s1)) = _ => assert (keeps f m) as Hk end; [|apply Hk].
  apply keeps_bind; [done|]. intros err. apply keeps_bind; [|intros _; apply keeps_bind; [|intros _]].
  - destruct err as [e|]; [|apply keeps_ret]. unfold handleError. destruct (error_page e).
    apply keeps_bind; [apply keeps_get|]. intros []; [apply keeps_ret|by apply app_error].
  - unfold finish_tx. destruct otx as [tx|]; [|apply keeps_ret].
    destruct err; (apply keeps_bind; [by apply keeps_onDB|intros ?; apply keeps_ret]).
  - unfold finish_metrics. apply keeps_bind; [by apply keeps_onW|]. intros status. by apply keeps_mod.
Qed.

Lemma keeps_serve_scoped c dur req : keeps f (serve_scoped r c dur req).
Proof.
  unfold serve_scoped. apply keeps_bind; [by apply keeps_request_scope|].
  intros [[tx|]|]; [|by apply keeps_dispatch|apply keeps_ret].
  apply keeps_defer; [|by apply keeps_dispatch].
  apply keeps_bind; [by apply keeps_onDB|]. intros ?. apply keeps_ret.
Qed.
End AppStages.

Lemma in_flight_observed m code dur (s : st) : in_flight (set_metrics (Observe m code dur (s_metrics s)) s) = in_flight s.
Proof. unfold in_flight. simpl. by destruct (s_metrics s). Qed.

Lemma keeps_serve_body r rnd now dur req : app_keeps in_flight r → keeps in_flight (serve_body r rnd now dur req).
Proof.
  intros Ha. unfold serve_body. apply keeps_bind; [by apply keeps_onW|]. intros ?.
  apply keeps_bind; [by apply keeps_cors|]. intros []; [apply keeps_ret|].
  apply keeps_bind; [by apply keeps_https|]. intros []; [apply keeps_ret|].
  apply keeps_bind; [by apply keeps_security|]. intros ?.
  apply keeps_bind; [by apply keeps_pool_get|]. intros ?.
  apply keeps_defer; [by apply keeps_pool_put|]. unfold serve_context, serve_session.
  apply keeps_bind; [by apply keeps_on_ctx|]. intros ?. apply keeps_bind; [by apply keeps_on_ctx|]. intros ?.
  apply keeps_defer; [by apply keeps_save_session|].
  apply keeps_bind; [by apply keeps_browser|]. intros ?. apply keeps_bind; [by apply keeps_on_ctx|]. intros ?.
  apply keeps_bind; [by apply keeps_open_session|]. intros ?.
  apply keeps_bind; [by apply keeps_rate_limit; [..|apply in_flight_limited]|].
  intros []; [apply keeps_ret|]. by apply keeps_serve_scoped; [..|apply in_flight_observed|].
Qed.

(** The gauge of requests in flight is balanced: whatever happens to a request
    (preflight, redirect, refusal, handler error, panic), once it has been served
    the gauge is where it was before; it stays up only for a request that never
    returns. *)
Theorem in_flight_balanced r rnd now dur req s n :
  app_keeps in_flight r → in_flight s = Some n → in_int64 n → in_int64 (n + 1) →
  let '(res, s') := serveInternal r rnd now dur req s in
  in_flight s' = Some (match res with Hang => n + 1 | _ => n end)%Z.
Proof.
  intros Ha Hn Hr Hr1. unfold serveInternal, mbind, M_bind, modM, deferM, recoverM.
  set (s1 := set_metrics (StartRequest <$> s_metrics s) s).
  assert (in_flight s1 = Some (n + 1)%Z) as Hs1.
  { unfold in_flight, s1 in *. simpl. destruct (s_metrics s) as [c|]; [|done]. simpl in *.
    injection Hn as <-. by rewrite wrap64_id. }
  assert (∀ s2 : st, in_flight s2 = Some (n + 1)%Z →
    in_flight (set_metrics (EndRequest <$> s_metrics s2) s2) = Some n) as Hend.
  { intros s2 Hs2. unfold in_flight in *. simpl. destruct (s_metrics s2) as [c|]; [|done]. simpl in *.
    injection Hs2 as Hs2. rewrite Hs2. f_equal. replace (n + 1 - 1)%Z with n by lia. by apply wrap64_id. }
  pose proof (keeps_serve_body r rnd now dur req Ha s1) as Hb. rewrite Hs1 in Hb.
  destruct (serve_body r rnd now dur req s1) as [[a|p|] s2]; simpl in *; [by apply Hend| |done].
  pose proof (keeps_onW in_flight (http_Error "Internal Server Error" 500) in_flight_w s2) as He.
  unfold server_error. rewrite Hb in He.
  destruct (onW (http_Error "Internal Server Error" 500) s2) as [[a|p'|] s3]; simpl in *; [by apply Hend..|done].
Qed.
End InFlight.

(** ** Requests the rate limiter refuses *)

Section Refused.
Context {W SW L : Type} `{ResponseWriter W} `{StatusWriter W} `{RateLimitStore L} `{Hmac} `{JsonEncoder}
  `{RedirectText} `{SessionStore (store_world SW)} `{RegexpEngine} `{Unicode} `{Platform} `{Driver}.
#[local] Abbreviation st := (rstate W SW L).
#[local] Abbreviation Handler := (HandlerFunc W SW L).
#[local] Abbreviation Router := (@Router W SW L _).

(** The router with another application: routes, middleware, handlers and scope. *)
Definition with_application (t : @Tree _ Handler) (mw : list (Middleware W SW L))
    (eh : Z → string → error → M st unit) (nr nm : option Handler)
    (scope : option (M st (error + (string * list value)))) (r : Router) : Router :=
  mkRouter t mw eh nr nm (prefix r) (database r) (sessions_on r) (sessionResolver r) (browserCookieEnabled r)
    (browserCookieName r) (browserSecret r) (rateLimiter r) (keyFunc r) (forceHTTPS r) (debug r) (sameSite r)
    (encryptKey r) (cachePaths r) (csp r) (cspExemptPaths r) (corsConfig r) (routeNames r) (currentUserFunc r) scope.

(** The stages in front of the application. *)
Definition front (r : Router) (rnd : Random) (now : Z) (req : Request) : M st unit :=
  let c := mkCtx (VString (request_id rnd req)) in
  on_ctx (reset (Some req));;
  on_ctx (with_router (encryptKey r) (currentUserFunc r));;
  deferM save_session (
    browser_cookie r rnd req;;
    on_ctx (with_database (DB_WithContext (Some c) <$> database r));;
    open_session r rnd req;;
    rate_limit r now req;;
    mret ()).
Definition front_body (r : Router) (rnd : Random) (now : Z) (req : Request) : M st unit :=
  header "X-Request-Id" (request_id rnd req);;
  answered ← serve_cors r req;
  if answered : bool then mret ()
  else
    redirected ← serve_https r req;
    if redirected : bool then mret ()
    else security_headers r req;; pool_get;; deferM pool_put (front r rnd now req).
Definition front_only (r : Router) (rnd : Random) (now : Z) (req : Request) : M st unit :=
  modM (λ s, set_metrics (StartRequest <$> s_metrics s) s);;
  deferM (modM (λ s, set_metrics (EndRequest <$> s_metrics s) s))
    (recoverM (λ _, server_error) (front_body r rnd now req)).

Lemma bind_agree {A B} (m : M st A) (k1 k2 : A → M st B) s :
  (∀ a s', m s = (Done a, s') → k1 a s' = k2 a s') → (m ≫= k1) s = (m ≫= k2) s.
Proof. intros Hk. unfold mbind, M_bind. destruct (m s) as [[a|p|] s'] eqn:E; [by apply Hk|done..]. Qed.

(** After a stage that leaves the limiter alone. *)
Lemma bind_agree_lim {A B} (m : M st A) (k1 k2 : A → M st B) s :
  keeps s_lim m → (∀ a s', s_lim s' = s_lim s → k1 a s' = k2 a s') → (m ≫= k1) s = (m ≫= k2) s.
Proof.
  intros Hm Hk. apply bind_agree. intros a s' E. apply Hk. specialize (Hm s). by rewrite E in Hm.
Qed.

Definition refuses (now : Z) (lim : L) : Prop := ∀ key, (limiter_Allow now key lim).1 = false.

Lemma rate_limit_refuses r now req (k : M st unit) s :
  rateLimiter r = true → refuses now (s_lim s) →
  (refused ← rate_limit r now req; if refused : bool then mret () else k) s = (rate_limit r now req;; mret ()) s.
Proof.
  intros Hr Hno. apply bind_agree. intros [] s' E; [done|]. exfalso. revert E. unfold rate_limit. rewrite Hr. simpl.
  unfold mbind, M_bind, ctx, getM. simpl. specialize (Hno (keyFunc r req (c_session (s_ctx s)))).
  destruct (limiter_Allow _ _ _) as [ok lim']. simpl in Hno. subst ok.
  repeat (match goal with |- context [match ?m ?x with pair _ _ => _ end] => destruct (m x) as [[?|?|] ?] end); done.
Qed.

Lemma refused_front r rnd now dur req s :
  rateLimiter r = true → refuses now (s_lim s) → serveInternal r rnd now dur req s = front_only r rnd now req s.
Proof.
  intros Hr Hno. unfold serveInternal, front_only. apply (bind_agree_lim (modM _)); [done|]. intros _ s1 E1.
  assert (serve_body r rnd now dur req s1 = front_body r rnd now req s1) as Hb;
    [|unfold deferM, recoverM; by rewrite Hb].
  unfold serve_body, front_body. apply bind_agree_lim; [by apply keeps_on_head|]. intros _ s2 E2.
  apply bind_agree_lim; [by apply keeps_cors|]. intros [] s3 E3; [done|].
  apply bind_agree_lim; [by apply keeps_https|]. intros [] s4 E4; [done|].
  apply bind_agree_lim; [by apply keeps_security|]. intros _ s5 E5.
  apply bind_agree_lim; [by apply keeps_pool_get|]. intros _ s6 E6.
  assert (serve_context r rnd now dur req s6 = front r rnd now req s6) as Hc; [|unfold deferM; by rewrite Hc].
  unfold serve_context, serve_session, front. apply (bind_agree_lim (on_ctx _)); [done|]. intros _ s7 E7.
  apply (bind_agree_lim (on_ctx _)); [done|]. intros _ s8 E8.
  match goal with |- deferM _ ?m1 _ = deferM _ ?m2 _ => assert (m1 s8 = m2 s8) as Hm end; [|unfold deferM; by rewrite Hm].
  apply bind_agree_lim; [by apply keeps_browser|]. intros _ s9 E9.
  apply (bind_agree_lim (on_ctx _)); [done|]. intros _ s10 E10.
  apply bind_agree_lim; [by apply keeps_open_session|]. intros _ s11 E11.
  apply rate_limit_refuses; [done|]. by rewrite E11, E10, E9, E8, E7, E6, E5, E4, E3, E2, E1.
Qed.

Lemma keeps_front_only {X} (f : st → X) r rnd now req :
  (∀ w s, f (set_w w s) = f s) → (∀ c s, f (set_ctx c s) = f s) → (∀ p s, f (set_pool p s) = f s) →
  (∀ x s, f (set_store x s) = f s) → (∀ l s, f (set_lim l s) = f s) → (∀ m s, f (set_metrics m s) = f s) →
  keeps f (front_only r rnd now req).
Proof.
  intros Hw Hc Hp Hst Hl Hm. unfold front_only, front_body, front.
  apply keeps_bind; [apply keeps_mod; auto|]. intros _. apply keeps_defer; [apply keeps_mod; auto|].
  apply keeps_recover; [by intros _; apply keeps_onW|].
  apply keeps_bind; [by apply keeps_onW|]. intros _.
  apply keeps_bind; [apply keeps_cors; auto|]. intros []; [apply keeps_ret|].
  apply keeps_bind; [apply keeps_https; auto|]. intros []; [apply keeps_ret|].
  apply keeps_bind; [apply keeps_security; auto|]. intros _.
  apply keeps_bind; [apply keeps_pool_get; auto|]. intros _. apply keeps_defer; [apply keeps_pool_put; auto|].
  apply keeps_bind; [by apply keeps_on_ctx|]. intros _. apply keeps_bind; [by apply keeps_on_ctx|]. intros _.
  apply keeps_defer; [apply keeps_save_session; auto|].
  apply keeps_bind; [apply keeps_browser; auto|]. intros _. apply keeps_bind; [by apply keeps_on_ctx|]. intros _.
  apply keeps_bind; [apply keeps_open_session; auto|]. intros _.
  apply keeps_bind; [apply keeps_rate_limit; auto|]. intros _. apply keeps_ret.
Qed.

(** A request the limiter refuses never reaches the application: what the
    router does with it is the same whatever its routes, middleware, handlers and
    request scope are, and the database is not touched. *)
Theorem refused_request_not_dispatched t mw eh nr nm scope r rnd now dur req s :
  rateLimiter r = true → refuses now (s_lim s) →
  serveInternal r rnd now dur req s = serveInternal (with_application t mw eh nr nm scope r) rnd now dur req s ∧
  s_db (serveInternal r rnd now dur req s).2 = s_db s.
Proof.
  intros Hr Hno. rewrite !refused_front by done. split; [done|]. by apply keeps_front_only.
Qed.
End Refused.

(** ** On the server's own writer *)

Section PlainServer.
Context {SW L : Type} `{RateLimitStore L} `{Hmac} `{JsonEncoder} `{RedirectText}
  `{SessionStore (store_world SW)} `{RegexpEngine} `{Unicode} `{Platform} `{Driver}.
#[local] Abbreviation W := (statusRecorder server_rw).
#[local] Abbreviation st := (rstate W SW L).
#[local] Abbreviation Router := (@Router W SW L _).

(** The status and header the client has received, if any. *)
Definition sent (s : st) : option (Z * head) := srv_sent (rec_inner (s_w s)).

Lemma http_Error_plain msg (w : W) :
  ∃ w' hd, http_Error msg 500 w = (Done (), w') ∧
    srv_sent (rec_inner w') = Some (default (500%Z, hd) (srv_sent (rec_inner w))).
Proof.
  destruct w as [[h [[code hd]|] b] x];
    unfold http_Error, set_header, mbind, M_bind, modM; simpl;
    unfold rec_WriteHeader, on_inner, zoom, mbind, M_bind, modM; simpl.
  - unfold server_Write. simpl. destruct (body_allowed code); by eexists _, hd.
  - by eexists _, _.
Qed.

Lemma server_error_plain (s : st) :
  ∃ s' hd, server_error s = (Done (), s') ∧ sent s' = Some (default (500%Z, hd) (sent s)).
Proof.
  destruct (http_Error_plain "Internal Server Error" (s_w s)) as (w' & hd & Hw & Hs).
  exists (set_w w' s), hd. split; [|done]. unfold server_error, onW, zoom. by rewrite Hw.
Qed.

(** [C7] No panic of a handler, a middleware or the framework escapes the router:
    a request that panics is answered with status 500 when nothing had been sent
    before, and what had been sent stays. *)
Theorem no_panic_escapes (r : Router) rnd now dur req (s : st) :
  let '(res, s') := serveInternal r rnd now dur req s in
  (∀ p, res ≠ Crash p) ∧
  match serve_body r rnd now dur req (set_metrics (StartRequest <$> s_metrics s) s) with
  | (Crash _, s1) => res = Done () ∧ ∃ hd, sent s' = Some (default (500%Z, hd) (sent s1))
  | (o, s1) => res = o ∧ sent s' = sent s1
  end.
Proof.
  unfold serveInternal, mbind, M_bind, modM, deferM, recoverM.
  destruct (serve_body r rnd now dur req _) as [[a|p|] s1]; simpl; [done| |done].
  destruct (server_error_plain s1) as (s2 & hd & -> & Hs). simpl. split; [done|]. split; [done|]. by exists hd.
Qed.

(** The session is saved after the handler has returned, whatever the outcome:
    the status and the header the client gets are those that were sent before the
    save, so that the cookies of the save reach the client only when the handler
    has sent nothing. *)
Theorem session_cookie_after_response_lost (r : Router) rnd now dur req (s : st) :
  let s0 := set_ctx (with_router (encryptKey r) (currentUserFunc r) (reset (Some req) (s_ctx s))) s in
  sent (serve_context r rnd now dur req s).2 = sent (serve_session r rnd now dur req s0).2.
Proof.
  intros s0. change (serve_context r rnd now dur req s) with (deferM save_session (serve_session r rnd now dur req) s0).
  unfold deferM. destruct (serve_session r rnd now dur req s0) as [o s1].
  destruct o as [a|p|]; [| |done];
    pose proof (keeps_save_session sent ltac:(done) ltac:(done) ltac:(done) s1) as Hk;
    by destruct (save_session s1) as [[[]|p'|] s2].
Qed.
End PlainServer.

(** ** The signed browser cookie *)

Section Browser.
Context {W SW L : Type} `{Hmac} `{RegexpEngine}.
#[local] Abbreviation Router := (@Router W SW L _).
Implicit Types r : Router.

(** [hex] writes pairs of hexadecimal digits, and a digest is not empty. *)
Definition hex_digests : Prop := ∀ k m, word "."%char (hmac_hex k m) ∧ hmac_hex k m ≠ "".

Lemma hex_word b : word "."%char (hex_EncodeToString b).
Proof.
  induction b as [|a b IH]; [done|]. cbn [hex_EncodeToString].
  assert (∀ n, (n < 16)%N → hex_digit n ≠ "."%char) as Hd.
  { intros n Hn. unfold hex_digit.
    destruct (N.ltb_spec n 10); intros E; apply (f_equal N_of_ascii) in E; rewrite N_ascii_embedding in E;
      change (N_of_ascii "."%char) with 46%N in E; lia. }
  apply word_cons. split.
  { apply Hd. apply N.Div0.div_lt_upper_bound. pose proof (Ascii.N_ascii_bounded a). lia. }
  apply word_cons. split; [|done]. apply Hd. by apply N.mod_lt.
Qed.

(** The browser cookie is authentic: a value is accepted for a user agent
    exactly when it is a salt and the digest of that salt and user agent under the
    router's secret; every value the router issues is accepted from the same user
    agent. *)
Theorem browser_cookie_authentic r ua v :
  hex_digests →
  (valid_browser r ua v = true ↔
    ∃ salt, salt ≠ "" ∧ word "."%char salt ∧ v = salt +:+ "." +:+ compute_hmac r ua salt) ∧
  (∀ rnd, rnd ≠ "" → valid_browser r ua (new_browser r ua rnd) = true).
Proof.
  intros Hhex.
  assert (∀ salt, salt ≠ "" → word "."%char salt →
    valid_browser r ua (salt +:+ "." +:+ compute_hmac r ua salt) = true) as Hok.
  { intros salt Hne Hw. unfold valid_browser. destruct (Hhex (browserSecret r) (salt +:+ ":" +:+ ua)) as [Hh Hn].
    change (salt +:+ "." +:+ compute_hmac r ua salt) with (salt +:+ String "." (compute_hmac r ua salt)).
    rewrite Split_word_sep, Split_word by done.
    rewrite bool_decide_false by done. rewrite bool_decide_false by done. by rewrite bool_decide_true. }
  split; [split|].
  - unfold valid_browser. intros Hv. pose proof (Join_Split "."%char v) as Hj.
    pose proof (Split_all_words "."%char v) as Hall.
    destruct (Split "."%char v) as [|salt [|sig [|]]]; try done.
    apply andb_true_iff in Hv as [Hv Hsig]. apply andb_true_iff in Hv as [Hs _].
    apply bool_decide_eq_true in Hsig as ->. apply negb_true_iff, bool_decide_eq_false in Hs.
    exists salt. split; [done|]. split; [by inversion Hall|]. by rewrite <-Hj.
  - intros (salt & Hne & Hw & ->). by apply Hok.
  - intros rnd Hr. apply Hok; [|apply hex_word]. by destruct rnd.
Qed.

(** The digest does not mark where the salt ends: a cookie issued to a user
    agent of the form [x:ua] is, with [x] moved into the salt, accepted from the
    user agent [ua]. *)
Theorem browser_cookie_rebinds r ua x salt :
  word "."%char x →
  valid_browser r (x +:+ ":" +:+ ua) (salt +:+ "." +:+ compute_hmac r (x +:+ ":" +:+ ua) salt) = true →
  valid_browser r ua (salt +:+ ":" +:+ x +:+ "." +:+ compute_hmac r (x +:+ ":" +:+ ua) salt) = true.
Proof.
  set (sig := compute_hmac r (x +:+ ":" +:+ ua) salt). intros Hx Hv.
  assert (word "."%char salt ∧ salt ≠ "" ∧ word "."%char sig ∧ sig ≠ "") as (Hw & Hne & Hws & Hns).
  { unfold valid_browser in Hv. pose proof (Split_all_words "."%char (salt +:+ "." +:+ sig)) as Hall.
    change (salt +:+ "." +:+ sig) with (salt +:+ String "." sig) in *.
    pose proof (Strings.Split_app "."%char salt sig) as Hs. rewrite Hs in Hv, Hall.
    pose proof (Split_not_nil "."%char salt) as N1. pose proof (Split_not_nil "."%char sig) as N2.
    pose proof (Join_Split "."%char salt) as J1. pose proof (Join_Split "."%char sig) as J2.
    destruct (Split "."%char salt) as [|a1 [|a2 l1]]; [done| |].
    - destruct (Split "."%char sig) as [|b1 [|b2 l2]]; [done| |done].
      simpl in Hv, J1, J2. subst a1 b1. apply andb_true_iff in Hv as [Hv _]. apply andb_true_iff in Hv as [H1 H2].
      apply negb_true_iff, bool_decide_eq_false in H1, H2. inversion Hall as [|??? Hall']; subst.
      inversion Hall'; subst. done.
    - by destruct l1, (Split "."%char sig). }
  unfold valid_browser.
  replace (salt +:+ ":" +:+ x +:+ "." +:+ sig) with ((salt +:+ ":" +:+ x) +:+ String "." sig)
    by (by rewrite !string_app_assoc).
  assert (word "."%char (salt +:+ ":" +:+ x)) as Hwx.
  { unfold word in *. rewrite !str_all_app, Hw, Hx. done. }
  rewrite Split_word_sep, Split_word by done.
  rewrite (bool_decide_false (salt +:+ ":" +:+ x = "")) by (by destruct salt).
  rewrite (bool_decide_false (sig = "")) by done. rewrite bool_decide_true; [done|].
  unfold sig, compute_hmac. by rewrite !string_app_assoc.
Qed.
End Browser.

(** ** The framework's own responses *)

Section Replies.
Context {W SW L X : Type} `{ResponseWriter W} `{JsonEncoder} (f : rstate W SW L → X).
Hypothesis Hw : ∀ w s, f (set_w w s) = f s.
Hypothesis Hc : ∀ c s, f (set_ctx c s) = f s.

Lemma keeps_Status code : keeps f (Status code).
Proof.
  apply keeps_bind; [apply keeps_get|]. intros []; [apply keeps_ret|].
  apply keeps_bind; [by apply keeps_onW|intros _; by apply keeps_on_ctx].
Qed.

Lemma keeps_String code msg : keeps f (Context_String code msg).
Proof.
  apply keeps_bind; [by apply keeps_onW|]. intros _. apply keeps_bind; [apply keeps_Status|]. intros _.
  apply keeps_bind; [by apply keeps_onW|]. intros ?. apply keeps_ret.
Qed.

Lemma keeps_APIResponse code msg errs data : keeps f (APIResponse code msg errs data).
Proof.
  apply keeps_bind; [by apply keeps_onW|]. intros _. apply keeps_bind; [apply keeps_Status|]. intros _.
  destruct (json_Encode _); [apply keeps_ret|]. apply keeps_bind; [by apply keeps_onW|]. intros ?. apply keeps_ret.
Qed.

Lemma keeps_defaultErrorHandler dbg code msg e : keeps f (defaultErrorHandler dbg code msg e).
Proof.
  apply keeps_bind; [apply keeps_get|]. intros [req|]; [|apply keeps_crash].
  destruct (IsAJAX req); (apply keeps_bind; [|intros ?; apply keeps_ret]); [apply keeps_APIResponse|apply keeps_String].
Qed.
End Replies.

(** ** A router to evaluate *)

#[local] Instance demo_regexp : RegexpEngine :=
  {| regex := string; Compile p := Some p; MatchString re s := bool_decide (re = s) |}.
(** A limiter that lets everything through, or nothing. *)
#[local] Instance demo_limiter : RateLimitStore bool := λ _ _ b, (b, b).
#[local] Instance demo_hmac : Hmac := λ k m, hex_EncodeToString (String "k" (k +:+ m)).
#[local] Instance demo_encoder : JsonEncoder := λ _, inr "{}".
#[local] Instance demo_redirects : RedirectText :=
  {| redirect_location _ url := url; redirect_note _ _ _ := "" |}.
#[local] Instance demo_sessions : SessionStore (store_world demo_redis) := redis_session_store demo_store.

#[local] Abbreviation demo_state := (rstate (statusRecorder server_rw) demo_redis bool).
#[local] Abbreviation demo_handlers := (HandlerFunc (statusRecorder server_rw) demo_redis bool).

(** Runs one statement on the context's handle, then answers. *)
Definition demo_handler : demo_handlers :=
  odb ← ctx c_database;
  match odb with
  | None => mret None
  | Some d => onDB (Executor_Exec (db_executor d) (Some Background) "UPDATE t SET a = 1" []);; Context_String 200 "ok"
  end.

Definition demo_scope : M demo_state (error + (string * list value)) := mret (inr ("SELECT set_config()", [])).

Definition demo_router (t : @Tree _ demo_handlers) (limited : bool) : Router :=
  mkRouter t [] (defaultErrorHandler false) (Some defaultNoRoute) (Some defaultNoMethod) "" (Some demo_db) true None
    true "browser" "secret" limited (λ _ _, "k") false false 2 "" [] "" [] (mkCORS false [] [] [] [] false 0) ∅ false
    (Some demo_scope).

Definition demo_get : Request := plain_request "GET" "/u" "/u" "example.org" "1.2.3.4:5" false ∅.
Definition demo_random : Random := mkRandom "r" "b" "t".
Definition demo_start (allow : bool) : demo_state :=
  mkState (NewStatusRecorder new_server_rw) zero_context [] (RedisStore.mkWorld ∅ [] 0) allow world0
    (Some (Metrics.New)).
Definition demo_tree : @Tree _ demo_handlers := (AddRoute NewTree "GET" "/u" (Some demo_handler)).1.


Lemma demo_handler_uses_own_handle : uses_own_handle demo_handler.
Proof.
  intros s tx d Hd Htx. unfold demo_handler, mbind, M_bind, ctx, getM. rewrite Hd.
  destruct (Exec_in_tx tx (db_executor d) (Some Background) "UPDATE t SET a = 1" [] Htx (s_db s)) as (body & Hb & Hin).
  unfold onDB at 1. destruct (Executor_Exec _ _ _ _ (s_db s)) as [[x|p] w]; simpl in Hb; exists body; [|done].
  unfold db_trace. by rewrite (keeps_String s_db (λ _ _, eq_refl) (λ _ _, eq_refl) 200 "ok").
Qed.

Definition demo_scoped : demo_state :=
  set_ctx (with_database (Some demo_db) (reset (Some demo_get) zero_context)) (demo_start true).

Lemma demo_tree_find (h : demo_handlers) :
  FindRoute (AddRoute NewTree "GET" "/u" (Some h)).1 "GET" "/u" = (Some h, []).
Proof. vm_compute. reflexivity. Qed.

Lemma request_transaction_witness :
  let '(res, s') := serve_scoped (demo_router demo_tree false) Background 0 demo_get demo_scoped in
  in_one_transaction demo_handler Background [] "SELECT set_config()" [] demo_db demo_scoped res s'.
Proof.
  apply (request_transaction (demo_router demo_tree false) Background 0 demo_get demo_handler [] demo_scope
    "SELECT set_config()" [] demo_db demo_scoped).
  - exact (demo_tree_find demo_handler).
  - exact demo_handler_uses_own_handle.
  - intros. by apply keeps_defaultErrorHandler.
  - reflexivity.
  - discriminate.
  - reflexivity.
  - discriminate.
  - reflexivity.
  - exact (NewDatabase_pool _ _ _ _).
Defined.

Lemma in_flight_balanced_witness :
  let '(res, s') := serveInternal (demo_router NewTree true) demo_random 0 0 demo_get (demo_start true) in
  in_flight s' = Some (match res with Hang => 1 | _ => 0 end)%Z.
Proof.
  apply (in_flight_balanced (demo_router NewTree true) demo_random 0 0 demo_get (demo_start true) 0);
    [|reflexivity|done|done].
  split.
  - done.
  - intros h [= <-]. by apply keeps_String.
  - intros h [= <-]. by apply keeps_String.
  - intros. by apply keeps_defaultErrorHandler.
  - intros m [= <-]. apply keeps_ret.
Defined.

Lemma refused_request_not_dispatched_witness :
  s_db (serveInternal (demo_router demo_tree true) demo_random 0 0 demo_get (demo_start false)).2 = world0.
Proof.
  apply (refused_request_not_dispatched NewTree [] (defaultErrorHandler true) None None None
    (demo_router demo_tree true) demo_random 0 0 demo_get (demo_start false)); [reflexivity|]. intros key. reflexivity.
Defined.

Lemma demo_hex_digests : hex_digests.
Proof. intros k m. split; [apply hex_word|]. unfold hmac_hex, demo_hmac. cbn [hex_EncodeToString]. discriminate. Qed.

Lemma browser_cookie_authentic_witness :
  valid_browser (demo_router NewTree true) "Mozilla" (new_browser (demo_router NewTree true) "Mozilla" "salt") = true.
Proof.
  apply (browser_cookie_authentic (demo_router NewTree true) "Mozilla" "" demo_hex_digests). discriminate.
Defined.

Lemma browser_cookie_rebinds_witness :
  valid_browser (demo_router NewTree true) "2.0"
    ("73:Agent." +:+ compute_hmac (demo_router NewTree true) "Agent:2.0" "73") = true.
Proof.
  apply (browser_cookie_rebinds (demo_router NewTree true) "2.0" "Agent" "73"); vm_compute; reflexivity.
Defined.
