(* ===== verification/Server.v ===== *)
(** * The server: the firewall in front of the router

    [createRootHandler] of [router.go].  The handler of the server takes the
    connection's writer together with what the application keeps between requests;
    behind the firewall the router writes to the firewall's writer, without it to a
    recorder over the server's.  A handler sees the interface only, so it is written
    for either ([any_writer]). *)

From S2P Require Import Prelude GoStrings GoValue HttpErr RouterTree Session RedisStore RateLimit Http Net Waf Metrics.
From S2P Require Import DbModel DbExec DbFacade Context Router.
From Stdlib Require Import Ascii.
Import Strings Path.

(** ** Writers *)

(** What is behind [http.ResponseWriter] when a handler runs. *)
Inductive any_writer (W T : Type) :=
  | PlainWriter (r : statusRecorder W)
  | FirewallWriter (w : wafResponseWriter W T).
Arguments PlainWriter {W T}.
Arguments FirewallWriter {W T}.

Section AnyWriter.
Context {W T : Type} `{ResponseWriter W, Coraza T}.

Definition on_any {A} (m1 : M (statusRecorder W) A) (m2 : M (wafResponseWriter W T) A) : M (any_writer W T) A := λ w,
  match w with
  | PlainWriter r => let '(x, r') := m1 r in (x, PlainWriter r')
  | FirewallWriter ww => let '(x, ww') := m2 ww in (x, FirewallWriter ww')
  end.

#[global] Instance any_ResponseWriter : ResponseWriter (any_writer W T) := {|
  rw_head w := match w with PlainWriter r => rw_head r | FirewallWriter ww => rw_head ww end;
  rw_set_head f w := match w with
                     | PlainWriter r => PlainWriter (rw_set_head f r)
                     | FirewallWriter ww => FirewallWriter (rw_set_head f ww)
                     end;
  rw_WriteHeader code := on_any (rw_WriteHeader code) (rw_WriteHeader code);
  rw_Write b := on_any (rw_Write b) (rw_Write b);
|}.
#[global] Instance any_StatusWriter : StatusWriter (any_writer W T) := on_any rw_status rw_status.
End AnyWriter.

(** A writer next to something it does not touch. *)
#[global] Instance beside_writer {W B} `{ResponseWriter W} : ResponseWriter (W * B) := {|
  rw_head p := rw_head p.1;
  rw_set_head f p := (rw_set_head f p.1, p.2);
  rw_WriteHeader code := zoom fst (λ w p, (w, p.2)) (rw_WriteHeader code);
  rw_Write b := zoom fst (λ w p, (w, p.2)) (rw_Write b);
|}.

(** ** The application between requests *)

Section Root.
Context {T SW L : Type} `{Coraza T} `{RateLimitStore L} `{Hmac} `{JsonEncoder} `{RedirectText}
  `{SessionStore (store_world SW)} `{RegexpEngine} `{Unicode} `{Platform} `{Driver}.

#[local] Abbreviation writer := (any_writer server_rw T).
#[local] Abbreviation app_router := (@Router writer SW L _).

(** The state of the router without a writer. *)
Definition app : Type := rstate () SW L.
Definition attach {W} (w : W) (a : app) : rstate W SW L :=
  mkState w (s_ctx a) (s_pool a) (s_store a) (s_lim a) (s_db a) (s_metrics a).
Definition detach {W} (s : rstate W SW L) : app :=
  mkState () (s_ctx s) (s_pool s) (s_store s) (s_lim s) (s_db s) (s_metrics s).

Definition conn : Type := server_rw * app.

(** The fields of a router that concern the firewall; [waf_on] is [r.waf != nil]. *)
Record RootRouter := mkRoot {
  root_router : app_router;
  waf_on : bool;
  wafExemptPaths : list string;
  maxWAFBufferSize : Z;
}.

(** What changes from one request to the next besides its text. *)
Record arrival := mkArrival {
  ar_random : Random;
  ar_now : Z;
  ar_duration : Z;
  ar_localAddr : string;
  ar_trustProxy : bool;
}.

(** [rootHandler] on the server's writer. *)
Definition rootHandler (r : RootRouter) (a : arrival) (req : Request) : M conn unit := λ c,
  let '(x, s) := serveInternal (root_router r) (ar_random a) (ar_now a) (ar_duration a) req
                   (attach (PlainWriter (NewStatusRecorder c.1)) c.2) in
  (x, (match s_w s with PlainWriter rec => rec_inner rec | FirewallWriter ww => ww_inner ww end, detach s)).

(** [rootHandler] on the firewall's writer; no operation of a writer changes which
    of the two it is. *)
Definition behind_waf (r : RootRouter) (a : arrival) (req : Request) : M (wafResponseWriter conn T) unit := λ ww,
  let '(sv, ap) := ww_inner ww in
  let '(x, s) := serveInternal (root_router r) (ar_random a) (ar_now a) (ar_duration a) req
                   (attach (FirewallWriter (over sv ww)) ap) in
  (x, match s_w s with
      | FirewallWriter ww' => over (ww_inner ww', detach s) ww'
      | PlainWriter rec => over (rec_inner rec, detach s) ww
      end).

(** The request the handler gets when the firewall has read its body. *)
Definition with_read_body (got : string) (req : Request) : Request :=
  if reads_body req then set_Body (Some (mkReader got None)) req else req.

Definition createRootHandler (r : RootRouter) (a : arrival) (req : Request) : M conn unit :=
  if negb (waf_on r) then rootHandler r a req
  else if has_prefix_of (URL_Path req) (wafExemptPaths r) then rootHandler r a req
  else
    let b := default (mkReader "" None) (req_Body req) in
    WrapWithWAF (maxWAFBufferSize r) (ar_localAddr a) (RealIP (ar_trustProxy a) req) req (rd_data b) (rd_err b)
      (λ got, behind_waf r a (with_read_body got req)).

(** [r.createRootHandler().ServeHTTP(w, req)]. *)
Definition ServeHTTP : RootRouter → arrival → Request → M conn unit := createRootHandler.

(** ** A stopped request touches nothing *)

(** [C8] A request the firewall stops leaves the application as it was: no session is
    created or saved, no token of the rate limiter is taken, nothing reaches the
    database, no metric moves; the client gets the firewall's page.  This is for
    every router and every handler, for requests whose path is not exempt. *)
Theorem blocked_request_touches_nothing r a req body it h ap :
  waf_on r = true → has_prefix_of (URL_Path req) (wafExemptPaths r) = false →
  req_Body req = Some (mkReader body None) → (Z.of_nat (String.length body) <= limit_of (maxWAFBufferSize r))%Z →
  stops (ar_localAddr a) (RealIP (ar_trustProxy a) req) req body it → page_code (it_Status it) →
  ServeHTTP r a req (new_response h, ap) = (Done (), (blocked_response h (it_Status it) "Blocked by WAF", ap)).
Proof.
  intros Hon Hex Hb Hlen Hit Hp. unfold ServeHTTP, createRootHandler. rewrite Hon, Hex, Hb. cbn [negb default rd_data rd_err].
  destruct (server_page h (it_Status it) "Blocked by WAF" Hp) as [Hw1 Hw2].
  eapply (stopped_page (W := conn)); [done|done| |].
  - cbn [rw_WriteHeader beside_writer]. unfold zoom. cbn [fst]. cbn [rw_WriteHeader server_writer]. by rewrite Hw1.
  - cbn [rw_Write beside_writer]. unfold zoom. cbn [fst snd]. cbn [rw_Write server_writer]. by rewrite Hw2.
Qed.

(** ** Exempt paths *)

(** A path that enters a directory and leaves it again is routed as if it had not. *)
Lemma segments_dotdot c s :
  safe_comp c → segments ("/" +:+ c +:+ "/../" +:+ s) = segments ("/" +:+ s).
Proof.
  intros (Hw & Hc & Hdot & Hdd). rewrite !segments_eq.
  change ("/" +:+ c +:+ "/../" +:+ s) with (String slash (c +:+ String slash (".." +:+ String slash s))).
  change ("/" +:+ s) with (String slash s).
  assert (∀ x, Split slash (String slash x) = "" :: Split slash x) as Hs.
  { intros x. exact (Split_word_sep slash "" x eq_refl). }
  rewrite !Hs, (Split_word_sep slash c) by done. rewrite (Split_word_sep slash ".." s) by reflexivity.
  cbn [clean_comps]. by repeat (case_bool_decide; simplify_eq/=).
Qed.

(** An exempt path is compared with the path as the client sent it, while routes
    are found by the cleaned path: a request for [/c/../s], where [/c] is exempt, is
    never shown to the firewall and is served by the handler of [/s]. *)
Theorem exempt_prefix_bypasses_firewall r a req c s :
  safe_comp c → "/" +:+ c ∈ wafExemptPaths r → URL_Path req = "/" +:+ c +:+ "/../" +:+ s →
  ServeHTTP r a req = rootHandler r a req ∧
  FindRoute (tree (root_router r)) (Method req) (URL_Path req) =
    FindRoute (tree (root_router r)) (Method req) ("/" +:+ s).
Proof.
  intros Hc Hin Hp. split.
  - unfold ServeHTTP, createRootHandler. destruct (negb (waf_on r)); [done|].
    assert (has_prefix_of (URL_Path req) (wafExemptPaths r) = true) as ->; [|done].
    apply existsb_exists. exists ("/" +:+ c). split; [by apply list_elem_of_In|].
    rewrite Hp, <-string_app_assoc. apply HasPrefix_spec. by eexists.
  - rewrite Hp. unfold FindRoute, findRouteInRoot. destruct (roots _ !! _) as [root|]; [|done].
    fold (segments ("/" +:+ c +:+ "/../" +:+ s)). by rewrite segments_dotdot.
Qed.
End Root.

(** ** A server to evaluate *)

#[local] Instance demo_regexp : RegexpEngine :=
  {| regex := string; Compile p := Some p; MatchString re s := bool_decide (re = s) |}.
#[local] Instance demo_limiter : RateLimitStore bool := λ _ _ b, (b, b).
#[local] Instance demo_hmac : Hmac := λ k m, k +:+ m.
#[local] Instance demo_encoder : JsonEncoder := λ _, inr "{}".
#[local] Instance demo_redirects : RedirectText :=
  {| redirect_location _ url := url; redirect_note _ _ _ := "" |}.
#[local] Instance demo_sessions : SessionStore (store_world demo_redis) := redis_session_store demo_store.

Definition demo_root : @RootRouter (option interruption) demo_redis bool _ :=
  mkRoot (mkRouter NewTree [] (λ _ _ _, mret ()) (Some defaultNoRoute) (Some defaultNoMethod) "" None true None
    false "" "" false (λ _ _, "k") false false 2 "" [] "" [] (mkCORS false [] [] [] [] false 0) ∅ false None)
    true ["/public"] 0.
Definition demo_app : @app demo_redis bool :=
  mkState () zero_context [] (RedisStore.mkWorld ∅ [] 0) true world0 (Some Metrics.New).
Definition demo_arrival : arrival := mkArrival (mkRandom "r" "b" "t") 0 0 "10.0.0.1:80" false.
Definition demo_attack : Request := set_Body (Some (mkReader "x=attack" None)) demo_post.

Lemma blocked_request_touches_nothing_witness :
  ServeHTTP demo_root demo_arrival demo_attack (new_response demo_head, demo_app) =
  (Done (), (blocked_response demo_head 403 "Blocked by WAF", demo_app)).
Proof.
  apply (blocked_request_touches_nothing demo_root demo_arrival demo_attack "x=attack" (mkInterruption 942100 403)
    demo_head demo_app).
  - reflexivity.
  - reflexivity.
  - reflexivity.
  - vm_compute. discriminate.
  - right. split; reflexivity.
  - exact (proj2 demo_page).
Defined.

Definition demo_detour : Request :=
  plain_request "GET" "/public/../admin" "/public/../admin?q=attack" "example.org" "1.2.3.4:5" false ∅.

Lemma exempt_prefix_bypasses_firewall_witness :
  ServeHTTP demo_root demo_arrival demo_detour = rootHandler demo_root demo_arrival demo_detour.
Proof.
  apply (exempt_prefix_bypasses_firewall demo_root demo_arrival demo_detour "public" "admin").
  - by repeat split.
  - by left.
  - reflexivity.
Defined.
