(* ===== verification/Disk.v ===== *)
(** * Files

    What the framework uses of the file system, and the code that works on it: the
    disks of package [storage] and the uploads of [internal/web/file.go].

    The file system is a tree of directories and files without links.  Every system
    call may fail for reasons of its own: the state carries the faults to come, one
    for each call, and the theorems hold for all of them.  A write that fails may
    have written a part of the data. *)

From S2P Require Import Prelude GoStrings HttpErr Session RedisStore Http.
From Stdlib Require Import Ascii.
Import Strings Path.

(** ** The file system *)

Inductive inode := Dir | File (content : string).
#[global] Instance inode_eq_dec : EqDecision inode.
Proof. solve_decision. Defined.

(** A fault: the error, and how much went through before: of the bytes of a write,
    of the directories to be made. *)
Definition fault : Type := option (error * nat).

Record disk := mkDisk {
  entries : gmap (list string) inode;
  cwd : list string;
  faults : list fault;
}.

Definition entry (d : disk) (p : list string) : option inode :=
  if bool_decide (p = []) then Some Dir else entries d !! p.
Definition set_entry (p : list string) (n : inode) (d : disk) : disk :=
  mkDisk (<[p := n]> (entries d)) (cwd d) (faults d).
Definition del_entry (p : list string) (d : disk) : disk := mkDisk (delete p (entries d)) (cwd d) (faults d).

(** The location a path names. *)
Definition absolute (d : disk) (p : string) : list string :=
  clean_comps true (if HasPrefix p "/" then [] else reverse (cwd d)) (Split slash p).

(** [filepath.Dir]: the path up to its last separator, cleaned; and [filepath.IsAbs]. *)
Definition filepath_Dir (p : string) : string := Clean (Join "/" (removelast (Split slash p) ++ [""])).
Definition filepath_IsAbs (p : string) : bool := HasPrefix p "/".

Definition ErrExist : error := ESentinel "file already exists".
Definition ErrNotExist : error := ESentinel "file does not exist".
Definition ENOTDIR : error := ESentinel "not a directory".
Definition EISDIR : error := ESentinel "is a directory".
Definition ENOTEMPTY : error := ESentinel "directory not empty".
Definition EBUSY : error := ESentinel "device or resource busy".
Definition PathError (op p : string) (e : error) : error := EWrap (op +:+ " " +:+ p +:+ ": " +:+ Error e) e.
Definition os_IsExist (e : error) : bool := errors_Is e "file already exists".
Definition os_IsNotExist (e : error) : bool := errors_Is e "file does not exist".

(** A computation on the file system. *)
Definition IO (A : Type) : Type := disk → (error + A) * disk.
#[global] Instance IO_ret : MRet IO := λ A a d, (inr a, d).
#[global] Instance IO_bind : MBind IO := λ A B f m d,
  match m d with
  | (inl e, d') => (inl e, d')
  | (inr a, d') => f a d'
  end.
Definition failIO {A} (e : error) : IO A := λ d, (inl e, d).

(** A system call takes its fault. *)
Definition syscall {A} (m : IO A) : IO A := λ d,
  match faults d with
  | Some (e, _) :: fs => (inl e, mkDisk (entries d) (cwd d) fs)
  | None :: fs => m (mkDisk (entries d) (cwd d) fs)
  | [] => m d
  end.

(** What is at a location: every directory on the way has to exist. *)
Fixpoint walk (d : disk) (pre rest : list string) : error + inode :=
  match entry d pre with
  | None => inl ErrNotExist
  | Some (File c) => match rest with [] => inr (File c) | _ => inl ENOTDIR end
  | Some Dir => match rest with [] => inr Dir | c :: rest' => walk d (pre ++ [c]) rest' end
  end.
Definition at_path (d : disk) (p : list string) : error + inode := walk d [] p.

Definition os_Stat (p : string) : IO inode := syscall (λ d,
  match at_path d (absolute d p) with
  | inl e => (inl (PathError "stat" p e), d)
  | inr n => (inr n, d)
  end).

(** [os.Open]: a directory can be opened too. *)
Definition os_Open (p : string) : IO inode := syscall (λ d,
  match at_path d (absolute d p) with
  | inl e => (inl (PathError "open" p e), d)
  | inr n => (inr n, d)
  end).

Fixpoint mkdirs (pre rest : list string) (d : disk) : option error * disk :=
  let '(err, d) :=
    match entry d pre with
    | Some (File _) => (Some ENOTDIR, d)
    | Some Dir => (None, d)
    | None => (None, set_entry pre Dir d)
    end in
  match err, rest with
  | Some e, _ => (Some e, d)
  | None, [] => (None, d)
  | None, c :: rest' => mkdirs (pre ++ [c]) rest' d
  end.
Definition os_MkdirAll (p : string) : IO () := λ d,
  let l := absolute d p in
  let run d :=
    match mkdirs [] l d with
    | (Some e, d') => (inl (PathError "mkdir" p e), d')
    | (None, d') => (inr (), d')
    end in
  match faults d with
  | Some (e, n) :: fs => (inl e, (mkdirs [] (firstn n l) (mkDisk (entries d) (cwd d) fs)).2)
  | None :: fs => run (mkDisk (entries d) (cwd d) fs)
  | [] => run d
  end.

(** [os.OpenFile] for writing, with [O_CREATE] and [O_EXCL] or [O_TRUNC]. *)
Definition os_OpenFile (excl : bool) (p : string) : IO (list string) := syscall (λ d,
  let l := absolute d p in
  match at_path d (removelast l) with
  | inl e => (inl (PathError "open" p e), d)
  | inr (File _) => (inl (PathError "open" p ENOTDIR), d)
  | inr Dir =>
      match entry d l with
      | None => (inr l, set_entry l (File "") d)
      | Some Dir => (inl (PathError "open" p (if excl then ErrExist else EISDIR)), d)
      | Some (File _) => if excl then (inl (PathError "open" p ErrExist), d) else (inr l, set_entry l (File "") d)
      end
  end).

(** [Write] on an open file; on a fault a prefix goes through. *)
Definition file_Write (l : list string) (data : string) : IO () := λ d,
  let append s d := set_entry l (File (match entry d l with Some (File c) => c +:+ s | _ => s end)) d in
  match faults d with
  | Some (e, n) :: fs => (inl e, append (take n data) (mkDisk (entries d) (cwd d) fs))
  | None :: fs => (inr (), append data (mkDisk (entries d) (cwd d) fs))
  | [] => (inr (), append data d)
  end.

(** [io.Copy] into an open file. *)
Definition io_Copy (l : list string) (src : reader) : IO () :=
  (if bool_decide (rd_data src = "") then mret () else file_Write l (rd_data src));;
  match rd_err src with Some e => failIO e | None => mret () end.

Definition os_WriteFile (p data : string) : IO () :=
  l ← os_OpenFile false p; file_Write l data.

Definition has_children (d : disk) (l : list string) : bool :=
  existsb (λ e, bool_decide (removelast e.1 = l ∧ e.1 ≠ [])) (map_to_list (entries d)).
Definition os_Remove (p : string) : IO () := syscall (λ d,
  let l := absolute d p in
  match at_path d l with
  | inl e => (inl (PathError "remove" p e), d)
  | inr n =>
      if bool_decide (l = []) then (inl (PathError "remove" p EBUSY), d)
      else match n with
           | Dir => if has_children d l then (inl (PathError "remove" p ENOTEMPTY), d) else (inr (), del_entry l d)
           | File _ => (inr (), del_entry l d)
           end
  end).

(** ** Package [storage] *)

Record LocalDisk := mkLocal { Root : string; BaseURL : string }.
Definition NewLocalDisk (root baseURL : string) : LocalDisk := mkLocal root (TrimSuffix baseURL "/").

Definition NUL : string := String "000" "".

Definition resolve (ld : LocalDisk) (path : string) : error + string :=
  let clean := TrimPrefix (Clean ("/" +:+ path)) "/" in
  if Contains clean ".." || Contains clean NUL || bool_decide (clean = "")
  then inl (ENew "kiya/storage: invalid path")
  else inr (Join2 (Root ld) clean).

Definition of_sum {A} (r : error + A) : IO A := match r with inl e => failIO e | inr a => mret a end.

Definition Put (ld : LocalDisk) (path : string) (file : reader) : IO () :=
  full ← of_sum (resolve ld path);
  os_MkdirAll (filepath_Dir full);;
  dst ← os_OpenFile false full;
  io_Copy dst file.

Definition PutBytes (ld : LocalDisk) (path data : string) : IO () :=
  full ← of_sum (resolve ld path);
  os_MkdirAll (filepath_Dir full);;
  os_WriteFile full data.

Definition Get (ld : LocalDisk) (path : string) : IO inode :=
  full ← of_sum (resolve ld path); os_Open full.

Definition Delete (ld : LocalDisk) (path : string) : IO () :=
  full ← of_sum (resolve ld path); os_Remove full.

Definition Exists (ld : LocalDisk) (path : string) : IO bool := λ d,
  match resolve ld path with
  | inl e => (inl e, d)
  | inr full =>
      match os_Stat full d with
      | (inl e, d') => if os_IsNotExist e then (inr false, d') else (inl e, d')
      | (inr _, d') => (inr true, d')
      end
  end.

Definition Local_URL (ld : LocalDisk) (path : string) : string := BaseURL ld +:+ "/" +:+ TrimPrefix path "/".

(** The registry of disks. *)
Definition Register {D} (name : string) (x : D) (disks : gmap string D) : gmap string D := <[name := x]> disks.
Definition storage_Use {D} (name : string) (disks : gmap string D) : error + D :=
  match disks !! name with
  | None => inl (ENew ("kiya/storage: disk '" +:+ name +:+ "' is not registered"))
  | Some x => inr x
  end.

(** ** Uploads *)

(** The checks of a destination. *)
Definition upload_path (dstPath : string) : error + string :=
  let cleanPath := Clean dstPath in
  if filepath_IsAbs cleanPath then inl (ENew "invalid destination path: absolute paths are not allowed")
  else if Contains cleanPath ".." then inl (ENew "invalid destination path: path traversal detected")
  else if Contains cleanPath NUL then inl (ENew "invalid destination path: null character detected")
  else inr cleanPath.

Definition create_new (p : string) : IO (list string) := λ d,
  match os_OpenFile true p d with
  | (inl e, d') => (inl (if os_IsExist e then ENew "file already exists" else e), d')
  | r => r
  end.

(** [src] is the result of parsing the form and of [FormFile]. *)
Definition SaveFile (src : error + reader) (dstPath : string) : IO () :=
  cleanPath ← of_sum (upload_path dstPath);
  src ← of_sum src;
  os_MkdirAll (filepath_Dir cleanPath);;
  dst ← create_new cleanPath;
  io_Copy dst src.

(** The parts of a multipart body in order, and the error that ends them instead of
    the end of the body. *)
Record parts := mkParts { pt_parts : list (string * reader); pt_err : option error }.

Fixpoint copy_part (dst : list string) (key : string) (ps : list (string * reader)) (err : option error) : IO () :=
  match ps with
  | [] => failIO (match err with Some e => e | None => ENew "file field not found in request" end)
  | (n, r) :: ps' => if bool_decide (n = key) then io_Copy dst r else copy_part dst key ps' err
  end.

(** [mr] is the result of [MultipartReader]. *)
Definition SaveFileStream (mr : error + parts) (key dstPath : string) : IO () :=
  cleanPath ← of_sum (upload_path dstPath);
  os_MkdirAll (filepath_Dir cleanPath);;
  dst ← create_new cleanPath;
  ps ← of_sum mr;
  copy_part dst key (pt_parts ps) (pt_err ps).
