(* ===== verification/DiskSafety.v ===== *)
(** * Properties of disks and uploads *)

From S2P Require Import Prelude GoStrings HttpErr Session RedisStore Http Disk.
From Stdlib Require Import Ascii.
Import Strings Path.

(** ** Paths *)

Lemma clean_comps_app rooted st cs1 cs2 :
  Forall safe_comp cs2 → clean_comps rooted st (cs1 ++ cs2) = clean_comps rooted st cs1 ++ cs2.
Proof.
  intros Hcs. revert st. induction cs1 as [|c cs1 IH]; intros st; simpl.
  - revert st. induction Hcs as [|c cs (_ & He & Hd & Hdd) _ IH]; intros st; simpl; [by rewrite app_nil_r|].
    rewrite !bool_decide_false by done. cbn [orb]. by rewrite IH, reverse_cons, <-app_assoc.
  - repeat case_match; auto.
Qed.

(** Names: neither empty nor a dot. *)
Definition name (c : string) : Prop := c ≠ "" ∧ c ≠ "." ∧ c ≠ "..".
Lemma safe_name c : safe_comp c → name c.
Proof. by intros (_ & ? & ? & ?). Qed.

Lemma clean_comps_names st cs : Forall name cs → clean_comps true st cs = reverse st ++ cs.
Proof.
  intros Hcs. revert st. induction Hcs as [|c cs (He & Hd & Hdd) _ IH]; intros st; simpl; [by rewrite app_nil_r|].
  rewrite !bool_decide_false by done. cbn [orb]. by rewrite IH, reverse_cons, <-app_assoc.
Qed.

Lemma clean_comps_up st cs n :
  Forall name st → clean_comps true st (replicate n ".." ++ cs) = clean_comps true (list.drop n st) cs.
Proof.
  revert st. induction n as [|n IH]; intros st Hst; [done|]. simpl.
  destruct Hst as [|c st (_ & _ & Hc) Hst]; simpl; [rewrite IH by constructor; by rewrite drop_nil|].
  rewrite bool_decide_false by done. by apply IH.
Qed.

(** Cleaning a relative path first does not change where it leads. *)
Lemma clean_comps_clean st names n cs :
  Forall name st → Forall name names →
  clean_comps true st (clean_comps false (names ++ replicate n "..") cs) =
  clean_comps true (names ++ list.drop n st) cs.
Proof.
  intros Hst. revert names n. induction cs as [|c cs IH]; intros names n Hn; simpl.
  - rewrite reverse_app, reverse_replicate, clean_comps_up by done.
    rewrite clean_comps_names by (by apply Forall_reverse). by rewrite reverse_app.
  - case_bool_decide; [by apply IH|]. case_bool_decide; [by apply IH|]. cbn [orb]. case_bool_decide as Hup.
    + destruct Hn as [|nm names (_ & _ & Hnm) Hn]; simpl.
      * assert (match list.drop n st with
                | [] => clean_comps true [] cs
                | top :: stack' => if bool_decide (top = "..") then clean_comps true (".." :: list.drop n st) cs
                                   else clean_comps true stack' cs
                end = clean_comps true (list.drop (S n) st) cs) as ->.
        { rewrite <-Nat.add_1_r, <-drop_drop. assert (Forall name (list.drop n st)) as Hd by (by apply Forall_drop).
          destruct Hd as [|top l (_ & _ & Ht) _]; [done|]. by rewrite bool_decide_false. }
        destruct n as [|n]; simpl; [by apply (IH [] 1)|]. rewrite ?bool_decide_true by done.
        by apply (IH [] (S (S n))).
      * rewrite !bool_decide_false by done. by apply IH.
    + apply (IH (c :: names)). by constructor.
Qed.

(** What is left of the components of a path. *)
Lemma clean_comps_Forall (P : string → Prop) r st cs :
  P ".." → Forall P st → Forall (λ c, c ≠ "" → c ≠ "." → P c) cs → Forall P (clean_comps r st cs).
Proof.
  intros Hup Hst Hcs. revert st Hst. induction Hcs as [|c cs Hc Hcs IH]; intros st Hst; simpl; [by apply Forall_reverse|].
  case_bool_decide; [by apply IH|]. case_bool_decide; [by apply IH|]. cbn [orb]. case_bool_decide.
  - destruct Hst as [|t st Ht Hst]; [destruct r; apply IH; by repeat constructor|].
    case_bool_decide; apply IH; [|done]. by repeat constructor.
  - apply IH. constructor; [by apply Hc|done].
Qed.

Lemma clean_comps_plain r cs :
  Forall (word slash) cs → Forall (λ c, (c ≠ "" ∧ word slash c) ∧ c ≠ ".") (clean_comps r [] cs).
Proof. intros Hw. apply clean_comps_Forall; [done|done|]. eapply Forall_impl; [exact Hw|]. done. Qed.

Lemma Join_no_slash cs : Forall (λ c, c ≠ "" ∧ word slash c) cs → HasPrefix (Join "/" cs) "/" = false.
Proof.
  intros [|c cs' [Hne Hw] _]; [done|]. destruct c as [|a c]; [done|]. apply word_cons in Hw as [Ha _].
  assert (∀ s, HasPrefix (String a s) "/" = false) as Hp by (intros s; simpl; by rewrite bool_decide_false).
  destruct cs'; cbn [Join]; rewrite ?string_app_cons; apply Hp.
Qed.

(** The components a path cleans to. *)
Lemma Clean_cases p :
  let cs := clean_comps (HasPrefix p "/") [] (Split slash p) in
  Clean p = (if HasPrefix p "/" then "/" +:+ Join "/" cs else if bool_decide (cs = []) then "." else Join "/" cs) ∧
  Forall (λ c, c ≠ "" ∧ word slash c) cs ∧ Forall (λ c, c ≠ ".") cs.
Proof.
  intros cs. split; [unfold Clean; by case_bool_decide as Hp; [subst|]|].
  apply Forall_and, clean_comps_plain, Split_all_words.
Qed.

Lemma Split_Join_comps cs :
  Forall (λ c, c ≠ "" ∧ word slash c) cs → cs ≠ [] → Split slash (Join "/" cs) = cs.
Proof. intros Hcs Hne. apply Split_Join; [done|]. eapply Forall_impl; [exact Hcs|]. by intros c [_ ?]. Qed.

(** A disk whose working directory is a clean path. *)
Definition cwd_ok (d : disk) : Prop := Forall safe_comp (cwd d).

Lemma absolute_Clean d p : cwd_ok d → absolute d (Clean p) = absolute d p.
Proof.
  intros Hd. destruct (Clean_cases p) as (Hc & Hcs & _). set (cs := clean_comps _ [] _) in *. rewrite Hc.
  assert (Forall name (reverse (cwd d))) as Hn.
  { apply Forall_reverse. eapply Forall_impl; [exact Hd|apply safe_name]. }
  unfold absolute. destruct (HasPrefix p "/") eqn:Hp.
  - change ("/" +:+ Join "/" cs) with (String slash (Join "/" cs)).
    rewrite (Split_word_sep slash "" (Join "/" cs) eq_refl : Split slash (String slash (Join "/" cs)) = _).
    cbn [HasPrefix]. rewrite bool_decide_true by done. assert (HasPrefix (Join "/" cs) "" = true) as -> by (by destruct (Join "/" cs)).
    cbn [andb clean_comps]. rewrite bool_decide_true by done. cbn [orb].
    destruct (decide (cs = [])) as [E|Hne].
    + fold cs. rewrite E. done.
    + rewrite Split_Join_comps by done. unfold cs. rewrite clean_comps_id; [done|]. by apply clean_comps_safe, Split_all_words.
  - pose proof (clean_comps_clean (reverse (cwd d)) [] 0 (Split slash p) Hn (Forall_nil_2 _)) as Hcl.
    rewrite drop_0 in Hcl. cbn [app replicate] in Hcl. rewrite <-Hcl. fold cs. case_bool_decide as E.
    + rewrite E. done.
    + rewrite Join_no_slash, Split_Join_comps by done. done.
Qed.

(** A safe last component stays the last one. *)
Lemma Clean_last p pre c :
  Split slash p = pre ++ [c] → safe_comp c → ∃ pre', Split slash (Clean p) = pre' ++ [c].
Proof.
  intros Hs Hc. destruct (Clean_cases p) as (He & Hcs & _).
  rewrite Hs, clean_comps_app in He, Hcs by (by constructor).
  set (cs := clean_comps _ [] pre) in *. rewrite He. destruct (HasPrefix p "/").
  - change ("/" +:+ Join "/" (cs ++ [c])) with (String slash (Join "/" (cs ++ [c]))).
    rewrite (Split_word_sep slash "" (Join "/" (cs ++ [c])) eq_refl : Split slash (String slash _) = _).
    rewrite Split_Join_comps by (done || by destruct cs). by exists ("" :: cs).
  - rewrite bool_decide_false by (by destruct cs). rewrite Split_Join_comps by (done || by destruct cs). by exists cs.
Qed.

Lemma prefix_Join_snoc pre c :
  Forall (word slash) (pre ++ [c]) → c ≠ "" →
  HasPrefix (Join "/" (pre ++ [""])) "/" = HasPrefix (Join "/" (pre ++ [c])) "/".
Proof.
  intros Hw Hc. destruct pre as [|x pre].
  - simpl. inversion Hw as [|? ? Hwc _]; subst. destruct c as [|a c]; [done|]. apply word_cons in Hwc as [Ha _]. simpl.
    by rewrite bool_decide_false.
  - assert (∀ y, ∃ s, Join "/" ((x :: pre) ++ [y]) = x +:+ String slash s) as Hj.
    { intros y. destruct pre; cbn [app Join]; by eexists. }
    destruct (Hj "") as [s1 ->], (Hj c) as [s2 ->]. destruct x as [|a x].
    + rewrite !string_app_nil_l. simpl. by destruct s1, s2.
    + rewrite !string_app_cons. cbn [HasPrefix]. f_equal. by destruct (x +:+ String slash s1), (x +:+ String slash s2).
Qed.

(** The directory of a path whose last component is a name. *)
Lemma absolute_Dir d p pre c :
  cwd_ok d → Split slash p = pre ++ [c] → safe_comp c →
  absolute d p = absolute d (filepath_Dir p) ++ [c].
Proof.
  intros Hd Hs Hc. unfold filepath_Dir. rewrite absolute_Clean by done.
  pose proof (Split_all_words slash p) as Hw. rewrite Hs in Hw.
  assert (p = Join "/" (pre ++ [c])) as Hp.
  { change "/" with (String slash ""). rewrite <-Hs. symmetry. apply Join_Split. }
  rewrite Hs, removelast_last. unfold absolute at 2. rewrite Split_Join; [|by destruct pre|].
  - rewrite clean_comps_trailing_empty. unfold absolute. rewrite Hs, clean_comps_app by (by constructor).
    rewrite (prefix_Join_snoc pre c) by (done || apply Hc). by rewrite <-Hp.
  - apply Forall_app in Hw as [Hw _]. apply Forall_app. split; [done|by repeat constructor].
Qed.

(** ** The tree *)

(** What exists is in a directory. *)
Definition tree_wf (d : disk) : Prop := ∀ q c n, entry d (q ++ [c]) = Some n → entry d q = Some Dir.

Lemma entry_nil d : entry d [] = Some Dir.
Proof. done. Qed.
Lemma entry_snoc d q c : entry d (q ++ [c]) = entries d !! (q ++ [c]).
Proof. unfold entry. rewrite bool_decide_false; [done|]. by destruct q. Qed.
Lemma entry_set d l n q : l ≠ [] → entry (set_entry l n d) q = if bool_decide (q = l) then Some n else entry d q.
Proof.
  intros Hl. unfold entry, set_entry. simpl. repeat case_bool_decide; simplify_eq; try done.
  - by rewrite lookup_insert_eq.
  - by rewrite lookup_insert_ne.
Qed.
Lemma entry_del d l q : l ≠ [] → entry (del_entry l d) q = if bool_decide (q = l) then None else entry d q.
Proof.
  intros Hl. unfold entry, del_entry. simpl. repeat case_bool_decide; simplify_eq; try done.
  - by rewrite lookup_delete_eq.
  - by rewrite lookup_delete_ne.
Qed.
Lemma entry_faults e w fs fs' q : entry (mkDisk e w fs) q = entry (mkDisk e w fs') q.
Proof. done. Qed.

Lemma wf_prefix d q s n : tree_wf d → entry d (q ++ s) = Some n → s ≠ [] → entry d q = Some Dir.
Proof.
  intros Hwf. revert n. induction s as [|c s IH] using rev_ind; intros n He Hs; [done|].
  rewrite app_assoc in He. apply Hwf in He. destruct (decide (s = [])) as [->|Hne]; [by rewrite app_nil_r in He|].
  by eapply IH.
Qed.

Lemma walk_spec d pre rest n : tree_wf d → walk d pre rest = inr n ↔ entry d (pre ++ rest) = Some n.
Proof.
  intros Hwf. revert pre. induction rest as [|c rest IH]; intros pre; simpl.
  - rewrite app_nil_r. destruct (entry d pre) as [[|x]|]; naive_solver.
  - destruct (entry d pre) as [[|x]|] eqn:E.
    + rewrite IH. by rewrite <-app_assoc.
    + split; [done|]. intros He. apply wf_prefix in He; [|done|done]. congruence.
    + split; [done|]. intros He. apply wf_prefix in He; [|done|done]. congruence.
Qed.
Lemma at_path_spec d l n : tree_wf d → at_path d l = inr n ↔ entry d l = Some n.
Proof. apply (walk_spec d []). Qed.

Lemma wf_set d p c n :
  tree_wf d → entry d p = Some Dir → (n = Dir ∨ entry d (p ++ [c]) ≠ Some Dir) → tree_wf (set_entry (p ++ [c]) n d).
Proof.
  intros Hwf Hp Hn q x m. assert (p ++ [c] ≠ []) as Hl by (by destruct p). rewrite !entry_set by done.
  assert (q ≠ q ++ [x]) as Hqx. { intros E. apply (f_equal length) in E. rewrite length_app in E. simpl in E. lia. }
  case_bool_decide as E1; case_bool_decide as E2; intros He.
  - destruct Hqx. congruence.
  - apply app_inj_tail in E1 as [-> ->]. done.
  - subst q. apply Hwf in He. destruct Hn as [->|Hn]; [done|by destruct Hn].
  - by eapply Hwf.
Qed.

(** Nothing but [l] is changed, except that directories on the way to it may be made. *)
Definition touches (l : list string) (d d' : disk) : Prop :=
  cwd d' = cwd d ∧
  ∀ q, q ≠ l → entry d' q = entry d q ∨ (q `prefix_of` l ∧ entry d q = None ∧ entry d' q = Some Dir).

(** The state [d] an operation on [l] has reached from [d0]. *)
Definition reached (l : list string) (d0 d : disk) : Prop := touches l d0 d ∧ tree_wf d.

Lemma touches_refl l d : touches l d d.
Proof. split; [done|]. by left. Qed.
Lemma touches_trans l d1 d2 d3 : touches l d1 d2 → touches l d2 d3 → touches l d1 d3.
Proof.
  intros [Hc1 H12] [Hc2 H23]. split; [congruence|]. intros q Hq.
  destruct (H12 q Hq) as [E1|(Hp & E1 & E1')], (H23 q Hq) as [E2|(Hp' & E2 & E2')].
  - left. congruence.
  - right. split; [done|]. split; congruence.
  - right. split; [done|]. split; congruence.
  - congruence.
Qed.
Lemma touches_faults l d fs : touches l d (mkDisk (entries d) (cwd d) fs).
Proof. split; [done|]. by left. Qed.
Lemma reached_faults l d0 d fs : reached l d0 d → reached l d0 (mkDisk (entries d) (cwd d) fs).
Proof. intros [Ht Hwf]. split; [|exact Hwf]. eapply touches_trans; [done|]. apply touches_faults. Qed.
Lemma reached_set l d0 d n : l ≠ [] → reached l d0 d → tree_wf (set_entry l n d) → reached l d0 (set_entry l n d).
Proof.
  intros Hl [Ht Hwf] Hwf'. split; [|done]. eapply touches_trans; [done|]. split; [done|]. intros q Hq. left.
  rewrite entry_set by done. by rewrite bool_decide_false.
Qed.

(** Making directories. *)
Lemma mkdirs_spec pre rest d :
  tree_wf d → (entry d pre = None → ∃ p c, pre = p ++ [c] ∧ entry d p = Some Dir) →
  let d' := (mkdirs pre rest d).2 in
  tree_wf d' ∧ cwd d' = cwd d ∧
  ∀ q, entry d' q = entry d q ∨ (q `prefix_of` pre ++ rest ∧ entry d q = None ∧ entry d' q = Some Dir).
Proof.
  revert pre d. induction rest as [|c rest IH]; intros pre d Hwf Hpre; simpl.
  - rewrite app_nil_r. destruct (entry d pre) as [[|x]|] eqn:E; simpl; [by auto..|].
    destruct (Hpre eq_refl) as (p & c & -> & Hp). split; [apply wf_set; auto|]. split; [done|].
    intros q. rewrite entry_set by (by destruct p). case_bool_decide; subst; [right; by rewrite E|by left].
  - destruct (entry d pre) as [[|x]|] eqn:E; simpl; [|by auto|].
    + destruct (IH (pre ++ [c]) d Hwf) as (Hw & Hc & Hq); [by exists pre, c|]. rewrite <-app_assoc in Hq. by auto.
    + destruct (Hpre eq_refl) as (p & c0 & -> & Hp). assert (p ++ [c0] ≠ []) as Hne by (by destruct p).
      destruct (IH ((p ++ [c0]) ++ [c]) (set_entry (p ++ [c0]) Dir d)) as (Hw & Hc & Hq).
      * apply wf_set; auto.
      * intros _. exists (p ++ [c0]), c. split; [done|]. rewrite entry_set by done. by rewrite bool_decide_true.
      * split; [done|]. split; [done|]. intros q. specialize (Hq q). rewrite entry_set in Hq by done.
        rewrite <-(app_assoc _ [c]) in Hq. case_bool_decide as Eq; [|done]. subst q. right.
        split; [by eexists|]. split; [done|]. destruct Hq as [Hq|(_ & Hq & _)]; [done|done].
Qed.

Lemma reached_mkdirs l d0 d pth :
  reached l d0 d → pth `prefix_of` l → reached l d0 (mkdirs [] pth d).2.
Proof.
  intros [Ht Hwf] Hp. destruct (mkdirs_spec [] pth d Hwf) as (Hw & Hc & Hq); [done|]. split; [|done].
  eapply touches_trans; [done|]. split; [done|]. intros q _. destruct (Hq q) as [?|(Hpre & ? & ?)]; [by left|right].
  split; [|done]. by etrans.
Qed.

Lemma reached_MkdirAll l d0 d p :
  reached l d0 d → absolute d p `prefix_of` l → reached l d0 (os_MkdirAll p d).2.
Proof.
  intros Hr Hp. unfold os_MkdirAll. cbv zeta.
  assert (∀ d', reached l d0 d' → ∀ pth, pth `prefix_of` l →
    reached l d0 (match mkdirs [] pth d' with
                  | (Some e, d2) => (inl (PathError "mkdir" p e), d2)
                  | (None, d2) => (inr (), d2)
                  end : (error + ()) * disk).2) as Hrun.
  { intros d' Hr' pth Hpth. pose proof (reached_mkdirs l d0 d' pth Hr' Hpth). by destruct (mkdirs [] pth d') as [[e|] d2]. }
  destruct (faults d) as [|[[e n]|] fs].
  - by apply Hrun.
  - apply reached_mkdirs; [by apply reached_faults|]. etrans; [|exact Hp]. exists (list.drop n (absolute d p)). by rewrite take_drop.
  - apply Hrun; [by apply reached_faults|done].
Qed.

Lemma syscall_cases {A} (m : IO A) d (P : (error + A) * disk → Prop) :
  (∀ e d', entries d' = entries d → cwd d' = cwd d → P (inl e, d')) →
  (∀ d', entries d' = entries d → cwd d' = cwd d → P (m d')) → P (syscall m d).
Proof.
  intros Hf Hm. unfold syscall. destruct d as [e w [|[[err k]|] fs]]; simpl; [by apply Hm|by apply Hf|by apply Hm].
Qed.
Lemma same_entries d d' : entries d' = entries d → entry d' = entry d.
Proof. unfold entry. by intros ->. Qed.
Lemma same_absolute d d' : cwd d' = cwd d → absolute d' = absolute d.
Proof. unfold absolute. by intros ->. Qed.
Lemma reached_same l d0 d d' :
  entries d' = entries d → cwd d' = cwd d → reached l d0 d → reached l d0 d'.
Proof.
  destruct d' as [e w fs]. simpl. intros -> ->. apply reached_faults.
Qed.

Lemma reached_OpenFile l d0 d ex p :
  reached l d0 d → absolute d p = l →
  reached l d0 (os_OpenFile ex p d).2 ∧
  ∀ l', (os_OpenFile ex p d).1 = inr l' →
    l' = l ∧ entry (os_OpenFile ex p d).2 l = Some (File "") ∧ (ex = true → entry d l = None).
Proof.
  intros Hr Hl. unfold os_OpenFile. apply syscall_cases.
  - intros e d' He Hc. split; [by eapply reached_same|done].
  - intros d' He Hc. rewrite (same_absolute _ _ Hc), Hl. apply (reached_same _ _ _ _ He Hc) in Hr as Hr'.
    assert (tree_wf d') as Hwf by apply Hr'. rewrite <-(same_entries _ _ He).
    destruct (at_path d' (removelast l)) as [e|[|x]] eqn:Ep; [done| |done]. apply at_path_spec in Ep; [|done].
    assert (∀ n, n = File "" → entry d' l ≠ Some Dir → reached l d0 (set_entry l n d') ∧
      entry (set_entry l n d') l = Some n) as Hset.
    { intros n -> Hnd. destruct l as [|c l0 _] using rev_ind; [by destruct Hnd|].
      rewrite removelast_last in Ep. split.
      - apply reached_set; [by destruct l0|done|]. apply wf_set; auto.
      - rewrite entry_set by (by destruct l0). by rewrite bool_decide_true. }
    destruct (entry d' l) as [[|x]|] eqn:El; [done| |].
    + destruct ex; [done|]. destruct (Hset (File "") eq_refl) as [H1 H2]; [done|]. split; [done|]. simpl.
      by intros l' [= <-].
    + destruct (Hset (File "") eq_refl) as [H1 H2]; [done|]. split; [done|]. simpl. by intros l' [= <-].
Qed.

(** Appending to a file that exists. *)
Lemma reached_Write l d0 d c data :
  reached l d0 d → entry d l = Some (File c) →
  reached l d0 (file_Write l data d).2 ∧
  ∃ s, entry (file_Write l data d).2 l = Some (File (c +:+ s)) ∧ ((file_Write l data d).1 = inr () → s = data).
Proof.
  intros Hr Hc. destruct l as [|x l0 _] using rev_ind; [done|]. assert (l0 ++ [x] ≠ []) as Hne by (by destruct l0).
  assert (∀ d' s, entries d' = entries d → cwd d' = cwd d →
    reached (l0 ++ [x]) d0 (set_entry (l0 ++ [x]) (File (c +:+ s)) d') ∧
    entry (set_entry (l0 ++ [x]) (File (c +:+ s)) d') (l0 ++ [x]) = Some (File (c +:+ s))) as Hset.
  { intros d' s He Hcw. apply (reached_same _ _ _ _ He Hcw) in Hr as Hr'. rewrite <-(same_entries _ _ He) in Hc. split.
    - apply reached_set; [done..|]. apply wf_set; [apply Hr'| |right; congruence]. destruct Hr' as [_ Hwf]. by eapply Hwf.
    - rewrite entry_set by done. by rewrite bool_decide_true. }
  unfold file_Write. destruct (faults d) as [|[[e n]|] fs]; cbv zeta; cbn [fst snd];
    rewrite ?(entry_faults _ _ fs (faults d)); destruct d as [en w fl]; cbn [entries cwd faults] in *; rewrite Hc.
  - destruct (Hset (mkDisk en w fl) data) as [H1 H2]; [done..|]. split; [done|]. by exists data.
  - destruct (Hset (mkDisk en w fs) (take n data)) as [H1 H2]; [done..|]. split; [done|]. by exists (take n data).
  - destruct (Hset (mkDisk en w fs) data) as [H1 H2]; [done..|]. split; [done|]. by exists data.
Qed.

Lemma reached_Copy l d0 d src :
  reached l d0 d → entry d l = Some (File "") →
  reached l d0 (io_Copy l src d).2 ∧
  ((io_Copy l src d).1 = inr () → entry (io_Copy l src d).2 l = Some (File (rd_data src)) ∧ rd_err src = None) ∧
  ∃ s, entry (io_Copy l src d).2 l = Some (File s).
Proof.
  intros Hr Hc. unfold io_Copy, mbind, IO_bind. case_bool_decide as Hd.
  - unfold mret at 1, IO_ret at 1. rewrite Hd. destruct (rd_err src); simpl; split_and!; eauto; done.
  - destruct (reached_Write l d0 d "" (rd_data src) Hr Hc) as (Hr' & s & Hs & Hok).
    destruct (file_Write l (rd_data src) d) as [[e|[]] d']; simpl in *; rewrite string_app_nil_l in Hs; [split_and!; eauto; done|].
    rewrite Hok in Hs by done. destruct (rd_err src); simpl; split_and!; eauto; done.
Qed.

Lemma reached_Remove l d0 d p :
  reached l d0 d → absolute d p = l →
  reached l d0 (os_Remove p d).2 ∧ ((os_Remove p d).1 = inr () → entry (os_Remove p d).2 l = None).
Proof.
  intros Hr Hl. unfold os_Remove. apply syscall_cases.
  - intros e d' He Hc. split; [by eapply reached_same|done].
  - intros d' He Hc. rewrite (same_absolute _ _ Hc), Hl. apply (reached_same _ _ _ _ He Hc) in Hr as Hr'.
    assert (tree_wf d') as Hwf by apply Hr'.
    destruct (at_path d' l) as [e|n] eqn:Ep; [done|]. apply at_path_spec in Ep; [|done].
    case_bool_decide as Hne; [done|].
    assert ((∀ c, entry d' (l ++ [c]) = None) → reached l d0 (del_entry l d') ∧ entry (del_entry l d') l = None) as Hdel.
    { intros Hch. split; [|rewrite entry_del by done; by rewrite bool_decide_true]. split.
      - eapply touches_trans; [apply Hr'|]. split; [done|]. intros q Hq. left. rewrite entry_del by done.
        by rewrite bool_decide_false.
      - intros q c m. rewrite !entry_del by done. case_bool_decide as E1; [done|]. intros Hm.
        case_bool_decide as E2; [subst q; congruence|]. by eapply Hwf. }
    destruct n as [|x].
    + destruct (has_children d' l) eqn:Hch; [done|]. destruct Hdel as [H1 H2]; [|done].
      intros c. destruct (entry d' (l ++ [c])) as [m|] eqn:Em; [|done]. rewrite entry_snoc in Em.
      unfold has_children in Hch. apply not_true_iff_false in Hch. destruct Hch. apply existsb_exists.
      exists (l ++ [c], m). split; [by apply list_elem_of_In, elem_of_map_to_list|].
      apply bool_decide_eq_true. simpl. split; [apply removelast_last|by destruct l].
    + destruct Hdel as [H1 H2]; [|done]. intros c. destruct (entry d' (l ++ [c])) as [m|] eqn:Em; [|done].
      apply Hwf in Em. congruence.
Qed.

(** ** The local disk *)

(** The components of a path as the disk understands it. *)
Definition key (path : string) : list string := clean_comps true [] (Split slash path).

Definition valid_key (k : list string) : bool :=
  negb (Contains (Join "/" k) ".." || Contains (Join "/" k) NUL || bool_decide (Join "/" k = "")).

Lemma key_safe path : Forall safe_comp (key path).
Proof. apply clean_comps_safe; [done|apply Split_all_words]. Qed.

Lemma resolve_eq ld path :
  resolve ld path = if valid_key (key path) then inr (Join2 (Root ld) (Join "/" (key path)))
                    else inl (ENew "kiya/storage: invalid path").
Proof.
  unfold resolve. change ("/" +:+ path) with (String slash path). rewrite Clean_rooted. fold (key path).
  assert (TrimPrefix ("/" +:+ Join "/" (key path)) "/" = Join "/" (key path)) as ->.
  { unfold TrimPrefix. change ("/" +:+ Join "/" (key path)) with (String slash (Join "/" (key path))). cbn [HasPrefix].
    rewrite bool_decide_true by done. by destruct (Join "/" (key path)). }
  unfold valid_key. by destruct (_ || _).
Qed.

Lemma valid_key_ne k : valid_key k = true → k ≠ [].
Proof. by intros Hv ->. Qed.

(** Where the disk puts a path: below its root, nowhere else. *)
Lemma location d ld k :
  cwd_ok d → Forall safe_comp k → k ≠ [] →
  let full := Join2 (Root ld) (Join "/" k) in
  absolute d full = absolute d (Root ld) ++ k ∧
  ∃ c, absolute d full = absolute d (filepath_Dir full) ++ [c].
Proof.
  intros Hd Hk Hne full.
  assert (Forall (λ c, c ≠ "" ∧ word slash c) k) as Hkw.
  { eapply Forall_impl; [exact Hk|]. intros c (Hw & He & _ & _). done. }
  assert (Join "/" k ≠ "") as Hj.
  { intros E. pose proof (Split_Join_comps k Hkw Hne) as Hs. rewrite E in Hs. destruct Hkw as [|c k' [Hc _] _]; [done|].
    by injection Hs as <- _. }
  assert (∃ p, full = Clean p ∧ Split slash p = (if bool_decide (Root ld = "") then [] else Split slash (Root ld)) ++ k ∧
    absolute d p = absolute d (Root ld) ++ k) as (p & Hp & Hs & Ha).
  { unfold full, Join2. destruct (decide (Root ld = "")) as [E|E].
    - rewrite E. exists (Join "/" k). split.
      + rewrite filter_cons_False, filter_cons_True, filter_nil by naive_solver. done.
      + unfold absolute at 1. rewrite Join_no_slash, Split_Join_comps by done. split; [done|].
        by rewrite clean_comps_id by done.
    - exists (Root ld +:+ String slash (Join "/" k)). split.
      + rewrite !filter_cons_True, filter_nil by done. done.
      + rewrite bool_decide_false by done. rewrite Split_app, Split_Join_comps by done. split; [done|].
        unfold absolute. rewrite Split_app, Split_Join_comps by done. rewrite clean_comps_app by done. f_equal.
        destruct (Root ld) as [|a r]; [done|]. rewrite string_app_cons. cbn [HasPrefix].
        by destruct r, (_ +:+ _). }
  rewrite Hp, absolute_Clean by done. split; [done|].
  destruct k as [|c k0 _] using rev_ind; [done|]. apply Forall_app in Hk as [_ Hc]. inversion Hc as [|? ? Hc' _]; subst.
  rewrite app_assoc in Hs. destruct (Clean_last _ _ _ Hs Hc') as [pre' Hl]. exists c.
  rewrite <-(absolute_Clean d p) by done. by eapply absolute_Dir.
Qed.

(** The state and the result of writing to [full]. *)
Lemma write_effect (d : disk) full c0 (w : list string → IO ()) (content : string) :
  tree_wf d → absolute d full = absolute d (filepath_Dir full) ++ [c0] →
  (∀ l d', l = absolute d full → reached l d d' → entry d' l = Some (File "") →
     reached l d (w l d').2 ∧ ((w l d').1 = inr () → entry (w l d').2 l = Some (File content))) →
  let m := os_MkdirAll (filepath_Dir full);; l ← os_OpenFile false full; w l in
  reached (absolute d full) d (m d).2 ∧
  ((m d).1 = inr () → entry (m d).2 (absolute d full) = Some (File content)).
Proof.
  intros Hwf Hdir Hw. cbv zeta. set (l := absolute d full) in *.
  assert (reached l d d) as Hr by (split; [apply touches_refl|done]).
  apply (reached_MkdirAll _ _ _ (filepath_Dir full)) in Hr; [|rewrite Hdir; by eexists].
  unfold mbind, IO_bind. destruct (os_MkdirAll (filepath_Dir full) d) as [[e|[]] d1]; simpl in *; [done|].
  assert (absolute d1 full = l) as Hl by (apply (f_equal (λ f, f full)), same_absolute, Hr).
  destruct (reached_OpenFile l d d1 false full Hr Hl) as [Hr2 Hok].
  destruct (os_OpenFile false full d1) as [[e|l'] d2]; simpl in *; [done|].
  destruct (Hok l' eq_refl) as (-> & Hf & _). by apply Hw.
Qed.

(** A disk to start from. *)
Definition disk_ok (d : disk) : Prop := cwd_ok d ∧ tree_wf d.

Section Local.
Context (ld : LocalDisk).

Definition place (d : disk) (path : string) : list string := absolute d (Root ld) ++ key path.

(** An operation that resolves its path first. *)
Lemma resolved {A} (path : string) (f : string → IO A) d :
  cwd_ok d →
  (full ← of_sum (resolve ld path); f full) d = (inl (ENew "kiya/storage: invalid path"), d) ∧ valid_key (key path) = false ∨
  ∃ full c, (full ← of_sum (resolve ld path); f full) d = f full d ∧ valid_key (key path) = true ∧
    absolute d full = place d path ∧ absolute d full = absolute d (filepath_Dir full) ++ [c].
Proof.
  intros Hd. rewrite resolve_eq. destruct (valid_key (key path)) eqn:Hv; [|by left]. right.
  destruct (location d ld (key path) Hd (key_safe path) (valid_key_ne _ Hv)) as (Ha & c & Hc). eauto 10.
Qed.

Lemma Put_effect path (w : list string → IO ()) content d :
  disk_ok d →
  (∀ l d', reached l d d' → entry d' l = Some (File "") →
     reached l d (w l d').2 ∧ ((w l d').1 = inr () → entry (w l d').2 l = Some (File content))) →
  let m := full ← of_sum (resolve ld path); os_MkdirAll (filepath_Dir full);; l ← os_OpenFile false full; w l in
  reached (place d path) d (m d).2 ∧
  ((m d).1 = inr () → valid_key (key path) = true ∧ entry (m d).2 (place d path) = Some (File content)).
Proof.
  intros [Hcwd Hwf] Hw. cbv zeta.
  destruct (resolved path (λ full, os_MkdirAll (filepath_Dir full);; l ← os_OpenFile false full; w l) d Hcwd)
    as [[-> _]|(full & c & -> & Hv & Ha & Hc)].
  - split; [|done]. split; [apply touches_refl|done].
  - rewrite <-Ha. destruct (write_effect d full c w content Hwf Hc) as [Hr Hok]; [intros l d' -> Hr; by apply Hw|].
    split; [done|]. intros He. split; [done|]. by apply Hok.
Qed.

Lemma PutBytes_effect path data d :
  disk_ok d →
  reached (place d path) d (PutBytes ld path data d).2 ∧
  ((PutBytes ld path data d).1 = inr () →
     valid_key (key path) = true ∧ entry (PutBytes ld path data d).2 (place d path) = Some (File data)).
Proof.
  intros Hd. apply (Put_effect path (λ l, file_Write l data)); [done|]. intros l d' Hr He.
  destruct (reached_Write l d d' "" data Hr He) as (Hr' & s & Hs & Hok). split; [done|]. intros H. by rewrite Hs, string_app_nil_l, Hok.
Qed.

Lemma Put_reader_effect path file d :
  disk_ok d →
  reached (place d path) d (Put ld path file d).2 ∧
  ((Put ld path file d).1 = inr () →
     valid_key (key path) = true ∧ entry (Put ld path file d).2 (place d path) = Some (File (rd_data file))).
Proof.
  intros Hd. apply (Put_effect path (λ l, io_Copy l file)); [done|]. intros l d' Hr He.
  destruct (reached_Copy l d d' file Hr He) as (Hr' & Hok & _). split; [done|]. intros H. by apply Hok.
Qed.

Lemma Delete_effect path d :
  disk_ok d →
  reached (place d path) d (Delete ld path d).2 ∧
  ((Delete ld path d).1 = inr () → entry (Delete ld path d).2 (place d path) = None).
Proof.
  intros [Hcwd Hwf]. unfold Delete.
  destruct (resolved path os_Remove d Hcwd) as [[-> _]|(full & c & -> & _ & Ha & _)].
  - split; [|done]. split; [apply touches_refl|done].
  - rewrite <-Ha. apply reached_Remove; [|done]. split; [apply touches_refl|done].
Qed.

(** Reading operations change nothing but the faults to come. *)
Lemma read_only path d :
  (entries (Get ld path d).2 = entries d ∧ cwd (Get ld path d).2 = cwd d) ∧
  (entries (Exists ld path d).2 = entries d ∧ cwd (Exists ld path d).2 = cwd d).
Proof.
  assert (∀ full, (entries (os_Open full d).2 = entries d ∧ cwd (os_Open full d).2 = cwd d) ∧
    (entries (os_Stat full d).2 = entries d ∧ cwd (os_Stat full d).2 = cwd d)) as Hrd.
  { intros full. unfold os_Open, os_Stat.
    split; (apply syscall_cases; [done|]; intros d' He Hc; by destruct (at_path d' _)). }
  unfold Get, Exists. destruct (resolve ld path) as [e|full]; [done|]. destruct (Hrd full) as [Ho Hs].
  split; [exact Ho|]. destruct (os_Stat full d) as [[e|n] d']; [|done]. by destruct (os_IsNotExist e).
Qed.

(** What can be read at a path when no system call fails. *)
Definition no_faults (d : disk) : disk := mkDisk (entries d) (cwd d) [].
Definition reads (d : disk) (path content : string) : Prop := (Get ld path (no_faults d)).1 = inr (File content).

Lemma reads_spec d path content :
  disk_ok d → reads d path content ↔ valid_key (key path) = true ∧ entry d (place d path) = Some (File content).
Proof.
  intros [Hcwd Hwf]. unfold reads, Get.
  destruct (resolved path os_Open (no_faults d) Hcwd) as [[-> ->]|(full & c & -> & -> & Ha & _)].
  - split; [done|]. by intros [].
  - unfold os_Open, syscall. cbn [faults no_faults]. rewrite Ha.
    change (place (no_faults d) path) with (place d path).
    pose proof (at_path_spec (no_faults d) (place d path) (File content) Hwf) as Hat.
    change (entry (no_faults d)) with (entry d) in Hat. destruct (at_path _ _) as [e|n]; cbn [fst]; naive_solver.
Qed.

(** Operations in sequence. *)
Inductive disk_op :=
  | DPut (path : string) (file : reader)
  | DPutBytes (path data : string)
  | DDelete (path : string)
  | DGet (path : string)
  | DExists (path : string).

Definition run_op (d : disk) (o : disk_op) : disk :=
  match o with
  | DPut p f => (Put ld p f d).2
  | DPutBytes p x => (PutBytes ld p x d).2
  | DDelete p => (Delete ld p d).2
  | DGet p => (Get ld p d).2
  | DExists p => (Exists ld p d).2
  end.
Definition op_path (o : disk_op) : string :=
  match o with DPut p _ | DPutBytes p _ | DDelete p | DGet p | DExists p => p end.

Lemma run_op_reached d o : disk_ok d → reached (place d (op_path o)) d (run_op d o).
Proof.
  intros Hd. assert (reached (place d (op_path o)) d d) as Hr by (split; [apply touches_refl|apply Hd]).
  destruct o as [p f|p x|p|p|p]; cbn [run_op op_path] in *.
  - by apply Put_reader_effect.
  - by apply PutBytes_effect.
  - by apply Delete_effect.
  - destruct (read_only p d) as [[? ?] _]. by eapply reached_same.
  - destruct (read_only p d) as [_ [? ?]]. by eapply reached_same.
Qed.

Lemma reached_ok l d d' : disk_ok d → reached l d d' → disk_ok d'.
Proof. intros [Hc _] [[He _] Hwf]. split; [|done]. unfold cwd_ok. by rewrite He. Qed.

(** A path that is empty, or names the root itself, touches nothing. *)
Lemma run_op_root d o : disk_ok d → key (op_path o) = [] → entries (run_op d o) = entries d ∧ cwd (run_op d o) = cwd d.
Proof.
  intros [Hcwd _] Hk.
  assert (∀ A (f : string → IO A), (full ← of_sum (resolve ld (op_path o)); f full) d =
    (inl (ENew "kiya/storage: invalid path"), d)) as Hno.
  { intros A f. destruct (resolved (op_path o) f d Hcwd) as [[-> _]|(full & c & _ & Hv & _)]; [done|].
    by rewrite Hk in Hv. }
  destruct o as [p f|p x|p|p|p]; cbn [run_op op_path] in *;
    [unfold Put; by rewrite Hno|unfold PutBytes; by rewrite Hno|unfold Delete; by rewrite Hno|apply read_only|apply read_only].
Qed.

(** Outside its root the disk makes missing directories on the way to it, and nothing
    else. *)
Definition confined (d d' : disk) : Prop :=
  ∀ q, (∃ s, s ≠ [] ∧ q = absolute d (Root ld) ++ s) ∨ entry d' q = entry d q ∨
       (q `prefix_of` absolute d (Root ld) ∧ entry d q = None ∧ entry d' q = Some Dir).

Lemma confined_trans d1 d2 d3 : cwd d2 = cwd d1 → confined d1 d2 → confined d2 d3 → confined d1 d3.
Proof.
  intros Hc H12 H23 q. pose proof (same_absolute _ _ Hc) as Ha. specialize (H12 q). specialize (H23 q).
  rewrite Ha in H23. destruct H12 as [?|[E|(Hp & E & E')]]; [by left| |];
    destruct H23 as [?|[E2|(Hp2 & E2 & E2')]]; try (by left); right.
  - left. congruence.
  - right. split; [done|]. split; congruence.
  - right. split; [done|]. split; congruence.
  - congruence.
Qed.

Lemma run_op_confined d o : disk_ok d → confined d (run_op d o).
Proof.
  intros Hd q. destruct (decide (key (op_path o) = [])) as [Hk|Hk].
  { destruct (run_op_root d o Hd Hk) as [He _]. right. left. by rewrite (same_entries _ _ He). }
  destruct (run_op_reached d o Hd) as [[_ Ht] _]. unfold place in Ht.
  destruct (decide (q = absolute d (Root ld) ++ key (op_path o))) as [->|Hq]; [left; eauto|].
  destruct (Ht q Hq) as [E|(Hp & E & E')]; [by right; left|].
  destruct Hp as [t Hp]. apply app_eq_app in Hp as (l & [[Hr _]|[Hr _]]).
  - right. right. split; [|done]. by exists l.
  - destruct (decide (l = [])) as [->|Hl]; [|left; by exists l]. rewrite app_nil_r in Hr. subst q. right. right. done.
Qed.

(** [C19] Whatever paths they are given and whatever system calls fail, the operations
    of a disk stay below its root: an entry elsewhere is as it was before, except
    that directories missing on the way to the root may have been made.  What they
    read is a file below the root. *)
Theorem disk_operations_confined ops d :
  disk_ok d →
  disk_ok (foldl run_op d ops) ∧ confined d (foldl run_op d ops) ∧
  ∀ path c, reads (foldl run_op d ops) path c →
    ∃ s, s ≠ [] ∧ entry (foldl run_op d ops) (absolute d (Root ld) ++ s) = Some (File c).
Proof.
  intros Hd.
  assert (disk_ok (foldl run_op d ops) ∧ confined d (foldl run_op d ops) ∧ cwd (foldl run_op d ops) = cwd d) as (Hok & Hc & Hw).
  { induction ops as [|o ops IH] using rev_ind; [split_and!; [done| |done]; intros q; by right; left|].
    rewrite foldl_app. simpl. destruct IH as (Hok & Hc & Hw). pose proof (run_op_reached _ o Hok) as Hr.
    split_and!; [by eapply reached_ok| |]; [|destruct Hr as [[-> _] _]; done].
    eapply confined_trans; [done..|]. by apply run_op_confined. }
  split_and!; [done..|]. intros path c Hr. apply reads_spec in Hr as [Hv He]; [|done].
  exists (key path). split; [by apply valid_key_ne|]. by rewrite <-(same_absolute _ _ Hw).
Qed.

Lemma other_files d d' path q c :
  disk_ok d → reached (place d path) d d' → key q ≠ key path → reads d' q c ↔ reads d q c.
Proof.
  intros Hd Hr Hq. pose proof (reached_ok _ _ _ Hd Hr) as Hd'. rewrite !reads_spec by done.
  destruct Hr as [[Hc Ht] _]. unfold place in *. rewrite (same_absolute _ _ Hc). f_equiv.
  destruct (Ht (absolute d (Root ld) ++ key q)) as [->|(_ & -> & ->)]; [|done|naive_solver].
  intros E. by apply app_inv_head in E.
Qed.

Lemma same_file d d' path q c data :
  disk_ok d → reached (place d path) d d' → valid_key (key path) = true →
  entry d' (place d path) = Some (File data) → key q = key path → reads d' q c ↔ c = data.
Proof.
  intros Hd Hr Hv He Hq. pose proof (reached_ok _ _ _ Hd Hr) as Hd'. rewrite reads_spec by done.
  destruct Hr as [[Hc _] _]. unfold place in *. rewrite (same_absolute _ _ Hc), Hq, Hv, He. naive_solver.
Qed.

(** [C20] A disk is a map from cleaned paths to contents: after a successful [Put] or
    [PutBytes] a path that cleans to the same components reads the new content, and
    every other path reads what it did; after a successful [Delete] the path reads
    nothing, and the others are untouched. *)
Theorem disk_is_a_map d path d' :
  disk_ok d →
  (∀ data, PutBytes ld path data d = (inr (), d') →
     ∀ q c, reads d' q c ↔ if decide (key q = key path) then c = data else reads d q c) ∧
  (∀ file, Put ld path file d = (inr (), d') →
     ∀ q c, reads d' q c ↔ if decide (key q = key path) then c = rd_data file else reads d q c) ∧
  (Delete ld path d = (inr (), d') →
     ∀ q c, reads d' q c ↔ key q ≠ key path ∧ reads d q c).
Proof.
  intros Hd. split_and!.
  - intros data E q c. destruct (PutBytes_effect path data d Hd) as [Hr Hok]. rewrite E in Hr, Hok. simpl in *.
    destruct (Hok eq_refl) as [Hv He]. case_decide; [by eapply same_file|by eapply other_files].
  - intros file E q c. destruct (Put_reader_effect path file d Hd) as [Hr Hok]. rewrite E in Hr, Hok. simpl in *.
    destruct (Hok eq_refl) as [Hv He]. case_decide; [by eapply same_file|by eapply other_files].
  - intros E q c. destruct (Delete_effect path d Hd) as [Hr Hok]. rewrite E in Hr, Hok. simpl in *.
    specialize (Hok eq_refl). destruct (decide (key q = key path)) as [Hq|Hq].
    + rewrite reads_spec by (by eapply reached_ok). destruct Hr as [[Hc _] _].
      unfold place in *. rewrite (same_absolute _ _ Hc), Hq, Hok. naive_solver.
    + rewrite (other_files d d' path q c) by done. naive_solver.
Qed.
End Local.

(** ** Uploads *)

Lemma MkdirAll_keeps p d q n : tree_wf d → entry d q = Some n → entry (os_MkdirAll p d).2 q = Some n.
Proof.
  intros Hwf Hq.
  assert (∀ d' pth, entries d' = entries d → entry (mkdirs [] pth d').2 q = Some n) as Hm.
  { intros d' pth He. pose proof (same_entries _ _ He) as Hee. assert (tree_wf d') as Hwf' by (unfold tree_wf; by rewrite Hee).
    destruct (mkdirs_spec [] pth d' Hwf') as (_ & _ & Hs); [done|]. rewrite <-Hee in Hq.
    destruct (Hs q) as [->|(_ & E & _)]; [done|congruence]. }
  assert (∀ d' pth, entries d' = entries d → entry (match mkdirs [] pth d' with
                  | (Some e, d2) => (inl (PathError "mkdir" p e), d2)
                  | (None, d2) => (inr (), d2)
                  end : (error + ()) * disk).2 q = Some n) as Hrun.
  { intros d' pth He. specialize (Hm d' pth He). by destruct (mkdirs [] pth d') as [[e|] d2]. }
  unfold os_MkdirAll. cbv zeta. destruct (faults d) as [|[[e k]|] fs]; [by apply Hrun|by apply Hm|by apply Hrun].
Qed.

Lemma OpenFile_error ex p d e : (os_OpenFile ex p d).1 = inl e → entries (os_OpenFile ex p d).2 = entries d.
Proof.
  unfold os_OpenFile. apply syscall_cases; [done|]. intros d' He _. rewrite <-He. cbv zeta.
  destruct (at_path _ _) as [?|[|?]]; [done| |done]. destruct (entry _ _) as [[|?]|]; [done| |done]. by destruct ex.
Qed.

Lemma create_new_spec l d0 d p :
  reached l d0 d → absolute d p = l →
  reached l d0 (create_new p d).2 ∧
  match (create_new p d).1 with
  | inl _ => entries (create_new p d).2 = entries d
  | inr l' => l' = l ∧ entry (create_new p d).2 l = Some (File "") ∧ entry d l = None
  end.
Proof.
  intros Hr Hl. destruct (reached_OpenFile l d0 d true p Hr Hl) as [Hr' Hok].
  pose proof (OpenFile_error true p d) as Herr. unfold create_new.
  destruct (os_OpenFile true p d) as [[e|l'] d']; simpl in *; [by eauto|].
  destruct (Hok l' eq_refl) as (-> & ? & ?); auto.
Qed.

(** Making a new file and filling it: what existed is as it was. *)
Lemma upload_effect p (w : list string → IO ()) d :
  disk_ok d → absolute d (filepath_Dir p) `prefix_of` absolute d p →
  (∀ l d', reached l d d' → entry d' l = Some (File "") → reached l d (w l d').2) →
  let m := os_MkdirAll (filepath_Dir p);; l ← create_new p; w l in
  reached (absolute d p) d (m d).2 ∧ ∀ q n, entry d q = Some n → entry (m d).2 q = Some n.
Proof.
  intros [Hcwd Hwf] Hdir Hw. cbv zeta. set (l := absolute d p) in *.
  assert (reached l d d) as Hr by (split; [apply touches_refl|done]).
  pose proof (reached_MkdirAll _ _ _ _ Hr Hdir) as Hr1. pose proof (MkdirAll_keeps (filepath_Dir p) d) as Hk.
  unfold mbind, IO_bind. destruct (os_MkdirAll (filepath_Dir p) d) as [[e|[]] d1]; simpl in *; [by eauto|].
  assert (absolute d1 p = l) as Hl by (apply (f_equal (λ f, f p)), same_absolute, Hr1).
  destruct (create_new_spec l d d1 p Hr1 Hl) as [Hr2 Hnew].
  destruct (create_new p d1) as [[e|l'] d2]; simpl in *.
  - split; [done|]. intros q n Hq. rewrite (same_entries _ _ Hnew). by apply Hk.
  - destruct Hnew as (-> & Hf & Hn). specialize (Hw l d2 Hr2 Hf). split; [done|].
    intros q n Hq. destruct (decide (q = l)) as [->|Hql]; [|destruct Hw as [[_ Ht] _];
      destruct (Ht q Hql) as [->|(_ & E & _)]; [done|congruence]].
    specialize (Hk l n Hwf Hq). congruence.
Qed.

Lemma Join_contains cs c : c ∈ cs → Contains (Join "/" cs) c = true.
Proof.
  intros Hc. apply Contains_spec. induction cs as [|x cs IH]; [by apply not_elem_of_nil in Hc|].
  apply elem_of_cons in Hc as [<-|Hc].
  - destruct cs as [|y cs]; cbn [Join].
    + exists "", "". by rewrite string_app_nil_l, string_app_nil_r.
    + by exists "", ("/" +:+ Join "/" (y :: cs)).
  - destruct (IH Hc) as (a & b & Hab). destruct cs as [|y cs]; [by apply not_elem_of_nil in Hc|].
    change (Join "/" (x :: y :: cs)) with (x +:+ "/" +:+ Join "/" (y :: cs)).
    rewrite Hab. exists (x +:+ "/" +:+ a), b. by rewrite !string_app_assoc.
Qed.

(** Where an accepted destination is: below the working directory. *)
Lemma upload_location d dst p :
  cwd_ok d → upload_path dst = inr p →
  cwd d `prefix_of` absolute d p ∧ absolute d (filepath_Dir p) `prefix_of` absolute d p.
Proof.
  intros Hd Hu. unfold upload_path, filepath_IsAbs in Hu. destruct (Clean_cases dst) as (Hc & Hcs & Hnd).
  set (cs := clean_comps _ [] _) in *.
  destruct (HasPrefix (Clean dst) "/") eqn:Habs; [done|]. destruct (Contains (Clean dst) "..") eqn:Hdd; [done|].
  destruct (Contains (Clean dst) NUL); [done|]. injection Hu as <-.
  destruct (HasPrefix dst "/") eqn:Hp.
  { rewrite Hc in Habs. change ("/" +:+ Join "/" cs) with (String slash (Join "/" cs)) in Habs. cbn [HasPrefix] in Habs.
    rewrite bool_decide_true in Habs by done. by destruct (Join "/" cs). }
  case_bool_decide as E.
  - rewrite Hc. change (filepath_Dir ".") with ".". assert (absolute d "." = cwd d) as ->; [|done].
    change (absolute d ".") with (reverse (reverse (cwd d))). by rewrite reverse_involutive.
  - assert (Forall safe_comp cs) as Hsafe.
    { apply Forall_forall. intros c Hin. rewrite Forall_forall in Hcs. destruct (Hcs c Hin) as [Hne Hw].
      split_and!; [done|done| |].
      - rewrite Forall_forall in Hnd. by apply Hnd.
      - intros ->. rewrite Hc, Join_contains in Hdd by done. done. }
    assert (absolute d (Clean dst) = cwd d ++ cs) as Ha.
    { rewrite Hc. unfold absolute. rewrite Join_no_slash, Split_Join_comps by done.
      rewrite clean_comps_id by done. by rewrite reverse_involutive. }
    split; [rewrite Ha; by eexists|]. destruct cs as [|c cs0 _] using rev_ind; [done|].
    apply Forall_app in Hsafe as [_ Hs]. inversion Hs as [|? ? Hc' _]; subst.
    rewrite (absolute_Dir d (Clean dst) cs0 c); [by eexists|done| |done].
    rewrite Hc. by apply Split_Join_comps.
Qed.

Lemma copy_part_reached l d0 d key ps err :
  reached l d0 d → entry d l = Some (File "") → reached l d0 (copy_part l key ps err d).2.
Proof.
  intros Hr He. induction ps as [|[n r] ps IH]; simpl; [done|]. case_bool_decide; [|done]. by apply reached_Copy.
Qed.

(** What an upload may change: it makes entries below the working directory, or on
    the way to it, and leaves what exists. *)
Definition adds_only (d d' : disk) : Prop :=
  (∀ q n, entry d q = Some n → entry d' q = Some n) ∧
  (∀ q, entry d q = None → entry d' q ≠ None → cwd d `prefix_of` q ∨ q `prefix_of` cwd d).

Lemma adds_only_reached d d' l :
  cwd d `prefix_of` l → reached l d d' → (∀ q n, entry d q = Some n → entry d' q = Some n) → adds_only d d'.
Proof.
  intros Hl [[_ Ht] _] Hk. split; [done|]. intros q Hn Hs. destruct (decide (q = l)) as [->|Hq]; [by left|].
  destruct (Ht q Hq) as [E|(Hp & _ & _)]; [congruence|]. destruct (prefix_weak_total q (cwd d) l Hp Hl); auto.
Qed.

Lemma adds_only_refl d : adds_only d d.
Proof. split; [done|]. intros q H1 H2. congruence. Qed.

(** [C21] An upload never overwrites: whatever the destination, the form and the system
    calls that fail, every file and directory that existed is unchanged, and new ones
    are below the working directory (or make it up). *)
Theorem uploads_never_overwrite src mr key dst d :
  disk_ok d → adds_only d (SaveFile src dst d).2 ∧ adds_only d (SaveFileStream mr key dst d).2.
Proof.
  intros Hd. unfold SaveFile, SaveFileStream, mbind, IO_bind.
  destruct (upload_path dst) as [e|p] eqn:Hu; [split; apply adds_only_refl|]. simpl.
  destruct (upload_location d dst p (proj1 Hd) Hu) as [Hcw Hdir]. split.
  - destruct src as [e|r]; [apply adds_only_refl|]. simpl.
    destruct (upload_effect p (λ l, io_Copy l r) d Hd Hdir) as [Hr Hk].
    { intros l d' Hr He. by apply reached_Copy. }
    by eapply adds_only_reached.
  - destruct (upload_effect p (λ l, ps ← of_sum mr; copy_part l key (pt_parts ps) (pt_err ps)) d Hd Hdir) as [Hr Hk].
    { intros l d' Hr He. destruct mr as [e|ps]; [done|]. by apply copy_part_reached. }
    by eapply adds_only_reached.
Qed.

(** ** When writing succeeds *)

Lemma mkdirs_ok pre rest d :
  (∀ q c, q `prefix_of` pre ++ rest → entry d q ≠ Some (File c)) →
  (mkdirs pre rest d).1 = None ∧ entry (mkdirs pre rest d).2 (pre ++ rest) = Some Dir.
Proof.
  revert pre d. induction rest as [|c rest IH]; intros pre d Hno; simpl.
  - rewrite app_nil_r in *. destruct (entry d pre) as [[|x]|] eqn:E; [done|by destruct (Hno pre x)|].
    split; [done|]. simpl. rewrite entry_set by (by intros ->). by rewrite bool_decide_true.
  - destruct (entry d pre) as [[|x]|] eqn:E; [|by destruct (Hno pre x); [by eexists|]|].
    + specialize (IH (pre ++ [c]) d). rewrite <-app_assoc in IH. by apply IH.
    + specialize (IH (pre ++ [c]) (set_entry pre Dir d)). rewrite <-app_assoc in IH. apply IH.
      intros q x Hq. rewrite entry_set by (by intros ->). case_bool_decide; [done|]. by apply Hno.
Qed.

Lemma mkdirs_faults pre rest d : faults (mkdirs pre rest d).2 = faults d.
Proof.
  revert pre d. induction rest as [|x rest IH]; intros pre d; simpl; destruct (entry d pre) as [[|y]|]; simpl; rewrite ?IH; done.
Qed.

Lemma snoc_not_prefix {A} (l : list A) c : ¬ l ++ [c] `prefix_of` l.
Proof. intros [t Ht]. apply (f_equal length) in Ht. rewrite !length_app in Ht. simpl in Ht. lia. Qed.

(** Nothing stands in the way of a file at [l]. *)
Definition free_way (l : list string) (d : disk) : Prop :=
  (∀ q c, q `prefix_of` l → q ≠ l → entry d q ≠ Some (File c)) ∧ entry d l ≠ Some Dir.

Lemma open_ok ex full d c :
  disk_ok d → faults d = [] → absolute d full = absolute d (filepath_Dir full) ++ [c] → free_way (absolute d full) d →
  (ex = true → entry d (absolute d full) = None) →
  ∃ d', (os_MkdirAll (filepath_Dir full);; os_OpenFile ex full) d = (inr (absolute d full), d') ∧ faults d' = [].
Proof.
  intros [_ Hwf0] Hf Hc [Hway Hnd] Hex. unfold mbind, IO_bind, os_MkdirAll. cbv zeta. rewrite Hf.
  set (par := absolute d (filepath_Dir full)) in *.
  destruct (mkdirs_ok [] par d) as [Hm1 Hm2].
  { intros q x Hq. rewrite Hc in Hway. apply Hway; [etrans; [exact Hq|by eexists]|]. intros ->. by apply snoc_not_prefix in Hq. }
  destruct (mkdirs_spec [] par d Hwf0) as (Hwf & Hcw & Hq); [done|].
  pose proof (mkdirs_faults [] par d) as Hf1. rewrite Hf in Hf1. cbn [app] in *.
  destruct (mkdirs [] par d) as [err d1]. cbn [fst snd] in *. subst err.
  unfold os_OpenFile, syscall. rewrite Hf1, (same_absolute _ _ Hcw), Hc, removelast_last.
  assert (at_path d1 par = inr Dir) as -> by (by apply at_path_spec).
  destruct (Hq (par ++ [c])) as [Eq|(Hp & _ & _)]; [|by apply snoc_not_prefix in Hp].
  rewrite Eq, <-Hc. destruct (entry d (absolute d full)) as [[|x]|] eqn:El; [done| |by eexists].
  destruct ex; [by specialize (Hex eq_refl)|by eexists].
Qed.

(** Writing succeeds whenever it can: on a valid path, when no system call fails
    of itself, no file is in the place of a directory on the way and no directory in
    the place of the file, [PutBytes] succeeds and the content is read back. *)
Theorem PutBytes_succeeds ld path data d :
  disk_ok d → faults d = [] → valid_key (key path) = true → free_way (place ld d path) d →
  ∃ d', PutBytes ld path data d = (inr (), d') ∧ reads ld d' path data.
Proof.
  intros Hd Hf Hv Hway. destruct (PutBytes_effect ld path data d Hd) as [Hr He].
  assert ((PutBytes ld path data d).1 = inr ()) as Hok.
  { unfold PutBytes. destruct (resolved ld path (λ full, os_MkdirAll (filepath_Dir full);; os_WriteFile full data) d (proj1 Hd))
      as [[_ E]|(full & c & -> & _ & Ha & Hc)]; [congruence|]. rewrite <-Ha in Hway.
    destruct (open_ok false full d c Hd Hf Hc Hway) as (d2 & Ho & Hf2); [done|].
    unfold os_WriteFile, mbind, IO_bind in *. destruct (os_MkdirAll _ d) as [[e|[]] d1]; [done|].
    rewrite Ho. unfold file_Write. by rewrite Hf2. }
  destruct (PutBytes ld path data d) as [r d']. simpl in *. subst r. exists d'. split; [done|].
  by apply (same_file ld d d' path path data data Hd Hr Hv (proj2 (He eq_refl))).
Qed.

Lemma copy_part_missing l key ps d :
  key ∉ ps.*1 → copy_part l key ps None d = (inl (ENew "file field not found in request"), d).
Proof.
  induction ps as [|[n r] ps IH]; simpl; [done|]. intros Hn. apply not_elem_of_cons in Hn as [Hn Hps].
  rewrite bool_decide_false by done. by apply IH.
Qed.

(** [SaveFileStream] makes the file before it looks for the field: when the body
    has no such field it fails, and leaves an empty file on which another attempt to
    make it fails with "file already exists". *)
Theorem stream_without_field_leaves_file ps key dst p c d :
  disk_ok d → faults d = [] → upload_path dst = inr p → pt_err ps = None → key ∉ (pt_parts ps).*1 →
  absolute d p = absolute d (filepath_Dir p) ++ [c] → free_way (absolute d p) d → entry d (absolute d p) = None →
  ∃ d', SaveFileStream (inr ps) key dst d = (inl (ENew "file field not found in request"), d') ∧
        entry d' (absolute d p) = Some (File "") ∧
        (create_new p d').1 = inl (ENew "file already exists").
Proof.
  intros Hd Hf Hu Hpe Hkey Hc Hway Hnone. destruct (open_ok true p d c Hd Hf Hc Hway) as (d2 & Ho & Hf2); [done|].
  assert (reached (absolute d p) d d) as Hr by (split; [apply touches_refl|apply Hd]).
  apply (reached_MkdirAll _ _ _ (filepath_Dir p)) in Hr as Hr1; [|rewrite Hc; by eexists].
  unfold mbind, IO_bind in Ho. destruct (os_MkdirAll (filepath_Dir p) d) as [[e|[]] d1] eqn:Em; [done|]. simpl in Hr1.
  assert (absolute d1 p = absolute d p) as Hl by (apply (f_equal (λ f, f p)), same_absolute, Hr1).
  destruct (reached_OpenFile _ d d1 true p Hr1 Hl) as [Hr2 Hnew]. rewrite Ho in Hr2, Hnew.
  destruct (Hnew _ eq_refl) as (_ & Hfile & _). cbn [snd] in *. exists d2. split; [|split; [done|]].
  - unfold SaveFileStream, mbind, IO_bind. rewrite Hu. simpl. rewrite Em. unfold create_new. rewrite Ho. simpl.
    rewrite Hpe. by apply copy_part_missing.
  - destruct Hr2 as [[Hcw _] Hwf2]. unfold create_new, os_OpenFile, syscall.
    rewrite Hf2, (same_absolute _ _ Hcw), Hfile, Hc, removelast_last. rewrite Hc in Hfile. apply Hwf2 in Hfile.
    by apply at_path_spec in Hfile as ->.
Qed.

(** ** Demonstration *)

Definition demo_tree : disk := mkDisk {[ ["srv"] := Dir; ["etc"] := Dir; ["etc"; "passwd"] := File "root" ]} ["srv"] [].
Definition demo_local : LocalDisk := NewLocalDisk "uploads" "/files/".

Lemma demo_disk_ok : disk_ok demo_tree.
Proof.
  split; [by repeat constructor|]. intros q c n. rewrite entry_snoc. unfold demo_tree. cbn [entries]. intros Hq.
  destruct q as [|x [|y q]]; [done| |].
  - apply lookup_insert_Some in Hq as [[E _]|[_ Hq]]; [done|]. apply lookup_insert_Some in Hq as [[E _]|[_ Hq]]; [done|].
    apply lookup_singleton_Some in Hq as [E _]. by injection E as <- <-.
  - apply lookup_insert_Some in Hq as [[E _]|[_ Hq]]; [by destruct q|].
    apply lookup_insert_Some in Hq as [[E _]|[_ Hq]]; [by destruct q|]. apply lookup_singleton_Some in Hq as [E _]. by destruct q.
Qed.

Example demo_traversal :
  (PutBytes demo_local "../../etc/passwd" "x" demo_tree).1 = inr () ∧
  entry (PutBytes demo_local "../../etc/passwd" "x" demo_tree).2 ["etc"; "passwd"] = Some (File "root").
Proof. vm_compute. done. Qed.

Lemma disk_operations_confined_witness :
  disk_ok demo_tree ∧ confined demo_local demo_tree (foldl (run_op demo_local) demo_tree [DPutBytes "../../etc/passwd" "x"]).
Proof.
  split; [exact demo_disk_ok|].
  apply (disk_operations_confined demo_local [DPutBytes "../../etc/passwd" "x"] demo_tree demo_disk_ok).
Defined.

Lemma disk_is_a_map_witness :
  reads demo_local (PutBytes demo_local "a//b.txt" "hello" demo_tree).2 "./a/b.txt" "hello" ∧
  (PutBytes demo_local "a//b.txt" "hello" demo_tree).1 = inr ().
Proof.
  split; [|vm_compute; reflexivity].
  destruct (disk_is_a_map demo_local demo_tree "a//b.txt" (PutBytes demo_local "a//b.txt" "hello" demo_tree).2
    demo_disk_ok) as [Hput _].
  apply (Hput "hello" ltac:(vm_compute; reflexivity) "./a/b.txt" "hello"). reflexivity.
Defined.

Lemma uploads_never_overwrite_witness :
  adds_only demo_tree (SaveFile (inr (mkReader "x" None)) "up/a.txt" demo_tree).2.
Proof. apply (uploads_never_overwrite (inr (mkReader "x" None)) (inl ErrExist) "f" "up/a.txt" demo_tree demo_disk_ok). Defined.

Lemma demo_free l : l = ["srv"; "uploads"; "a.txt"] ∨ l = ["srv"; "a.txt"] → free_way l demo_tree.
Proof.
  intros Hl. split; [|by destruct Hl as [->| ->]]. intros q c [t Ht] Hq He.
  assert (q = [] ∨ q = ["srv"] ∨ q = ["srv"; "uploads"]) as Hcases.
  { destruct Hl as [->| ->]; destruct q as [|x1 [|x2 [|x3 q]]]; simplify_eq/=; auto; by destruct q. }
  by destruct Hcases as [->|[->| ->]].
Qed.

Lemma PutBytes_succeeds_witness :
  ∃ d', PutBytes demo_local "a.txt" "hi" demo_tree = (inr (), d') ∧ reads demo_local d' "a.txt" "hi".
Proof.
  apply (PutBytes_succeeds demo_local "a.txt" "hi" demo_tree demo_disk_ok).
  - reflexivity.
  - vm_compute. reflexivity.
  - apply demo_free. left. vm_compute. reflexivity.
Defined.

Lemma stream_without_field_leaves_file_witness :
  ∃ d', SaveFileStream (inr (mkParts [("other", mkReader "x" None)] None)) "f" "a.txt" demo_tree =
          (inl (ENew "file field not found in request"), d') ∧
        entry d' ["srv"; "a.txt"] = Some (File "").
Proof.
  destruct (stream_without_field_leaves_file (mkParts [("other", mkReader "x" None)] None) "f" "a.txt" "a.txt" "a.txt"
    demo_tree demo_disk_ok) as (d' & Hs & He & _).
  - reflexivity.
  - vm_compute. reflexivity.
  - reflexivity.
  - intros Hin. apply list_elem_of_singleton in Hin. discriminate.
  - vm_compute. reflexivity.
  - apply demo_free. right. vm_compute. reflexivity.
  - vm_compute. reflexivity.
  - exists d'. split; [exact Hs|exact He].
Defined.
