(* ===== verification/Logger.v ===== *)
(** * The logger ([internal/logger])

    Messages go to the console at once and to a channel of bounded size; three
    workers take them from it, write them to the log file of the day and pass errors
    and attacks on to Telegram in goroutines of their own.  The first part holds the
    sequential code: lines, rotation, the text of an alert and the memory of alerts
    that were sent.  The second is the concurrent machine from [Init] to the end of
    [Close], as a step relation.

    The clock, the JSON encoder and the digest are parameters; console output and the
    request to Telegram are not part of the state. *)

From S2P Require Import Prelude GoStrings Util HttpErr Session RedisStore Http Net.
From Stdlib Require Import Ascii.
From stdpp Require Import relations.
Import Strings Path.

Module Logger.

(** ** Lines *)

Record logEntry := mkEntry { isWAF : bool; level : string; message : string; sendTelegram : bool }.

(** What the exported functions put into the channel; in debug mode there is none. *)
Definition LogInfo (msg : string) : logEntry := mkEntry false "INFO" msg false.
Definition LogWarn (msg : string) : logEntry := mkEntry false "WARN" msg false.
Definition LogError (debug : bool) (msg : string) : logEntry := mkEntry false "ERROR" msg (negb debug).
Definition LogWAF (debug : bool) (msg : string) : option logEntry :=
  if debug then None else Some (mkEntry true "ATTACK" msg (negb debug)).

Definition lf : string := String "010" "".
Definition cr : string := String "013" "".

Definition sanitizeLogMessage (msg : string) : string := ReplaceAll (ReplaceAll msg lf " ") cr " ".

(** [time.Now()] in the layouts the logger uses, and as a number. *)
Record clock := mkClock { ck_day : string; ck_stamp : string; ck_rfc3339 : string; ck_now : Z }.

(** [json.Marshal] of the three members of a line. *)
Class LineJson := line_json : string → string → string → string.

Section Lines.
Context `{LineJson}.

Definition formatJSON (now : clock) (lvl msg : string) : string := line_json lvl msg (ck_rfc3339 now).

Definition file_line (isJSON : bool) (now : clock) (lvl msg : string) : string :=
  if isJSON then formatJSON now lvl msg +:+ lf
  else ck_stamp now +:+ " [" +:+ lvl +:+ "] " +:+ msg +:+ lf.

(** ** Files *)

(** One of the two logs: its open file and the day it is for. *)
Record log_file := mkLog { lg_file : option string; lg_day : string }.
Record log_files := mkFiles { app_log : log_file; waf_log : log_file; lg_contents : gmap string string }.

Definition path_Dir (p : string) : string := Clean (Join "/" (removelast (Split slash p) ++ [""])).
Definition log_name (prefix day : string) : string := prefix +:+ day +:+ ".log".

(** [opens] says whether a file can be opened for appending. *)
Definition open_log (opens : string → bool) (dir prefix : string) (now : clock) : log_file :=
  let p := Join2 dir (log_name prefix (ck_day now)) in
  mkLog (if opens p then Some p else None) (ck_day now).

Definition nil_file : string := "runtime error: invalid memory address or nil pointer dereference".

(** The body of [checkAndRotateApp] and [checkAndRotateWAF], which differ in the file and
    its prefix: [logFile.Name()] is called before [logFile] is compared with nil. *)
Definition checkAndRotate (opens : string → bool) (debug : bool) (prefix : string) (now : clock) (l : log_file)
    : outcome log_file :=
  if debug then Ret l
  else if bool_decide (ck_day now = lg_day l) then Ret l
  else match lg_file l with
       | None => Panic nil_file
       | Some f =>
           let p := Join2 (path_Dir f) (log_name prefix (ck_day now)) in
           Ret (if opens p then mkLog (Some p) (ck_day now) else l)
       end.
Definition checkAndRotateApp opens debug : clock → log_file → outcome log_file := checkAndRotate opens debug "log-".
Definition checkAndRotateWAF opens debug : clock → log_file → outcome log_file := checkAndRotate opens debug "waf-".

Definition append_line (l : log_file) (line : string) (c : gmap string string) : gmap string string :=
  match lg_file l with
  | None => c
  | Some f => <[f := default "" (c !! f) +:+ line]> c
  end.

(** [writeAppToFile] and [writeWAFToFile]. *)
Definition writeAppToFile (opens : string → bool) (debug isJSON : bool) (now : clock) (lvl msg : string)
    (fs : log_files) : outcome log_files :=
  match checkAndRotateApp opens debug now (app_log fs) with
  | Panic p => Panic p
  | Ret l => Ret (mkFiles l (waf_log fs) (append_line l (file_line isJSON now lvl msg) (lg_contents fs)))
  end.
Definition writeWAFToFile (opens : string → bool) (debug isJSON : bool) (now : clock) (lvl msg : string)
    (fs : log_files) : outcome log_files :=
  match checkAndRotateWAF opens debug now (waf_log fs) with
  | Panic p => Panic p
  | Ret l => Ret (mkFiles (app_log fs) l (append_line l (file_line isJSON now lvl msg) (lg_contents fs)))
  end.

(** The part of [processLogEntry] before its goroutine. *)
Definition processLogEntry (opens : string → bool) (isJSON : bool) (now : clock) (e : logEntry) (fs : log_files)
    : outcome log_files :=
  let safeMsg := sanitizeLogMessage (message e) in
  if isWAF e then writeWAFToFile opens false isJSON now (level e) safeMsg fs
  else writeAppToFile opens false isJSON now (level e) safeMsg fs.
End Lines.

(** ** Alerts *)

Definition truncateString (s : string) (maxLen : nat) : string :=
  if (String.length s <=? maxLen)%nat then s else take maxLen s +:+ "...".

Definition alert_of (e : logEntry) : string :=
  (if isWAF e then "[WAF ATTACK] " else "[APP ERROR] ") +:+ truncateString (sanitizeLogMessage (message e)) 200.

(** The text of [LogTelegram]; [rawQuery] is that of the request. *)
Definition telegram_text (trust : bool) (r : option Request) (rawQuery errStr : string) : string :=
  let '(method, pathStr, ip, query) :=
    match r with
    | Some r => (HTMLEscape (Method r), HTMLEscape (URL_Path r), HTMLEscape (RealIP trust r), rawQuery)
    | None => ("-", "-", "-", "")
    end in
  let errStr := if (2000 <? String.length errStr)%nat then take 2000 errStr +:+ "..." else errStr in
  "<b>KIYA ALERT</b>" +:+ lf +:+ lf +:+ "<b>Request</b>" +:+ lf +:+
  method +:+ " " +:+ pathStr +:+ lf +:+
  (if bool_decide (query = "") then "" else "Query: " +:+ HTMLEscape query +:+ lf) +:+
  "IP: " +:+ ip +:+ lf +:+ lf +:+ "<b>Error</b>" +:+ lf +:+ "<pre>" +:+ HTMLEscape errStr +:+ "</pre>".

Definition LogTelegram (debug : bool) (token group : string) (trust : bool) (r : option Request)
    (rawQuery : string) (err : option string) : option string :=
  match err with
  | None => None
  | Some e =>
      if debug || bool_decide (token = "") || bool_decide (group = "") then None
      else Some (telegram_text trust r rawQuery e)
  end.

Definition minute : Z := 60 * 1000000000.

(** [hex(sha1(s))[:10]]. *)
Class AlertHash := getHash : string → string.

(** [sendTelegramDirect] (ten minutes) and [sendTelegramHTML] (five): whether the
    text is sent, and the memory of what was. *)
Definition send_once `{AlertHash} (window : Z) (token group : string) (now : Z) (text : string)
    (last : gmap string Z) : bool * gmap string Z :=
  if bool_decide (token = "") || bool_decide (group = "") then (false, last)
  else
    let k := getHash text in
    match last !! k with
    | Some t => if (now - t <? window)%Z then (false, last) else (true, <[k := now]> last)
    | None => (true, <[k := now]> last)
    end.
Definition sendTelegramDirect `{AlertHash} := send_once (10 * minute).
Definition sendTelegramHTML `{AlertHash} := send_once (5 * minute).

Definition cleanupTelegramCache (now : Z) (last : gmap string Z) : gmap string Z :=
  if (10000 <? Z.of_nat (size last))%Z then ∅
  else filter (λ p, ¬ (p.2 < now - 20 * minute)%Z) last.

(** ** The machine *)

Definition chan_size : nat := 2000.
Definition n_workers : nat := 3.
Definition sem_size : nat := 5.

(** [closeUnsafe]: the write lock of [logStateMu] is held from [Stopping] to the end. *)
Inductive phase := Open | Stopping | WaitTelegram | Closed.
#[global] Instance phase_eq_dec : EqDecision phase.
Proof. solve_decision. Defined.

Definition locked (p : phase) : bool :=
  match p with Stopping | WaitTelegram => true | _ => false end.

Record run := mkRun {
  ph : phase;
  readers : nat;            (* goroutines that have read [logChan] and not sent yet *)
  chan : list logEntry;
  idle : nat;               (* workers that hold no entry *)
  hands : list logEntry;    (* entries held by workers *)
  spawned : nat;            (* Telegram goroutines before the semaphore *)
  waiting : nat;            (* ... in it, before [logStateMu.RLock] *)
  sending : nat;            (* ... past it *)
  files : log_files;
  dropped : nat;            (* since the start *)
  sent : list logEntry;     (* accepted by the channel, in order *)
  written : list logEntry;  (* processed, in order *)
  before : list logEntry;   (* accepted when [Close] began *)
}.

(** After [Init] in production mode. *)
Definition Init (fs : log_files) : run := mkRun Open 0 [] n_workers [] 0 0 0 fs 0 [] [] [].

Section Machine.
Context `{LineJson} (opens : string → bool) (isJSON : bool).

Inductive step : run → run → Prop :=
  (* [ch := logChan] under the read lock: not while [Close] holds the write lock;
     after [Close] it is nil *)
  | step_read r : ph r = Open →
      step r (mkRun (ph r) (S (readers r)) (chan r) (idle r) (hands r) (spawned r) (waiting r) (sending r) (files r)
                (dropped r) (sent r) (written r) (before r))
  (* [select { case ch <- e: default: droppedLogs.Add(1) }] *)
  | step_send r n e : readers r = S n → length (chan r) < chan_size →
      step r (mkRun (ph r) n (chan r ++ [e]) (idle r) (hands r) (spawned r) (waiting r) (sending r) (files r)
                (dropped r) (sent r ++ [e]) (written r) (before r))
  | step_drop r n : readers r = S n → length (chan r) = chan_size →
      step r (mkRun (ph r) n (chan r) (idle r) (hands r) (spawned r) (waiting r) (sending r) (files r)
                (S (dropped r)) (sent r) (written r) (before r))
  (* a worker, in its loop or draining *)
  | step_take r n e c : idle r = S n → chan r = e :: c →
      step r (mkRun (ph r) (readers r) c n (e :: hands r) (spawned r) (waiting r) (sending r) (files r)
                (dropped r) (sent r) (written r) (before r))
  | step_process r now e h1 h2 fs : hands r = h1 ++ e :: h2 → processLogEntry opens isJSON now e (files r) = Ret fs →
      step r (mkRun (ph r) (readers r) (chan r) (S (idle r)) (h1 ++ h2)
                (if sendTelegram e then S (spawned r) else spawned r) (waiting r) (sending r) fs
                (dropped r) (sent r) (written r ++ [e]) (before r))
  (* [case <-stopLogCh] with nothing left *)
  | step_exit r n : ph r = Stopping → idle r = S n → chan r = [] →
      step r (mkRun (ph r) (readers r) (chan r) n (hands r) (spawned r) (waiting r) (sending r) (files r)
                (dropped r) (sent r) (written r) (before r))
  (* a Telegram goroutine *)
  | step_acquire r n : spawned r = S n → waiting r + sending r < sem_size →
      step r (mkRun (ph r) (readers r) (chan r) (idle r) (hands r) n (S (waiting r)) (sending r) (files r)
                (dropped r) (sent r) (written r) (before r))
  | step_rlock r n : waiting r = S n → locked (ph r) = false →
      step r (mkRun (ph r) (readers r) (chan r) (idle r) (hands r) (spawned r) n (S (sending r)) (files r)
                (dropped r) (sent r) (written r) (before r))
  | step_delivered r n : sending r = S n →
      step r (mkRun (ph r) (readers r) (chan r) (idle r) (hands r) (spawned r) (waiting r) n (files r)
                (dropped r) (sent r) (written r) (before r))
  (* [Close]: the lock and [close(stopLogCh)]; [logWg.Wait()]; [telegramWg.Wait()] and the rest *)
  | step_close r : ph r = Open →
      step r (mkRun Stopping (readers r) (chan r) (idle r) (hands r) (spawned r) (waiting r) (sending r) (files r)
                (dropped r) (sent r) (written r) (sent r))
  | step_workers_done r : ph r = Stopping → idle r = 0 → hands r = [] →
      step r (mkRun WaitTelegram (readers r) (chan r) (idle r) (hands r) (spawned r) (waiting r) (sending r) (files r)
                (dropped r) (sent r) (written r) (before r))
  | step_closed r : ph r = WaitTelegram → spawned r = 0 → waiting r = 0 → sending r = 0 →
      step r (mkRun Closed (readers r) (chan r) (idle r) (hands r) (spawned r) (waiting r) (sending r)
                (mkFiles (mkLog None (lg_day (app_log (files r)))) (mkLog None (lg_day (waf_log (files r)))) (lg_contents (files r)))
                (dropped r) (sent r) (written r) (before r)).

Definition reachable (fs : log_files) (r : run) : Prop := rtc step (Init fs) r.
End Machine.
End Logger.
