(* ===== verification/LoggerSafety.v ===== *)
(** * Properties of the logger *)

From S2P Require Import Prelude GoStrings Util HttpErr Session RedisStore Http Net Logger.
From Stdlib Require Import Ascii.
From stdpp Require Import relations.
Import Strings Path Logger.

(** ** The machine *)

Section Machine.
Context `{LineJson} (opens : string → bool) (isJSON : bool).
#[local] Abbreviation step := (step opens isJSON).
#[local] Abbreviation reachable := (reachable opens isJSON).

Definition workers (r : run) : nat := idle r + length (hands r).

(** What holds in each phase. *)
Definition phase_inv (r : run) : Prop :=
  match ph r with
  | Open => workers r = n_workers
  | Stopping => workers r ≤ n_workers ∧ before r ⊆+ sent r ∧ (workers r = 0 → before r ⊆+ written r)
  | WaitTelegram | Closed => workers r = 0 ∧ before r ⊆+ written r
  end.

Record inv (r : run) : Prop := {
  inv_size : length (chan r) ≤ chan_size;
  inv_all : sent r ≡ₚ written r ++ hands r ++ chan r;
  inv_sem : waiting r + sending r ≤ sem_size;
  inv_phase : phase_inv r;
}.

Lemma inv_Init fs : inv (Init fs).
Proof. split; unfold phase_inv, workers; simpl; unfold chan_size, sem_size; lia || done. Qed.

Lemma perm_move (a b c : list logEntry) e : a ++ b ++ e :: c ≡ₚ a ++ (e :: b) ++ c.
Proof. f_equiv. by rewrite <-Permutation_middle. Qed.

Lemma inv_step r r' : inv r → step r r' → inv r'.
Proof.
  intros [Hsz Hall Hsem Hph] Hst. unfold phase_inv, workers in *.
  destruct Hst as [r Hp|r n e Hn Hl|r n Hn Hl|r n e c Hi Hc|r now e h1 h2 fs Hh Hw|r n Hp Hi Hc|r n Hn Hl|r n Hn Hl|r n Hn
                  |r Hp|r Hp Hi Hh|r Hp Hs Hw Hse]; split; unfold phase_inv, workers; simpl in *; try done; try lia.
  - rewrite length_app. simpl. lia.
  - rewrite Hall. by rewrite !app_assoc.
  - destruct (ph r); try done. destruct Hph as (? & Hb & ?). split_and!; [done| |done]. etrans; [exact Hb|].
    apply submseteq_inserts_r. done.
  - rewrite Hc in Hsz. simpl in Hsz. lia.
  - rewrite Hall, Hc. apply perm_move.
  - rewrite Hi in Hph. destruct (ph r); simpl in *; rewrite ?Nat.add_succ_r in *; try lia; try done.
  - rewrite Hall, Hh, <-!app_assoc. f_equiv. simpl. by rewrite <-Permutation_middle.
  - rewrite Hh, length_app in Hph. rewrite length_app. simpl in Hph.
    assert (∀ l, before r ⊆+ l → before r ⊆+ l ++ [e]) as Hx by (intros l ?; by apply submseteq_inserts_r).
    destruct (ph r).
    + lia.
    + destruct Hph as (? & ? & ?). split_and!; [lia|done|lia].
    + lia.
    + lia.
  - rewrite Hp in *. destruct Hph as (? & Hb & ?). split_and!; [lia|done|]. intros Hzero.
    assert (hands r = []) as Hhn by (destruct (hands r); [done|simpl in Hzero; lia]).
    rewrite Hall, Hhn, Hc in Hb. by rewrite !app_nil_r in Hb.
  - rewrite Hp in Hph. split_and!; [unfold n_workers in *; lia|done|]. unfold n_workers in *. lia.
  - rewrite Hp in Hph. rewrite Hi, Hh in *. simpl in *. destruct Hph as (_ & _ & Hb). split; [done|by apply Hb].
  - rewrite Hp in Hph. done.
Qed.

Lemma reachable_inv fs r : reachable fs r → inv r.
Proof.
  revert r. apply (rtc_ind_r inv (Init fs)); [apply inv_Init|]. intros r1 r2 _ Hst IH. by eapply inv_step.
Qed.


(** Closing drains: once [Close] has waited for the workers, none of them is
    left and every entry that had been accepted when [Close] began has been written. *)
Theorem close_drains fs r :
  Logger.reachable opens isJSON fs r → ph r = WaitTelegram ∨ ph r = Closed →
  before r ⊆+ written r ∧ workers r = 0.
Proof.
  intros Hr Hp. destruct (reachable_inv fs r Hr) as [_ _ _ Hph]. unfold phase_inv in Hph.
  destruct Hp as [Hp|Hp]; rewrite Hp in Hph; by destruct Hph.
Qed.

(** ** When [Close] returns *)

(** An alert that still has to take the read lock: a goroutine that has not, or an
    entry a worker will make one for. *)
Definition alert_pending (r : run) : Prop :=
  0 < spawned r + waiting r ∨ (0 < workers r ∧ ∃ e, e ∈ hands r ++ chan r ∧ sendTelegram e = true).

(** [Close] is waiting, for ever. *)
Definition stuck (r : run) : Prop :=
  ph r = Stopping ∧ alert_pending r ∨ ph r = WaitTelegram ∧ 0 < spawned r + waiting r.

Lemma stuck_step r r' : stuck r → step r r' → stuck r'.
Proof.
  unfold stuck, alert_pending, workers. intros Hd Hst.
  destruct Hst as [r Hp|r n e Hn Hl|r n Hn Hl|r n e c Hi Hc|r now e h1 h2 fs Hh Hw|r n Hp Hi Hc|r n Hn Hl|r n Hn Hl|r n Hn
                  |r Hp|r Hp Hi Hh|r Hp Hs Hw Hse]; simpl in *; try exact Hd; try (by rewrite Hp in Hd; destruct Hd as [[? _]|[? _]]).
  - destruct Hd as [[Hp [Hd|(Hw & x & Hx & Ht)]]|Hd]; [left; auto| |by right]. left. split; [done|]. right. split; [done|].
    exists x. split; [|done]. rewrite app_assoc. apply elem_of_app. by left.
  - rewrite Hc, Hi in Hd. destruct Hd as [[Hp [Hd|(Hw & x & Hx & Ht)]]|Hd]; [left; auto| |by right]. left. split; [done|]. right.
    split; [lia|]. exists x. split; [|done]. set_solver.
  - destruct Hd as [[Hp [Hd|(Hw' & x & Hx & Ht)]]|[Hp Hd]]; [left|left|right]; (split; [done|]);
      [left; destruct (sendTelegram e); lia| |destruct (sendTelegram e); lia].
    destruct (sendTelegram e) eqn:Ee; [left; lia|]. right. split; [lia|]. exists x. split; [|done].
    rewrite Hh in Hx. assert (x ≠ e) by congruence. set_solver.
  - rewrite Hp, Hc, Hi in *. destruct Hd as [[_ [Hd|(Hw & x & Hx & Ht)]]|[? _]]; [left; auto| |done]. left. split; [done|]. right.
    split; [|eauto]. rewrite app_nil_r in Hx. destruct (hands r); [by apply not_elem_of_nil in Hx|simpl; lia].
  - rewrite Hn in Hd. destruct Hd as [[Hp _]|[Hp _]]; [left|right]; (split; [done|]); [left|]; lia.
  - destruct Hd as [[Hp _]|[Hp _]]; by rewrite Hp in Hl.
  - rewrite Hp, Hi, Hh in Hd. simpl in Hd. right. split; [done|]. destruct Hd as [[_ [Hd|[Hw _]]]|[? _]]; [done|lia|done].
  - rewrite Hp, Hs, Hw in Hd. destruct Hd as [[? _]|[_ ?]]; [done|lia].
Qed.

Lemma stuck_forever r r' : stuck r → rtc step r r' → ph r' ≠ Closed.
Proof.
  intros Hd Hr. assert (stuck r') as Hd'.
  { revert r' Hr. apply (rtc_ind_r stuck r); [done|]. intros r1 r2 _ Hst IH. by eapply stuck_step. }
  destruct Hd' as [[-> _]|[-> _]]; done.
Qed.

(** On the day of its file an entry is written without rotation. *)
Lemma can_process e fs : ∃ now fs', processLogEntry opens isJSON now e fs = Ret fs'.
Proof.
  exists (mkClock (lg_day (if isWAF e then waf_log fs else app_log fs)) "" "" 0).
  unfold processLogEntry, writeWAFToFile, writeAppToFile, checkAndRotateApp, checkAndRotateWAF, checkAndRotate.
  destruct (isWAF e); cbn [ck_day]; rewrite bool_decide_true by done; by eexists.
Qed.

Lemma finish_alerts r :
  ph r = WaitTelegram → spawned r = 0 → waiting r = 0 → ∃ r', rtc step r r' ∧ ph r' = Closed.
Proof.
  remember (sending r) as n eqn:Hn. revert r Hn. induction n as [|n IH]; intros r Hn Hp Hs Hw.
  - eexists. split; [by apply rtc_once, step_closed|done].
  - destruct (IH (mkRun (ph r) (readers r) (chan r) (idle r) (hands r) (spawned r) (waiting r) n (files r)
                (dropped r) (sent r) (written r) (before r))) as (r' & Hr' & Hc); [done..|].
    exists r'. split; [|done]. eapply rtc_l; [by apply step_delivered|exact Hr'].
Qed.

Lemma finish_workers m r :
  3 * length (chan r) + 2 * length (hands r) + idle r ≤ m → ph r = Stopping → ¬ alert_pending r →
  ∃ r', rtc step r r' ∧ ph r' = Closed.
Proof.
  revert r. induction m as [m IH] using lt_wf_ind. intros r Hm Hp Hn.
  assert (spawned r = 0 ∧ waiting r = 0) as [Hs Hw] by (unfold alert_pending in Hn; lia).
  assert (∀ r1, step r r1 → ph r1 = Stopping → ¬ alert_pending r1 →
    3 * length (chan r1) + 2 * length (hands r1) + idle r1 < 3 * length (chan r) + 2 * length (hands r) + idle r →
    ∃ r', rtc step r r' ∧ ph r' = Closed) as Hgo.
  { intros r1 Hst Hp1 Hn1 Hlt. destruct (IH (3 * length (chan r1) + 2 * length (hands r1) + idle r1)) with (r := r1)
      as (r' & Hr' & Hc); [lia|done..|]. exists r'. split; [|done]. by eapply rtc_l. }
  unfold alert_pending, workers in Hn. destruct (hands r) as [|e h] eqn:Eh; [destruct (idle r) as [|n] eqn:Ei|].
  - destruct (finish_alerts (mkRun WaitTelegram (readers r) (chan r) (idle r) (hands r) (spawned r) (waiting r)
      (sending r) (files r) (dropped r) (sent r) (written r) (before r))) as (r' & Hr' & Hc); [done..|].
    exists r'. split; [|done]. eapply rtc_l; [by apply step_workers_done|exact Hr'].
  - destruct (chan r) as [|e c] eqn:Ec.
    + eapply Hgo; [by apply (step_exit _ _ r n)|done|..]; unfold alert_pending, workers; simpl; rewrite ?Eh, ?Ec; simpl; [|lia].
      intros [?|(_ & x & Hx & _)]; [lia|by apply not_elem_of_nil in Hx].
    + eapply Hgo; [by apply (step_take _ _ r n e c)|done|..]; unfold alert_pending, workers; simpl; rewrite Eh; simpl; [|lia].
      intros [?|(_ & x & Hx & Ht)]; [lia|]. apply Hn. right. split; [simpl; lia|]. eauto.
  - destruct (can_process e (files r)) as (now & fs' & Hpr).
    assert (sendTelegram e = false) as He.
    { destruct (sendTelegram e) eqn:E; [|done]. exfalso. apply Hn. right. split; [simpl; lia|]. exists e. split; [by left|done]. }
    eapply Hgo; [by apply (step_process _ _ r now e [] h fs')|done|..]; unfold alert_pending, workers; simpl; rewrite ?He; [|lia].
    intros [?|(_ & x & Hx & Ht)]; [lia|]. apply Hn. right. split; [simpl; lia|]. exists x. split; [by right|done].
Qed.

(** [C24] [Close] can return exactly when no alert is pending.  It holds the write lock
    of [logStateMu] while it waits for the goroutines that send alerts, and each of
    those takes the read lock first: when there is an error or an attack among the
    entries still to be written, or a goroutine that has not taken the lock yet, no
    schedule lets [Close] return; otherwise there is one that does. *)
Theorem close_returns_iff_no_alert r :
  ph r = Stopping → (∃ r', rtc step r r' ∧ ph r' = Closed) ↔ ¬ alert_pending r.
Proof.
  intros Hp. split.
  - intros (r' & Hr & Hc) Ha. eapply stuck_forever; [|done|done]. by left.
  - intros Hn. by eapply finish_workers.
Qed.

(** An entry can be lost without being counted: a goroutine that read the channel
    before [Close] may send to it after the workers have gone; there is a run in
    which [Close] has returned, an accepted entry is still in the channel and none
    has been dropped. *)
Theorem late_entry_lost fs msg :
  ∃ r, reachable fs r ∧ ph r = Closed ∧ chan r = [LogInfo msg] ∧ written r = [] ∧ dropped r = 0.
Proof.
  eexists. unfold reachable, Logger.reachable. split.
  - eapply rtc_l; [by apply step_read|]. eapply rtc_l; [by apply step_close|]. simpl.
    do 3 (eapply rtc_l; [by eapply step_exit|]). simpl.
    eapply rtc_l; [by eapply step_workers_done|]. eapply rtc_l; [by eapply step_closed|].
    eapply rtc_l; [apply (step_send _ _ _ 0 (LogInfo msg)); [done|simpl; unfold chan_size; lia]|]. apply rtc_refl.
  - done.
Qed.
End Machine.

(** ** Lines *)

Definition newline_char : ascii := "010"%char.
Definition return_char : ascii := "013"%char.

Lemma ReplaceAll_char c d s :
  ReplaceAll s (String c "") (String d "") = map_bytes (λ a, if bool_decide (a = c) then d else a) s.
Proof.
  unfold ReplaceAll. induction s as [|a s IH]; [done|]. cbn [ReplaceAll_go HasPrefix map_bytes String.length Nat.sub].
  assert (HasPrefix s "" = true) as -> by (by destruct s). rewrite andb_true_r.
  destruct (decide (a = c)) as [->|Hne]; [rewrite !bool_decide_true by done|rewrite !bool_decide_false by congruence]; by rewrite IH.
Qed.

(** Replacing a character by another one removes it, and brings in no third one. *)
Lemma ReplaceAll_word c d s x :
  d ≠ x → x = c ∨ word x s → word x (ReplaceAll s (String c "") (String d "")).
Proof.
  intros Hd Hx. rewrite ReplaceAll_char. induction s as [|a s IH]; [done|]. cbn [map_bytes]. apply word_cons. split.
  - destruct Hx as [->|Hw]; case_bool_decide; try done. by apply word_cons in Hw as [? _].
  - apply IH. destruct Hx as [->|Hw]; [by left|right]. by apply word_cons in Hw as [_ ?].
Qed.

Lemma sanitized_words msg : word newline_char (sanitizeLogMessage msg) ∧ word return_char (sanitizeLogMessage msg).
Proof.
  unfold sanitizeLogMessage, lf, cr. split.
  - apply ReplaceAll_word; [done|]. right. apply ReplaceAll_word; [done|]. by left.
  - apply ReplaceAll_word; [done|]. by left.
Qed.

Lemma word_append c s t : word c s → word c t → word c (s +:+ t).
Proof.
  intros Hs Ht. induction s as [|a s IH]; [by rewrite string_app_nil_l|]. rewrite string_app_cons.
  apply word_cons in Hs as [? ?]. apply word_cons. auto.
Qed.

Section LogLines.
Context `{LineJson} (opens : string → bool) (isJSON : bool).

(** The encoder writes no raw line break, nor do the clock and the levels. *)
Definition plain_json : Prop := ∀ a b c, word newline_char (line_json a b c).
Definition plain_clock (now : clock) : Prop := word newline_char (ck_stamp now).

Definition sink (e : logEntry) (fs : log_files) : log_file := if isWAF e then waf_log fs else app_log fs.
Definition other_sink (e : logEntry) (fs : log_files) : log_file := if isWAF e then app_log fs else waf_log fs.
Definition day_file (e : logEntry) (now : clock) (f : string) : string :=
  Join2 (path_Dir f) (log_name (if isWAF e then "waf-" else "log-") (ck_day now)).

Lemma file_line_spec now e :
  plain_json → plain_clock now → word newline_char (level e) →
  ∃ body, file_line isJSON now (level e) (sanitizeLogMessage (message e)) = body +:+ lf ∧ word newline_char body.
Proof.
  intros Hj Hc Hl. unfold file_line, formatJSON. destruct isJSON; [by eexists|].
  exists (ck_stamp now +:+ " [" +:+ level e +:+ "] " +:+ sanitizeLogMessage (message e)). split.
  - by rewrite !string_app_assoc.
  - apply word_append; [done|]. apply (word_append _ " ["); [done|]. apply word_append; [done|].
    apply (word_append _ "] "); [done|]. apply sanitized_words.
Qed.

(** One line for each entry: a worker that processes an entry appends, to the
    file of the log it belongs to and to no other, one line without a line break in
    it, whatever the message holds, so that a message cannot forge an entry.  On a
    new day it goes to the file of that day, or to the old one when that cannot be
    opened.  The worker panics exactly when the log has no file (it could not be
    opened) and the day has changed. *)
Theorem entry_is_one_line now e fs :
  plain_json → plain_clock now → word newline_char (level e) →
  match processLogEntry opens isJSON now e fs with
  | Panic _ => lg_file (sink e fs) = None ∧ ck_day now ≠ lg_day (sink e fs)
  | Ret fs' =>
      other_sink e fs' = other_sink e fs ∧
      (sink e fs' = sink e fs ∨
       ∃ f, lg_file (sink e fs) = Some f ∧ sink e fs' = mkLog (Some (day_file e now f)) (ck_day now)) ∧
      ∃ body, word newline_char body ∧
        lg_contents fs' =
          match lg_file (sink e fs') with
          | None => lg_contents fs
          | Some f => <[f := default "" (lg_contents fs !! f) +:+ body +:+ lf]> (lg_contents fs)
          end
  end.
Proof.
  intros Hj Hc Hl. destruct (file_line_spec now e Hj Hc Hl) as (body & Hb & Hw).
  unfold processLogEntry, writeWAFToFile, writeAppToFile, sink, other_sink, day_file.
  destruct (isWAF e); unfold checkAndRotateApp, checkAndRotateWAF, checkAndRotate; case_bool_decide; cbn [waf_log app_log lg_contents]; rewrite Hb;
    unfold append_line; eauto 10.
  - destruct (lg_file (waf_log fs)) as [f|] eqn:Ef; [|done]. destruct (opens _); cbn [waf_log app_log lg_contents lg_file];
      rewrite ?Ef; split_and!; eauto 10.
  - destruct (lg_file (app_log fs)) as [f|] eqn:Ef; [|done]. destruct (opens _); cbn [waf_log app_log lg_contents lg_file];
      rewrite ?Ef; split_and!; eauto 10.
Qed.
End LogLines.

(** ** Alerts *)

Section Alerts.
Context `{AlertHash} (window : Z) (token group : string).

Inductive alert_event := ASend (now : Z) (text : string) | AClean (now : Z).
Definition event_time (ev : alert_event) : Z := match ev with ASend t _ | AClean t => t end.

Definition alert_step (ev : alert_event) (last : gmap string Z) : list (string * Z) * gmap string Z :=
  match ev with
  | ASend now text =>
      let '(ok, last') := send_once window token group now text last in
      (if ok then [(getHash text, now)] else [], last')
  | AClean now => ([], cleanupTelegramCache now last)
  end.

(** The digests that were sent, with their times. *)
Fixpoint alerts (evs : list alert_event) (last : gmap string Z) : list (string * Z) :=
  match evs with
  | [] => []
  | ev :: evs' => let '(out, last') := alert_step ev last in out ++ alerts evs' last'
  end.

(** Time does not go back, and the memory is never so large that it is thrown away. *)
Fixpoint orderly (t : Z) (evs : list alert_event) (last : gmap string Z) : Prop :=
  match evs with
  | [] => True
  | ev :: evs' =>
      (t <= event_time ev)%Z ∧ (match ev with AClean _ => (Z.of_nat (size last) <= 10000)%Z | ASend _ _ => True end) ∧
      orderly (event_time ev) evs' (alert_step ev last).2
  end.

(** The send at [t] is remembered, or long ago. *)
Definition remembered (k : string) (t : Z) (now : Z) (last : gmap string Z) : Prop :=
  last !! k = Some t ∨ (t < now - 20 * minute)%Z.

Lemma send_once_spec now text last ok last' :
  send_once window token group now text last = (ok, last') →
  (ok = false → last' = last) ∧
  (ok = true → last' = <[getHash text := now]> last ∧ ∀ t, last !! getHash text = Some t → (window <= now - t)%Z).
Proof.
  unfold send_once. destruct (_ || _); [by intros [= <- <-]|]. destruct (last !! getHash text) as [t|] eqn:E.
  - destruct (Z.ltb_spec (now - t) window); intros [= <- <-]; [done|]. split; [done|]. intros _. split; [done|].
    intros t' [= <-]. lia.
  - by intros [= <- <-].
Qed.

Lemma alerts_spaced k t t0 evs last :
  (window <= 20 * minute)%Z → remembered k t t0 last → orderly t0 evs last → (t <= t0)%Z →
  ∀ t', (k, t') ∈ alerts evs last → (window <= t' - t)%Z.
Proof.
  intros Hw. revert t t0 last. induction evs as [|ev evs IH]; intros t t0 last Hr Ho Ht t' Hin; [by apply not_elem_of_nil in Hin|].
  destruct Ho as (Hle & Hsz & Ho). cbn [alerts] in Hin. destruct ev as [now text|now]; cbn [alert_step event_time] in *.
  - destruct (send_once window token group now text last) as [ok last'] eqn:E. cbn [snd] in Ho.
    destruct (send_once_spec _ _ _ _ _ E) as [Hno Hyes]. apply elem_of_app in Hin.
    assert (remembered k t now last) as Hr1 by (destruct Hr; [by left|right; lia]).
    destruct ok.
    + destruct (Hyes eq_refl) as [-> Hsp]. destruct (decide (getHash text = k)) as [Hk|Hk].
      * assert (window <= now - t)%Z as Hfirst by (destruct Hr1 as [Hr1|Hr1]; [rewrite <-Hk in Hr1; by apply Hsp|lia]).
        destruct Hin as [Hin|Hin]; [apply list_elem_of_singleton in Hin; by simplify_eq|].
        assert (window <= t' - now)%Z; [|lia]. eapply (IH now now); [|done|done|done]. left. by rewrite Hk, lookup_insert_eq.
      * destruct Hin as [Hin|Hin]; [apply list_elem_of_singleton in Hin; congruence|].
        eapply (IH t now); [|done|lia|done]. destruct Hr1 as [Hr1|Hr1]; [left; by rewrite lookup_insert_ne|by right].
    + rewrite (Hno eq_refl) in *. destruct Hin as [Hin|Hin]; [by apply not_elem_of_nil in Hin|].
      eapply (IH t now); [done|done|lia|done].
  - eapply (IH t now); [|done|lia|done]. destruct Hr as [Hr|Hr]; [|right; lia].
    unfold cleanupTelegramCache. destruct (Z.ltb_spec 10000 (Z.of_nat (size last))); [lia|].
    destruct (decide (t < now - 20 * minute)%Z); [by right|left]. by apply map_lookup_filter_Some_2.
Qed.

(** Alerts are not repeated: after an alert has been sent, the same alert is not
    sent again until the window has passed, however many attempts and clean-ups come
    in between, as long as the memory of alerts does not exceed ten thousand. *)
Theorem alert_not_repeated t text last last' evs :
  (window <= 20 * minute)%Z → send_once window token group t text last = (true, last') → orderly t evs last' →
  ∀ t', (getHash text, t') ∈ alerts evs last' → (window <= t' - t)%Z.
Proof.
  intros Hw Hs Ho t'. destruct (send_once_spec _ _ _ _ _ Hs) as [_ Hyes]. destruct (Hyes eq_refl) as [-> _].
  eapply alerts_spaced; [done| |done|done]. left. by rewrite lookup_insert_eq.
Qed.
End Alerts.

(** ** Demonstration *)

#[local] Instance demo_json : LineJson := λ l m t, "{}".
#[local] Instance demo_hash : AlertHash := λ s, s.

Definition demo_files : log_files :=
  mkFiles (mkLog (Some "log/log-2024-01-01.log") "2024-01-01") (mkLog None "2024-01-01") ∅.
Definition demo_clock : clock := mkClock "2024-01-02" "2024/01/02 10:00:00" "2024-01-02T10:00:00Z" 0.

(** A run in which an error is accepted and [Close] begins. *)
Lemma demo_close msg :
  ∃ r, reachable (λ _, true) false demo_files r ∧ ph r = Stopping ∧ chan r = [LogError false msg] ∧ workers r = 3.
Proof.
  eexists. unfold reachable. split.
  - eapply rtc_l; [by apply step_read|].
    eapply rtc_l; [apply (step_send _ _ _ 0 (LogError false msg)); [done|simpl; unfold chan_size; lia]|].
    eapply rtc_l; [by apply step_close|]. apply rtc_refl.
  - done.
Qed.


Lemma demo_closed : ∃ r, reachable (λ _, true) false demo_files r ∧ ph r = Closed.
Proof.
  eexists. unfold reachable. split.
  - eapply rtc_l; [by apply step_close|]. simpl. do 3 (eapply rtc_l; [by eapply step_exit|]). simpl.
    eapply rtc_l; [by eapply step_workers_done|]. eapply rtc_l; [by eapply step_closed|]. apply rtc_refl.
  - done.
Qed.

Lemma close_drains_witness : ∃ r, ph r = Closed ∧ before r ⊆+ written r.
Proof.
  destruct demo_closed as (r & Hr & Hp). exists r. split; [exact Hp|].
  apply (close_drains (λ _, true) false demo_files r Hr). right. exact Hp.
Defined.

(** An error in the channel: [Close] never returns. *)
Lemma close_returns_iff_no_alert_witness :
  ∃ r, reachable (λ _, true) false demo_files r ∧ ph r = Stopping ∧
    ¬ ∃ r', rtc (step (λ _, true) false) r r' ∧ ph r' = Closed.
Proof.
  destruct (demo_close "x") as (r & Hr & Hp & Hc & Hw). exists r. split; [exact Hr|]. split; [exact Hp|].
  intros Hex. apply (close_returns_iff_no_alert (λ _, true) false r Hp) in Hex. apply Hex. right.
  rewrite Hw. split; [lia|]. exists (LogError false "x"). split; [|reflexivity]. rewrite Hc. set_solver.
Defined.

Lemma entry_is_one_line_witness :
  ∃ body, word newline_char body ∧
    match processLogEntry (λ _, true) false demo_clock (LogInfo ("a" +:+ lf +:+ "[ERROR] b")) demo_files with
    | Ret fs => lg_contents fs = <["log/log-2024-01-02.log" := "" +:+ body +:+ lf]> ∅
    | Panic _ => False
    end.
Proof.
  pose proof (entry_is_one_line (λ _, true) false demo_clock (LogInfo ("a" +:+ lf +:+ "[ERROR] b")) demo_files) as Hone.
  destruct (processLogEntry _ _ _ _ _) as [fs|p] eqn:E.
  - destruct Hone as (_ & _ & body & Hb & Hc).
    + intros a b c. reflexivity.
    + reflexivity.
    + reflexivity.
    + exists body. split; [exact Hb|]. rewrite Hc. revert E. vm_compute. intros [= <-]. reflexivity.
  - vm_compute in E. discriminate.
Defined.

Lemma alert_not_repeated_witness :
  alerts (5 * minute) "token" "group" [ASend 10 "x"; AClean 20; ASend 30 "x"] {["x" := 0%Z]} = [] ∧
  ∀ t', (getHash "x", t') ∈ alerts (5 * minute) "token" "group" [ASend 10 "x"; AClean 20; ASend 30 "x"] {["x" := 0%Z]} →
    (5 * minute <= t' - 0)%Z.
Proof.
  split; [vm_compute; reflexivity|].
  apply (alert_not_repeated (5 * minute) "token" "group" 0 "x" ∅ {["x" := 0%Z]}).
  - vm_compute. discriminate.
  - vm_compute. reflexivity.
  - vm_compute. repeat split; discriminate || lia.
Defined.
