(* ===== verification/Decoder.v ===== *)
(** * Decoding of forms ([internal/decoder])

    Values of a posted form are assigned to the fields of a struct, by the name of
    the field's [form] tag; nested structs are addressed with dots and elements of
    slices with brackets.  A [reflect.Value] is its static type, its content and
    whether it can be set; writing through it returns the new content.

    The recursion is bounded by fuel; [enough_fuel] gives an amount that is always
    sufficient.  A struct type here is finite: the code's own bound of 50 nested
    structs, which also stops it on types that contain themselves, is part of the
    model.

    [bluemonday]'s policies, the expression that removes script and style elements,
    the float and time parsers of the Standard Library and [dateparse] are the
    interface [FormText].  [sort.Sort] is called with a [Less] that is not an order
    (a field that is not embedded is less than itself), so that only a permutation is
    assumed of it.  No custom type is ever registered. *)

From S2P Require Import Prelude GoStrings GoValue HttpErr.
From Stdlib Require Import Ascii.
Import Strings.

Inductive SanitizeMode := SanitizeDefault | SanitizeHTML | SanitizeRaw.

Record cachedField := mkCached {
  cf_idx : nat;
  cf_name : string;
  cf_anonymous : bool;
  cf_sanitize : SanitizeMode;
}.

Class FormText := {
  strict_Sanitize : string → string;
  ugc_Sanitize : string → string;
  remove_dangerous : string → string;
  form_ParseFloat : fkind → string → option spec_float;
  ParseInLocation : string → string → option Z;
  ParseStrict : string → error + Z;
}.

(** [sort.Sort(cacheFields(fields))]. *)
Class FieldSort := {
  sort_Sort : list cachedField → list cachedField;
  sort_Sort_perm l : sort_Sort l ≡ₚ l;
}.

(** ** Values *)

Definition is_re_space (a : ascii) : bool :=
  bool_decide (a ∈ ["009"; "010"; "012"; "013"; " "]%char).

(** [spaceRegex.ReplaceAllString(s, " ")]: each run of white space becomes a space. *)
Fixpoint squeeze (inside : bool) (s : string) : string :=
  match s with
  | "" => ""
  | String a s' =>
      if is_re_space a then if inside then squeeze true s' else String " " (squeeze true s')
      else String a (squeeze false s')
  end.

Section Decoder.
Context `{Unicode} `{MapOrder} `{FormText} `{FieldSort}.

Definition cleanValue (val : string) (mode : SanitizeMode) : string :=
  let val := TrimSpace val in
  match mode with
  | SanitizeRaw => val
  | SanitizeHTML => TrimSpace (squeeze false (ugc_Sanitize val))
  | SanitizeDefault => TrimSpace (squeeze false (strict_Sanitize (remove_dangerous val)))
  end.

Definition parseBool (str : string) : option bool :=
  if bool_decide (str ∈ ["1"; "t"; "T"; "true"; "TRUE"; "True"; "on"; "yes"; "ok"]) then Some true
  else if bool_decide (str ∈ [""; "0"; "f"; "F"; "false"; "FALSE"; "False"; "off"; "no"]) then Some false
  else None.

Definition layouts : list string :=
  ["02/01/2006"; "2006/01/02"; "02-01-2006"; "2006-01-02"; "15:04:05"; "15:04"; "2006-01-02T15:04:05Z07:00"].

Definition parse_time (s : string) : error + Z :=
  match find_first (λ l, bool_decide (is_Some (ParseInLocation l s))) layouts with
  | Some l => match ParseInLocation l s with Some t => inr t | None => inl (ENew "") end
  | None => ParseStrict s
  end.

(** ** The fields of a struct *)

Definition sanitize_option (cfg : string) : SanitizeMode :=
  if bool_decide (cfg ∈ ["none"; "raw"; "safe"]) then SanitizeRaw
  else if bool_decide (cfg ∈ ["wysiwyg"; "html"]) then SanitizeHTML
  else SanitizeDefault.

Definition cache_form_field (i : nat) (fld : sfield) : option cachedField :=
  if negb (sf_exported fld) && negb (sf_anonymous fld) then None
  else
    let tagVal := Tag_Get fld "form" in
    let parts := Split ","%char tagVal in
    let name := if bool_decide (tagVal = "") then "" else TrimSpace (default "" (hd_error parts)) in
    let mode := if bool_decide (tagVal = "") then SanitizeDefault
                else match parts with
                     | _ :: cfg :: _ => sanitize_option (strings_ToLower (TrimSpace cfg))
                     | _ => SanitizeDefault
                     end in
    if bool_decide (name = "-") then None
    else Some (mkCached i (if bool_decide (name = "") then sf_name fld else name) (sf_anonymous fld) mode).

(** The result does not depend on the cache, which only stores it; the mode is
    always [ModeImplicit]. *)
Definition parseStruct (fs : list sfield) : list cachedField :=
  sort_Sort (omap id (imap cache_form_field fs)).

(** ** Keys with brackets *)

Record key := mkKey { ivalue : Z; key_value : string; searchValue : string }.
Record recursiveData := mkData { alias : string; sliceLen : Z; keys : list key }.
Definition dataMap : Type := list recursiveData.

Definition findAlias (dm : dataMap) (ns : string) : option recursiveData :=
  find_first (λ d, bool_decide (alias d = ns)) dm.

(** Add a key to the entry of an alias, which is made when there is none. *)
Definition add_to (ke : key) (isNum : bool) (d : recursiveData) : recursiveData :=
  mkData (alias d) (if isNum && (sliceLen d <? ivalue ke)%Z then ivalue ke else sliceLen d) (keys d ++ [ke]).
Fixpoint add_key (ns : string) (ke : key) (isNum : bool) (dm : dataMap) : dataMap :=
  match dm with
  | [] => [add_to ke isNum (mkData ns 0 [])]
  | d :: dm' => if bool_decide (alias d = ns) then add_to ke isNum d :: dm' else d :: add_key ns ke isNum dm'
  end.

(** The scan of one key: where the last bracket opened, whether it is still open
    and whether all inside it are digits. *)
Record scan_state := mkScan { sc_idx : nat; sc_inside : bool; sc_isNum : bool }.

Fixpoint scan_key (k : string) (i : nat) (rest : string) (st : scan_state) (dm : dataMap) : dataMap :=
  match rest with
  | "" => dm
  | String a rest' =>
      if bool_decide (a = "["%char) then scan_key k (S i) rest' (mkScan i true true) dm
      else if bool_decide (a = "]"%char) then
        if negb (sc_inside st) then scan_key k (S i) rest' st dm
        else
          let idx := sc_idx st in
          let val := take (i - S idx) (drop (S idx) k) in
          let ke := mkKey (if sc_isNum st then (Strconv.Atoi val).1 else (-1)%Z) val (take (S i - idx) (drop idx k)) in
          scan_key k (S i) rest' (mkScan idx false (sc_isNum st)) (add_key (take idx k) ke (sc_isNum st) dm)
      else
        let isNum := if sc_inside st && negb (is_digit a) then false else sc_isNum st in
        scan_key k (S i) rest' (mkScan (sc_idx st) (sc_inside st) isNum) dm
  end.

Definition parseMapData (values : gmap string (list string)) : dataMap :=
  foldl (λ dm k, scan_key k 0 k (mkScan 0 false false) dm) [] (range values).*1.

(** ** Assignment *)

(** What runs with the errors found so far: [None] when the fuel is used up. *)
Definition D (A : Type) : Type := gmap string error → option (outcome (A * gmap string error)).

#[global] Instance D_ret : MRet D := λ A a e, Some (Ret (a, e)).
#[global] Instance D_bind : MBind D := λ A B f m e,
  match m e with
  | Some (Ret (a, e')) => f a e'
  | Some (Panic p) => Some (Panic p)
  | None => None
  end.

Definition out_of_fuel {A} : D A := λ _, None.
Definition panicD {A} (p : string) : D A := λ _, Some (Panic p).
Definition setError (ns : string) (err : error) : D unit := λ e, Some (Ret ((), <[ns := err]> e)).

Fixpoint foldD {A B} (f : A → B → D A) (a : A) (l : list B) : D A :=
  match l with
  | [] => mret a
  | x :: l' => a' ← f a x; foldD f a' l'
  end.

(** [extractType]: through non-nil pointers and interfaces.  What a pointer points
    to can be set, what an interface holds cannot. *)
Fixpoint extractType (canSet : bool) (t : gotype) (v : value) {struct v} : gotype * value * bool :=
  match v with
  | VPtr u (Some w) => extractType true u w
  | VPtr u None => (TPtr u, v, match t with TInterface => false | _ => canSet end)
  | VNil => (TInterface, VNil, canSet)
  | _ =>
      match t with
      | TInterface => (default TInterface (type_of v), v, false)
      | _ => (t, v, canSet)
      end
  end.

(** Write where [extractType] has led. *)
Fixpoint put_back (v x : value) {struct v} : value :=
  match v with
  | VPtr u (Some w) => VPtr u (Some (put_back w x))
  | _ => x
  end.

Definition uint_name (k : ikind) : string :=
  match k with KInt | KInt64 => "uint" | KInt8 => "uint8" | KInt16 => "uint16" | KInt32 => "uint32" end.
Definition int_name (k : ikind) : string :=
  match k with KInt | KInt64 => "int64" | KInt8 => "int8" | KInt16 => "int16" | KInt32 => "int32" end.
Definition float_name (k : fkind) : string := match k with KFloat32 => "float32" | KFloat64 => "float64" end.

Definition invalid (what s : string) : error := ENew ("invalid " +:+ what +:+ ": " +:+ s).

(** What a text is as a value of a type that is neither pointer, slice nor struct;
    [None] for a type the decoder does not assign. *)
Definition parse_scalar (t : gotype) (s : string) : option (error + value) :=
  match t with
  | TInterface | TString => Some (inr (VString s))
  | TUint k =>
      Some (match Strconv.ParseUint (ikind_bits k) s with
            | (z, None) => inr (VUint k z)
            | _ => inl (invalid (uint_name k) s)
            end)
  | TInt k =>
      Some (match Strconv.ParseInt (ikind_bits k) s with
            | (z, None) => inr (VInt k z)
            | _ => inl (invalid (int_name k) s)
            end)
  | TFloat k =>
      Some (match form_ParseFloat k s with Some f => inr (VFloat k f) | None => inl (invalid (float_name k) s) end)
  | TBool => Some (match parseBool s with Some b => inr (VBool b) | None => inl (invalid "bool" s) end)
  | _ => None
  end.

(** An empty text leaves a number as it is. *)
Definition needs_text (t : gotype) : bool :=
  match t with TInt _ | TUint _ | TFloat _ => true | _ => false end.

(** Slices; [[]byte] holds its bytes as a string. *)
Definition slice_list (v : value) : option (list value) :=
  match v with
  | VSlice _ l => l
  | VBytes b => map (λ a, VUint KInt8 (byte_val a)) <$> (String.list_ascii_of_string <$> b)
  | _ => None
  end.
Definition byte_of_value (v : value) : ascii :=
  match v with VUint _ z => Utf8.byte_of z | _ => Ascii.zero end.
Definition make_slice (te : gotype) (l : list value) : value :=
  match te with
  | TUint KInt8 => VBytes (Some (String.string_of_list_ascii (map byte_of_value l)))
  | _ => VSlice te (Some l)
  end.

Definition maxArraySize : Z := 1000.
Definition maxDecodeDepth : nat := 50.
Definition unaddressable : string := "reflect: reflect.Value.Set using unaddressable value".

(** The signature of [setFieldByType]: the depth, then the value's settability,
    type and content, the namespace, the index and the field's mode. *)
Definition setter : Type := nat → bool → gotype → value → string → nat → SanitizeMode → D (bool * value).

Section Body.
Context (values : gmap string (list string)) (dm : dataMap) (rec : setter).

Definition field_namespace (ns name : string) : string :=
  if bool_decide (ns = "") then name else ns +:+ "." +:+ name.

Definition set_struct_field (depth : nat) (vset : bool) (fs : list sfield) (ns : string) (f : cachedField)
    (st : bool * list value) : D (bool * list value) :=
  let '(set, vs) := st in
  match fs !! cf_idx f, vs !! cf_idx f with
  | Some fl, Some x =>
      '(s, x') ← rec depth (vset && sf_exported fl) (sf_type fl) x ns 0 (cf_sanitize f);
      mret (set || s, <[cf_idx f := x']> vs)
  | _, _ => panicD "reflect: Field index out of range"
  end.

(** An embedded field is tried with the names of its struct first. *)
Definition traverse_field (depth : nat) (vset : bool) (fs : list sfield) (ns : string)
    (st : bool * list value) (f : cachedField) : D (bool * list value) :=
  st ← (if cf_anonymous f then set_struct_field depth vset fs ns f st else mret st);
  set_struct_field depth vset fs (field_namespace ns (cf_name f)) f st.

Definition traverseStruct (depth : nat) (vset : bool) (fs : list sfield) (vs : list value) (ns : string)
    : D (bool * list value) :=
  if (maxDecodeDepth <? depth)%nat then
    setError ns (ENew "maximum recursion depth exceeded");; mret (false, vs)
  else foldD (traverse_field (S depth) vset fs ns) (false, vs) (parseStruct fs).

(** The values of a repeated key, one element each. *)
Definition set_repeated (depth : nat) (te : gotype) (ns : string) (mode : SanitizeMode) (n : nat)
    : D (bool * list value) :=
  foldD (λ st i,
    '(s, x) ← rec depth true te (zero_value te) ns i mode;
    mret (st.1 || s, st.2 ++ [x])) (false, []) (seq 0 n).

(** The elements named by brackets. *)
Definition set_indexed (depth : nat) (te : gotype) (ns : string) (mode : SanitizeMode) (ks : list key)
    (st : bool * list value) : D (bool * list value) :=
  foldD (λ st kv,
    if (ivalue kv =? -1)%Z || (Z.of_nat (length st.2) <=? ivalue kv)%Z then mret st
    else
      '(s, x) ← rec depth true te (zero_value te) (ns +:+ searchValue kv) 0 mode;
      mret (if s : bool then (true, <[Z.to_nat (ivalue kv) := x]> st.2) else st)) st ks.

(** A slice that holds [sl] elements at least. *)
Definition grow (te : gotype) (v : value) (sl : Z) : D (list value) :=
  match slice_list v with
  | None =>
      if (sl <? 0)%Z then panicD "reflect.MakeSlice: negative len" else mret (replicate (Z.to_nat sl) (zero_value te))
  | Some l => mret (l ++ replicate (Z.to_nat sl - length l) (zero_value te))
  end.

Definition set_slice (depth : nat) (vset : bool) (te : gotype) (v : value) (ns : string) (mode : SanitizeMode)
    : D (bool * value) :=
  '(set, v) ←
    match values !! ns with
    | Some ((_ :: _) as arr) =>
        '(s, l) ← set_repeated depth te ns mode (length arr);
        if vset : bool then mret (s, make_slice te l) else panicD unaddressable
    | _ => mret (false, v)
    end;
  match findAlias dm ns with
  | None => mret (set, v)
  | Some rd =>
      let sl := wrap64 (sliceLen rd + 1) in
      if (maxArraySize <? sl)%Z then
        setError ns (ENew ("array size " +:+ Strconv.FormatInt sl +:+ " exceeds max " +:+ Strconv.FormatInt maxArraySize));;
        mret (set, v)
      else
        varr ← grow te v sl;
        '(set, varr) ← set_indexed depth te ns mode (keys rd) (set, varr);
        if negb set then mret (false, v)
        else if vset then mret (true, make_slice te varr) else panicD unaddressable
  end.

Definition set_scalar (vset : bool) (vt : gotype) (cur : value) (ns : string) (idx : nat) (mode : SanitizeMode)
    : D (bool * value) :=
  match values !! ns with
  | None => mret (false, cur)
  | Some arr =>
      let formValue := match arr !! idx with Some s => cleanValue s mode | None => "" end in
      if (idx =? length arr)%nat || (needs_text vt && bool_decide (formValue = "")) then mret (false, cur)
      else match parse_scalar vt formValue with
           | None => mret (false, cur)
           | Some (inl e) => setError ns e;; mret (false, cur)
           | Some (inr x) => if vset then mret (true, put_back cur x) else panicD unaddressable
           end
  end.

Definition set_time (vset : bool) (cur : value) (ns : string) (idx : nat) (mode : SanitizeMode) : D (bool * value) :=
  match values !! ns with
  | None => mret (false, cur)
  | Some arr =>
      let formValue := match arr !! idx with Some s => cleanValue s mode | None => "" end in
      if bool_decide (formValue = "") then mret (false, cur)
      else match parse_time formValue with
           | inl e => setError ns e;; mret (false, cur)
           | inr t => if vset then mret (true, put_back cur (VTime t)) else panicD unaddressable
           end
  end.

(** [kind] is [Ptr]: there is a nil pointer at the end of the chain. *)
Definition set_pointer (depth : nat) (t : gotype) (cur : value) (ns : string) (idx : nat) (mode : SanitizeMode)
    : D (bool * value) :=
  match t, cur with
  | TPtr _, VPtr u (Some w) =>
      '(s, w') ← rec depth true u w ns idx mode; mret (s, VPtr u (Some w'))
  | TPtr _, VPtr u None =>
      '(s, w') ← rec depth true u (zero_value u) ns idx mode;
      mret (if s : bool then (true, VPtr u (Some w')) else (false, cur))
  | _, _ => mret (false, cur)
  end.

Definition set_body : setter := λ depth canSet t cur ns idx mode,
  if negb canSet then mret (false, cur)
  else
    let '(vt, v, vset) := extractType canSet t cur in
    match vt, v with
    | TPtr _, _ => set_pointer depth t cur ns idx mode
    | TSlice te, _ => '(s, v') ← set_slice depth vset te v ns mode; mret (s, put_back cur v')
    | TTime, _ => set_time vset cur ns idx mode
    | TStruct _ _ _, VStruct n tn fs vs =>
        '(s, vs') ← traverseStruct depth vset fs vs ns; mret (s, put_back cur (VStruct n tn fs vs'))
    | _, _ => set_scalar vset vt cur ns idx mode
    end.
End Body.

Fixpoint setFieldByType (fuel : nat) (values : gmap string (list string)) (dm : dataMap) : setter :=
  match fuel with
  | O => λ _ _ _ _ _ _ _, out_of_fuel
  | S fuel => set_body values dm (setFieldByType fuel values dm)
  end.

(** ** Decode *)

Inductive decode_error :=
  | InvalidDecoderError
  | DecodeErrors (errs : gmap string error).

Definition Decode (fuel : nat) (v : value) (values : gmap string (list string))
    : option (outcome (option decode_error * value)) :=
  match v with
  | VPtr t (Some w) =>
      let dm := parseMapData values in
      let rec := setFieldByType fuel values dm in
      let run :=
        match t, w with
        | TStruct _ _ _, VStruct n tn fs vs =>
            '(_, vs') ← traverseStruct rec 0 true fs vs ""; mret (VPtr t (Some (VStruct n tn fs vs')))
        | _, _ => '(_, w') ← rec 0 true t w "" 0 SanitizeDefault; mret (VPtr t (Some w'))
        end in
      match run ∅ with
      | None => None
      | Some (Panic p) => Some (Panic p)
      | Some (Ret (v', errs)) => Some (Ret (if bool_decide (errs = ∅) then None else Some (DecodeErrors errs), v'))
      end
  | _ => Some (Ret (Some InvalidDecoderError, v))
  end.
End Decoder.
