(* ===== verification/DecoderSafety.v ===== *)
(** * Properties of the form decoder *)

From S2P Require Import Prelude GoStrings GoValue HttpErr Decoder.
From Stdlib Require Import Ascii.
Import Strings.

(** ** Running a decoder computation *)

(** [m] does not run out of fuel, and what it returns, if it does not panic,
    satisfies [Q]. *)
Definition wpD {A} (m : D A) (Q : A → Prop) : Prop :=
  ∀ e, match m e with
       | None => False
       | Some (Panic _) => True
       | Some (Ret (a, _)) => Q a
       end.

Lemma wp_ret {A} (a : A) (Q : A → Prop) : Q a → wpD (mret a) Q.
Proof. by intros Hq e. Qed.
Lemma wp_panic {A} p (Q : A → Prop) : wpD (panicD p) Q.
Proof. by intros e. Qed.
Lemma wp_error ns err (Q : unit → Prop) : Q () → wpD (setError ns err) Q.
Proof. by intros Hq e. Qed.
Lemma wp_bind {A B} (m : D A) (f : A → D B) (P : A → Prop) (Q : B → Prop) :
  wpD m P → (∀ a, P a → wpD (f a) Q) → wpD (m ≫= f) Q.
Proof.
  intros Hm Hf e. specialize (Hm e). unfold mbind, D_bind. destruct (m e) as [[[a e']|p]|]; [|done..].
  by apply Hf.
Qed.
Lemma wp_mono {A} (m : D A) (P Q : A → Prop) : (∀ a, P a → Q a) → wpD m P → wpD m Q.
Proof. intros HPQ Hm e. specialize (Hm e). destruct (m e) as [[[a e']|p]|]; auto. Qed.
Lemma wp_fold {A B} (f : A → B → D A) (I : A → Prop) (l : list B) a :
  I a → (∀ a x, x ∈ l → I a → wpD (f a x) I) → wpD (foldD f a l) I.
Proof.
  revert a. induction l as [|x l IH]; intros a Ha Hf; [by apply wp_ret|]. simpl.
  eapply wp_bind; [apply Hf; [by left|done]|]. intros a' Ha'. apply IH; [done|]. intros b y Hy. apply Hf. by right.
Qed.

Create HintDb decoder.
#[local] Hint Resolve wp_ret wp_panic wp_error : decoder.

(** ** Depth *)

(** How deep a value and its dynamic type are nested. *)
Fixpoint vdepth (v : value) : nat :=
  match v with
  | VPtr u None => S (type_depth u)
  | VPtr u (Some w) => S (Nat.max (type_depth u) (vdepth w))
  | VSlice u _ | VMap u _ => S (type_depth u)
  | VBytes _ => 2
  | VStruct _ _ fs vs =>
      S (Nat.max (foldr (λ f n, Nat.max (type_depth (sf_type f)) n) 0 fs) (foldr (λ x n, Nat.max (vdepth x) n) 0 vs))
  | _ => 1
  end.

Definition nesting (t : gotype) (v : value) : nat := Nat.max (type_depth t) (vdepth v).

Lemma foldr_max_le {A} (g : A → nat) l x : x ∈ l → g x ≤ foldr (λ y n, Nat.max (g y) n) 0 l.
Proof. induction 1; simpl; lia. Qed.
Lemma foldr_max_lub {A} (g : A → nat) l n : (∀ x, x ∈ l → g x ≤ n) → foldr (λ y m, Nat.max (g y) m) 0 l ≤ n.
Proof.
  induction l as [|x l IH]; intros Hl; simpl; [lia|]. pose proof (Hl x ltac:(by left)).
  assert (∀ y, y ∈ l → g y ≤ n) as Hl' by (intros y Hy; apply Hl; by right). specialize (IH Hl'). lia.
Qed.

Lemma vdepth_zero t : vdepth (zero_value t) ≤ type_depth t.
Proof.
  induction t as [| | | | | | | | | |n tn fs IH|] using gotype_ind'; simpl; try lia.
  - destruct t as [| |[]| | | | | | | | |]; simpl in *; lia.
  - assert (foldr (λ x m, Nat.max (vdepth x) m) 0 (map (λ f, zero_value (sf_type f)) fs) ≤
      foldr (λ f m, Nat.max (type_depth (sf_type f)) m) 0 fs) as Hle; [|lia].
    induction IH as [|f fs Hf Hfs IH]; simpl; lia.
Qed.

Lemma zero_typed t : has_type t (zero_value t) = true.
Proof.
  induction t as [| | | | | | | |t IHt| |n tn fs IH|] using gotype_ind'; cbn -[type_eqb]; try done;
    rewrite ?type_eqb_refl, ?bool_decide_true by done; try done.
  - by destruct k.
  - by destruct k.
  - destruct t as [| |[]| | | | | | | | |]; cbn -[type_eqb]; by rewrite ?type_eqb_refl.
  - cbn [andb]. induction IH as [|f fs Hf Hfs IH]; [done|]. simpl. rewrite Hf. apply IH.
Qed.

Lemma type_of_depth v t : type_of v = Some t → type_depth t ≤ vdepth v.
Proof.
  destruct v; simpl; intros [= <-]; simpl; try lia. destruct v; simpl; lia.
Qed.

(** Induction on the pointers of a value. *)
Section PtrInd.
Variable P : value → Prop.
Hypothesis HPtr : ∀ u w, P w → P (VPtr u (Some w)).
Hypothesis HRest : ∀ v, (∀ u w, v ≠ VPtr u (Some w)) → P v.

Fixpoint value_ptr_ind (v : value) : P v.
Proof. destruct v as [| | | | | | | |u [w|]| | | |]; try (by apply HRest). apply HPtr, value_ptr_ind. Defined.
End PtrInd.

(** Where [extractType] ends when the value is not a pointer to something. *)
Lemma extract_end c t v :
  (∀ u w, v ≠ VPtr u (Some w)) →
  ∃ s, extractType c t v =
    (match v with
     | VPtr u None => TPtr u
     | VNil => TInterface
     | _ => match t with TInterface => default TInterface (type_of v) | _ => t end
     end, v, s).
Proof.
  intros Hv. destruct v as [| | | | | | | |u [w|]| | | |]; try (destruct t; by eexists). by destruct (Hv u w).
Qed.

Lemma extract_depth v c t vt w s : extractType c t v = (vt, w, s) → nesting vt w ≤ nesting t v.
Proof.
  revert c t. induction v as [u v IH|v Hv] using value_ptr_ind; intros c t He.
  - simpl in He. apply IH in He. unfold nesting in *. simpl. lia.
  - destruct (extract_end c t v Hv) as [s' Hs]. rewrite Hs in He. injection He as <- <- <-. unfold nesting.
    assert (∀ t', type_of v = Some t' → type_depth t' ≤ vdepth v) as Ht by apply type_of_depth.
    destruct v as [| | | | | | | |u [x|]| | | |]; try (by destruct (Hv u x)); simpl in *; destruct t; simpl in *; lia.
Qed.

(** Writing back keeps the type when the new content has the type of the old. *)
Lemma put_back_typed v c t vt w s x :
  extractType c t v = (vt, w, s) → has_type t v = true →
  (has_type vt w = true → has_type vt x = true) → has_type t (put_back v x) = true.
Proof.
  revert c t. induction v as [u v IH|v Hv] using value_ptr_ind; intros c t He Ht Hx.
  - destruct t; cbn -[type_eqb] in *; try done. apply andb_true_iff in Ht as [Hu Ht]. rewrite Hu. cbn [andb].
    apply type_eqb_eq in Hu as ->. by eapply IH.
  - destruct (extract_end c t v Hv) as [s' Hs]. rewrite Hs in He. injection He as <- <- <-.
    destruct v as [| | | | | | | |u [y|]| | | |]; try (by destruct (Hv u y));
      destruct t as [| | | | | | |t1|t1|t1| |]; try done; cbn [put_back]; try (by apply Hx);
      try (cbn in Ht; discriminate Ht); try (destruct t1 as [| |[]| | | | | | | | |]; discriminate Ht).
    cbn -[type_eqb] in Ht. apply andb_true_iff in Ht as [Hu _]. apply type_eqb_eq in Hu as ->. apply Hx.
    cbn -[type_eqb]. by rewrite type_eqb_refl.
Qed.

Lemma put_back_depth v c t vt w s x :
  extractType c t v = (vt, w, s) → vdepth x ≤ nesting vt w → vdepth (put_back v x) ≤ nesting t v.
Proof.
  revert c t. induction v as [u v IH|v Hv] using value_ptr_ind; intros c t He Hx.
  - simpl in *. specialize (IH _ _ He Hx). unfold nesting in *. simpl. lia.
  - pose proof (extract_depth _ _ _ _ _ _ He) as Hd. 
    destruct v as [| | | | | | | |u [y|]| | | |]; try (by destruct (Hv u y)); simpl; lia.
Qed.

Lemma put_back_extracted v c t vt w s : extractType c t v = (vt, w, s) → put_back v w = v.
Proof.
  revert c t. induction v as [u v IH|v Hv] using value_ptr_ind; intros c t He.
  - simpl in *. by rewrite (IH _ _ He).
  - destruct (extract_end c t v Hv) as [s' Hs]. rewrite Hs in He. injection He as <- <- <-.
    destruct v as [| | | | | | | |u [y|]| | | |]; try done. by destruct (Hv u y).
Qed.

(** ** Well-typed values *)

Definition typed (t : gotype) (v : value) : Prop := has_type t v = true.

Lemma struct_typed n1 tn1 fs1 n tn fs vs :
  typed (TStruct n1 tn1 fs1) (VStruct n tn fs vs) ↔
  TStruct n1 tn1 fs1 = TStruct n tn fs ∧ Forall2 (λ f x, typed (sf_type f) x) fs vs.
Proof.
  unfold typed. cbn -[type_eqb]. rewrite andb_true_iff.
  assert (∀ gs ws, ((fix go (fs : list sfield) (vs : list value) : bool :=
         match fs, vs with
         | [], [] => true
         | f :: fs, x :: vs => has_type (sf_type f) x && go fs vs
         | _, _ => false
         end) gs ws = true) ↔ Forall2 (λ f x, has_type (sf_type f) x = true) gs ws) as Hgo.
  { induction gs as [|g gs IH]; intros [|x ws].
    - split; [constructor|done].
    - split; [done|]. intros Hf. inversion Hf.
    - split; [done|]. intros Hf. inversion Hf.
    - rewrite andb_true_iff, IH. split; [intros []; by constructor|]. intros Hf. by inversion Hf. }
  rewrite Hgo. split.
  - intros [He Hf]. apply type_eqb_eq in He. split; [done|]. by injection He as -> -> ->.
  - intros [He Hf]. injection He as -> -> ->. split; [apply type_eqb_refl|done].
Qed.

Lemma ptr_typed t u w : typed (TPtr t) (VPtr u (Some w)) ↔ t = u ∧ typed t w.
Proof.
  unfold typed. cbn -[type_eqb]. rewrite andb_true_iff. split.
  - intros [He Hw]. apply type_eqb_eq in He as ->. done.
  - intros [-> Hw]. by rewrite type_eqb_refl.
Qed.

Lemma forallb_typed t l : forallb (has_type t) l = true ↔ Forall (typed t) l.
Proof. induction l as [|x l IH]; simpl; [done|]. rewrite andb_true_iff, IH, Forall_cons. done. Qed.

Lemma parse_digits_nonneg s acc v : (0 <= acc)%Z → Strconv.parse_digits acc s = Some v → (0 <= v)%Z.
Proof.
  revert acc. induction s as [|a s IH]; intros acc Ha; simpl; [by intros [= <-]|].
  unfold Strconv.digit_val. destruct (is_digit a) eqn:Hd; [|done]. apply IH.
  unfold is_digit, in_range in Hd. to_prop. lia.
Qed.

Lemma ParseUint_range bits s z : (0 <= bits)%Z → Strconv.ParseUint bits s = (z, None) → (0 <= z < 2 ^ bits)%Z.
Proof.
  intros Hb. unfold Strconv.ParseUint. destruct s as [|a s]; [done|].
  destruct (Strconv.parse_digits 0 (String a s)) as [v|] eqn:E; [|done].
  destruct (Z.leb_spec v (2 ^ bits - 1)); intros [= <-].
  apply parse_digits_nonneg in E; lia.
Qed.

Lemma ParseInt_range bits s z :
  (0 < bits)%Z → Strconv.ParseInt bits s = (z, None) → (- 2 ^ (bits - 1) <= z < 2 ^ (bits - 1))%Z.
Proof.
  intros Hb. unfold Strconv.ParseInt.
  destruct (match s with String "-" r => (true, r) | String "+" r => (false, r) | _ => (false, s) end) as [neg body].
  destruct body as [|a body]; [done|].
  destruct (Strconv.parse_digits 0 (String a body)) as [v|] eqn:E; [|done].
  apply parse_digits_nonneg in E; [|lia]. pose proof (Z.pow_pos_nonneg 2 (bits - 1)).
  destruct neg; [destruct (Z.leb_spec v (2 ^ (bits - 1)))|destruct (Z.leb_spec v (2 ^ (bits - 1) - 1))];
    intros [= <-]; lia.
Qed.

Section Typed.
Context `{Unicode} `{MapOrder} `{FormText} `{FieldSort}.

Lemma parse_scalar_typed t s x : parse_scalar t s = Some (inr x) → typed t x ∧ vdepth x = 1.
Proof.
  unfold typed. destruct t; cbn [parse_scalar]; try done.
  - destruct (parseBool s) as [b|]; [by intros [= <-]|done].
  - destruct (Strconv.ParseInt (ikind_bits k) s) as [z []] eqn:E; intros [= <-]; simpl.
    apply ParseInt_range in E; [|by destruct k]. rewrite bool_decide_true by done. split; [|done].
    rewrite !andb_true_iff, Z.leb_le, Z.ltb_lt. by destruct E.
  - destruct (Strconv.ParseUint (ikind_bits k) s) as [z []] eqn:E; intros [= <-]; simpl.
    apply ParseUint_range in E; [|by destruct k]. rewrite bool_decide_true by done. split; [|done].
    rewrite !andb_true_iff, Z.leb_le, Z.ltb_lt. by destruct E.
  - destruct (form_ParseFloat k s) as [f|]; [|done]. intros [= <-]. simpl. by rewrite bool_decide_true.
  - by intros [= <-].
  - by intros [= <-].
Qed.

Lemma slice_list_typed te v l : typed (TSlice te) v → slice_list v = Some l → Forall (typed te) l.
Proof.
  unfold typed. destruct v as [| | | | | |b| | |u [l0|]| | |]; try done.
  - destruct te as [| |[]| | | | | | | | |]; try done. intros _. destruct b as [b|]; [|done]. intros [= <-].
    apply Forall_map, Forall_forall. intros a _. unfold typed. simpl.
    unfold byte_val. pose proof (N_ascii_bounded a). apply andb_true_iff. split; [apply Z.leb_le|apply Z.ltb_lt]; lia.
  - intros Ht [= <-].
    assert (type_eqb te u && forallb (has_type te) l0 = true) as Ht' by (destruct te as [| |[]| | | | | | | | |]; exact Ht).
    apply andb_true_iff in Ht' as [_ Ht']. by apply forallb_typed.
Qed.

Lemma make_slice_typed te l : Forall (typed te) l → typed (TSlice te) (make_slice te l).
Proof.
  intros Hl. unfold typed.
  assert (type_eqb te te && forallb (has_type te) l = true) as Ht.
  { rewrite type_eqb_refl. by apply forallb_typed. }
  by destruct te as [| |[]| | | | | | | | |].
Qed.

Lemma make_slice_depth te l : vdepth (make_slice te l) ≤ type_depth (TSlice te).
Proof. destruct te as [| |[]| | | | | | | | |]; simpl; lia. Qed.

(** ** One step of the recursion *)

(** The result is nested no deeper than the value, and has its type. *)
Definition good (t : gotype) (v : value) (r : bool * value) : Prop :=
  vdepth r.2 ≤ nesting t v ∧ (typed t v → typed t r.2).

Lemma good_same t v b : good t v (b, v).
Proof. split; simpl; [unfold nesting; lia|done]. Qed.

Lemma good_put t v c vt w s x b :
  extractType c t v = (vt, w, s) → vdepth x ≤ nesting vt w → (typed vt w → typed vt x) → good t v (b, put_back v x).
Proof.
  intros He Hd Ht. split; simpl.
  - by eapply put_back_depth.
  - intros Hv. by eapply put_back_typed.
Qed.

Section Step.
Context (values : gmap string (list string)) (dm : dataMap) (rec : setter) (n : nat).
Hypothesis Hrec : ∀ depth c t v ns idx mode, nesting t v < n → wpD (rec depth c t v ns idx mode) (good t v).

Lemma rec_zero depth c t ns idx mode :
  type_depth t < n → wpD (rec depth c t (zero_value t) ns idx mode) (λ r, typed t r.2).
Proof.
  intros Hn. eapply wp_mono, Hrec.
  - intros [b x] [_ Ht]. apply Ht, zero_typed.
  - unfold nesting. pose proof (vdepth_zero t). lia.
Qed.

Lemma scalar_good vset t cur c vt w s ns idx mode :
  extractType c t cur = (vt, w, s) → wpD (set_scalar values vset vt cur ns idx mode) (good t cur).
Proof.
  intros He. unfold set_scalar. destruct (values !! ns) as [arr|]; [|apply wp_ret, good_same].
  destruct (_ || _); [apply wp_ret, good_same|].
  destruct (parse_scalar vt _) as [[err|x]|] eqn:E; [| |apply wp_ret, good_same].
  - eapply wp_bind; [by apply (wp_error _ _ (λ _, True))|]. intros _ _. apply wp_ret, good_same.
  - destruct vset; [|apply wp_panic]. apply wp_ret. apply parse_scalar_typed in E as [Ht Hd].
    eapply good_put; [done| |done]. rewrite Hd. unfold nesting. destruct vt; simpl; lia.
Qed.

Lemma time_good vset t cur c w s ns idx mode :
  extractType c t cur = (TTime, w, s) → wpD (set_time values vset cur ns idx mode) (good t cur).
Proof.
  intros He. unfold set_time. destruct (values !! ns) as [arr|]; [|apply wp_ret, good_same].
  case_bool_decide; [apply wp_ret, good_same|]. destruct (parse_time _) as [err|x].
  - eapply wp_bind; [by apply (wp_error _ _ (λ _, True))|]. intros _ _. apply wp_ret, good_same.
  - destruct vset; [|apply wp_panic]. apply wp_ret. eapply good_put; [done| |done]. unfold nesting. simpl. lia.
Qed.

Lemma pointer_good depth t cur ns idx mode :
  nesting t cur < S n → wpD (set_pointer rec depth t cur ns idx mode) (good t cur).
Proof.
  intros Hn. unfold set_pointer.
  destruct t as [| | | | | | |t0| | | |]; try (apply wp_ret, good_same).
  destruct cur as [| | | | | | | |u [w|]| | | |]; try (apply wp_ret, good_same); unfold nesting in Hn; simpl in Hn.
  - eapply wp_bind; [apply Hrec; unfold nesting; lia|]. intros [b w'] [Hd Ht]. apply wp_ret. split; simpl in *.
    + unfold nesting in *. simpl. lia.
    + unfold typed in *. cbn -[type_eqb]. rewrite !andb_true_iff. intros [Hu Hw]. split; [done|].
      apply type_eqb_eq in Hu as ->. by apply Ht.
  - eapply wp_bind; [apply Hrec; unfold nesting; pose proof (vdepth_zero u); lia|]. intros [b w'] [Hd Ht]. apply wp_ret.
    destruct b; [|apply good_same]. split; simpl in *.
    + unfold nesting in *. simpl. pose proof (vdepth_zero u). lia.
    + unfold typed in *. cbn -[type_eqb]. rewrite !andb_true_iff. intros [Hu _]. split; [done|].
      apply type_eqb_eq in Hu as ->. apply Ht, zero_typed.
Qed.

Lemma repeated_good depth te ns mode k :
  type_depth te < n → wpD (set_repeated rec depth te ns mode k) (λ r, length r.2 = k ∧ Forall (typed te) r.2).
Proof.
  intros Hn. unfold set_repeated.
  assert (∀ l st, Forall (typed te) st.2 →
    wpD (foldD (λ st i, '(s, x) ← rec depth true te (zero_value te) ns i mode; mret (st.1 || s, st.2 ++ [x])) st l)
      (λ r, length r.2 = length st.2 + length l ∧ Forall (typed te) r.2)) as Hgen.
  { induction l as [|i l IH]; intros st Hst; simpl; [apply wp_ret; split; [lia|done]|].
    eapply wp_bind; [eapply wp_bind; [by apply rec_zero|]|].
    - intros [b x] Hx. apply (wp_ret _ (λ st', length st'.2 = S (length st.2) ∧ Forall (typed te) st'.2)). simpl in *.
      rewrite length_app. simpl. split; [lia|]. apply Forall_app. split; [done|by constructor].
    - intros st' [Hl Ht]. eapply wp_mono, IH, Ht. intros r [Hr ?]. split; [lia|done]. }
  eapply wp_mono, Hgen; [|constructor]. intros r [Hr ?]. split; [|done]. by rewrite Hr, length_seq.
Qed.

Lemma indexed_good depth te ns mode ks (P : Prop) st :
  type_depth te < n → (P → Forall (typed te) st.2) →
  wpD (set_indexed rec depth te ns mode ks st) (λ r, length r.2 = length st.2 ∧ (P → Forall (typed te) r.2)).
Proof.
  intros Hn Hst. unfold set_indexed.
  apply (wp_fold _ (λ r, length r.2 = length st.2 ∧ (P → Forall (typed te) r.2))); [done|].
  intros [b l] kv _ [Hl Ht]. simpl in *. destruct (_ || _); [by apply wp_ret|].
  eapply wp_bind; [by apply rec_zero|]. intros [s x] Hx. apply wp_ret. destruct s; [|done]. simpl.
  rewrite length_insert. split; [done|]. intros HP. apply Forall_insert; [by apply Ht|done].
Qed.

Lemma slice_good depth vset te v ns mode :
  type_depth te < n →
  wpD (set_slice values dm rec depth vset te v ns mode)
    (λ r, vdepth r.2 ≤ nesting (TSlice te) v ∧ (typed (TSlice te) v → typed (TSlice te) r.2)).
Proof.
  intros Hn. unfold set_slice.
  assert (∀ l, vdepth (make_slice te l) ≤ nesting (TSlice te) v) as Hms.
  { intros l. pose proof (make_slice_depth te l). unfold nesting. lia. }
  apply wp_bind with (P := λ r : bool * value, vdepth r.2 ≤ nesting (TSlice te) v ∧
    (typed (TSlice te) v → typed (TSlice te) r.2)).
  { assert (wpD (mret (false, v)) (λ r : bool * value, vdepth r.2 ≤ nesting (TSlice te) v ∧
      (typed (TSlice te) v → typed (TSlice te) r.2))) as Hsame.
    { apply wp_ret. split; [unfold nesting; simpl; lia|done]. }
    destruct (values !! ns) as [[|a arr]|]; [done| |done].
    eapply wp_bind; [by apply repeated_good|]. intros [b l] [_ Hl]. destruct vset; [|apply wp_panic].
    apply wp_ret. split; [apply Hms|]. intros _. by apply make_slice_typed. }
  intros [set v1] [Hd1 Ht1]. destruct (findAlias dm ns) as [rd|]; [|by apply wp_ret].
  destruct (_ <? _)%Z; [eapply wp_bind; [by apply (wp_error _ _ (λ _, True))|]; intros _ _; by apply wp_ret|].
  apply wp_bind with (P := λ l, typed (TSlice te) v → Forall (typed te) l).
  { unfold grow. assert (∀ k, Forall (typed te) (replicate k (zero_value te))) as Hz.
    { intros k. apply Forall_replicate, zero_typed. }
    destruct (slice_list v1) as [l|] eqn:El.
    - apply wp_ret. intros Hv. apply Forall_app. split; [|apply Hz]. eapply slice_list_typed, El. by apply Ht1.
    - destruct (_ <? 0)%Z; [apply wp_panic|]. apply wp_ret. intros _. apply Hz. }
  intros varr Hvarr. eapply wp_bind; [by apply (indexed_good depth te ns mode (keys rd) (typed (TSlice te) v))|].
  intros [s l] [_ Hl]. destruct s; simpl; [|by apply wp_ret]. destruct vset; [|apply wp_panic].
  apply wp_ret. split; [apply Hms|]. intros Hv. by apply make_slice_typed, Hl.
Qed.

(** The values of a struct while its fields are assigned. *)
Definition fields_ok (fs : list sfield) (bound : nat) (P : Prop) (vs : list value) : Prop :=
  (∀ x, x ∈ vs → vdepth x ≤ bound) ∧ (P → Forall2 (λ f x, typed (sf_type f) x) fs vs).

Lemma struct_field_good depth vset fs ns f bound P st :
  bound < n → (∀ g, g ∈ fs → type_depth (sf_type g) ≤ bound) → fields_ok fs bound P st.2 →
  wpD (set_struct_field rec depth vset fs ns f st) (λ r, fields_ok fs bound P r.2).
Proof.
  intros Hn Hfs [Hd Ht]. unfold set_struct_field. destruct st as [b vs]. simpl in *.
  destruct (fs !! cf_idx f) as [fl|] eqn:Ef; [|apply wp_panic].
  destruct (vs !! cf_idx f) as [x|] eqn:Ex; [|apply wp_panic].
  assert (nesting (sf_type fl) x ≤ bound) as Hnest.
  { apply Nat.max_lub; [apply Hfs|apply Hd]; by eapply list_elem_of_lookup_2. }
  eapply wp_bind; [apply Hrec; lia|]. intros [s x'] [Hdx Htx]. apply wp_ret. simpl in *. split.
  - intros y Hy. apply list_elem_of_lookup in Hy as [j Hj]. destruct (decide (j = cf_idx f)) as [->|Hne].
    + rewrite list_lookup_insert_eq in Hj by (by eapply lookup_lt_Some). injection Hj as <-. lia.
    + rewrite list_lookup_insert_ne in Hj by done. apply Hd. by eapply list_elem_of_lookup_2.
  - intros HP. specialize (Ht HP). rewrite <-(list_insert_id fs (cf_idx f) fl Ef).
    apply Forall2_insert; [done|]. apply Htx. by eapply (Forall2_lookup_lr (λ f x, typed (sf_type f) x)).
Qed.

Lemma traverse_good depth vset fs vs ns bound P :
  bound < n → (∀ g, g ∈ fs → type_depth (sf_type g) ≤ bound) → fields_ok fs bound P vs →
  wpD (traverseStruct rec depth vset fs vs ns) (λ r, fields_ok fs bound P r.2).
Proof.
  intros Hn Hfs Hvs. unfold traverseStruct. destruct (_ <? _)%nat.
  { eapply wp_bind; [by apply (wp_error _ _ (λ _, True))|]. intros _ _. by apply wp_ret. }
  apply (wp_fold _ (λ r, fields_ok fs bound P r.2)); [done|]. intros st f _ Hst. unfold traverse_field.
  apply wp_bind with (P := λ r, fields_ok fs bound P r.2).
  - destruct (cf_anonymous f); [by apply struct_field_good|by apply wp_ret].
  - intros st' Hst'. by apply struct_field_good.
Qed.

Lemma struct_good depth vset nm tn fs vs ns n1 tn1 fs1 :
  nesting (TStruct n1 tn1 fs1) (VStruct nm tn fs vs) < S n →
  wpD (traverseStruct rec depth vset fs vs ns)
    (λ r, vdepth (VStruct nm tn fs r.2) ≤ nesting (TStruct n1 tn1 fs1) (VStruct nm tn fs vs) ∧
       (typed (TStruct n1 tn1 fs1) (VStruct nm tn fs vs) → typed (TStruct n1 tn1 fs1) (VStruct nm tn fs r.2))).
Proof.
  intros Hn. unfold nesting in Hn. simpl in Hn.
  set (bound := Nat.max (foldr (λ f n, Nat.max (type_depth (sf_type f)) n) 0 fs)
    (foldr (λ x n, Nat.max (vdepth x) n) 0 vs)) in *.
  eapply wp_mono; [|apply (traverse_good _ _ _ _ _ bound (typed (TStruct n1 tn1 fs1) (VStruct nm tn fs vs)))].
  - intros [b vs'] [Hd Ht]. simpl in *. split.
    + pose proof (foldr_max_lub vdepth vs' bound Hd). unfold nesting. simpl. lia.
    + intros Hv. apply struct_typed. split; [by apply struct_typed in Hv as [? _]|by apply Ht].
  - lia.
  - intros g Hg. pose proof (foldr_max_le (λ f, type_depth (sf_type f)) fs g Hg). simpl in *. lia.
  - split; [|intros Hv; by apply struct_typed in Hv as [_ ?]].
    intros x Hx. pose proof (foldr_max_le vdepth vs x Hx). lia.
Qed.

Lemma body_good depth c t cur ns idx mode :
  nesting t cur < S n → wpD (set_body values dm rec depth c t cur ns idx mode) (good t cur).
Proof.
  intros Hn. unfold set_body. destruct (negb c); [apply wp_ret, good_same|].
  destruct (extractType c t cur) as [[vt v] vset] eqn:He. pose proof (extract_depth _ _ _ _ _ _ He) as Hd.
  destruct vt as [| | | | | | |t0|te| |n1 tn1 fs1|]; try (by eapply scalar_good).
  - by eapply time_good.
  - by apply pointer_good.
  - eapply wp_bind; [apply slice_good; unfold nesting in *; simpl in *; lia|]. intros [s v'] [Hd' Ht']. apply wp_ret.
    by eapply good_put.
  - destruct v as [| | | | | | | | | | |nm tn fs vs|]; try (by eapply scalar_good).
    eapply wp_bind; [apply (struct_good _ _ nm tn fs vs _ n1 tn1 fs1); lia|]. intros [s vs'] [Hd' Ht']. apply wp_ret.
    by eapply good_put.
Qed.
End Step.

Lemma setFieldByType_good fuel values dm depth c t v ns idx mode :
  nesting t v < fuel → wpD (setFieldByType fuel values dm depth c t v ns idx mode) (good t v).
Proof.
  revert depth c t v ns idx mode. induction fuel as [|fuel IH]; intros depth c t v ns idx mode Hn; [lia|].
  simpl. apply (body_good _ _ _ fuel); [done|lia].
Qed.

(** ** Decode *)

(** An amount of fuel that suffices for a value. *)
Definition enough_fuel (v : value) : nat := S (vdepth v).

Lemma Decode_good fuel v values :
  enough_fuel v ≤ fuel →
  ∃ r, Decode fuel v values = Some r ∧
    ∀ err v' t, r = Ret (err, v') → typed t v → typed t v'.
Proof.
  intros Hf. unfold enough_fuel in Hf.
  destruct v as [| | | | | | | |t [w|]| | | |]; try (eexists; split; [done|]; by intros err v' t' [= _ <-]).
  simpl in Hf. unfold Decode.
  match goal with |- context [match ?m ∅ with _ => _ end] =>
    assert (wpD m (λ v', ∃ w', v' = VPtr t (Some w') ∧ (typed t w → typed t w'))) as Hw; [|specialize (Hw ∅)] end.
  { assert (wpD ('(_, w') ← setFieldByType fuel values (parseMapData values) 0 true t w "" 0 SanitizeDefault;
      mret (VPtr t (Some w'))) (λ v', ∃ w', v' = VPtr t (Some w') ∧ (typed t w → typed t w'))) as Hgen.
    { eapply wp_bind; [apply setFieldByType_good; unfold nesting; lia|]. intros [s w'] [_ Ht]. apply wp_ret. eauto. }
    destruct t; try exact Hgen. destruct w as [| | | | | | | | | | |nm tn fs' vs|]; try exact Hgen.
    eapply wp_bind.
    - apply (struct_good _ fuel) with (n1 := name) (tn1 := tablename) (fs1 := fs).
      + intros. by apply setFieldByType_good.
      + unfold nesting. simpl in *. lia.
    - intros [s vs'] [_ Ht]. apply wp_ret. eauto. }
  match goal with |- context [match ?m ∅ with _ => _ end] => destruct (m ∅) as [[[v' e]|p]|]; [| |done] end.
  - destruct Hw as (w' & -> & Ht). eexists. split; [done|]. intros err v' t' [= _ <-].
    unfold typed in *. destruct t'; cbn -[type_eqb]; try done. rewrite !andb_true_iff. intros [Hu Hw]. split; [done|].
    apply type_eqb_eq in Hu as ->. by apply Ht.
  - eexists. split; [done|]. by intros err v' t' [=].
Qed.


(** [C26] Decoding keeps types: whatever the form holds, a destination that has type
    [t] still has it afterwards; integers are in the range of their width, slices
    and structs have elements of their types, pointers point to what they should. *)
Theorem Decode_keeps_types v values t err v' :
  Decode (enough_fuel v) v values = Some (Ret (err, v')) → has_type t v = true → has_type t v' = true.
Proof.
  destruct (Decode_good (enough_fuel v) v values) as (r & Hr & Ht); [done|]. rewrite Hr. intros [= ->].
  by eapply Ht.
Qed.

(** ** Flat structs *)

Definition scalar_type (t : gotype) : bool :=
  match t with TString | TInt _ | TUint _ | TFloat _ | TBool => true | _ => false end.

(** What a scalar field becomes, and the error it gives. *)
Definition field_result (values : gmap string (list string)) (f : cachedField) (t : gotype) (x : value)
    : value * option error :=
  match values !! cf_name f with
  | Some (s :: _) =>
      let s := cleanValue s (cf_sanitize f) in
      if needs_text t && bool_decide (s = "") then (x, None)
      else match parse_scalar t s with
           | Some (inr y) => (y, None)
           | Some (inl e) => (x, Some e)
           | None => (x, None)
           end
  | _ => (x, None)
  end.

Lemma field_result_typed values f t x : typed t x → typed t (field_result values f t x).1.
Proof.
  intros Hx. unfold field_result. destruct (values !! cf_name f) as [[|s l]|]; [done| |done].
  destruct (_ && _); [done|]. destruct (parse_scalar t _) as [[err|y]|] eqn:E; [done| |done].
  by apply parse_scalar_typed in E as [? _].
Qed.

Lemma scalar_extract c t v : scalar_type t = true → typed t v → extractType c t v = (t, v, c).
Proof. unfold typed. destruct t, v as [| | | | | | | |? []| | | |]; done. Qed.

(** The step on a field: only its own value and its own error change. *)
Lemma scalar_step fuel values dm depth t v f :
  scalar_type t = true → typed t v →
  ∃ b, ∀ e, setFieldByType (S fuel) values dm depth true t v (cf_name f) 0 (cf_sanitize f) e =
    let r := field_result values f t v in
    Some (Ret ((b, r.1), match r.2 with Some err => <[cf_name f := err]> e | None => e end)).
Proof.
  intros Hs Ht. cbn [setFieldByType]. unfold set_body. cbn [negb]. rewrite (scalar_extract true t v Hs Ht).
  assert (put_back v = λ x, x) as Hpb.
  { unfold typed in Ht. destruct t, v as [| | | | | | | |? []| | | |]; done. }
  assert (∃ b, ∀ e, set_scalar values true t v (cf_name f) 0 (cf_sanitize f) e =
    let r := field_result values f t v in
    Some (Ret ((b, r.1), match r.2 with Some err => <[cf_name f := err]> e | None => e end))) as Hset.
  { unfold set_scalar, field_result. rewrite Hpb. destruct (values !! cf_name f) as [[|s l]|]; [by exists false| |by exists false].
    cbn [lookup list_lookup length Nat.eqb orb]. destruct (needs_text t && _); [by exists false|].
    destruct (parse_scalar t _) as [[err|x]|]; [by exists false|by exists true|by exists false]. }
  destruct t; done.
Qed.

(** A struct whose fields are exported scalars. *)
Definition flat_field (f : sfield) : Prop :=
  sf_exported f = true ∧ sf_anonymous f = false ∧ scalar_type (sf_type f) = true.

(** The fields the decoder looks at, in the order of the struct. *)
Definition form_fields (fs : list sfield) : list cachedField := omap id (imap cache_form_field fs).

Lemma elem_of_form_fields fs f :
  f ∈ form_fields fs ↔ ∃ i fl, fs !! i = Some fl ∧ cache_form_field i fl = Some f.
Proof.
  unfold form_fields. rewrite list_elem_of_omap. setoid_rewrite elem_of_lookup_imap. unfold id. naive_solver.
Qed.

Lemma cache_form_field_spec i fl f :
  cache_form_field i fl = Some f → cf_idx f = i ∧ cf_anonymous f = sf_anonymous fl.
Proof.
  unfold cache_form_field. destruct (_ && _); [done|]. case_bool_decide; [done|]. by intros [= <-].
Qed.

Lemma form_fields_NoDup fs : NoDup (cf_idx <$> form_fields fs).
Proof.
  unfold form_fields.
  assert (∀ F k, (∀ i fl f, F i fl = Some f → cf_idx f = k + i) →
    NoDup (cf_idx <$> omap id (imap F fs)) ∧ ∀ f, f ∈ omap id (imap F fs) → k ≤ cf_idx f) as Hgen.
  { induction fs as [|fl fs IH]; intros F k HF; [split; [constructor|]; intros f Hf; by apply not_elem_of_nil in Hf|].
    destruct (IH (F ∘ S) (S k)) as [Hn Hle]; [intros i fl' f Hf; apply HF in Hf; lia|]. cbn [imap omap list_omap].
    change (id (F 0 fl)) with (F 0 fl). destruct (F 0 fl) as [f|] eqn:E.
    - apply HF in E. split.
      + cbn [fmap list_fmap]. constructor; [|done]. intros (g & Hg & Hin)%list_elem_of_fmap. apply Hle in Hin. lia.
      + intros g [->|Hg]%elem_of_cons; [lia|]. apply Hle in Hg. lia.
    - split; [done|]. intros g Hg. apply Hle in Hg. lia. }
  apply (Hgen cache_form_field 0). intros i fl f Hf. by apply cache_form_field_spec in Hf as [-> _].
Qed.

Section Flat.
Context (values : gmap string (list string)) (dm : dataMap) (fuel depth : nat) (fs : list sfield).
Hypothesis Hflat : Forall flat_field fs.

Lemma flat_step st e f fl x :
  fs !! cf_idx f = Some fl → st.2 !! cf_idx f = Some x → typed (sf_type fl) x → cf_anonymous f = false →
  ∃ b, traverse_field (setFieldByType (S fuel) values dm) depth true fs "" st f e =
    let r := field_result values f (sf_type fl) x in
    Some (Ret ((b, <[cf_idx f := r.1]> st.2), match r.2 with Some err => <[cf_name f := err]> e | None => e end)).
Proof.
  intros Hfl Hx Ht Ha. destruct st as [b vs]. simpl in Hx.
  assert (flat_field fl) as (Hexp & _ & Hs) by (by eapply Forall_lookup_1).
  destruct (scalar_step fuel values dm depth (sf_type fl) x f Hs Ht) as [b' Hb]. exists (b || b').
  unfold traverse_field. rewrite Ha. unfold mbind at 1, D_bind at 1. unfold mret at 1, D_ret at 1.
  unfold set_struct_field. rewrite Hfl, Hx, Hexp. unfold field_namespace. rewrite bool_decide_true by done.
  unfold mbind, D_bind. cbn [andb]. rewrite Hb. by destruct (field_result values f (sf_type fl) x) as [y [err|]].
Qed.

(** The loop over the fields, in any order. *)
Lemma flat_loop cs st e :
  Forall2 (λ f x, typed (sf_type f) x) fs st.2 →
  (∀ f, f ∈ cs → is_Some (fs !! cf_idx f) ∧ cf_anonymous f = false) →
  NoDup (cf_idx <$> cs) → NoDup (cf_name <$> cs) →
  ∃ b vs' e', foldD (traverse_field (setFieldByType (S fuel) values dm) depth true fs "") st cs e = Some (Ret ((b, vs'), e')) ∧
    (∀ f fl x, f ∈ cs → fs !! cf_idx f = Some fl → st.2 !! cf_idx f = Some x →
       vs' !! cf_idx f = Some (field_result values f (sf_type fl) x).1 ∧
       e' !! cf_name f = match (field_result values f (sf_type fl) x).2 with Some err => Some err | None => e !! cf_name f end) ∧
    (∀ i, i ∉ cf_idx <$> cs → vs' !! i = st.2 !! i) ∧
    (∀ k, k ∉ cf_name <$> cs → e' !! k = e !! k).
Proof.
  revert st e. induction cs as [|f cs IH]; intros st e Hty Hcs Hni Hnn.
  { destruct st as [b vs]. exists b, vs, e. split_and!; [done| |done|done]. intros f fl x Hf. by apply not_elem_of_nil in Hf. }
  destruct (Hcs f ltac:(by left)) as [[fl Hfl] Ha]. inversion Hni as [|? ? Hi Hni']; subst. inversion Hnn as [|? ? Hn Hnn']; subst.
  destruct (Forall2_lookup_l _ _ _ _ _ Hty Hfl) as (x & Hx & Htx).
  destruct (flat_step st e f fl x Hfl Hx Htx Ha) as [b Hb]. cbn [foldD]. unfold mbind at 1, D_bind at 1. rewrite Hb. cbv zeta.
  set (r := field_result values f (sf_type fl) x) in *. set (e1 := match r.2 with Some err => _ | None => e end) in *.
  destruct (IH (b, <[cf_idx f := r.1]> st.2) e1) as (b' & vs' & e' & Hrun & Hin & Hout & Heo); [|set_solver|done|done|].
  { simpl. rewrite <-(list_insert_id fs (cf_idx f) fl Hfl). apply Forall2_insert; [done|].
    by apply field_result_typed. }
  exists b', vs', e'. split; [done|]. simpl in *. split_and!.
  - intros g gl y Hg Hgl Hy. apply elem_of_cons in Hg as [->|Hg].
    + simplify_eq. rewrite Hout by done. rewrite Heo by done. rewrite list_lookup_insert_eq by (by eapply lookup_lt_Some).
      split; [done|]. unfold e1. fold r. destruct r.2; [by rewrite lookup_insert_eq|done].
    + assert (cf_idx g ≠ cf_idx f) as Hne1 by (intros Heq; apply Hi; rewrite <-Heq; by apply list_elem_of_fmap_2).
      assert (cf_name g ≠ cf_name f) as Hne2 by (intros Heq; apply Hn; rewrite <-Heq; by apply list_elem_of_fmap_2).
      destruct (Hin g gl y Hg Hgl) as [? He]; [by rewrite list_lookup_insert_ne|]. split; [done|].
      rewrite He. destruct (field_result values g (sf_type gl) y).2; [done|].
      unfold e1. destruct r.2; [by rewrite lookup_insert_ne|done].
  - intros i Hnot. apply not_elem_of_cons in Hnot as [? ?]. rewrite Hout by done. by rewrite list_lookup_insert_ne.
  - intros k Hnot. apply not_elem_of_cons in Hnot as [? ?]. rewrite Heo by done. unfold e1.
    destruct r.2; [by rewrite lookup_insert_ne|done].
Qed.
End Flat.

(** The expected value and error of the field at [i]. *)
Definition flat_result (values : gmap string (list string)) (i : nat) (fl : sfield) (x : value) : value * option error :=
  match cache_form_field i fl with
  | Some f => field_result values f (sf_type fl) x
  | None => (x, None)
  end.

Lemma flat_decode fuel nm tn fs vs values :
  Forall flat_field fs → Forall2 (λ f x, typed (sf_type f) x) fs vs → NoDup (cf_name <$> form_fields fs) →
  ∃ errs vs',
    Decode (S fuel) (VPtr (TStruct nm tn fs) (Some (VStruct nm tn fs vs))) values =
      Some (Ret (if bool_decide (errs = ∅) then None else Some (DecodeErrors errs),
                 VPtr (TStruct nm tn fs) (Some (VStruct nm tn fs vs')))) ∧
    (∀ i fl x, fs !! i = Some fl → vs !! i = Some x → vs' !! i = Some (flat_result values i fl x).1) ∧
    (∀ k err, errs !! k = Some err ↔
       ∃ i fl x f, fs !! i = Some fl ∧ vs !! i = Some x ∧ cache_form_field i fl = Some f ∧ cf_name f = k ∧
         (flat_result values i fl x).2 = Some err).
Proof.
  intros Hflat Hty Hnames. unfold Decode, traverseStruct. cbn [Nat.ltb Nat.leb maxDecodeDepth].
  assert (sort_Sort (form_fields fs) ≡ₚ form_fields fs) as Hperm by apply sort_Sort_perm.
  assert (∀ f, f ∈ sort_Sort (form_fields fs) ↔ ∃ i fl, fs !! i = Some fl ∧ cache_form_field i fl = Some f) as Hel.
  { intros f. by rewrite Hperm, elem_of_form_fields. }
  destruct (flat_loop values (parseMapData values) fuel 1 fs Hflat (parseStruct fs) (false, vs) ∅)
    as (b & vs' & errs & Hrun & Hin & Hout & Heo); try done.
  { intros f (i & fl & Hfl & Hc)%Hel. apply cache_form_field_spec in Hc as [-> ->]. split; [done|].
    by eapply (Forall_lookup_1 _ _ _ _ Hflat). }
  { unfold parseStruct. fold (form_fields fs). rewrite Hperm. apply form_fields_NoDup. }
  { unfold parseStruct. fold (form_fields fs). by rewrite Hperm. }
  exists errs, vs'. unfold mbind, D_bind. rewrite Hrun. split; [done|]. split.
  - intros i fl x Hfl Hx. unfold flat_result. destruct (cache_form_field i fl) as [f|] eqn:E.
    + pose proof (cache_form_field_spec _ _ _ E) as [<- _]. by apply (Hin f fl x); [apply Hel; eauto|..].
    + rewrite Hout; [done|]. intros (f & Hi & (j & fl' & Hfl' & Hc)%Hel)%list_elem_of_fmap.
      pose proof (cache_form_field_spec _ _ _ Hc) as [Hj _]. by simplify_eq.
  - intros k err. split.
    + intros Hk. destruct (decide (k ∈ cf_name <$> parseStruct fs)) as [Hmem|Hnot]; [|by rewrite Heo in Hk].
      apply list_elem_of_fmap in Hmem as (f & -> & Hf). pose proof Hf as (i & fl & Hfl & Hc)%Hel.
      pose proof (cache_form_field_spec _ _ _ Hc) as [Hi _]. destruct (Forall2_lookup_l _ _ _ _ _ Hty Hfl) as (x & Hx & _).
      destruct (Hin f fl x Hf) as [_ He]; [by rewrite Hi|by rewrite Hi|]. rewrite Hk, lookup_empty in He.
      exists i, fl, x, f. unfold flat_result. rewrite Hc. split_and!; try done. by destruct (field_result _ _ _ _).2.
    + intros (i & fl & x & f & Hfl & Hx & Hc & <- & Hr). unfold flat_result in Hr. rewrite Hc in Hr.
      pose proof (cache_form_field_spec _ _ _ Hc) as [Hi _].
      destruct (Hin f fl x) as [_ ->]; [apply Hel; eauto|by rewrite Hi|by rewrite Hi|]. by rewrite Hr.
Qed.

(** [C27] Decoding into a flat struct: for a struct whose fields are exported
    strings, numbers and booleans with distinct form names, every field gets the
    cleaned first value of its own key, parsed at its own type and width, or keeps
    its value when the key is absent, empty (for numbers) or does not parse; the
    errors are exactly those of the fields that did not parse, under their names.
    No other key of the form and no order of the fields matters. *)
Theorem flat_decode_exact nm tn fs vs values :
  Forall flat_field fs → Forall2 (λ f x, has_type (sf_type f) x = true) fs vs → NoDup (cf_name <$> form_fields fs) →
  ∃ errs vs',
    Decode (enough_fuel (VPtr (TStruct nm tn fs) (Some (VStruct nm tn fs vs))))
        (VPtr (TStruct nm tn fs) (Some (VStruct nm tn fs vs))) values =
      Some (Ret (if bool_decide (errs = ∅) then None else Some (DecodeErrors errs),
                 VPtr (TStruct nm tn fs) (Some (VStruct nm tn fs vs')))) ∧
    (∀ i fl x, fs !! i = Some fl → vs !! i = Some x → vs' !! i = Some (flat_result values i fl x).1) ∧
    (∀ k err, errs !! k = Some err ↔
       ∃ i fl x f, fs !! i = Some fl ∧ vs !! i = Some x ∧ cache_form_field i fl = Some f ∧ cf_name f = k ∧
         (flat_result values i fl x).2 = Some err).
Proof. apply flat_decode. Qed.
End Typed.

(** ** Demonstration *)

#[local] Instance demo_form : FormText := {|
  strict_Sanitize s := s;
  ugc_Sanitize s := s;
  remove_dangerous s := s;
  form_ParseFloat _ _ := None;
  ParseInLocation _ _ := None;
  ParseStrict _ := inl (ENew "time");
|}.
#[local] Instance demo_sort : FieldSort := {| sort_Sort l := l; sort_Sort_perm l := Permutation_refl l |}.
#[local] Instance demo_map_order : MapOrder := {| range A m := map_to_list m; range_perm A m := Permutation_refl _ |}.

Definition demo_user : list sfield :=
  [SField "Name" TString true false [("form", "name")];
   SField "Age" (TInt KInt8) true false [("form", "age")];
   SField "Secret" TString true false [("form", "-")]].
Definition demo_values : gmap string (list string) :=
  <["name" := ["  Ann  Lee "]]> (<["age" := ["300"]]> (<["-" := ["x"]]> ∅)).
Definition demo_form_of (l : list sfield) (vs : list value) : value :=
  VPtr (TStruct "User" None l) (Some (VStruct "User" None l vs)).
Definition demo_user_zero : list value := [VString ""; VInt KInt8 7; VString "s"].

(** An age of 300 does not fit eight bits: it is an error, and the field is kept. *)
Example demo_decode :
  Decode 5 (demo_form_of demo_user demo_user_zero) demo_values =
  Some (Ret (Some (DecodeErrors {["age" := ENew "invalid int8: 300"]}),
    demo_form_of demo_user [VString "Ann Lee"; VInt KInt8 7; VString "s"])).
Proof. vm_compute. reflexivity. Qed.

Lemma flat_decode_exact_witness :
  ∃ errs vs',
    Decode (enough_fuel (demo_form_of demo_user demo_user_zero)) (demo_form_of demo_user demo_user_zero) demo_values =
      Some (Ret (if bool_decide (errs = ∅) then None else Some (DecodeErrors errs), demo_form_of demo_user vs')) ∧
    vs' !! 0 = Some (VString "Ann Lee").
Proof.
  destruct (flat_decode_exact "User" None demo_user demo_user_zero demo_values) as (errs & vs' & Hd & Hv & _).
  - repeat constructor.
  - repeat constructor.
  - unfold demo_user, form_fields. vm_compute. repeat constructor; set_solver.
  - exists errs, vs'. split; [exact Hd|]. rewrite (Hv 0 _ _ eq_refl eq_refl). vm_compute. reflexivity.
Defined.

Lemma Decode_keeps_types_witness :
  has_type (TPtr (TStruct "User" None demo_user)) (demo_form_of demo_user [VString "Ann Lee"; VInt KInt8 7; VString "s"]) = true.
Proof.
  apply (Decode_keeps_types (demo_form_of demo_user demo_user_zero) demo_values _
    (Some (DecodeErrors {["age" := ENew "invalid int8: 300"]}))).
  - vm_compute. reflexivity.
  - vm_compute. reflexivity.
Defined.

Definition demo_items : list sfield := [SField "Items" (TSlice TString) true false [("form", "items")]].

(** The bound on the size of arrays does not hold off the greatest index: the
    length, one more than the index, overflows to a negative number, and decoding
    panics on making a slice of that length. *)
Theorem huge_index_panics :
  Decode 5 (demo_form_of demo_items [VSlice TString None]) (<["items[9223372036854775807]" := ["x"]]> ∅) =
  Some (Panic "reflect.MakeSlice: negative len").
Proof. vm_compute. reflexivity. Qed.

Example large_index_refused :
  Decode 5 (demo_form_of demo_items [VSlice TString None]) (<["items[1000]" := ["x"]]> ∅) =
  Some (Ret (Some (DecodeErrors {["items" := ENew "array size 1001 exceeds max 1000"]}),
    demo_form_of demo_items [VSlice TString None])).
Proof. vm_compute. reflexivity. Qed.
