(* ===== verification/WebRequest.v ===== *)
(** * Reading requests

    [internal/web/request.go], [File] of [internal/web/file.go] and the methods of
    [context.go] over them: the body of a request and its cache, form values, and
    binding a body to a value of the application, as JSON or as a form.

    A request is part of the state: reading its body uses it up, parsing it fills its
    forms.  [ParseForm] and [ParseMultipartForm] of [net/http] are written out; the
    parsers of media types, queries, multipart bodies and JSON below them are the
    interface [BodyParsers] ([query_error]: of the query of a request URI).  Nothing but these functions fills [PostForm], so that it
    is nil exactly when [Form] is. *)

From S2P Require Import Prelude GoStrings GoValue HttpErr RouterTree Session RedisStore Crypto Http Waf Metrics DbModel DbExec DbFacade Context.
From S2P Require Import Decoder DecoderSafety.
From Stdlib Require Import Ascii.
Import Strings.

Class BodyParsers := {
  ParseMediaType : string → string * option error;
  ParseQuery : string → form_values * option error;
  query_error : string → option error;
  multipart_boundary : string → error + string;
  ReadForm : string → string → error + multipart_Form;
  json_Decode_strict : string → value → option error * value;
  type_String : gotype → string;
}.

Section WebRequest.
Context `{Unicode} `{MapOrder} `{FormText} `{FieldSort} `{BodyParsers}.

(** ** The body *)

Definition MaxMultipartMemory : Z := 10485760.

(** [io.ReadAll(http.MaxBytesReader(w, req.Body, max))]: what it gives, and what is
    left to read afterwards. *)
Definition read_body (max : Z) (r : reader) : (string * option error) * reader :=
  (read_limited max (rd_data r) (rd_err r), mkReader (drop (S (Z.to_nat max)) (rd_data r)) (rd_err r)).

(** [cachedBody] is the context's copy, [None] when it is nil. *)
Definition GetBody (cachedBody : option string) : M Request (error + string) := λ req,
  match cachedBody with
  | Some b => (Done (inr b), set_Body (Some (mkReader b None)) req)
  | None =>
      match req_Body req with
      | None => (Done (inr ""), req)
      | Some r =>
          let '((b, err), rest) := read_body MaxMultipartMemory r in
          match err with
          | Some e => (Done (inl e), set_Body (Some rest) req)
          | None => (Done (inr b), set_Body (Some (mkReader b None)) req)
          end
      end
  end.

(** ** Forms *)

Definition ErrPostTooLarge : error := ESentinel "http: POST too large".
Definition content_type (req : Request) : string :=
  let ct := Header_Get "Content-Type" (req_header req) in
  if bool_decide (ct = "") then "application/octet-stream" else ct.

(** [parsePostForm]: the values of an url-encoded body; the body is read whole. *)
Definition parsePostForm (req : Request) : (option form_values * option error) * Request :=
  match req_Body req with
  | None => ((None, None), req)
  | Some r =>
      let '(mt, merr) := ParseMediaType (content_type req) in
      if bool_decide (mt = "application/x-www-form-urlencoded") then
        let used := set_Body (Some (mkReader "" None)) req in
        match rd_err r with
        | Some e => ((None, Some (default e merr)), used)
        | None =>
            if (MaxMultipartMemory <? Z.of_nat (String.length (rd_data r)))%Z then ((None, Some ErrPostTooLarge), used)
            else
              let '(vs, qerr) := ParseQuery (rd_data r) in
              ((Some vs, match merr with Some e => Some e | None => qerr end), used)
        end
      else ((None, merr), req)
  end.

Definition orElse (a b : option error) : option error := match a with Some e => Some e | None => b end.

(** [r.ParseForm()]. *)
Definition ParseForm : M Request (option error) := λ req,
  match req_PostForm req with
  | Some _ => (Done None, req)
  | None =>
      let '((vs, err), req') := if reads_body req then parsePostForm req else ((None, None), req) in
      (Done (orElse err (query_error (RequestURI req))), set_PostForm (Some (default ∅ vs)) req')
  end.

Definition merge_values (a b : form_values) : form_values :=
  union_with (λ x y, Some (x ++ y)) a b.

(** [r.ParseMultipartForm(MaxMultipartMemory)], after [ParseForm] has given its error. *)
Definition parse_multipart (formErr : option error) : M Request (option error) := λ req,
  match req_MultipartForm req with
  | Some _ => (Done None, req)
  | None =>
      match multipart_boundary (Header_Get "Content-Type" (req_header req)) with
      | inl e => (Done (Some e), req)
      | inr boundary =>
          let r := default (mkReader "" None) (req_Body req) in
          let used := set_Body (Some (mkReader "" None)) req in
          match rd_err r with
          | Some e => (Done (Some e), used)
          | None =>
              match ReadForm boundary (rd_data r) with
              | inl e => (Done (Some e), used)
              | inr f =>
                  (Done formErr,
                   set_MultipartForm (Some f)
                     (set_PostForm (Some (merge_values (default ∅ (req_PostForm req)) (form_Value f))) used))
              end
          end
      end
  end.
Definition ParseMultipartForm : M Request (option error) := ParseForm ≫= parse_multipart.

(** [values.Get(key)]. *)
Definition Values_Get (key : string) (vs : form_values) : string :=
  match vs !! key with Some (v :: _) => v | _ => "" end.

Definition web_Get (key : string) : M Request string := getM (Query_Get key).
Definition parsed_post : M Request form_values :=
  pf ← getM req_PostForm;
  (match pf with None => ParseMultipartForm;; mret () | Some _ => mret () end);;
  getM (λ r, default ∅ (req_PostForm r)).
Definition web_Post (key : string) : M Request string := vs ← parsed_post; mret (Values_Get key vs).
Definition web_GetPost (key : string) : M Request string :=
  val ← web_Get key;
  if negb (bool_decide (val = "")) then mret val else web_Post key.
Definition web_PostGet (key : string) : M Request string :=
  val ← web_Post key;
  if negb (bool_decide (val = "")) then mret val else web_Get key.

(** ** Binding *)

Definition web_BindJSON (body : string) (v : value) : option error * value := json_Decode_strict body v.

(** The text of the decoder's errors. *)
Definition decode_error_text (v : value) (e : decode_error) : string :=
  match e with
  | InvalidDecoderError =>
      match type_of v with
      | None => "form: Decode(nil)"
      | Some (TPtr t) => "form: Decode(nil " +:+ type_String (TPtr t) +:+ ")"
      | Some t => "form: Decode(non-pointer " +:+ type_String t +:+ ")"
      end
  | DecodeErrors errs =>
      TrimSpace (foldr (λ p s, "Field '" +:+ p.1 +:+ "': " +:+ Error p.2 +:+ newline +:+ s) "" (range errs))
  end.

(** [FormDecoder.Decode(v, values)] with its error as an error value. *)
Definition FormDecoder_Decode (v : value) (vs : form_values) : M Request (option error * value) :=
  match Decode (enough_fuel v) v vs with
  | Some (Ret (err, v')) => mret ((λ e, ENew (decode_error_text v e)) <$> err, v')
  | Some (Panic p) => crashM p
  | None => hangM
  end.

(** The body read, the error, and what the value has become. *)
Definition web_Bind (cachedBody : option string) (v : value) : M Request (option error * option string * value) :=
  b ← GetBody cachedBody;
  match b with
  | inl e => mret (Some e, None, v)
  | inr body =>
      ct ← getM (λ r, Header_Get "Content-Type" (req_header r));
      if Contains ct "application/json" then
        let '(err, v') := web_BindJSON body v in mret (err, Some body, v')
      else
        perr ← (if Contains ct "multipart/form-data" then ParseMultipartForm else ParseForm);
        match perr with
        | Some e => mret (Some e, Some body, v)
        | None =>
            vs ← getM (λ r, default ∅ (req_PostForm r));
            '(err, v') ← FormDecoder_Decode v vs;
            mret (err, Some body, v')
        end
  end.

(** ** Files *)

Definition ErrMissingFile : error := ESentinel "http: no such file".
Definition FormFile (key : string) : M Request (error + FileHeader) :=
  mf ← getM req_MultipartForm;
  err ← (match mf with None => ParseMultipartForm | Some _ => mret None end);
  match err with
  | Some e => mret (inl e)
  | None =>
      getM (λ r,
        match req_MultipartForm r ≫= λ f, form_File f !! key with
        | Some (fh :: _) => inr fh
        | _ => inl ErrMissingFile
        end)
  end.

(** The explicit parse before [FormFile] leaves nothing for it to parse. *)
Definition web_File (key : string) : M Request (error + FileHeader) :=
  mf ← getM req_MultipartForm;
  err ← (match mf with None => ParseMultipartForm | Some _ => mret None end);
  match err with
  | Some e => mret (inl e)
  | None => FormFile key
  end.

(** ** On the context *)

Section OnContext.
Context {W SW L : Type}.
#[local] Abbreviation st := (rstate W SW L).

Definition with_request (r : option Request) (c : Context) : Context :=
  mkContext r (c_session c) (c_database c) (c_params c) (c_locals c) (c_written c) (c_aborted c) (c_body c)
    (c_encryptKey c) (c_currentUser c) (c_browserID c) (c_browserValid c).
Definition with_cached (b : option string) (c : Context) : Context :=
  mkContext (c_request c) (c_session c) (c_database c) (c_params c) (c_locals c) (c_written c) (c_aborted c) b
    (c_encryptKey c) (c_currentUser c) (c_browserID c) (c_browserValid c).

Definition on_request {A} (m : M Request A) : M st A := λ s,
  match c_request (s_ctx s) with
  | None => (Crash "runtime error: invalid memory address or nil pointer dereference", s)
  | Some r => let '(x, r') := m r in (x, set_ctx (with_request (Some r') (s_ctx s)) s)
  end.

Definition Context_Get (key : string) : M st string := on_request (web_Get key).
Definition Context_Post (key : string) : M st string := on_request (web_Post key).
Definition Context_GetPost (key : string) : M st string := on_request (web_GetPost key).
Definition Context_PostGet (key : string) : M st string := on_request (web_PostGet key).
Definition Context_IsAJAX : M st bool := on_request (getM IsAJAX).
Definition Context_File (key : string) : M st (error + FileHeader) := on_request (web_File key).

Definition Context_GetBody : M st (error + string) :=
  cached ← ctx c_body;
  b ← on_request (GetBody cached);
  match b with
  | inl e => mret (inl e)
  | inr body => on_ctx (with_cached (Some body));; mret (inr body)
  end.

Definition Context_BindJSON (v : value) : M st (option error * value) :=
  b ← Context_GetBody;
  match b with
  | inl e => mret (Some e, v)
  | inr body => mret (web_BindJSON body v)
  end.

Definition Context_Bind (v : value) : M st (option error * value) :=
  cached ← ctx c_body;
  '(err, body, v') ← on_request (web_Bind cached v);
  match err with
  | Some e => mret (Some e, v')
  | None => on_ctx (with_cached body);; mret (None, v')
  end.
End OnContext.
End WebRequest.
