(* ===== verification/Validator.v ===== *)
(** * Validation of input ([validator.go])

    A [Validator] flattens a form into named values, collects the rules of the
    [validate] tags and of the application, runs them and keeps the messages by
    field.  Rules may ask the database, so a rule runs in the monad of the database
    layer: its error is the message, its panic a panic.

    The registry of rules is an argument; [builtin_rules] is the one the package
    starts with.  Iteration over a map is the interface [MapOrder].  The address
    and URL parsers of the Standard Library, the methods [Prefix] and [Suffix] of
    the application's types and the text of a type are parameters. *)

From S2P Require Import Prelude GoStrings GoValue HttpErr Util Session Http Context.
From S2P Require Import DbSanitize DbModel DbPrepared DbExec DbBuilder DbSql DbRead DbFacade.
From Stdlib Require Import Ascii.
Import Strings.

(** [mail.ParseAddress] and [url.ParseRequestURI]: the address and the scheme. *)
Class AddressParsers := {
  ParseAddress : string → option string;
  ParseRequestURI : string → option string;
}.

(** Methods of the application's types, and [%s] of a [reflect.Type]. *)
Class AppTypes := {
  value_Prefix : value → option string;
  value_Suffix : value → option string;
  type_text : gotype → string;
}.

Definition ErrValidationFailed : error := ESentinel "validation failed".

(** A [RulesFunc] returns its error as the failure of the computation. *)
Definition RulesFunc : Type := value → ME unit.

(** The slice of a rows validation: its element type, its rows, whether it can be
    assigned to. *)
Record rows_slice := mkRows { rows_elem : gotype; rows_vals : list value; rows_settable : bool }.

Record Validator := mkValidator {
  v_database : option DB;
  globalErrors : list error;
  values : gmap string value;
  validateErrors : gmap string (list string);
  uniqueTable : string;
  parsedRules : gmap string (gmap string string);
  customFuncs : gmap string (list RulesFunc);
  pkCol : string;
  pkVal : value;
  boundVal : value;
  isRows : bool;
  rowsSliceVal : rows_slice;
  rowsPrefix : string;
  rowsPivotIdx : list nat;
  rulesMade : bool;  (* [parsedRules] is not nil *)
}.

(** [&Validator{ctx: c}]. *)
Definition new_validator (db : option DB) : Validator :=
  mkValidator db [] ∅ ∅ "" ∅ ∅ "" VNil VNil false (mkRows TBool [] false) "" [] false.

Definition with_globalErrors (l : list error) (v : Validator) : Validator :=
  mkValidator (v_database v) l (values v) (validateErrors v) (uniqueTable v) (parsedRules v) (customFuncs v)
    (pkCol v) (pkVal v) (boundVal v) (isRows v) (rowsSliceVal v) (rowsPrefix v) (rowsPivotIdx v) (rulesMade v).
Definition with_values (m : gmap string value) (v : Validator) : Validator :=
  mkValidator (v_database v) (globalErrors v) m (validateErrors v) (uniqueTable v) (parsedRules v) (customFuncs v)
    (pkCol v) (pkVal v) (boundVal v) (isRows v) (rowsSliceVal v) (rowsPrefix v) (rowsPivotIdx v) (rulesMade v).
Definition with_errors (m : gmap string (list string)) (v : Validator) : Validator :=
  mkValidator (v_database v) (globalErrors v) (values v) m (uniqueTable v) (parsedRules v) (customFuncs v)
    (pkCol v) (pkVal v) (boundVal v) (isRows v) (rowsSliceVal v) (rowsPrefix v) (rowsPivotIdx v) (rulesMade v).
Definition with_uniqueTable (s : string) (v : Validator) : Validator :=
  mkValidator (v_database v) (globalErrors v) (values v) (validateErrors v) s (parsedRules v) (customFuncs v)
    (pkCol v) (pkVal v) (boundVal v) (isRows v) (rowsSliceVal v) (rowsPrefix v) (rowsPivotIdx v) (rulesMade v).
Definition with_rules (m : gmap string (gmap string string)) (v : Validator) : Validator :=
  mkValidator (v_database v) (globalErrors v) (values v) (validateErrors v) (uniqueTable v) m (customFuncs v)
    (pkCol v) (pkVal v) (boundVal v) (isRows v) (rowsSliceVal v) (rowsPrefix v) (rowsPivotIdx v) (rulesMade v).
Definition with_funcs (m : gmap string (list RulesFunc)) (v : Validator) : Validator :=
  mkValidator (v_database v) (globalErrors v) (values v) (validateErrors v) (uniqueTable v) (parsedRules v) m
    (pkCol v) (pkVal v) (boundVal v) (isRows v) (rowsSliceVal v) (rowsPrefix v) (rowsPivotIdx v) (rulesMade v).
Definition with_pk (col : string) (val : value) (v : Validator) : Validator :=
  mkValidator (v_database v) (globalErrors v) (values v) (validateErrors v) (uniqueTable v) (parsedRules v)
    (customFuncs v) col val (boundVal v) (isRows v) (rowsSliceVal v) (rowsPrefix v) (rowsPivotIdx v) (rulesMade v).
Definition with_bound (x : value) (v : Validator) : Validator :=
  mkValidator (v_database v) (globalErrors v) (values v) (validateErrors v) (uniqueTable v) (parsedRules v)
    (customFuncs v) (pkCol v) (pkVal v) x (isRows v) (rowsSliceVal v) (rowsPrefix v) (rowsPivotIdx v) (rulesMade v).
Definition with_rows (b : bool) (sl : rows_slice) (p : string) (idx : list nat) (v : Validator) : Validator :=
  mkValidator (v_database v) (globalErrors v) (values v) (validateErrors v) (uniqueTable v) (parsedRules v)
    (customFuncs v) (pkCol v) (pkVal v) (boundVal v) b sl p idx (rulesMade v).
Definition with_made (v : Validator) : Validator :=
  mkValidator (v_database v) (globalErrors v) (values v) (validateErrors v) (uniqueTable v) (parsedRules v)
    (customFuncs v) (pkCol v) (pkVal v) (boundVal v) (isRows v) (rowsSliceVal v) (rowsPrefix v) (rowsPivotIdx v) true.

Definition add_message (field msg : string) (m : gmap string (list string)) : gmap string (list string) :=
  <[field := default [] (m !! field) ++ [msg]]> m.
Definition addError (field msg : string) (v : Validator) : Validator :=
  with_errors (add_message field msg (validateErrors v)) v.
Definition Validator_Error (field err : string) (v : Validator) : Validator := addError field err v.

(** [^[a-zA-Z_][a-zA-Z0-9_]*$]. *)
Definition validColumnName (s : string) : bool :=
  match s with
  | "" => false
  | String a s' =>
      (is_letter a || bool_decide (a = "_"%char)) &&
      str_all (λ a, is_letter a || is_digit a || bool_decide (a = "_"%char)) s'
  end.

Definition SetTable (table : string) (v : Validator) : Validator :=
  if negb (validColumnName table) then v else with_uniqueTable table v.

(** ** Rules *)

(** [strings.SplitN(rule, "[", 2)] when the rule ends in [']']. *)
Definition parse_rule (rule : string) : string * string :=
  if Contains rule "[" && HasSuffix rule "]" then
    match SplitN2 "["%char rule with
    | (name, Some rest) => (name, TrimSuffix rest "]")
    | (name, None) => (name, "")
    end
  else (rule, "").

Definition merge_rule (m : gmap string string) (rule : string) : gmap string string :=
  let rule := TrimSpace rule in
  if bool_decide (rule = "") then m else let '(n, p) := parse_rule rule in <[n := p]> m.

(** On a map that has been made: [Bind] makes it before its own calls, [Rules]
    checks. *)
Definition mergeRules (field rulesStr : string) (v : Validator) : Validator :=
  let m := foldl merge_rule (default ∅ (parsedRules v !! field)) (Split "|"%char rulesStr) in
  with_rules (<[field := m]> (parsedRules v)) v.

Definition Func (field : string) (fns : list RulesFunc) (v : Validator) : Validator :=
  with_funcs (<[field := default [] (customFuncs v !! field) ++ fns]> (customFuncs v)) v.

(** On a validator that was never bound the map of rules is nil. *)
Definition Rules (field rules : string) (fns : list RulesFunc) (v : Validator) : outcome Validator :=
  if negb (rulesMade v) then Panic "assignment to entry in nil map"
  else
    let v := mergeRules field rules v in
    Ret (if bool_decide (length fns = 0) then v else Func field fns v).

Definition ResetRules (v : Validator) : Validator := with_made (with_funcs ∅ (with_rules ∅ v)).

Fixpoint isEmpty (v : value) : bool :=
  match v with
  | VNil => true
  | VString s => bool_decide (s = "")
  | VBytes b => bool_decide (default "" b = "")
  | VMap _ m => bool_decide (length (default [] m) = 0)
  | VSlice _ l => bool_decide (length (default [] l) = 0)
  | VBool b => negb b
  | VInt _ z | VUint _ z => (z =? 0)%Z
  | VFloat _ f => float_eqb f (S754_zero false)
  | VPtr _ None => true
  | VPtr _ (Some w) => isEmpty w
  | VTime t => (t =? 0)%Z
  | VStruct _ _ _ _ | VOther _ _ => false
  end.

(** [reflect.Value.IsZero]. *)
Fixpoint reflect_IsZero (v : value) : bool :=
  match v with
  | VNil => true
  | VBool b => negb b
  | VInt _ z | VUint _ z | VTime z | VOther _ z => (z =? 0)%Z
  | VFloat _ f => bool_decide (f = S754_zero false)
  | VString s => bool_decide (s = "")
  | VBytes b => bool_decide (b = None)
  | VPtr _ p => match p with None => true | Some _ => false end
  | VSlice _ l => match l with None => true | Some _ => false end
  | VMap _ m => match m with None => true | Some _ => false end
  | VStruct _ _ _ vs => forallb reflect_IsZero vs
  end.

(** What a rule of the registry is: [func(v *Validator, param string) RulesFunc]. *)
Definition rule : Type := Validator → string → RulesFunc.

Definition reject (msg : string) : ME unit := failM (ENew msg).
Definition accept : ME unit := mret ().

Definition valRequired : rule := λ _ _ val,
  match val with
  | VBool _ => accept
  | VString "" => reject "harus diisi"
  | VNil | VPtr _ None => reject "harus diisi"
  | _ => if isEmpty val then reject "harus diisi" else accept
  end.

Definition symbols : list Z :=
  Utf8.runes ("!@#$%^&*()-_=+[]{}|;:'" +:+ String "034" ",.<>?/`~").
Definition rune_in (lo hi : Z) (c : Z) : bool := (lo <=? c)%Z && (c <=? hi)%Z.
Definition rune_upper (c : Z) : bool := rune_in 65 90 c.
Definition rune_lower (c : Z) : bool := rune_in 97 122 c.
Definition rune_number (c : Z) : bool := rune_in 48 57 c.
Definition rune_symbol (c : Z) : bool := bool_decide (c ∈ symbols).

(** The four flags after one character: the cases are tried in order. *)
Definition see_rune (fl : bool * bool * bool * bool) (c : Z) : bool * bool * bool * bool :=
  let '(up, lo, nu, sy) := fl in
  if rune_upper c then (true, lo, nu, sy)
  else if rune_lower c then (up, true, nu, sy)
  else if rune_number c then (up, lo, true, sy)
  else if rune_symbol c then (up, lo, nu, true)
  else fl.

Definition valSecPass : rule := λ _ _ val,
  match val with
  | VString str =>
      if (String.length str <? 8)%nat then reject "minimal 8 karakter"
      else
        let '(up, lo, nu, sy) := foldl see_rune (false, false, false, false) (Utf8.runes str) in
        if up && lo && nu && sy then accept
        else reject "harus mengandung huruf besar, huruf kecil, angka, dan simbol"
  | _ => reject "format tidak valid"
  end.

(** The length rules: [chk] compares the number of bytes with the parameter. *)
Definition length_rule (skip : string → bool) (chk : Z → Z → bool) (msg : string) : rule := λ _ param val,
  match val with
  | VString str =>
      if skip str then accept
      else match Strconv.Atoi param with
           | (_, Some _) => accept
           | (p, None) =>
               if chk (Z.of_nat (String.length str)) p then accept
               else reject (msg +:+ " " +:+ Strconv.FormatInt p +:+ " karakter")
           end
  | _ => accept
  end.
Definition is_blank (s : string) : bool := bool_decide (s = "").
Definition valLength : rule := length_rule is_blank Z.eqb "harus".
Definition valOpLength : rule := length_rule (λ s, bool_decide (TrimSpace s = "")) Z.eqb "harus".
Definition valMaxLength : rule := length_rule is_blank Z.leb "maksimal".
Definition valMinLength : rule := length_rule is_blank (λ n p, Z.leb p n) "minimal".

Section Validators.
Context `{Unicode} `{Platform} `{FloatText} `{Driver} `{MapOrder} `{AddressParsers} `{AppTypes}.

Definition valEmail : rule := λ _ _ val,
  if isEmpty val then accept
  else match val with
       | VString str =>
           match ParseAddress str with
           | None => reject "format tidak valid"
           | Some a => if bool_decide (a = "") then reject "format tidak valid" else accept
           end
       | _ => reject "format tidak valid"
       end.

Definition allowedSchemes : list string := ["http"; "https"; "ftp"; "mailto"].

Definition valUrl : rule := λ _ _ val,
  if isEmpty val then accept
  else match val with
       | VString str =>
           match ParseRequestURI str with
           | None => reject "format tidak valid"
           | Some scheme =>
               if bool_decide (scheme ∈ allowedSchemes) then accept
               else reject "format tidak valid: skema tidak diizinkan"
           end
       | _ => reject "format tidak valid"
       end.

Definition valNumeric : rule := λ _ _ val,
  if isEmpty val then accept
  else match val with
       | VInt _ _ | VUint _ _ | VFloat _ _ => accept
       | VString str => match ParseFloat str with Some _ => accept | None => reject "harus berupa angka" end
       | _ => reject "harus berupa angka"
       end.

(** The query of the uniqueness check. *)
Definition unique_builder (v : Validator) (db : DB) (param : string) (val : value) : error + Builder :=
  let builder := Where "deleted_at IS NULL" [] (Table (uniqueTable v) db) in
  if negb (bool_decide (pkCol v = "")) && negb (reflect_IsZero (pkVal v)) then
    if negb (validColumnName (pkCol v)) then inl (ENew "validator configuration: invalid primary key column")
    else inr (Where (pkCol v +:+ " != ? AND " +:+ param +:+ " = ?") [pkVal v; val] builder)
  else inr (Where (param +:+ " = ?") [val] builder).

Definition valUnique : rule := λ v param val,
  if bool_decide (uniqueTable v = "") then reject "validator configuration: table not set"
  else if negb (validColumnName param) then reject ("invalid column name: " +:+ param)
  else match v_database v with
       | None => reject "database not available"
       | Some db =>
           b ← ofsum (unique_builder v db param val);
           r ← try (Exist b);
           match r with
           | inl _ => reject "failed to validate data"
           | inr true => reject "already in use"
           | inr false => accept
           end
       end.

(** The registry [init] builds. *)
Definition builtin_rules : gmap string rule := list_to_map [
  ("required", valRequired); ("email", valEmail); ("length", valLength); ("op_length", valOpLength);
  ("maxlength", valMaxLength); ("minlength", valMinLength); ("url", valUrl); ("numeric", valNumeric);
  ("unique", valUnique); ("secpass", valSecPass)].

Definition RegisterRules (n : string) (fn : rule) (reg : gmap string rule) : gmap string rule := <[n := fn]> reg.
Definition RegisterSimpleRule (n : string) (fn : RulesFunc) (reg : gmap string rule) : gmap string rule :=
  RegisterRules n (λ _ _, fn) reg.
Definition HasRule (n : string) (reg : gmap string rule) : bool := bool_decide (is_Some (reg !! n)).

(** ** Flattening *)

Definition field_key (f : sfield) : string :=
  let key := Tag_Get f "form" in if bool_decide (key = "") then sf_name f else key.
Definition full_key (prefix key : string) : string :=
  if bool_decide (prefix = "") then key else prefix +:+ "." +:+ key.

(** A field that is a value of its own, with the rules of its tag. *)
Definition flatten_leaf (f : sfield) (key : string) (x : value) (v : Validator) : Validator :=
  let v := with_values (<[key := x]> (values v)) v in
  let tagRules := Tag_Get f "validate" in
  if bool_decide (tagRules = "") then v else mergeRules key tagRules v.

(** A nil pointer is passed over; a struct, also behind a pointer, contributes its
    own fields.  [Kind] is that of the field's static type: a struct in an
    interface is a value. *)
Fixpoint flattenStruct (val : value) (prefix : string) (v : Validator) {struct val} : Validator :=
  match val with
  | VStruct _ _ fs vs =>
      (fix go (fs : list sfield) (vs : list value) (v : Validator) {struct vs} : Validator :=
         match fs, vs with
         | f :: fs', x :: vs' =>
             let key := full_key prefix (field_key f) in
             let v :=
               if negb (sf_exported f) || bool_decide (field_key f = "-") then v
               else match sf_type f, x with
                    | TPtr _, VPtr _ None => v
                    | TPtr _, VPtr _ (Some ((VStruct _ _ _ _) as d)) => flattenStruct d key v
                    | TStruct _ _ _, VStruct _ _ _ _ => flattenStruct x key v
                    | _, _ => flatten_leaf f key x v
                    end in
             go fs' vs' v
         | _, _ => v
         end) fs vs v
  | _ => v
  end.

(** ** Bind *)

Definition db_primary (f : sfield) : bool :=
  let tag := Tag_Get f "db" in
  negb (bool_decide (tag = "")) && existsb (λ p, bool_decide (p = "primary")) (tail (Split ","%char tag)).

(** The primary key of a struct: its first field tagged so. *)
Definition bind_pk (fs : list sfield) (vs : list value) (v : Validator) : Validator :=
  match find_first (λ p, db_primary p.1) (zip fs vs) with
  | None => v
  | Some (f, x) =>
      let colName := default "" (hd_error (Split ","%char (Tag_Get f "db"))) in
      with_pk (if validColumnName colName then colName else pkCol v) (if sf_exported f then x else pkVal v) v
  end.

Definition bind_table (addressable : bool) (n : string) (tn : option string) (v : Validator) : Validator :=
  if negb (bool_decide (uniqueTable v = "")) then v
  else
    let t := if addressable then default "" tn else "" in
    with_uniqueTable (if bool_decide (t = "") then ToSnakeCase n else t) v.

Definition is_pivot (f : sfield) : bool := bool_decide (Tag_Get f "pivot" = "true").

Definition bindRows (elem : gotype) (rows : list value) (settable : bool) (v : Validator) : Validator :=
  let sl := mkRows elem rows settable in
  match struct_type elem with
  | None =>
      with_globalErrors (globalErrors v ++
        [ENew ("kiya: rows validation requires a slice of structs, got " +:+ type_text (TSlice elem))])
        (with_rows true sl "" [] v)
  | Some (n, _, fs) =>
      let prefix := default "" (value_Prefix (VPtr elem (Some (zero_value elem)))) in
      let pivots := omap id (imap (λ i f, if is_pivot f then Some i else None) fs) in
      let v := with_rows true sl prefix pivots v in
      if bool_decide (length pivots = 0) then
        with_globalErrors (globalErrors v ++
          [ENew ("kiya: rows validation on " +:+ n +:+ " requires at least one field tagged `pivot:" +:+
                 String "034" "true" +:+ String "034" "` to detect empty rows")]) v
      else v
  end.

(** [ctxBind] is [v.ctx.Bind]: the error and the form it leaves. *)
Definition Validator_Bind (ctxBind : value → option error * value) (form : value) (bind : list bool)
    (v : Validator) : Validator :=
  let shouldBind := default true (hd_error bind) in
  let '(err, form) := if shouldBind then ctxBind form else (None, form) in
  let v := with_bound form v in
  let v := match err with Some e => with_globalErrors (globalErrors v ++ [e]) v | None => v end in
  let v := with_rows false (rowsSliceVal v) (rowsPrefix v) (rowsPivotIdx v) (with_made (with_pk "" VNil (with_values ∅ v))) in
  let '(val, addressable) :=
    match form with VPtr _ (Some x) => (x, true) | VPtr _ None => (VNil, false) | x => (x, false) end in
  match val with
  | VSlice t l => bindRows t (default [] l) addressable v
  | VBytes b => bindRows (TUint KInt8) [] addressable v
  | _ =>
      match as_struct val with
      | None => v
      | Some (n, tn, fs, vs) => flattenStruct val "" (bind_pk fs vs (bind_table addressable n tn v))
      end
  end.

(** [c.Validator(val, bind...)]. *)
Definition Context_Validator (db : option DB) (ctxBind : value → option error * value) (val : value)
    (bind : list bool) : Validator :=
  let v := new_validator db in
  match val with VNil => v | _ => Validator_Bind ctxBind val bind v end.

(** ** Validate *)

Definition verdict_of (v : Validator) : option error :=
  if bool_decide (validateErrors v = ∅) then None else Some ErrValidationFailed.

Fixpoint foldM {A B} (f : A → B → ME A) (a : A) (l : list B) : ME A :=
  match l with
  | [] => mret a
  | x :: l' => a' ← f a x; foldM f a' l'
  end.

(** [if err := fn(val); err != nil { v.addError(field, err.Error()) }]. *)
Definition check (fn : RulesFunc) (field : string) (val : value) (v : Validator) : ME Validator :=
  r ← try (fn val);
  mret (match r with inl e => addError field (Error e) v | inr _ => v end).

(** [v.values[field]] of a missing field is nil. *)
Definition value_at (v : Validator) (field : string) : value := default VNil (values v !! field).

Definition run_rule (reg : gmap string rule) (field : string) (v : Validator) (r : string * string) : ME Validator :=
  match reg !! r.1 with
  | Some fn => check (fn v r.2) field (value_at v field) v
  | None => mret v
  end.
Definition run_rules (reg : gmap string rule) (v : Validator) (p : string * gmap string string) : ME Validator :=
  foldM (run_rule reg p.1) v (range p.2).
Definition run_funcs (v : Validator) (p : string * list RulesFunc) : ME Validator :=
  foldM (λ v fn, check fn p.1 (value_at v p.1) v) v p.2.

Definition validate_fields (reg : gmap string rule) (v : Validator) : ME (option error * Validator) :=
  v ← foldM (run_rules reg) v (range (parsedRules v));
  v ← foldM run_funcs v (range (customFuncs v));
  mret (verdict_of v, v).

Definition binding_errors (v : Validator) : Validator :=
  foldl (λ v p, addError ("binding_error_" +:+ pretty p.1) (Error p.2) v) v (imap (λ i e, (i, e)) (globalErrors v)).

(** [Validate] of anything but rows; a row of a rows validation is a struct, so this
    is what validates it. *)
Definition validate_struct (reg : gmap string rule) (v : Validator) : ME (option error * Validator) :=
  if bool_decide (length (globalErrors v) = 0) then validate_fields reg v
  else mret (Some ErrValidationFailed, binding_errors v).

(** The pivot fields of a row decide whether it counts. *)
Fixpoint row_empty (idx : list nat) (row : value) : ME bool :=
  match idx with
  | [] => mret true
  | i :: idx' =>
      match as_struct row with
      | None => panicM "reflect: call of reflect.Value.Field on non-struct Value"
      | Some (_, _, fs, vs) =>
          x ← liftR (field_interface fs vs i);
          if isEmpty x then row_empty idx' row else mret false
      end
  end.

Definition row_key (v : Validator) (field : string) (i : nat) : string :=
  rowsPrefix v +:+ field +:+ "_" +:+ pretty i.

Definition validate_row (reg : gmap string rule) (st : Validator * list value) (p : nat * value)
    : ME (Validator * list value) :=
  let '(v, compacted) := st in
  let '(i, row) := p in
  empty ← row_empty (rowsPivotIdx v) row;
  if empty : bool then mret (v, compacted)
  else
    let subV := Validator_Bind (λ x, (None, x)) (VPtr (rows_elem (rowsSliceVal v)) (Some row)) [false]
                  (new_validator (v_database v)) in
    '(err, subV) ← validate_struct reg subV;
    match err with
    | None => mret (v, compacted ++ [row])
    | Some _ =>
        let v := foldl (λ v p, foldl (λ v msg, addError (row_key v p.1 i) msg v) v p.2) v (range (validateErrors subV)) in
        mret (v, compacted)
    end.

Definition validateRows (reg : gmap string rule) (v : Validator) : ME (option error * Validator) :=
  let sl := rowsSliceVal v in
  '(v, compacted) ← foldM (validate_row reg) (v, []) (imap (λ i r, (i, r)) (rows_vals sl));
  if negb (rows_settable sl) then panicM "reflect: reflect.Value.Set using unaddressable value"
  else
    let v := with_rows (isRows v) (mkRows (rows_elem sl) compacted true) (rowsPrefix v) (rowsPivotIdx v) v in
    mret (verdict_of v, v).

Definition Validator_Validate (reg : gmap string rule) (v : Validator) : ME (option error * Validator) :=
  if negb (bool_decide (length (globalErrors v) = 0)) then mret (Some ErrValidationFailed, binding_errors v)
  else if isRows v then validateRows reg v
  else validate_fields reg v.

(** ** Several validators at once *)

Definition merge_errors (v : Validator) (m : gmap string (list string)) : gmap string (list string) :=
  let prefix := default "" (value_Prefix (boundVal v)) in
  let suffix := default "" (value_Suffix (boundVal v)) in
  foldl (λ m p, let key := prefix +:+ p.1 +:+ suffix in <[key := default [] (m !! key) ++ p.2]> m) m
    (range (validateErrors v)).

(** Distinct validators: the error and what each becomes. *)
Definition Validate (reg : gmap string rule) (vs : list Validator) : ME (option error * list Validator) :=
  '(hasError, merged, vs) ← foldM (λ st v,
      let '(hasError, merged, done) := st in
      '(err, v) ← Validator_Validate reg v;
      mret (hasError || bool_decide (err ≠ None), merge_errors v merged, done ++ [v])) (false, ∅, []) vs;
  if hasError : bool then
    mret (Some ErrValidationFailed,
          match vs with v0 :: vs' => with_errors merged v0 :: vs' | [] => [] end)
  else mret (None, vs).

(** The reply of [v.Errors()]. *)
Definition Validator_Errors {W SW L} `{ResponseWriter W} `{JsonEncoder} (v : Validator) : HandlerFunc W SW L :=
  APIResponse 422 "there are errors in your input, please check and try again"
    (Some (validateErrors v)) (VSlice TString (Some []));;
  mret (verdict_of v).
End Validators.
