(* ===== verification/ValidatorSafety.v ===== *)
(** * Properties of the validator *)

From S2P Require Import Prelude GoStrings GoValue HttpErr Util Session Http Context.
From S2P Require Import DbModel DbPrepared DbExec DbBuilder DbFacade Validator.
From Stdlib Require Import Ascii.
Import Strings.

(** ** Flattening as a list of leaves *)

(** The fields of a struct that are values of their own, with their keys. *)
Fixpoint leaves (prefix : string) (val : value) {struct val} : list (string * sfield * value) :=
  match val with
  | VStruct _ _ fs vs =>
      (fix go (fs : list sfield) (vs : list value) {struct vs} : list (string * sfield * value) :=
         match fs, vs with
         | f :: fs', x :: vs' =>
             let key := full_key prefix (field_key f) in
             (if negb (sf_exported f) || bool_decide (field_key f = "-") then []
              else match sf_type f, x with
                   | TPtr _, VPtr _ None => []
                   | TPtr _, VPtr _ (Some ((VStruct _ _ _ _) as d)) => leaves key d
                   | TStruct _ _ _, VStruct _ _ _ _ => leaves key x
                   | _, _ => [(key, f, x)]
                   end) ++ go fs' vs'
         | _, _ => []
         end) fs vs
  | _ => []
  end.

Definition add_leaf (v : Validator) (l : string * sfield * value) : Validator := flatten_leaf l.1.2 l.1.1 l.2 v.

(** Induction on values through pointers, structs, slices and maps. *)
Section ValueInd.
Variable P : value → Prop.
Hypothesis HStruct : ∀ n tn fs vs, Forall P vs → P (VStruct n tn fs vs).
Hypothesis HPtr : ∀ t x, P x → P (VPtr t (Some x)).
Hypothesis HRest : ∀ v, (∀ n tn fs vs, v ≠ VStruct n tn fs vs) → (∀ t x, v ≠ VPtr t (Some x)) → P v.

Fixpoint value_struct_ind (v : value) : P v.
Proof.
  destruct v as [| | | | | | | |t [x|]| | |n tn fs vs|]; try (by apply HRest).
  - apply HPtr, value_struct_ind.
  - apply HStruct. induction vs as [|x vs IH]; constructor; [apply value_struct_ind|exact IH].
Defined.
End ValueInd.

Lemma flattenStruct_leaves val prefix v :
  flattenStruct val prefix v = foldl add_leaf v (leaves prefix val).
Proof.
  revert prefix v.
  assert (∀ val, (∀ prefix v, flattenStruct val prefix v = foldl add_leaf v (leaves prefix val)) ∧
    (∀ t d prefix v, val = VPtr t (Some d) → flattenStruct d prefix v = foldl add_leaf v (leaves prefix d))) as Hall;
    [|apply Hall].
  clear val. intros val. induction val as [n tn fs vs IH|t x IH|v0 Hn Hp] using value_struct_ind.
  - split; [|done]. intros prefix v. simpl.
    revert fs v. induction IH as [|x vs [Hx Hd] _ IHvs]; intros [|f fs] v; [done..|].
    rewrite foldl_app, IHvs. f_equal.
    destruct (negb (sf_exported f) || bool_decide (field_key f = "-")); [done|].
    destruct (sf_type f), x as [| | | | | | | |? [[]|]| | | |]; try done; try (by apply (Hd _ _ _ _ eq_refl)); by apply Hx.
  - split; [done|]. intros t' d prefix v [= -> ->]. apply IH.
  - split; [|by intros t d ?? ->; destruct (Hp t d)]. intros prefix v.
    destruct v0; try done. by destruct (Hn name tablename fs vs).
Qed.

(** ** The rules of a form *)

Definition tag_rules (tag : string) : gmap string string := foldl merge_rule ∅ (Split "|"%char tag).

Definition leaf_key (l : string * sfield * value) : string := l.1.1.
Definition leaf_at (k : string) (ls : list (string * sfield * value)) : option (string * sfield * value) :=
  find_first (λ l, bool_decide (leaf_key l = k)) ls.

(** The rules a list of leaves gives a key. *)
Definition leaf_rules (l : string * sfield * value) : option (gmap string string) :=
  let tag := Tag_Get l.1.2 "validate" in if bool_decide (tag = "") then None else Some (tag_rules tag).

Lemma add_leaf_values v l k :
  values (add_leaf v l) !! k = if bool_decide (leaf_key l = k) then Some l.2 else values v !! k.
Proof.
  unfold add_leaf, flatten_leaf, leaf_key, mergeRules. destruct l as [[key f] x]. simpl.
  destruct (bool_decide (Tag_Get f "validate" = "")); simpl; case_bool_decide as Hk; by simplify_map_eq.
Qed.

Lemma add_leaf_rules v l k :
  parsedRules v !! leaf_key l = None →
  parsedRules (add_leaf v l) !! k = if bool_decide (leaf_key l = k) then leaf_rules l else parsedRules v !! k.
Proof.
  unfold add_leaf, flatten_leaf, leaf_rules, leaf_key, mergeRules. destruct l as [[key f] x]. simpl. intros Hn.
  destruct (bool_decide (Tag_Get f "validate" = "")); simpl; case_bool_decide as Hk; subst; try done.
  - by rewrite Hn, lookup_insert_eq.
  - by rewrite lookup_insert_ne.
Qed.

Lemma leaf_at_not_in k ls : k ∉ leaf_key <$> ls → leaf_at k ls = None.
Proof.
  intros Hk. apply find_first_None. intros l Hl. apply bool_decide_eq_false. intros <-. apply Hk.
  by apply list_elem_of_fmap_2.
Qed.

Lemma foldl_leaves ls v :
  NoDup (leaf_key <$> ls) → (∀ l, l ∈ ls → parsedRules v !! leaf_key l = None) →
  (∀ k, values (foldl add_leaf v ls) !! k = match leaf_at k ls with Some l => Some l.2 | None => values v !! k end) ∧
  (∀ k, parsedRules (foldl add_leaf v ls) !! k =
     match leaf_at k ls with Some l => leaf_rules l | None => parsedRules v !! k end).
Proof.
  revert v. induction ls as [|l ls IH]; intros v Hnd Hfresh; [done|].
  apply NoDup_cons in Hnd as [Hnin Hnd]. simpl.
  destruct (IH (add_leaf v l) Hnd) as [IHv IHr].
  { intros l' Hl'. rewrite add_leaf_rules by (apply Hfresh; by left). rewrite bool_decide_false.
    - apply Hfresh. by right.
    - intros Heq. apply Hnin. rewrite Heq. by apply list_elem_of_fmap_2. }
  assert (∀ k, leaf_key l = k → leaf_at k ls = None) as Hnone.
  { intros k <-. by apply leaf_at_not_in. }
  assert (∀ k, leaf_at k (l :: ls) = if bool_decide (leaf_key l = k) then Some l else leaf_at k ls) as Hat by done.
  split; intros k; rewrite Hat.
  - rewrite IHv, add_leaf_values. case_bool_decide as Hk; [by rewrite Hnone|done].
  - rewrite IHr, add_leaf_rules by (apply Hfresh; by left). case_bool_decide as Hk; [by rewrite Hnone|done].
Qed.

(** ** What a run of the rules adds *)

Section Run.
Context `{Unicode} `{Platform} `{FloatText} `{Driver} `{MapOrder} `{AddressParsers} `{AppTypes}.

Definition messages (v : Validator) (field : string) : list string := default [] (validateErrors v !! field).

(** From [v] to [v'] only the messages [P] have been added. *)
Record adds (P : string → string → Prop) (v v' : Validator) : Prop := {
  adds_rest : v' = with_errors (validateErrors v') v;
  adds_msgs f m : m ∈ messages v' f ↔ m ∈ messages v f ∨ P f m;
  adds_dom f : is_Some (validateErrors v' !! f) ↔ is_Some (validateErrors v !! f) ∨ ∃ m, P f m;
}.

Lemma with_errors_twice a b v : with_errors a (with_errors b v) = with_errors a v.
Proof. done. Qed.
Lemma with_errors_id v : with_errors (validateErrors v) v = v.
Proof. by destruct v. Qed.

Lemma adds_refl v (P : string → string → Prop) : (∀ f m, ¬ P f m) → adds P v v.
Proof.
  intros Hno. split.
  - by rewrite with_errors_id.
  - intros f m. split; [by left|]. by intros [?|[]%Hno].
  - intros f. split; [by left|]. by intros [?|[m []%Hno]].
Qed.

Lemma adds_trans P Q v v1 v2 : adds P v v1 → adds Q v1 v2 → adds (λ f m, P f m ∨ Q f m) v v2.
Proof.
  intros [R1 M1 D1] [R2 M2 D2]. split.
  - rewrite R2. rewrite R1. by rewrite with_errors_twice.
  - intros f m. rewrite M2, M1. tauto.
  - intros f. rewrite D2, D1. split; [intros [[?|[m ?]]|[m ?]]; eauto|intros [?|[m [?|?]]]; eauto].
Qed.

Lemma adds_equiv (P Q : string → string → Prop) v v' : (∀ f m, P f m ↔ Q f m) → adds P v v' → adds Q v v'.
Proof. intros HPQ [R1 M1 D1]. split; [done| |]; intros; [rewrite M1|rewrite D1]; by setoid_rewrite HPQ. Qed.

Lemma adds_message field msg v : adds (λ f m, f = field ∧ m = msg) v (addError field msg v).
Proof.
  split; [done| |].
  - intros f m. unfold messages, addError, add_message. simpl.
    destruct (decide (f = field)) as [->|Hne].
    + rewrite lookup_insert_eq. simpl. rewrite elem_of_app, list_elem_of_singleton. naive_solver.
    + rewrite lookup_insert_ne by done. naive_solver.
  - intros f. unfold addError, add_message. simpl. destruct (decide (f = field)) as [->|Hne].
    + rewrite lookup_insert_eq. split; [right; eauto|by eexists].
    + rewrite lookup_insert_ne by done. naive_solver.
Qed.

(** A rule that only looks at its value. *)
Definition judged (fn : RulesFunc) (j : value → option error) : Prop :=
  ∀ val w, fn val w = (Ret (match j val with Some e => inl e | None => inr () end), w).

Lemma check_adds fn j field val v w :
  judged fn j →
  ∃ v', check fn field val v w = (Ret (inr v'), w) ∧ adds (λ f m, f = field ∧ ∃ e, j val = Some e ∧ m = Error e) v v'.
Proof.
  intros Hj. unfold check, try, mbind, ME_bind. rewrite Hj. destruct (j val) as [e|].
  - eexists. split; [done|]. eapply adds_equiv, adds_message. naive_solver.
  - exists v. split; [done|]. apply adds_refl. naive_solver.
Qed.

(** A loop whose every step adds something to a validator like [v0]. *)
Lemma foldM_adds {B} (step : Validator → B → ME Validator) (P : B → string → string → Prop) (l : list B) v0 w :
  (∀ x v, x ∈ l → v = with_errors (validateErrors v) v0 →
     ∃ v', step v x w = (Ret (inr v'), w) ∧ adds (P x) v v') →
  ∀ v, v = with_errors (validateErrors v) v0 →
    ∃ v', foldM step v l w = (Ret (inr v'), w) ∧ adds (λ f m, ∃ x, x ∈ l ∧ P x f m) v v'.
Proof.
  induction l as [|x l IH]; intros Hstep v Hv.
  { exists v. split; [done|]. apply adds_refl. intros f m (x & Hx & _). by apply elem_of_nil in Hx. }
  destruct (Hstep x v) as (v1 & Hs1 & A1); [by left|done|].
  destruct IH with (v := v1) as (v2 & Hs2 & A2).
  { intros y u Hy. apply Hstep. by right. }
  { destruct A1 as [R1 _ _]. rewrite R1 at 1. rewrite Hv. done. }
  exists v2. cbn [foldM]. unfold mbind, ME_bind. rewrite Hs1. split; [done|].
  eapply adds_equiv, adds_trans; [|done..]. intros f m. setoid_rewrite elem_of_cons. naive_solver.
Qed.

(** ** Validate *)

Section Judged.
Context (reg : gmap string rule) (judge : string → string → value → option error)
  (judgeF : RulesFunc → value → option error).

Definition judged_rules : Prop := ∀ n (fn : rule) v p, reg !! n = Some fn → judged (fn v p) (judge n p).
Definition judged_funcs (v : Validator) : Prop :=
  ∀ field fns fn, customFuncs v !! field = Some fns → fn ∈ fns → judged fn (judgeF fn).

(** A registered rule, or a function of the application, rejects a field. *)
Definition rule_fails (v : Validator) (field msg : string) : Prop :=
  ∃ rules n p e, parsedRules v !! field = Some rules ∧ rules !! n = Some p ∧ is_Some (reg !! n) ∧
    judge n p (value_at v field) = Some e ∧ msg = Error e.
Definition func_fails (v : Validator) (field msg : string) : Prop :=
  ∃ fns fn e, customFuncs v !! field = Some fns ∧ fn ∈ fns ∧ judgeF fn (value_at v field) = Some e ∧ msg = Error e.

Lemma value_at_rest v v0 field : v = with_errors (validateErrors v) v0 → value_at v field = value_at v0 field.
Proof. by intros ->. Qed.

Lemma run_rules_adds v0 v field rules w :
  judged_rules → v = with_errors (validateErrors v) v0 →
  ∃ v', run_rules reg v (field, rules) w = (Ret (inr v'), w) ∧
    adds (λ f m, f = field ∧ ∃ n p e, rules !! n = Some p ∧ is_Some (reg !! n) ∧
      judge n p (value_at v0 field) = Some e ∧ m = Error e) v v'.
Proof.
  intros Hj Hv. unfold run_rules. simpl.
  destruct (foldM_adds (run_rule reg field) (λ r f m, f = field ∧ ∃ e, is_Some (reg !! r.1) ∧
    judge r.1 r.2 (value_at v0 field) = Some e ∧ m = Error e) (range rules) v0 w) with (v := v) as (v' & Hr & Ha);
    [|done|].
  - intros [n p] u Hin Hu. unfold run_rule. simpl. destruct (reg !! n) as [fn|] eqn:Hn.
    + destruct (check_adds (fn u p) (judge n p) field (value_at u field) u w) as (u' & Hc & Hau); [by apply Hj|].
      exists u'. split; [done|]. eapply adds_equiv, Hau. intros f m. rewrite (value_at_rest u v0 field Hu). naive_solver.
    + exists u. split; [done|]. apply adds_refl. intros f m (_ & e & [x [=]] & _).
  - exists v'. split; [done|]. eapply adds_equiv, Ha. intros f m. split.
    + intros ([n p] & Hin & -> & e & Hs & Hje & ->). apply elem_of_range in Hin. naive_solver.
    + intros (-> & n & p & e & Hin & Hs & Hje & ->). exists (n, p). rewrite elem_of_range. naive_solver.
Qed.

Lemma run_funcs_adds v0 v field fns w :
  (∀ fn, fn ∈ fns → judged fn (judgeF fn)) → v = with_errors (validateErrors v) v0 →
  ∃ v', run_funcs v (field, fns) w = (Ret (inr v'), w) ∧
    adds (λ f m, f = field ∧ ∃ fn e, fn ∈ fns ∧ judgeF fn (value_at v0 field) = Some e ∧ m = Error e) v v'.
Proof.
  intros Hj Hv. unfold run_funcs. simpl.
  destruct (foldM_adds (λ v fn, check fn field (value_at v field) v)
    (λ fn f m, f = field ∧ ∃ e, judgeF fn (value_at v0 field) = Some e ∧ m = Error e) fns v0 w)
    with (v := v) as (v' & Hr & Ha); [|done|].
  - intros fn u Hin Hu.
    destruct (check_adds fn (judgeF fn) field (value_at u field) u w) as (u' & Hc & Hau); [by apply Hj|].
    exists u'. split; [done|]. eapply adds_equiv, Hau. intros f m. by rewrite (value_at_rest u v0 field Hu).
  - exists v'. split; [done|]. eapply adds_equiv, Ha. naive_solver.
Qed.

Lemma validate_fields_adds v w :
  judged_rules → judged_funcs v →
  ∃ v', validate_fields reg v w = (Ret (inr (verdict_of v', v')), w) ∧
    adds (λ f m, rule_fails v f m ∨ func_fails v f m) v v'.
Proof.
  intros Hj Hf. unfold validate_fields.
  destruct (foldM_adds (run_rules reg) (λ p f m, f = p.1 ∧ ∃ n q e, p.2 !! n = Some q ∧ is_Some (reg !! n) ∧
      judge n q (value_at v p.1) = Some e ∧ m = Error e) (range (parsedRules v)) v w) with (v := v)
    as (v1 & Hr1 & A1); [|by rewrite with_errors_id|].
  { intros [field rules] u _ Hu. by apply run_rules_adds. }
  destruct (foldM_adds run_funcs (λ p f m, f = p.1 ∧ ∃ fn e, fn ∈ p.2 ∧ judgeF fn (value_at v p.1) = Some e ∧
      m = Error e) (range (customFuncs v1)) v w) with (v := v1) as (v2 & Hr2 & A2); [|by destruct A1|].
  { intros [field fns] u Hin Hu. apply elem_of_range in Hin. destruct A1 as [R1 _ _]. rewrite R1 in Hin.
    apply run_funcs_adds; [|done]. intros fn Hfn. by apply (Hf field fns). }
  exists v2. unfold mbind, ME_bind. rewrite Hr1, Hr2. split; [done|].
  assert (customFuncs v1 = customFuncs v) as Hcf by (destruct A1 as [-> _ _]; done).
  eapply adds_equiv, adds_trans; [|done..]. intros f m. rewrite Hcf. unfold rule_fails, func_fails. split.
  - intros [([field rules] & Hin & -> & Hr)|([field fns] & Hin & -> & Hr)]; apply elem_of_range in Hin; naive_solver.
  - intros [(rules & n & p & e & Hin & Hr)|(fns & fn & e & Hin & Hr)]; [left|right].
    + exists (f, rules). rewrite elem_of_range. naive_solver.
    + exists (f, fns). rewrite elem_of_range. naive_solver.
Qed.

Lemma verdict_adds P v v' :
  adds P v v' → verdict_of v' = None ↔ validateErrors v = ∅ ∧ ∀ f m, ¬ P f m.
Proof.
  intros [_ _ D]. unfold verdict_of. case_bool_decide as He; split; try done.
  - intros _. split.
    + apply map_empty. intros f. destruct (validateErrors v !! f) eqn:E; [|done].
      assert (is_Some (validateErrors v' !! f)) as [y Hy] by (apply D; left; eauto). by rewrite He in Hy.
    + intros f m HP. assert (is_Some (validateErrors v' !! f)) as [y Hy] by (apply D; right; eauto).
      by rewrite He in Hy.
  - intros [Hv Hno]. destruct He. apply map_empty. intros f. destruct (validateErrors v' !! f) eqn:E; [|done].
    destruct (proj1 (D f)) as [[y Hy]|[m Hm]]; [eauto|by rewrite Hv in Hy|by destruct (Hno f m)].
Qed.


(** ** A form, from its tags to the verdict *)

(** The error and the form of [Bind] with its optional argument. *)
Definition bound_form (ctxBind : value → option error * value) (form : value) (bind : list bool)
    : option error * value :=
  if default true (hd_error bind) then ctxBind form else (None, form).

Lemma bind_struct_rest ctxBind t form err n tn fs vs bind v :
  bound_form ctxBind form bind = (err, VPtr t (Some (VStruct n tn fs vs))) →
  validateErrors v = ∅ → globalErrors v = [] → parsedRules v = ∅ → customFuncs v = ∅ →
  ∃ v0, Validator_Bind ctxBind form bind v = foldl add_leaf v0 (leaves "" (VStruct n tn fs vs)) ∧
    values v0 = ∅ ∧ parsedRules v0 = ∅ ∧ validateErrors v0 = ∅ ∧ globalErrors v0 = option_list err ∧ isRows v0 = false ∧
    customFuncs v0 = ∅.
Proof.
  intros Hb He Hg Hp Hc. unfold Validator_Bind, bound_form in *. rewrite Hb. cbn [as_struct].
  eexists. split; [apply flattenStruct_leaves|].
  unfold bind_pk, bind_table. destruct err; destruct (find_first _ _) as [[f x]|]; destruct (negb _); simpl; by rewrite ?Hg.
Qed.

Lemma foldl_leaves_rest ls v :
  validateErrors (foldl add_leaf v ls) = validateErrors v ∧ globalErrors (foldl add_leaf v ls) = globalErrors v ∧
  isRows (foldl add_leaf v ls) = isRows v ∧ customFuncs (foldl add_leaf v ls) = customFuncs v.
Proof.
  revert v. induction ls as [|l ls IH]; intros v; [done|]. simpl. destruct (IH (add_leaf v l)) as (-> & -> & -> & ->).
  unfold add_leaf, flatten_leaf, mergeRules. by destruct (bool_decide _).
Qed.

(** A leaf satisfies the registered rules of its tag. *)
Definition leaf_ok (l : string * sfield * value) : Prop :=
  ∀ n p, tag_rules (Tag_Get l.1.2 "validate") !! n = Some p → is_Some (reg !! n) → judge n p l.2 = None.

Lemma binding_errors_some v e : globalErrors v = [e] → verdict_of (binding_errors v) = Some ErrValidationFailed.
Proof.
  intros Hg. unfold binding_errors. rewrite Hg. simpl. unfold verdict_of. rewrite bool_decide_false; [done|].
  apply insert_non_empty.
Qed.

Lemma bound_form_verdict ctxBind t form err n tn fs vs bind db w :
  judged_rules → NoDup (leaf_key <$> leaves "" (VStruct n tn fs vs)) →
  bound_form ctxBind form bind = (err, VPtr t (Some (VStruct n tn fs vs))) →
  let v := Validator_Bind ctxBind form bind (new_validator db) in
  ∃ v', Validator_Validate reg v w = (Ret (inr (verdict_of v', v')), w) ∧
    (verdict_of v' = None ↔ err = None ∧ Forall leaf_ok (leaves "" (VStruct n tn fs vs))).
Proof.
  intros Hj Hnd Hbound v.
  destruct (bind_struct_rest ctxBind t form err n tn fs vs bind (new_validator db) Hbound eq_refl eq_refl eq_refl eq_refl)
    as (v0 & Hv & Hvals & Hpr & Hve & Hge & Hir & Hcf). fold v in Hv. clearbody v. subst v.
  set (ls := leaves "" (VStruct n tn fs vs)) in *.
  destruct (foldl_leaves ls v0 Hnd) as [Hval Hrul]; [by rewrite Hpr|].
  destruct (foldl_leaves_rest ls v0) as (He' & Hg' & Hi' & Hc').
  set (v := foldl add_leaf v0 ls) in *. rewrite Hve in He'. rewrite Hge in Hg'. rewrite Hir in Hi'. rewrite Hcf in Hc'.
  destruct err as [e|].
  { exists (binding_errors v). unfold Validator_Validate. rewrite Hg'. simpl. rewrite (binding_errors_some v e Hg').
    split; [done|]. split; [done|]. by intros []. }
  assert (judged_funcs v) as Hjf by (intros field fns fn Hl; by rewrite Hc' in Hl).
  destruct (validate_fields_adds v w Hj Hjf) as (v' & Hr & Ha). exists v'.
  split. { unfold Validator_Validate. rewrite Hg', Hi'. exact Hr. }
  rewrite (verdict_adds _ _ _ Ha), Forall_forall.
  assert (∀ l, l ∈ ls → leaf_at (leaf_key l) ls = Some l) as Hat.
  { intros l Hl. unfold leaf_at. destruct (find_first _ ls) as [l'|] eqn:E.
    - apply find_first_Some in E as [Hl' Hk]. apply bool_decide_eq_true in Hk. f_equal.
      by eapply (NoDup_fmap_inj leaf_key).
    - rewrite find_first_None in E. specialize (E l Hl). by rewrite bool_decide_true in E. }
  split.
  - intros [_ Hno]. split; [done|]. intros l Hl m p Hm Hreg. destruct (judge m p l.2) as [e|] eqn:Ej; [|done]. exfalso.
    apply (Hno (leaf_key l) (Error e)). left. exists (tag_rules (Tag_Get l.1.2 "validate")), m, p, e.
    rewrite Hrul, (Hat l Hl). unfold value_at. rewrite Hval, (Hat l Hl). unfold leaf_rules.
    case_bool_decide as Ht; [|done]. by rewrite Ht in Hm.
  - intros [_ Hok]. split; [done|]. intros field msg [(rules & m & p & e & Hru & Hm & Hreg & Hje & _)|Hff].
    + rewrite Hrul in Hru. destruct (leaf_at field ls) as [l|] eqn:E; [|by rewrite Hpr in Hru].
      unfold value_at in Hje. rewrite Hval, E in Hje. simpl in Hje.
      apply find_first_Some in E as [Hl _]. unfold leaf_rules in Hru. case_bool_decide as Ht; [done|].
      injection Hru as <-. specialize (Hok l Hl m p Hm Hreg). congruence.
    + destruct Hff as (fns & fn & e & Hl & _). by rewrite Hc' in Hl.
Qed.

(** A form is accepted exactly when it was read without an error and its fields
    satisfy their tags: for a struct whose fields, those of nested structs included,
    have distinct keys, a new validator bound to it accepts it if and only if binding
    gave no error and every leaf satisfies every registered rule of its [validate]
    tag.  A nil pointer is not a leaf: its rules are not run. *)
Theorem form_accepted_iff_tags_hold ctxBind t form err n tn fs vs bind db w :
  judged_rules → NoDup (leaf_key <$> leaves "" (VStruct n tn fs vs)) →
  bound_form ctxBind form bind = (err, VPtr t (Some (VStruct n tn fs vs))) →
  let v := Validator_Bind ctxBind form bind (new_validator db) in
  ∃ v', Validator_Validate reg v w = (Ret (inr (verdict_of v', v')), w) ∧
    (verdict_of v' = None ↔ err = None ∧ Forall leaf_ok (leaves "" (VStruct n tn fs vs))).
Proof. apply bound_form_verdict. Qed.

(** ** Rows *)

Lemma foldl_adds {B} (step : Validator → B → Validator) (P : B → string → string → Prop) (l : list B) v0 v :
  (∀ x v, x ∈ l → v = with_errors (validateErrors v) v0 → adds (P x) v (step v x)) →
  v = with_errors (validateErrors v) v0 → adds (λ f m, ∃ x, x ∈ l ∧ P x f m) v (foldl step v l).
Proof.
  revert v. induction l as [|x l IH]; intros v Hstep Hv.
  { apply adds_refl. intros f m (x & Hx & _). by apply elem_of_nil in Hx. }
  assert (adds (P x) v (step v x)) as A1 by (apply Hstep; [by left|done]).
  eapply adds_equiv, adds_trans; [|done|].
  2:{ apply IH; [intros y u Hy; apply Hstep; by right|]. destruct A1 as [R1 _ _]. rewrite R1 at 1. by rewrite Hv. }
  intros f m. setoid_rewrite elem_of_cons. naive_solver.
Qed.

(** The row has every pivot field, and they are exported. *)
Definition row_ok (idx : list nat) (row : value) : Prop :=
  ∃ n tn fs vs, row = VStruct n tn fs vs ∧
    ∀ i, i ∈ idx → ∃ f x, fs !! i = Some f ∧ vs !! i = Some x ∧ sf_exported f = true.

(** Some pivot field is not empty. *)
Definition row_counts (idx : list nat) (row : value) : bool :=
  match row with
  | VStruct _ _ _ vs => existsb (λ i, match vs !! i with Some x => negb (isEmpty x) | None => false end) idx
  | _ => false
  end.

Lemma row_empty_counts idx row w : row_ok idx row → row_empty idx row w = (Ret (inr (negb (row_counts idx row))), w).
Proof.
  intros (n & tn & fs & vs & -> & Hidx). induction idx as [|i idx IH]; [done|].
  destruct (Hidx i) as (f & x & Hf & Hx & He); [by left|]. cbn [row_empty as_struct].
  unfold mbind, ME_bind, liftR, field_interface, field_at. rewrite Hf, Hx. cbn. rewrite He, Hx.
  destruct (isEmpty x) eqn:E; cbn; rewrite ?E; [|done]. apply IH. intros j Hj. apply Hidx. by right.
Qed.

Definition row_validator (v : Validator) (row : value) : Validator :=
  Validator_Bind (λ x, (None, x)) (VPtr (rows_elem (rowsSliceVal v)) (Some row)) [false] (new_validator (v_database v)).

(** What the rules say of a row. *)
Definition row_valid (v : Validator) (row : value) : Prop :=
  ∀ f m, ¬ rule_fails (row_validator v row) f m.

Lemma row_validated v idx row w :
  judged_rules → row_ok idx row →
  ∃ v', validate_struct reg (row_validator v row) w = (Ret (inr (verdict_of v', v')), w) ∧
    adds (rule_fails (row_validator v row)) (row_validator v row) v' ∧ validateErrors (row_validator v row) = ∅.
Proof.
  intros Hj (n & tn & fs & vs & -> & _).
  destruct (bind_struct_rest (λ x, (None, x)) (rows_elem (rowsSliceVal v)) _ None n tn fs vs [false]
    (new_validator (v_database v)) eq_refl eq_refl eq_refl eq_refl eq_refl)
    as (v0 & Hv & _ & _ & Hve & Hge & _ & Hcf). unfold row_validator. rewrite Hv.
  destruct (foldl_leaves_rest (leaves "" (VStruct n tn fs vs)) v0) as (He' & Hg' & _ & Hc').
  rewrite Hve in He'. rewrite Hge in Hg'. rewrite Hcf in Hc'.
  set (u := foldl add_leaf v0 _) in *.
  destruct (validate_fields_adds u w Hj) as (v' & Hr & Ha); [by intros field fns fn Hl; rewrite Hc' in Hl|].
  exists v'. unfold validate_struct. rewrite Hg'. split; [done|]. split; [|done].
  eapply adds_equiv, Ha. intros f m. split; [|by left]. intros [?|(fns & fn & e & Hl & _)]; [done|]. by rewrite Hc' in Hl.
Qed.

Definition row_accepted (w : world) (v : Validator) (row : value) : bool :=
  match validate_struct reg (row_validator v row) w with (Ret (inr (None, _)), _) => true | _ => false end.

Lemma row_accepted_valid v idx row w :
  judged_rules → row_ok idx row → row_accepted w v row = true ↔ row_valid v row.
Proof.
  intros Hj Hok. destruct (row_validated v idx row w Hj Hok) as (v' & Hr & Ha & He). unfold row_accepted. rewrite Hr.
  pose proof (verdict_adds _ _ _ Ha) as Hv. destruct (verdict_of v') as [e|].
  - split; [done|]. intros Hval. discriminate (proj2 Hv (conj He Hval)).
  - split; [|done]. intros _. exact (proj2 (proj1 Hv eq_refl)).
Qed.

(** The messages of a row under the keys of the rows. *)
Definition row_fails (v : Validator) (i : nat) (row : value) (f m : string) : Prop :=
  row_counts (rowsPivotIdx v) row = true ∧ ∃ field, f = row_key v field i ∧ rule_fails (row_validator v row) field m.

(** One row: kept when it counts and is valid, reported when it counts and is not. *)
Lemma validate_row_spec v0 v acc i row w :
  judged_rules → row_ok (rowsPivotIdx v0) row → v = with_errors (validateErrors v) v0 →
  ∃ v', validate_row reg (v, acc) (i, row) w =
      (Ret (inr (v', if row_counts (rowsPivotIdx v0) row && row_accepted w v0 row then acc ++ [row] else acc)), w) ∧
    adds (row_fails v0 i row) v v'.
Proof.
  intros Hj Hok Hv. unfold validate_row, mbind, ME_bind.
  assert (rowsPivotIdx v = rowsPivotIdx v0) as -> by (by rewrite Hv).
  rewrite row_empty_counts by done.
  assert (Validator_Bind (λ x, (None, x)) (VPtr (rows_elem (rowsSliceVal v)) (Some row)) [false]
    (new_validator (v_database v)) = row_validator v0 row) as -> by (by rewrite Hv).
  destruct (row_counts (rowsPivotIdx v0) row) eqn:Hcnt; cbn [negb].
  2:{ exists v. split; [done|]. apply adds_refl. intros f m [Hc _]. by rewrite Hcnt in Hc. }
  destruct (row_validated v0 (rowsPivotIdx v0) row w Hj Hok) as (sv & Hr & Ha & He).
  pose proof (row_accepted_valid v0 _ row w Hj Hok) as Hacc. pose proof (verdict_adds _ _ _ Ha) as Hvd.
  unfold row_accepted in *. rewrite Hr in *. cbn [andb].
  destruct (verdict_of sv) as [e|].
  - eexists. split; [done|].
    eapply adds_equiv; [|apply (foldl_adds _ (λ p f m, f = row_key v0 p.1 i ∧ m ∈ p.2) _ v0); [|done]].
    + intros f m. unfold row_fails. rewrite Hcnt. split.
      * intros ([field msgs] & Hin & -> & Hm). apply elem_of_range in Hin. split; [done|]. exists field. split; [done|].
        assert (m ∈ messages sv field) as Hms by (unfold messages; by rewrite Hin).
        apply (adds_msgs _ _ _ Ha) in Hms as [Hms|?]; [|done]. unfold messages in Hms. rewrite He in Hms.
        by apply elem_of_nil in Hms.
      * intros (_ & field & -> & Hrf). assert (m ∈ messages sv field) as Hms by (apply (adds_msgs _ _ _ Ha); by right).
        unfold messages in Hms. destruct (validateErrors sv !! field) as [msgs|] eqn:E; [|by apply elem_of_nil in Hms].
        exists (field, msgs). rewrite elem_of_range. done.
    + intros [field msgs] u Hin Hu.
      eapply adds_equiv; [|apply (foldl_adds _ (λ msg f m, f = row_key v0 field i ∧ m = msg) msgs v0); [|done]].
      * naive_solver.
      * intros msg u' _ Hu'. cbn [fst]. assert (row_key u' field i = row_key v0 field i) as -> by (by rewrite Hu').
        apply adds_message.
  - exists v. split; [done|]. apply adds_refl. intros f m (_ & field & _ & Hrf).
    by destruct (proj1 Hvd eq_refl) as [_ Hno]; apply (Hno field m).
Qed.

Lemma validate_rows_fold v0 v acc (rows : list (nat * value)) w :
  judged_rules → (∀ p, p ∈ rows → row_ok (rowsPivotIdx v0) p.2) → v = with_errors (validateErrors v) v0 →
  ∃ v', foldM (validate_row reg) (v, acc) rows w =
      (Ret (inr (v', acc ++ List.filter (λ row, row_counts (rowsPivotIdx v0) row && row_accepted w v0 row) rows.*2)), w) ∧
    adds (λ f m, ∃ p, p ∈ rows ∧ row_fails v0 p.1 p.2 f m) v v'.
Proof.
  revert v acc. induction rows as [|[i row] rows IH]; intros v acc Hj Hrows Hv.
  { exists v. split; [by rewrite app_nil_r|]. apply adds_refl. intros f m (p & Hp & _). by apply elem_of_nil in Hp. }
  destruct (validate_row_spec v0 v acc i row w Hj (Hrows (i, row) ltac:(by left)) Hv) as (v1 & Hr1 & A1).
  destruct (IH v1 (if row_counts (rowsPivotIdx v0) row && row_accepted w v0 row then acc ++ [row] else acc) Hj)
    as (v2 & Hr2 & A2).
  { intros p Hp. apply Hrows. by right. }
  { destruct A1 as [R1 _ _]. rewrite R1 at 1. by rewrite Hv. }
  exists v2. cbn [foldM]. unfold mbind, ME_bind. rewrite Hr1, Hr2. split.
  - cbn [fmap list_fmap List.filter snd]. destruct (_ && _); [|done]. by rewrite <-app_assoc.
  - eapply adds_equiv, adds_trans; [|done..]. intros f m. setoid_rewrite elem_of_cons. naive_solver.
Qed.

(** Validating rows keeps, in order, exactly the rows that have a pivot field
    set and pass their rules, and writes them back into the slice; every message is
    that of a failing rule of such a row, under the rows' prefix, the field and the
    row's position; the verdict is nil if and only if every row that counts is
    valid. *)
Theorem rows_compacted v w :
  judged_rules → isRows v = true → globalErrors v = [] → rows_settable (rowsSliceVal v) = true →
  (∀ row, row ∈ rows_vals (rowsSliceVal v) → row_ok (rowsPivotIdx v) row) →
  ∃ v', Validator_Validate reg v w = (Ret (inr (verdict_of v', v')), w) ∧
    rows_vals (rowsSliceVal v') =
      List.filter (λ row, row_counts (rowsPivotIdx v) row && row_accepted w v row) (rows_vals (rowsSliceVal v)) ∧
    (∀ f m, m ∈ messages v' f ↔ m ∈ messages v f ∨
       ∃ i row, rows_vals (rowsSliceVal v) !! i = Some row ∧ row_fails v i row f m) ∧
    (verdict_of v' = None ↔ validateErrors v = ∅ ∧
       ∀ row, row ∈ rows_vals (rowsSliceVal v) → row_counts (rowsPivotIdx v) row = true → row_valid v row).
Proof.
  intros Hj Hir Hge Hset Hrows.
  set (rows := imap (λ i r, (i, r)) (rows_vals (rowsSliceVal v))).
  assert (∀ p : nat * value, p ∈ rows ↔ rows_vals (rowsSliceVal v) !! p.1 = Some p.2) as Hin.
  { intros [i r]. unfold rows. rewrite elem_of_lookup_imap. simpl. naive_solver. }
  destruct (validate_rows_fold v v [] rows w) as (v1 & Hr & A); [done| |by rewrite with_errors_id|].
  { intros [i r] Hp. apply Hin in Hp. apply Hrows. by eapply list_elem_of_lookup_2. }
  assert (rows.*2 = rows_vals (rowsSliceVal v)) as Hsnd.
  { unfold rows. generalize (rows_vals (rowsSliceVal v)). intros l. rewrite fmap_imap.
    apply list_eq. intros i. rewrite list_lookup_imap. by destruct (l !! i). }
  rewrite Hsnd in Hr. simpl in Hr.
  eexists. split.
  { unfold Validator_Validate. rewrite Hge, Hir. rewrite bool_decide_true by done. cbn [negb].
    unfold validateRows, mbind, ME_bind. fold rows. rewrite Hr, Hset. reflexivity. }
  split; [done|]. split.
  - intros f m. change (m ∈ messages v1 f ↔ m ∈ messages v f ∨
       ∃ i row, rows_vals (rowsSliceVal v) !! i = Some row ∧ row_fails v i row f m).
    rewrite (adds_msgs _ _ _ A). f_equiv. split.
    + intros ([i r] & Hi & Hf). apply Hin in Hi. eauto.
    + intros (i & r & Hi & Hf). exists (i, r). by rewrite Hin.
  - change (verdict_of v1 = None ↔ validateErrors v = ∅ ∧
       ∀ row, row ∈ rows_vals (rowsSliceVal v) → row_counts (rowsPivotIdx v) row = true → row_valid v row).
    rewrite (verdict_adds _ _ _ A). f_equiv. split.
    + intros Hno row [i Hi]%list_elem_of_lookup Hc f m Hf. apply (Hno (row_key v f i) m).
      exists (i, row). split; [by apply Hin|]. split; [done|]. by exists f.
    + intros Hall f m ([i row] & Hi & Hc & field & _ & Hf). apply Hin in Hi.
      by apply (Hall row (list_elem_of_lookup_2 _ _ _ Hi) Hc field m).
Qed.
End Judged.

(** ** The rules of the package *)

(** Every rule of the package but [unique] looks only at its value. *)
Definition value_rules : gmap string rule := delete "unique" builtin_rules.

Definition rule_verdict (fn : rule) (p : string) (val : value) : option error :=
  match (fn (new_validator None) p val world0).1 with Ret (inl e) => Some e | _ => None end.
Definition run_judge (reg : gmap string rule) (n p : string) (val : value) : option error :=
  match (reg !! n : option rule) with Some fn => rule_verdict fn p val | None => None end.

Lemma judged_run (fn : rule) v p :
  (∀ v1 v2 val w1 w2, fn v1 p val w1 = ((fn v2 p val w2).1, w1) ∧ ∃ r, (fn v2 p val w2).1 = Ret r) →
  judged (fn v p) (rule_verdict fn p).
Proof.
  intros Hfn val w. unfold rule_verdict. destruct (Hfn v (new_validator None) val w world0) as [-> [[e|[]] ->]]; done.
Qed.

Lemma value_rules_judged : judged_rules value_rules (run_judge value_rules).
Proof.
  intros n fn v p Hn. change (@lookup string rule _ _ n value_rules = Some fn) in Hn. unfold run_judge. rewrite Hn. apply judged_run. intros v1 v2 val w1 w2.
  unfold value_rules in Hn. apply lookup_delete_Some in Hn as [Hu Hn]. apply elem_of_list_to_map_2 in Hn.
  assert (∀ m : ME unit, (∃ r, ∀ w, m w = (Ret r, w)) → m w1 = ((m w2).1, w1) ∧ ∃ r, (m w2).1 = Ret r) as Hpure.
  { intros m (r & Hm). rewrite !Hm. eauto. }
  assert (∀ msg, ∃ r, ∀ w, reject msg w = (Ret r, w)) as Hrej by (by eexists).
  assert (∃ r, ∀ w, accept w = (Ret r, w)) as Hacc by (by eexists).
  assert (∀ sk chk msg u1 u2, fn = length_rule sk chk msg → fn u1 p val = fn u2 p val ∧
    ∃ r, ∀ w, fn u2 p val w = (Ret r, w)) as Hlen.
  { intros sk chk msg u1 u2 ->. split; [done|]. unfold length_rule. destruct val; auto. destruct (sk s); auto.
    destruct (Strconv.Atoi p) as [z [|]]; auto. destruct (chk _ _); auto. }
  repeat (apply elem_of_cons in Hn as [[= -> ->]|Hn]); try done; try (by apply elem_of_nil in Hn);
    try (destruct (Hlen _ _ _ v1 v2 eq_refl) as [-> Hr]; by apply Hpure).
  all: match goal with |- ?f _ _ _ _ = _ ∧ _ => change (f v1 p val) with (f v2 p val) end; apply Hpure.
  - unfold valRequired. destruct val as [| | | | |[]| | |? []| | | |]; auto; destruct (isEmpty _); auto.
  - unfold valEmail. destruct (isEmpty val); auto. destruct val; auto. destruct (ParseAddress s); auto. by destruct (bool_decide _).
  - unfold valUrl. destruct (isEmpty val); auto. destruct val; auto. destruct (ParseRequestURI s); auto. by destruct (bool_decide _).
  - unfold valNumeric. destruct (isEmpty val); auto. destruct val; auto. by destruct (ParseFloat s).
  - unfold valSecPass. destruct val; auto. destruct (String.length s <? 8)%nat; auto.
    destruct (foldl _ _ _) as [[[a b] c] d]. destruct (a && b && c && d); auto.
Qed.

(** A password passes [secpass] exactly when it has eight bytes and a character of
    each of the four classes. *)
Lemma symbol_classes c :
  rune_symbol c = true → rune_upper c = false ∧ rune_lower c = false ∧ rune_number c = false.
Proof.
  unfold rune_symbol. rewrite bool_decide_eq_true. intros Hc. vm_compute in Hc.
  repeat (apply elem_of_cons in Hc as [->|Hc]; [done|]). by apply elem_of_nil in Hc.
Qed.

Lemma rune_classes c :
  (rune_upper c = true → rune_lower c = false ∧ rune_number c = false) ∧
  (rune_lower c = true → rune_number c = false).
Proof. unfold rune_upper, rune_lower, rune_number, rune_in. split; intros; to_prop; try split; lia. Qed.

Lemma see_runes l fl :
  foldl see_rune fl l =
  (fl.1.1.1 || existsb rune_upper l, fl.1.1.2 || existsb rune_lower l,
   fl.1.2 || existsb rune_number l, fl.2 || existsb rune_symbol l).
Proof.
  revert fl. induction l as [|c l IH]; intros [[[up lo] nu] sy]; simpl; [by rewrite !orb_false_r|].
  rewrite IH. pose proof (symbol_classes c) as Hs. pose proof (rune_classes c) as [Hu Hl].
  destruct (rune_upper c), (rune_lower c), (rune_number c), (rune_symbol c); simpl;
    try (by destruct (Hu eq_refl)); try discriminate (Hl eq_refl); try (by destruct (Hs eq_refl) as (? & ? & ?));
    by rewrite ?orb_true_r, ?orb_true_l.
Qed.

Lemma secpass_spec v p s w :
  (valSecPass v p (VString s) w).1 = Ret (inr ()) ↔
  8 ≤ String.length s ∧ (∃ c, c ∈ Utf8.runes s ∧ rune_upper c = true) ∧ (∃ c, c ∈ Utf8.runes s ∧ rune_lower c = true) ∧
  (∃ c, c ∈ Utf8.runes s ∧ rune_number c = true) ∧ (∃ c, c ∈ Utf8.runes s ∧ rune_symbol c = true).
Proof.
  assert (∀ f, (∃ c, c ∈ Utf8.runes s ∧ f c = true) ↔ existsb f (Utf8.runes s) = true) as Hex.
  { intros f. rewrite existsb_exists. by setoid_rewrite list_elem_of_In. }
  rewrite !Hex. unfold valSecPass. destruct (Nat.ltb_spec (String.length s) 8); [split; [done|lia]|].
  rewrite see_runes. simpl.
  destruct (existsb rune_upper _), (existsb rune_lower _), (existsb rune_number _), (existsb rune_symbol _);
    simpl; naive_solver.
Qed.

(** ** What the tags do not enforce *)

(** A pointer field that is nil is never checked: whatever its [validate] tag
    says, [required] included, the form is accepted. *)
Theorem nil_pointer_rules_skipped ctxBind n tn fname t tags db w :
  let f := SField fname (TPtr t) true false tags in
  let form := VPtr (TStruct n tn [f]) (Some (VStruct n tn [f] [VPtr t None])) in
  let v := Validator_Bind ctxBind form [false] (new_validator db) in
  Validator_Validate builtin_rules v w = (Ret (inr (None, v)), w).
Proof.
  intros f form v.
  destruct (bind_struct_rest ctxBind (TStruct n tn [f]) form None n tn [f] [VPtr t None] [false] (new_validator db)
    eq_refl eq_refl eq_refl eq_refl eq_refl) as (v0 & Hv & _ & Hpr & Hve & Hge & Hir & Hcf).
  fold v in Hv. rewrite Hv. assert (leaves "" (VStruct n tn [f] [VPtr t None]) = []) as ->.
  { simpl. by destruct (bool_decide _). }
  simpl. unfold Validator_Validate, validate_fields. rewrite Hge, Hir, Hpr, range_empty. simpl.
  unfold mbind, ME_bind. simpl. rewrite Hcf, range_empty. simpl. unfold verdict_of. rewrite Hve. done.
Qed.
End Run.

(** ** Forms to evaluate *)

#[local] Instance demo_order : MapOrder := {| range A m := map_to_list m; range_perm A m := Permutation_refl _ |}.
#[local] Instance demo_parsers : AddressParsers :=
  {| ParseAddress s := if Contains s "@" then Some s else None; ParseRequestURI s := None |}.
#[local] Instance demo_types : AppTypes :=
  {| value_Prefix _ := Some "item_"; value_Suffix _ := None; type_text _ := "[]Item" |}.

Definition item_fields : list sfield :=
  [ SField "Name" TString true false [("form", "name"); ("validate", "required|maxlength[5]"); ("pivot", "true")];
    SField "Email" TString true false [("form", "email"); ("validate", "email")] ].
Definition item (n e : string) : value := VStruct "Item" None item_fields [VString n; VString e].
Definition item_form (n e : string) : Validator :=
  Validator_Bind (λ x, (None, x)) (VPtr (TStruct "Item" None item_fields) (Some (item n e))) [false] (new_validator None).
Definition item_rows (l : list value) : Validator :=
  Validator_Bind (λ x, (None, x)) (VPtr (TSlice (TStruct "Item" None item_fields))
    (Some (VSlice (TStruct "Item" None item_fields) (Some l)))) [false] (new_validator None).


Lemma demo_name_rules : tag_rules "required|maxlength[5]" = {["required" := ""; "maxlength" := "5"]}.
Proof. vm_compute. reflexivity. Qed.
Lemma demo_email_rules : tag_rules "email" = {["email" := ""]}.
Proof. vm_compute. reflexivity. Qed.

Lemma form_accepted_iff_tags_hold_witness :
  ∃ v', Validator_Validate value_rules (item_form "ana" "a@b") world0 = (Ret (inr (verdict_of v', v')), world0) ∧
    verdict_of v' = None.
Proof.
  destruct (form_accepted_iff_tags_hold value_rules (run_judge value_rules) (λ _ _, None) (λ x, (None, x))
    (TStruct "Item" None item_fields) (VPtr (TStruct "Item" None item_fields) (Some (item "ana" "a@b"))) None "Item" None
    item_fields [VString "ana"; VString "a@b"] [false] None world0) as (v' & Hr & Hv).
  - exact value_rules_judged.
  - vm_compute. repeat constructor; set_solver.
  - reflexivity.
  - exists v'. split; [exact Hr|]. apply Hv. split; [done|]. repeat constructor; intros n p Hn _.
    + change (tag_rules "required|maxlength[5]" !! n = Some p) in Hn. rewrite demo_name_rules in Hn.
      apply lookup_insert_Some in Hn as [[<- <-]|[_ Hn]]; [vm_compute; reflexivity|].
      apply lookup_singleton_Some in Hn as [<- <-]. vm_compute. reflexivity.
    + change (tag_rules "email" !! n = Some p) in Hn. rewrite demo_email_rules in Hn.
      apply lookup_singleton_Some in Hn as [<- <-]. vm_compute. reflexivity.
Defined.

Lemma rows_compacted_witness :
  ∃ v', Validator_Validate value_rules (item_rows [item "" "x"; item "ana" "a@b"; item "bob" "bad"]) world0 =
      (Ret (inr (verdict_of v', v')), world0) ∧
    rows_vals (rowsSliceVal v') = [item "ana" "a@b"] ∧ verdict_of v' ≠ None.
Proof.
  destruct (rows_compacted value_rules (run_judge value_rules) (λ _ _, None)
    (item_rows [item "" "x"; item "ana" "a@b"; item "bob" "bad"]) world0) as (v' & Hr & Hk & _ & Hv).
  - exact value_rules_judged.
  - reflexivity.
  - reflexivity.
  - reflexivity.
  - intros row Hrow.
    assert (∃ n e, row = item n e) as (n & e & ->).
    { change (row ∈ [item "" "x"; item "ana" "a@b"; item "bob" "bad"]) in Hrow.
      repeat (apply elem_of_cons in Hrow as [->|Hrow]; [by eexists _, _|]). by apply elem_of_nil in Hrow. }
    eexists _, _, _, _. split; [reflexivity|]. intros i Hi.
    change (i ∈ [0]) in Hi. apply list_elem_of_singleton in Hi as ->. by eexists _, _.
  - exists v'. split; [exact Hr|]. split; [rewrite Hk; vm_compute; reflexivity|].
    intros Hn. apply Hv in Hn as [_ Hall].
    apply (Hall (item "bob" "bad") ltac:(right; right; left) eq_refl "email" "format tidak valid").
    exists (tag_rules "email"), "email", "", (ENew "format tidak valid").
    split; [vm_compute; reflexivity|]. split; [vm_compute; reflexivity|]. split; [by eexists|].
    split; [vm_compute; reflexivity|reflexivity].
Defined.

(** Rules are separated by a bar: a tag with a comma names one rule that does not
    exist, and an empty value passes. *)
Example comma_separated_rules_ignored :
  let fs := [SField "Email" TString true false [("validate", "required,email")]] in
  (Validator_Validate builtin_rules (Validator_Bind (λ x, (None, x))
     (VPtr (TStruct "Req" None fs) (Some (VStruct "Req" None fs [VString ""]))) [false] (new_validator None)) world0).1
  = Ret (inr (None, Validator_Bind (λ x, (None, x))
     (VPtr (TStruct "Req" None fs) (Some (VStruct "Req" None fs [VString ""]))) [false] (new_validator None))).
Proof. vm_compute. reflexivity. Qed.
