(* ===== verification/FormSafety.v ===== *)
(** * From a posted form to a verdict

    [c.Validator(&form)] reads the request, decodes it into the struct and prepares
    the validation of what it holds: the composition of [WebRequest.v], [Decoder.v]
    and [Validator.v], and what an application can rely on when it validates a
    posted form. *)

From S2P Require Import Prelude GoStrings GoValue HttpErr Util RouterTree Session RedisStore Http Waf Metrics Context.
From S2P Require Import DbSanitize DbModel DbPrepared DbExec DbBuilder DbSql DbRead DbFacade.
From S2P Require Import Decoder DecoderSafety WebRequest Validator ValidatorSafety.
From Stdlib Require Import Ascii.
Import Strings.

Section Forms.
Context `{Unicode} `{MapOrder} `{FormText} `{FieldSort} `{BodyParsers} `{Platform} `{FloatText} `{Driver}
  `{AddressParsers} `{AppTypes}.
Context {W SW L : Type}.
#[local] Abbreviation st := (rstate W SW L).

(** [c.Validator(val, bind...)], reading the request unless told not to. *)
Definition Context_Validator_of (val : value) (bind : list bool) : M st Validator :=
  db ← ctx c_database;
  match val with
  | VNil => mret (new_validator db)
  | _ =>
      if default true (hd_error bind) then
        r ← Context_Bind val;
        mret (Context_Validator db (λ _, r) val bind)
      else mret (Context_Validator db (λ x, (None, x)) val bind)
  end.

(** [BaseModel.Validate]: the model's context is that of the request. *)
Definition Model_Validate (reg : gmap string rule) (m : BaseModel) : M st (option error) :=
  match bm_ctx m, bm_self m with
  | None, _ | Some _, VNil => mret (Some (ENew "model is not initialized properly"))
  | Some _, self =>
      v ← Context_Validator_of self [true];
      r ← onDB (Validator_Validate reg v);
      match r with inl e => mret (Some e) | inr (e, _) => mret e end
  end.

(** ** An url-encoded form *)

(** A request that posts [data], not read yet, whose values parse to [vals]. *)
Record posts (data : string) (vals : form_values) (req : Request) : Prop := {
  po_method : reads_body req = true;
  po_body : req_Body req = Some (mkReader data None);
  po_size : (Z.of_nat (String.length data) <= MaxMultipartMemory)%Z;
  po_fresh : req_PostForm req = None;
  po_plain : Contains (Header_Get "Content-Type" (req_header req)) "application/json" = false ∧
             Contains (Header_Get "Content-Type" (req_header req)) "multipart/form-data" = false;
  po_type : ParseMediaType (content_type req) = ("application/x-www-form-urlencoded", None);
  po_values : ParseQuery data = (vals, None);
  po_query : query_error (RequestURI req) = None;
}.

(** What parsing leaves of the request. *)
Definition parsed (vals : form_values) (req : Request) : Request :=
  set_PostForm (Some vals) (set_Body (Some (mkReader "" None)) req).

Lemma read_small data :
  (Z.of_nat (String.length data) <= MaxMultipartMemory)%Z → read_limited MaxMultipartMemory data None = (data, None).
Proof. intros Hs. unfold read_limited. destruct (Z.ltb_spec MaxMultipartMemory (Z.of_nat (String.length data))); [lia|done]. Qed.

Lemma web_Bind_form data vals req v err v' :
  posts data vals req → Decode (enough_fuel v) v vals = Some (Ret (err, v')) →
  web_Bind None v req = (Done ((λ e, ENew (decode_error_text v e)) <$> err, Some data, v'), parsed vals req).
Proof.
  intros [Hm Hb Hs Hf [Hj Hmp] Ht Hq He] Hd. unfold web_Bind. unfold mbind at 1, M_bind at 1. unfold GetBody.
  rewrite Hb. cbn [read_body rd_data rd_err]. rewrite read_small by done.
  unfold mbind at 1, M_bind at 1. unfold getM at 1. cbn [req_header set_Body]. rewrite Hj, Hmp.
  unfold mbind at 1, M_bind at 1. unfold ParseForm. cbn [req_PostForm set_Body]. rewrite Hf.
  change (reads_body (set_Body (Some (mkReader data None)) req)) with (reads_body req). rewrite Hm.
  unfold parsePostForm. cbn [req_Body set_Body].
  change (content_type (set_Body (Some (mkReader data None)) req)) with (content_type req). rewrite Ht.
  rewrite bool_decide_true by done. cbn [rd_err rd_data].
  destruct (Z.ltb_spec MaxMultipartMemory (Z.of_nat (String.length data))); [lia|]. rewrite Hq.
  cbn [orElse RequestURI set_Body]. rewrite He. cbn [orElse default].
  unfold mbind at 1, M_bind at 1. unfold getM at 1. cbn [req_PostForm set_PostForm default].
  unfold FormDecoder_Decode. change (id (id vals)) with vals. by rewrite Hd.
Qed.

(** The state of a context that has a request and has read nothing of it. *)
Definition serving (req : Request) (s : st) : Prop := c_request (s_ctx s) = Some req ∧ c_body (s_ctx s) = None.

Lemma Context_Bind_form data vals req v err v' s :
  serving req s → posts data vals req → Decode (enough_fuel v) v vals = Some (Ret (err, v')) →
  ∃ s', Context_Bind v s = (Done ((λ e, ENew (decode_error_text v e)) <$> err, v'), s') ∧
    c_request (s_ctx s') = Some (parsed vals req) ∧
    c_body (s_ctx s') = (match err with None => Some data | Some _ => None end) ∧
    c_database (s_ctx s') = c_database (s_ctx s).
Proof.
  intros [Hr Hb] Hp Hd. unfold Context_Bind. unfold mbind at 1, M_bind at 1. unfold ctx, getM. rewrite Hb.
  unfold mbind at 1, M_bind at 1. unfold on_request. rewrite Hr, (web_Bind_form _ _ _ _ _ _ Hp Hd).
  destruct err as [e|]; (eexists; split; [reflexivity|]; simpl; done).
Qed.

(** ** The verdict on a posted form *)

Lemma flat_decode_length fuel nm tn fs vs vals r nm' tn' vs' :
  Forall2 (λ f x, has_type (sf_type f) x = true) fs vs → enough_fuel (VPtr (TStruct nm tn fs) (Some (VStruct nm tn fs vs))) ≤ fuel →
  Decode fuel (VPtr (TStruct nm tn fs) (Some (VStruct nm tn fs vs))) vals =
    Some (Ret (r, VPtr (TStruct nm tn fs) (Some (VStruct nm' tn' fs vs')))) → length vs' = length vs.
Proof.
  intros Hty Hf Hd. destruct (Decode_good fuel _ vals Hf) as (x & Hx & Hk). rewrite Hd in Hx. injection Hx as <-.
  specialize (Hk _ _ (TPtr (TStruct nm tn fs)) eq_refl).
  rewrite !ptr_typed, !struct_typed in Hk. destruct Hk as (_ & _ & Hk); [done|].
  rewrite <-(Forall2_length _ _ _ Hk). by apply Forall2_length in Hty.
Qed.

(** No errors are recorded exactly when every field parsed. *)
Lemma flat_errors_none vals (fs : list sfield) (vs : list value) (errs : gmap string error) :
  (∀ k err, errs !! k = Some err ↔
     ∃ i fl x f, fs !! i = Some fl ∧ vs !! i = Some x ∧ cache_form_field i fl = Some f ∧ cf_name f = k ∧
       (flat_result vals i fl x).2 = Some err) →
  errs = ∅ ↔ ∀ i fl x, fs !! i = Some fl → vs !! i = Some x → (flat_result vals i fl x).2 = None.
Proof.
  intros Herr. split.
  - intros -> i fl x Hfl Hx. destruct (flat_result vals i fl x).2 as [e|] eqn:E; [|done].
    assert (∃ f, cache_form_field i fl = Some f) as [f Hf].
    { unfold flat_result in E. destruct (cache_form_field i fl); [by eexists|done]. }
    assert ((∅ : gmap string error) !! cf_name f = Some e) as Hn by (apply Herr; eauto 10). by rewrite lookup_empty in Hn.
  - intros Hall. apply map_empty. intros k. destruct (errs !! k) as [e|] eqn:E; [|done].
    apply Herr in E as (i & fl & x & f & Hfl & Hx & _ & _ & He). by rewrite (Hall i fl x Hfl Hx) in He.
Qed.

Context (reg : gmap string rule) (judge : string → string → value → option error).


(** Binding a form that fails loses its body: parsing has used up the request's
    body, and the copy that was read is kept by the context only when binding
    succeeds.  Afterwards [c.GetBody()] returns an empty body and no error. *)
Theorem failed_bind_loses_body data vals req v errs v' s :
  serving req s → posts data vals req → Decode (enough_fuel v) v vals = Some (Ret (Some errs, v')) →
  ∃ e s', Context_Bind v s = (Done (Some e, v'), s') ∧ (Context_GetBody s').1 = Done (inr "").
Proof.
  intros Hs Hp Hd. destruct (Context_Bind_form data vals req v (Some errs) v' s Hs Hp Hd) as (s' & Hb & Hr & Hc & _).
  eexists _, s'. split; [exact Hb|]. unfold Context_GetBody, mbind, M_bind, ctx, getM. rewrite Hc.
  unfold on_request. rewrite Hr. done.
Qed.
End Forms.

(** ** A form to evaluate *)

#[local] Instance demo_order : MapOrder := {| range A m := map_to_list m; range_perm A m := Permutation_refl _ |}.
#[local] Instance demo_parsers : AddressParsers :=
  {| ParseAddress s := if Contains s "@" then Some s else None; ParseRequestURI s := None |}.
#[local] Instance demo_types : AppTypes :=
  {| value_Prefix _ := None; value_Suffix _ := None; type_text _ := "" |}.
#[local] Instance demo_text : FormText := {|
  strict_Sanitize s := s;
  ugc_Sanitize s := s;
  remove_dangerous s := s;
  form_ParseFloat _ _ := None;
  ParseInLocation _ _ := None;
  ParseStrict _ := inl (ENew "time");
|}.
#[local] Instance demo_sort : FieldSort := {| sort_Sort l := l; sort_Sort_perm l := Permutation_refl l |}.
Definition split_pair (s : string) : string * list string :=
  match SplitN2 "="%char s with (k, Some v) => (k, [v]) | (k, None) => (k, [""]) end.
#[local] Instance demo_bodies : BodyParsers := {|
  ParseMediaType s := (s, None);
  ParseQuery s := (list_to_map (split_pair <$> Split "&"%char s), None);
  query_error _ := None;
  multipart_boundary _ := inl (ENew "not multipart");
  ReadForm _ _ := inl (ENew "not multipart");
  json_Decode_strict _ v := (None, v);
  type_String _ := "";
|}.

Definition signup_fields : list sfield :=
  [ SField "Name" TString true false [("form", "name"); ("validate", "required|maxlength[5]")];
    SField "Age" (TInt KInt8) true false [("form", "age")] ].
Definition signup_request (body : string) : Request :=
  set_Body (Some (mkReader body None))
    (plain_request "POST" "/signup" "/signup" "example.org" "1.2.3.4:5" false
      (Header_Set "Content-Type" "application/x-www-form-urlencoded" ∅)).
Definition signup_state (body : string) : rstate () () () :=
  mkState () (reset (Some (signup_request body)) zero_context) [] (RedisStore.mkWorld () [] 0) () world0 None.
Definition signup_zero : list value := [VString ""; VInt KInt8 0].

Lemma signup_posts body :
  (Z.of_nat (String.length body) <= MaxMultipartMemory)%Z →
  posts body (list_to_map (split_pair <$> Split "&"%char body)) (signup_request body).
Proof. intros Hs. split; try reflexivity; [exact Hs|]. split; vm_compute; reflexivity. Qed.

Lemma signup_keys vs' : length vs' = 2 → NoDup (leaf_key <$> leaves "" (VStruct "Signup" None signup_fields vs')).
Proof. destruct vs' as [|x [|y [|? ?]]]; try done. intros _. vm_compute. repeat constructor; set_solver. Qed.


Lemma failed_bind_loses_body_witness :
  ∃ e s' v', Context_Bind (VPtr (TStruct "Signup" None signup_fields) (Some (VStruct "Signup" None signup_fields signup_zero)))
      (signup_state "age=300") = (Done (Some e, v'), s') ∧ (Context_GetBody s').1 = Done (inr "").
Proof.
  destruct (failed_bind_loses_body "age=300" (list_to_map (split_pair <$> Split "&"%char "age=300")) (signup_request "age=300")
    (VPtr (TStruct "Signup" None signup_fields) (Some (VStruct "Signup" None signup_fields signup_zero)))
    (DecodeErrors {["age" := ENew "invalid int8: 300"]})
    (VPtr (TStruct "Signup" None signup_fields) (Some (VStruct "Signup" None signup_fields signup_zero)))
    (signup_state "age=300")) as (e & s' & Hb & Hg).
  - split; reflexivity.
  - apply signup_posts. vm_compute. discriminate.
  - vm_compute. reflexivity.
  - exists e, s'. eexists. split; [exact Hb|exact Hg].
Defined.
