(* ===== verification/Config.v ===== *)
(** * Configuration

    [config.go], [options.go] and [NewDatabase] of [database.go]: what an application
    is configured with, the options that set it, what is refused, and the connection
    the database is opened with.  The functions an application supplies are fields,
    as in the source; rates are numbers of an arithmetic [F]. *)

From S2P Require Import Prelude GoStrings GoValue HttpErr Session RedisStore RateLimit Http.
From S2P Require Import DbModel DbSanitize DbPrepared DbExec DbBuilder DbFacade Context Router.
From Stdlib Require Import Ascii.
From coqutil Require Import Datatypes.RecordSetters.
Import Strings DoubleBraceUpdate.

(** ** The records *)

Definition SessionStoreCookie : string := "cookie".
Definition SessionStoreRedis : string := "redis".
Definition RateLimiterBackendMemory : string := "memory".
Definition RateLimiterBackendRedis : string := "redis".

Record RedisConfig := mkRedisConfig { Addr : string; Password : string; RedisDB : Z }.
Record TelegramConfig := mkTelegramConfig { tg_Enabled : bool; Token : string; Group : string }.
Record SessionStoreConfig := mkSessionStoreConfig { ss_Type : string; ss_Redis : RedisConfig }.

(** Durations are in nanoseconds. *)
Record ServerConfig := mkServerConfig {
  srv_Host : string;
  srv_Port : Z;
  ReadTimeout : Z;
  WriteTimeout : Z;
  IdleTimeout : Z;
  ReadHeaderTimeout : Z;
  SessionSecret : string;
  SessionEnabled : bool;
  SessionMaxAge : Z;
  srv_SessionStore : SessionStoreConfig;
  SessionResolver : option (Request → string * string);
  BrowserCookieEnabled : bool;
  BrowserCookieName : string;
  MaxWAFBufferSize : Z;
  ForceHTTPS : bool;
  SecureCookie : bool;
  TrustProxyHeaders : bool;
  srv_SameSite : string;
}.

Record DatabaseConfig := mkDatabaseConfig {
  db_Enabled : bool;
  db_Driver : string;
  db_Host : string;
  db_Port : string;
  db_User : string;
  db_Password : string;
  db_Name : string;
  MaxOpenConns : Z;
  MaxIdleConns : Z;
  ConnMaxLifetime : Z;
  Timezone : string;
  db_Scope : option ScopeFunc;
}.

Record LogConfig := mkLogConfig { log_Path : string; log_WAFPath : string; log_JSON : bool }.
Record SecurityConfig := mkSecurityConfig {
  sec_CSP : string;
  sec_CSPExemptPaths : list string;
  sec_WAFExemptPaths : list string;
}.
Record CompressionConfig := mkCompressionConfig { zip_Enabled : bool; zip_Level : Z }.
Record HealthCheckConfig := mkHealthConfig { hc_Enabled : bool; hc_Path : string }.
Record MetricsConfig := mkMetricsConfig { mt_Enabled : bool; mt_Path : string }.

Section Config.
Context {W SW L F : Type} `{Arith F}.

Record RateLimiterConfig := mkLimiterConfig {
  rl_Enabled : bool;
  rl_Backend : string;
  rl_Rate : F;
  rl_Burst : Z;
  rl_TTL : Z;
  rl_CleanupInterval : Z;
  rl_Redis : RedisConfig;
  rl_KeyFunc : option (Request → option Session → string);
}.

Record config := mkConfig {
  cfg_Debug : bool;
  cfg_Telegram : TelegramConfig;
  cfg_Server : ServerConfig;
  cfg_Database : DatabaseConfig;
  cfg_RateLimiter : RateLimiterConfig;
  cfg_EncryptionKey : string;
  cfg_CachePaths : list string;
  cfg_NoLogSuccessPaths : list string;
  cfg_Log : LogConfig;
  cfg_Security : SecurityConfig;
  cfg_CORS : CORSConfig;
  cfg_Compression : CompressionConfig;
  cfg_HealthCheck : HealthCheckConfig;
  cfg_Metrics : MetricsConfig;
  cfg_CurrentUserFunc : bool;
  cfg_RequestScopeFunc : option (M (rstate W SW L) (error + (string * list value)));
}.

(** [config{}]. *)
Definition zero_config : config :=
  let redis := mkRedisConfig "" "" 0 in
  mkConfig false (mkTelegramConfig false "" "")
    (mkServerConfig "" 0 0 0 0 0 "" false 0 (mkSessionStoreConfig "" redis) None false "" 0 false false false "")
    (mkDatabaseConfig false "" "" "" "" "" "" 0 0 0 "" None)
    (mkLimiterConfig false "" (fofZ 0) 0 0 0 redis None)
    "" [] [] (mkLogConfig "" "" false) (mkSecurityConfig "" [] []) (mkCORS false [] [] [] [] false 0)
    (mkCompressionConfig false 0) (mkHealthConfig false "") (mkMetricsConfig false "") false None.

(** ** Options *)

Definition Option_ : Type := config → config.

Definition WithDebug (debug : bool) : Option_ := λ c, c {{ cfg_Debug := debug }}.
Definition WithAddr (host : string) (port : Z) : Option_ := λ c,
  c {{ cfg_Server -> srv_Host := host; cfg_Server -> srv_Port := port }}.
Definition WithForceHTTPS : Option_ := λ c, c {{ cfg_Server -> ForceHTTPS := true }}.
Definition WithSession (secret : list string) : Option_ := λ c,
  let c := c {{ cfg_Server -> SessionEnabled := true }} in
  let c := match secret with s :: _ => c {{ cfg_Server -> SessionSecret := s }} | [] => c end in
  c {{ cfg_Server -> srv_SessionStore -> ss_Type := SessionStoreCookie }}.
Definition WithSessionRedis (secret addr password : string) (db : Z) : Option_ := λ c,
  c {{ cfg_Server -> SessionEnabled := true; cfg_Server -> SessionSecret := secret;
       cfg_Server -> srv_SessionStore -> ss_Type := SessionStoreRedis;
       cfg_Server -> srv_SessionStore -> ss_Redis := mkRedisConfig addr password db }}.
Definition WithSessionResolver (fn : Request → string * string) : Option_ := λ c,
  c {{ cfg_Server -> SessionResolver := Some fn }}.
Definition WithBrowserCookie (name : list string) : Option_ := λ c,
  let cookieName := match name with n :: _ => if bool_decide (n ≠ "") then n else "browser" | [] => "browser" end in
  c {{ cfg_Server -> BrowserCookieEnabled := true; cfg_Server -> BrowserCookieName := cookieName }}.
Definition WithDatabase (driver host port user password name : string) : Option_ := λ c,
  c {{ cfg_Database -> db_Enabled := true; cfg_Database -> db_Driver := driver; cfg_Database -> db_Host := host;
       cfg_Database -> db_Port := port; cfg_Database -> db_User := user; cfg_Database -> db_Password := password;
       cfg_Database -> db_Name := name }}.
Definition WithRequestScope (fn : M (rstate W SW L) (error + (string * list value))) : Option_ := λ c,
  c {{ cfg_RequestScopeFunc := Some fn }}.
Definition WithRateLimiter (rate : F) (burst : Z) : Option_ := λ c,
  c {{ cfg_RateLimiter -> rl_Enabled := true; cfg_RateLimiter -> rl_Backend := RateLimiterBackendMemory;
       cfg_RateLimiter -> rl_Rate := rate; cfg_RateLimiter -> rl_Burst := burst }}.
Definition WithRateLimiterRedis (addr password : string) (db : Z) (rate : F) (burst : Z) : Option_ := λ c,
  c {{ cfg_RateLimiter -> rl_Enabled := true; cfg_RateLimiter -> rl_Backend := RateLimiterBackendRedis;
       cfg_RateLimiter -> rl_Rate := rate; cfg_RateLimiter -> rl_Burst := burst;
       cfg_RateLimiter -> rl_Redis := mkRedisConfig addr password db }}.
Definition WithRateLimiterKeyFunc (fn : Request → option Session → string) : Option_ := λ c,
  c {{ cfg_RateLimiter -> rl_KeyFunc := Some fn }}.
Definition WithEncryption (key : string) : Option_ := λ c, c {{ cfg_EncryptionKey := key }}.
Definition WithCSP (csp : string) (exemptPaths : list string) : Option_ := λ c,
  c {{ cfg_Security -> sec_CSP := csp; cfg_Security -> sec_CSPExemptPaths := exemptPaths }}.
Definition WithCORS (allowOrigins : list string) : Option_ := λ c,
  c {{ cfg_CORS -> cors_Enabled := true; cfg_CORS -> AllowOrigins := allowOrigins }}.
Definition WithCompression (level : Z) : Option_ := λ c,
  c {{ cfg_Compression -> zip_Enabled := true; cfg_Compression -> zip_Level := level }}.
Definition WithHealthCheck (path : string) : Option_ := λ c,
  c {{ cfg_HealthCheck -> hc_Enabled := true; cfg_HealthCheck -> hc_Path := path }}.
Definition WithMetrics (path : string) : Option_ := λ c,
  c {{ cfg_Metrics -> mt_Enabled := true; cfg_Metrics -> mt_Path := path }}.
Definition WithTelegramAlerts (token group : string) : Option_ := λ c,
  c {{ cfg_Telegram -> tg_Enabled := true; cfg_Telegram -> Token := token; cfg_Telegram -> Group := group }}.
Definition WithTimeouts (read write idle : Z) : Option_ := λ c,
  c {{ cfg_Server -> ReadTimeout := read; cfg_Server -> WriteTimeout := write; cfg_Server -> IdleTimeout := idle }}.

(** The loop of [New]; a nil option is skipped. *)
Definition configure (opts : list (option Option_)) : config :=
  foldl (λ c o, match o with Some f => f c | None => c end) zero_config opts.

(** ** [validate] *)

Definition dquote : string := String "034" "".

Definition validate_session (c : ServerConfig) : option error :=
  if SessionEnabled c && bool_decide (ss_Type (srv_SessionStore c) = SessionStoreRedis) &&
     bool_decide (Addr (ss_Redis (srv_SessionStore c)) = "")
  then Some (ENew "redis address cannot be empty when using redis session store") else None.

Definition validate_database (c : DatabaseConfig) : option error :=
  if negb (db_Enabled c) then None
  else if negb (bool_decide (db_Driver c = "mysql")) && negb (bool_decide (db_Driver c = "postgres")) then
    Some (ENew "unsupported database driver, only 'mysql' or 'postgres' are available")
  else if bool_decide (db_Host c = "") || bool_decide (db_Port c = "") || bool_decide (db_Name c = "") ||
          bool_decide (db_User c = "") then
    Some (ENew "database host, port, name, and user are required when database is enabled")
  else None.

Definition validate_limiter (c : RateLimiterConfig) : option error :=
  if rl_Enabled c && bool_decide (rl_Backend c = RateLimiterBackendRedis) && bool_decide (Addr (rl_Redis c) = "")
  then Some (ENew ("rate limiter redis address cannot be empty when RateLimiter.Backend is " +:+
                   dquote +:+ "redis" +:+ dquote))
  else None.

Definition config_validate (c : config) : option error :=
  match validate_session (cfg_Server c) with
  | Some e => Some e
  | None =>
      match validate_database (cfg_Database c) with
      | Some e => Some e
      | None => validate_limiter (cfg_RateLimiter c)
      end
  end.
End Config.
Arguments RateLimiterConfig : clear implicits.
Arguments config : clear implicits.

(** ** The database connection *)

(** [sqlx.Connect], [Ping] and [Close] of a driver and a data source name. *)
Class SqlOpen := {
  sqlx_Connect : string → string → option error;
  sqlx_Ping : string → string → option error;
  sqlx_Close : string → string → option error;
}.

(** The pool behind a handle. *)
Record pool := mkPool {
  pool_driver : string;
  pool_dsn : string;
  pool_maxOpen : Z;
  pool_maxIdle : Z;
  pool_lifetime : Z;
}.

(** A number an option leaves at zero, or below, takes its default. *)
Definition or_default (x d : Z) : Z := if (x <=? 0)%Z then d else x.
Definition or_text (x d : string) : string := if bool_decide (x = "") then d else x.

Definition second : Z := 1000000000.

Definition mysql_dsn (c : DatabaseConfig) (host tz : string) : string :=
  db_User c +:+ ":" +:+ db_Password c +:+ "@tcp(" +:+ host +:+ ":" +:+ db_Port c +:+ ")/" +:+ db_Name c +:+
  "?charset=utf8mb4&collation=utf8mb4_unicode_ci&parseTime=True&loc=" +:+ ReplaceAll tz "/" "%2F".

Definition sslMode (host : string) : string :=
  if bool_decide (host = "localhost") || bool_decide (host = "127.0.0.1") then "disable" else "require".

Definition postgres_dsn (c : DatabaseConfig) (host tz : string) : string :=
  "host=" +:+ host +:+ " port=" +:+ db_Port c +:+ " user=" +:+ db_User c +:+ " password=" +:+ db_Password c +:+
  " dbname=" +:+ db_Name c +:+ " sslmode=" +:+ sslMode host +:+ " TimeZone=" +:+ tz.

Definition data_source (c : DatabaseConfig) : error + (Dialect * string * string) :=
  let tz := or_text (Timezone c) "UTC" in
  let host := or_text (db_Host c) "localhost" in
  if bool_decide (db_Driver c = "mysql") then inr (MySQLDialect, "mysql", mysql_dsn c host tz)
  else if bool_decide (db_Driver c = "postgres") then inr (PostgresDialect, "pgx", postgres_dsn c host tz)
  else inl (ENew ("unsupported database driver: '" +:+ db_Driver c +:+
                  "'. Only 'mysql' or 'postgres' are available")).

(** What the scope function of the application is given: only contexts reach it. *)
Definition is_context (v : value) : bool :=
  match v with VOther n _ => bool_decide (n = "*kiya.Context") | _ => false end.
Definition db_scope_of (s : option ScopeFunc) : option ScopeFunc :=
  (λ f fields res, if is_context res then f fields res else ∅) <$> s.

(** [kiya.NewDatabase]: no handle when the database is disabled. *)
Definition Kiya_NewDatabase `{SqlOpen} (c : DatabaseConfig) : error + option (DB * pool) :=
  if negb (db_Enabled c) then inr None
  else
    match data_source c with
    | inl e => inl e
    | inr (dialect, driverName, dsn) =>
        match sqlx_Connect driverName dsn with
        | Some e => inl (wrapf ("failed to create database connection (" +:+ db_Driver c +:+ "): ") e "")
        | None =>
            let p := mkPool driverName dsn (or_default (MaxOpenConns c) 50) (or_default (MaxIdleConns c) 10)
                       (or_default (ConnMaxLifetime c) (300 * second)) in
            match sqlx_Ping driverName dsn with
            | Some e => inl (wrapf ("failed to ping database (" +:+ db_Driver c +:+ "): ") e "")
            | None => inr (Some ((NewDatabase dialect (Some (sqlx_Close driverName dsn)) (db_scope_of (db_Scope c)) []).1, p))
            end
        end
    end.
