(* ===== verification/App.v ===== *)
(** * The application: [kiya.New]

    [kiya.go] with [InitWAF] of [waf.go] and the route helpers and life cycle of
    [router.go].  [New] turns options into a router, the back ends it works with
    (sessions, rate limiter, database pool), the state it starts from and the
    settings of the server; what it needs from outside is the class [Outside].  The
    requests of an application are then served by [Server.ServeHTTP] with the
    instances [backend_sessions] and [backend_limiter]. *)

From S2P Require Import Prelude GoStrings GoValue GoFloat HttpErr RouterTree Session RedisStore Crypto RateLimit.
From S2P Require Import RedisRateLimit Http Net Waf Metrics DbModel DbSanitize DbPrepared DbExec DbBuilder DbFacade.
From S2P Require Import Context Router Server Logger Config.
From Stdlib Require Import Ascii.
Import Strings.

(** ** Back ends *)

(** The session store of a router: none, gorilla's cookie store with its secret and
    options, or the Redis store with its server. *)
Inductive session_backend :=
  | NoSessions
  | CookieSessions (secret : string) (o : Options)
  | RedisSessions (server : RedisConfig) (st : RedisStore).

(** [sessions.NewCookieStore] of gorilla. *)
Class CookieStore (SW : Type) := cookie_store : string → Options → SessionStore (store_world SW).

Definition backend_sessions {SW} `{CookieStore SW, RedisClient SW, JsonCodec, RandomKeys} (b : session_backend)
    : SessionStore (store_world SW) :=
  match b with
  | NoSessions => cookie_store "" (Session.mkOptions "" 0 false false 0)
  | CookieSessions secret o => cookie_store secret o
  | RedisSessions _ st => redis_session_store st
  end.

(** The rate limiter; that of Redis with the buckets of its server. *)
Inductive limiter_backend (F : Type) :=
  | NoLimiter
  | MemoryLimiter (s : Store F)
  | RedisLimiter (s : RedisRateLimitStore F) (m : gmap string (bucket F)).
Arguments NoLimiter {F}.
Arguments MemoryLimiter {F}.
Arguments RedisLimiter {F}.

(** The order in which a shard is iterated, and the clock and the failures of the
    Redis server at a time. *)
Class LimiterOutside (F : Type) := {
  shard_order : gmap string (RateLimit.rateLimiter F) → list (string * RateLimit.rateLimiter F);
  redis_second : Z → Z;
  redis_failure : Z → option error;
}.

#[global] Instance backend_limiter {F} `{Arith F, LuaNum F, LimiterOutside F} : RateLimitStore (limiter_backend F) :=
  λ now key l,
    match l with
    | NoLimiter => (true, NoLimiter)
    | MemoryLimiter s => let '(ok, s') := Allow shard_order now key s in (ok, MemoryLimiter s')
    | RedisLimiter s m =>
        let '(ok, m') := Redis_Allow s now (redis_second now) (redis_failure now) key m in (ok, RedisLimiter s m')
    end.

(** ** Outside *)

(** [ping_redis addr password db]; [new_waf] is [coraza.NewWAF] on the directives;
    [rand_Read 0] and
    [rand_Read 1] are the random bytes for the browser secret and the session secret. *)
Class Outside := {
  ping_redis : RedisConfig → option error;
  rules_dir : error + list (string * bool);
  new_waf : string → option error;
  sha256 : string → string;
  rand_Read : nat → string;
}.

(** What the clock shows when a handler runs. *)
Class WallClock (S : Type) := time_RFC3339 : S → string.

(** *** [InitWAF] *)

Definition include_rule (e : string * bool) : string :=
  if negb e.2 && HasSuffix e.1 ".conf" then "Include rules/" +:+ e.1 +:+ newline else "".

(** The text has the indentation of the source. *)
Definition waf_directives (debug : bool) (entries : error + list (string * bool)) : string :=
  let includes := match entries with inl _ => "" | inr es => Join "" (include_rule <$> es) end in
  newline +:+ "        SecRuleEngine " +:+ (if debug then "DetectionOnly" else "On") +:+ newline +:+
  "        Include crs-setup.conf" +:+ newline +:+
  "        " +:+ includes +:+ newline +:+
  "        Include ignore.conf" +:+ newline +:+ "    ".

(** [None] when there is a firewall. *)
Definition InitWAF `{Outside} (debug : bool) : option error :=
  (λ e, wrapf "failed to init WAF: " e "") <$> new_waf (waf_directives debug rules_dir).

(** ** The router [New] makes *)

Record http_Server := mkHttpServer {
  hs_Addr : string;
  hs_ReadTimeout : Z;
  hs_ReadHeaderTimeout : Z;
  hs_WriteTimeout : Z;
  hs_IdleTimeout : Z;
  hs_MaxHeaderBytes : Z;
}.

(** What [logger.Init] is given. *)
Record logger_Config := mkLoggerConfig {
  lc_Debug : bool;
  lc_Token : string;
  lc_Group : string;
  lc_LogPath : string;
  lc_WAFPath : string;
  lc_JSON : bool;
  lc_TelegramEnabled : bool;
}.

Definition sameSite_of `{Unicode} (s : string) : Z :=
  let s := strings_ToLower s in
  if bool_decide (s = "strict") then 3 else if bool_decide (s = "none") then 4 else 2.

(** The key of a request when the application has no function of its own. *)
Definition default_key (trust : bool) (req : Request) (sess : option Session) : string :=
  match sess with
  | Some s => if bool_decide (Session_ID s ≠ "") then "sess:" +:+ Session_ID s else "ip:" +:+ RealIP trust req
  | None => "ip:" +:+ RealIP trust req
  end.

Section New.
Context {T SW F : Type} `{Coraza T} `{Arith F, LuaNum F, LimiterOutside F} `{Hmac} `{JsonEncoder} `{RedirectText}
  `{RegexpEngine} `{Unicode} `{Platform} `{Driver} `{FloatText} `{SqlOpen} `{Outside}.

#[local] Abbreviation L := (limiter_backend F).
#[local] Abbreviation writer := (any_writer server_rw T).
#[local] Abbreviation st := (rstate writer SW L).
#[local] Abbreviation Handler := (HandlerFunc writer SW L).
#[local] Abbreviation router := (@Router writer SW L _).
#[local] Abbreviation cfg_t := (config writer SW L F).

Context `{WallClock st}.

Record Application := mkApplication {
  app_root : @RootRouter T SW L _;
  app_sessions : session_backend;
  app_limiter : L;
  app_pool : option pool;
  app_server : http_Server;
  app_log : logger_Config;
  app_trustProxy : bool;
  app_sessionMaxAge : Z;
  app_noLogSuccessPaths : list string;
  app_compression : option Z;
  app_healthCheckPath : string;
  app_metrics : bool;
}.

(** *** Its two routes *)

Definition health_reply (checks : list (string * value)) (ok : bool) (stamp : string) : Handler :=
  JSON (if ok then 200 else 503)%Z (VMap TInterface (Some [
    ("status", VString (if ok then "ok" else "error"));
    ("checks", VMap TInterface (Some checks));
    ("timestamp", VString stamp)])).

Definition health_handler (db : option DB) : Handler :=
  match db with
  | None => stamp ← getM time_RFC3339; health_reply [] true stamp
  | Some db =>
      res ← onDB (DB_Ping db);
      stamp ← getM time_RFC3339;
      match res with
      | inl e => health_reply [("database", VString (Error e))] false stamp
      | inr _ => health_reply [("database", VString "ok")] true stamp
      end
  end.

Definition metrics_handler : Handler :=
  m ← getM s_metrics;
  match m with
  | None => crashM "runtime error: invalid memory address or nil pointer dereference"
  | Some c => onW (Metrics.Handler c);; mret None
  end.

(** [r.Get(path, h)] in [New]: a panic of the tree leaves [New]. *)
Definition Router_Get (path : string) (h : Handler) (names : list string) (r : router) : router * add_result :=
  addRoute "GET" path (Some h) names r.

Definition with_health (c : HealthCheckConfig) (r : router) : outcome router :=
  if negb (hc_Enabled c) then Ret r
  else match Router_Get (or_text (hc_Path c) "/health") (health_handler (database r)) [] r with
       | (_, AddPanic p) => Panic p
       | (r, _) => Ret r
       end.
Definition with_metrics (c : MetricsConfig) (r : router) : outcome router :=
  if negb (mt_Enabled c) then Ret r
  else match Router_Get (or_text (mt_Path c) "/metrics") metrics_handler [] r with
       | (_, AddPanic p) => Panic p
       | (r, _) => Ret r
       end.

(** *** The back ends *)

Definition encrypt_key (key : string) : string := if bool_decide (key = "") then "" else sha256 key.

Definition browser_secret (c : cfg_t) : string :=
  if bool_decide (SessionSecret (cfg_Server c) ≠ "") then SessionSecret (cfg_Server c)
  else if bool_decide (encrypt_key (cfg_EncryptionKey c) ≠ "") then encrypt_key (cfg_EncryptionKey c)
  else rand_Read 0.

Definition session_secret (c : ServerConfig) : string := or_text (SessionSecret c) (hex_EncodeToString (rand_Read 1)).

Definition make_sessions (c : ServerConfig) : session_backend :=
  if negb (SessionEnabled c) then NoSessions
  else
    let maxAge := or_default (SessionMaxAge c) (86400 * 7) in
    let secureCookie := ForceHTTPS c || SecureCookie c in
    let site := sameSite_of (srv_SameSite c) in
    if bool_decide (ss_Type (srv_SessionStore c) = SessionStoreRedis) then
      RedisSessions (ss_Redis (srv_SessionStore c)) (NewRedisStore maxAge site secureCookie)
    else CookieSessions (session_secret c) (Session.mkOptions "/" maxAge true secureCookie site).

Definition make_limiter (c : RateLimiterConfig F) : error + L :=
  if negb (rl_Enabled c) then inr NoLimiter
  else
    let rate := if fleb (rl_Rate c) (fofZ 0) then fofZ 10 else rl_Rate c in
    let burst := or_default (rl_Burst c) 20 in
    if bool_decide (rl_Backend c = RateLimiterBackendRedis) then
      match NewRedisRateLimitStore (ping_redis (rl_Redis c)) rate burst with
      | inl e => inl (wrapf "create redis rate limiter: " e "")
      | inr s => inr (RedisLimiter s ∅)
      end
    else inr (MemoryLimiter (NewStore rate burst (or_default (rl_TTL c) (300 * second)) (rl_CleanupInterval c))).

Definition make_log (c : cfg_t) : logger_Config :=
  mkLoggerConfig (cfg_Debug c) (Token (cfg_Telegram c)) (Group (cfg_Telegram c))
    (or_text (log_Path (cfg_Log c)) "./temp/log") (or_text (log_WAFPath (cfg_Log c)) "./temp/waf")
    (log_JSON (cfg_Log c)) (tg_Enabled (cfg_Telegram c)).

Definition address (c : ServerConfig) : string :=
  or_text (srv_Host c) "0.0.0.0" +:+ ":" +:+ Strconv.FormatInt (srv_Port c).

(** Timeouts are defaulted at zero only; a negative one is kept. *)
Definition or_zero (x d : Z) : Z := if (x =? 0)%Z then d else x.

Definition make_server (c : ServerConfig) : http_Server :=
  mkHttpServer (address c) (or_zero (ReadTimeout c) (30 * second)) (or_zero (ReadHeaderTimeout c) (10 * second))
    (or_zero (WriteTimeout c) (30 * second)) (or_zero (IdleTimeout c) (120 * second)) (Z.shiftl 1 20).

Definition or_paths (l : list string) : list string := match l with [] => ["/assets"] | _ => l end.

(** The router before its routes. *)
Definition make_router (c : cfg_t) (db : option DB) : router :=
  let srv := cfg_Server c in
  mkRouter NewTree [] (defaultErrorHandler (cfg_Debug c)) (Some defaultNoRoute) (Some defaultNoMethod) "" db
    (SessionEnabled srv) (SessionResolver srv) (BrowserCookieEnabled srv) (or_text (BrowserCookieName srv) "browser")
    (browser_secret c) (rl_Enabled (cfg_RateLimiter c))
    (default (default_key (TrustProxyHeaders srv)) (rl_KeyFunc (cfg_RateLimiter c)))
    (ForceHTTPS srv) (cfg_Debug c) (sameSite_of (srv_SameSite srv)) (encrypt_key (cfg_EncryptionKey c))
    (or_paths (cfg_CachePaths c)) (sec_CSP (cfg_Security c)) (sec_CSPExemptPaths (cfg_Security c)) (cfg_CORS c)
    ∅ (cfg_CurrentUserFunc c) (cfg_RequestScopeFunc c).

Definition make_application (c : cfg_t) (db : option (DB * pool)) (lim : L) (r : router) : Application :=
  let srv := cfg_Server c in
  mkApplication
    (mkRoot r (match InitWAF (cfg_Debug c) with None => true | Some _ => false end)
       (sec_WAFExemptPaths (cfg_Security c)) (or_default (MaxWAFBufferSize srv) (Z.shiftl 10 20)))
    (make_sessions srv) lim (snd <$> db) (make_server srv) (make_log c) (TrustProxyHeaders srv)
    (if SessionEnabled srv then or_default (SessionMaxAge srv) (86400 * 7) else 0)
    (or_paths (cfg_NoLogSuccessPaths c))
    (if zip_Enabled (cfg_Compression c) then Some (or_zero (zip_Level (cfg_Compression c)) 5) else None)
    (if hc_Enabled (cfg_HealthCheck c) then or_text (hc_Path (cfg_HealthCheck c)) "/health" else "")
    (mt_Enabled (cfg_Metrics c)).

(** ** [New] *)

Definition New (opts : list (option (Option_ (W := writer) (SW := SW) (L := L) (F := F))))
    : outcome (error + Application) :=
  let c := configure opts in
  match config_validate c with
  | Some e => Ret (inl (wrapf "config validation: " e ""))
  | None =>
      match Kiya_NewDatabase (cfg_Database c) with
      | inl e => Ret (inl (wrapf "initialize database: " e ""))
      | inr db =>
          match make_limiter (cfg_RateLimiter c) with
          | inl e => Ret (inl e)
          | inr lim =>
              match with_health (cfg_HealthCheck c) (make_router c (fst <$> db)) with
              | Panic p => Panic p
              | Ret r =>
                  match with_metrics (cfg_Metrics c) r with
                  | Panic p => Panic p
                  | Ret r => Ret (inr (make_application c db lim r))
                  end
              end
          end
      end
  end.
(** ** Serving *)

Context `{CookieStore SW, RedisClient SW, JsonCodec, RandomKeys}.

(** The state an application starts from; [sw] is the server of its sessions and
    [d] that of its database. *)
Definition start_state (a : Application) (sw : store_world SW) (d : DbExec.world) : @app SW L :=
  mkState () zero_context [] sw (app_limiter a) d (if app_metrics a then Some Metrics.New else None).

(** The handler of its [http.Server]. *)
Definition serve (a : Application) : arrival → Request → M conn unit :=
  let sessions : SessionStore (store_world SW) := backend_sessions (app_sessions a) in ServeHTTP (app_root a).
End New.

(** ** Life cycle *)

(** What [Stop] calls, in order. *)
Inductive stop_call := StopLimiter | ShutdownServer | CloseDatabase | CloseLogger.
#[global] Instance stop_call_eq_dec : EqDecision stop_call.
Proof. solve_decision. Defined.

(** [server], [limiter], [database] say which of them the router has; [shutdown] is
    the result of [Shutdown] within its five seconds. *)
Definition Stop (server limiter database : bool) (shutdown : option error) : list stop_call * option error :=
  if negb server then ([], None)
  else ((if limiter then [StopLimiter] else []) ++ [ShutdownServer] ++ (if database then [CloseDatabase] else []) ++
        [CloseLogger], shutdown).

(** How [Start] leaves its [select]: what the serving goroutine reported
    ([http.ErrServerClosed] counts as none), or a signal. *)
Inductive start_event :=
  | ListenReturned (err : option error)
  | ListenPanicked (p : string)
  | SignalReceived.

(** The value on [listenErr]. *)
Definition listen_error (e : start_event) : option error :=
  match e with
  | ListenReturned (Some e) => if errors_Is e "http: Server closed" then None else Some e
  | ListenReturned None | SignalReceived => None
  | ListenPanicked p => Some (ENew ("panic: " +:+ p))
  end.

Definition Start (limiter database : bool) (e : start_event) (shutdown : option error) : list stop_call * option error :=
  match listen_error e with
  | Some err => ((Stop true limiter database shutdown).1, Some (wrapf "server startup failed: " err ""))
  | None => Stop true limiter database shutdown
  end.
