(* ===== verification/AppSafety.v ===== *)
(** * Properties of an application *)

From S2P Require Import Prelude GoStrings GoValue GoFloat HttpErr RouterTree Session RedisStore Crypto RateLimit.
From S2P Require Import RedisRateLimit Http Net Waf Metrics DbModel DbSanitize DbPrepared DbExec DbBuilder DbFacade.
From S2P Require Import Context Router Server Logger Config App.
From Stdlib Require Import Ascii.
Import Strings.

Section Safety.
Context {T SW F : Type} `{Coraza T} `{Arith F, LuaNum F, LimiterOutside F} `{Hmac} `{JsonEncoder} `{RedirectText}
  `{RegexpEngine} `{Unicode} `{Platform} `{Driver} `{FloatText} `{SqlOpen} `{Outside}.

#[local] Abbreviation L := (limiter_backend F).
#[local] Abbreviation writer := (any_writer server_rw T).
#[local] Abbreviation st := (rstate writer SW L).
#[local] Abbreviation cfg_t := (config writer SW L F).
#[local] Abbreviation Opts := (list (option (Option_ (W := writer) (SW := SW) (L := L) (F := F)))).

Context `{WallClock st}.

(** ** When there is an application *)

Definition sessions_acceptable (c : ServerConfig) : Prop :=
  SessionEnabled c = true → ss_Type (srv_SessionStore c) = SessionStoreRedis → Addr (ss_Redis (srv_SessionStore c)) ≠ "".

Definition limiter_acceptable (c : RateLimiterConfig F) : Prop :=
  rl_Enabled c = true → rl_Backend c = RateLimiterBackendRedis →
  Addr (rl_Redis c) ≠ "" ∧ ping_redis (rl_Redis c) = None.

(** The database of a configuration answers on its data source. *)
Definition database_acceptable (c : DatabaseConfig) : Prop :=
  db_Enabled c = true →
  db_Host c ≠ "" ∧ db_Port c ≠ "" ∧ db_Name c ≠ "" ∧ db_User c ≠ "" ∧
  ∃ d drv dsn, data_source c = inr (d, drv, dsn) ∧ sqlx_Connect drv dsn = None ∧ sqlx_Ping drv dsn = None.

Definition acceptable (c : cfg_t) : Prop :=
  sessions_acceptable (cfg_Server c) ∧ database_acceptable (cfg_Database c) ∧ limiter_acceptable (cfg_RateLimiter c).

Lemma validate_session_spec c : validate_session c = None ↔ sessions_acceptable c.
Proof.
  unfold validate_session, sessions_acceptable. destruct (SessionEnabled c); simpl; [|naive_solver].
  repeat case_bool_decide; simpl; naive_solver.
Qed.

Lemma database_spec c :
  validate_database c = None ∧ (∃ db, Kiya_NewDatabase c = inr db) ↔ database_acceptable c.
Proof.
  unfold validate_database, Kiya_NewDatabase, database_acceptable, data_source.
  destruct (db_Enabled c); simpl; [|naive_solver].
  destruct (decide (db_Driver c = "mysql")) as [Hm|Hm]; [|destruct (decide (db_Driver c = "postgres")) as [Hp|Hp]];
    rewrite ?(bool_decide_true _ Hm), ?(bool_decide_false _ Hm) by done;
    rewrite ?(bool_decide_true _ Hp), ?(bool_decide_false _ Hp) by done; simpl.
  - destruct (sqlx_Connect _ _) eqn:Hc; [|destruct (sqlx_Ping _ _) eqn:Hpg]; repeat case_bool_decide; naive_solver.
  - destruct (sqlx_Connect _ _) eqn:Hc; [|destruct (sqlx_Ping _ _) eqn:Hpg]; repeat case_bool_decide; naive_solver.
  - naive_solver.
Qed.

Lemma limiter_spec (c : RateLimiterConfig F) :
  validate_limiter c = None ∧ (∃ l, make_limiter c = inr l) ↔ limiter_acceptable c.
Proof.
  unfold validate_limiter, make_limiter, NewRedisRateLimitStore, limiter_acceptable.
  destruct (rl_Enabled c); simpl; [|naive_solver].
  destruct (ping_redis _); repeat case_bool_decide; simpl; naive_solver.
Qed.


(** ** What every application has *)

Lemma or_default_pos x d : (0 < d)%Z → (0 < or_default x d)%Z.
Proof. intros Hd. unfold or_default. destruct (Z.leb_spec x 0); lia. Qed.
Lemma or_text_set x d : d ≠ "" → or_text x d ≠ "".
Proof. intros Hd. unfold or_text. by case_bool_decide. Qed.

Lemma hex_nonempty b : b ≠ "" → hex_EncodeToString b ≠ "".
Proof. by destruct b. Qed.

(** The options of a session cookie: scripts do not see it, it lasts, and with
    enforced HTTPS it is never sent in the clear. *)
Definition cookie_hardened (c : ServerConfig) (o : Options) : Prop :=
  Path o = "/" ∧ HttpOnly o = true ∧ (0 < MaxAge o)%Z ∧ (ForceHTTPS c = true → Secure o = true) ∧
  (SameSite o ∈ [2; 3; 4])%Z.

Definition sessions_hardened (c : ServerConfig) (b : session_backend) : Prop :=
  match b with
  | NoSessions => SessionEnabled c = false
  | CookieSessions secret o => secret ≠ "" ∧ cookie_hardened c o
  | RedisSessions _ s => cookie_hardened c (rs_options s) ∧ (0 < rs_maxAge s)%Z
  end.

Definition limiter_sound (l : L) : Prop :=
  match l with
  | NoLimiter => True
  | MemoryLimiter s => fleb (rate s) (fofZ 0) = false ∧ (∃ b, (0 < b)%Z ∧ burst s = fofZ b) ∧ (0 < ttl s)%Z ∧
      (0 < cleanupInterval s)%Z ∧ store_ok s
  | RedisLimiter s _ => fleb (rl_rate s) (fofZ 0) = false ∧ ∃ b, (0 < b)%Z ∧ rl_burst s = fofZ b
  end.

Definition pool_sound (p : pool) : Prop :=
  (0 < pool_maxOpen p)%Z ∧ (0 < pool_maxIdle p)%Z ∧ (0 < pool_lifetime p)%Z.

Lemma sameSite_cases s : (sameSite_of s ∈ [2; 3; 4])%Z.
Proof. unfold sameSite_of. repeat case_bool_decide; set_solver. Qed.

Lemma sessions_made c : rand_Read 1 ≠ "" → sessions_hardened c (make_sessions c).
Proof.
  intros Hr. unfold make_sessions. destruct (SessionEnabled c) eqn:He; [|done]. simpl.
  pose proof (sameSite_cases (srv_SameSite c)) as Hs.
  pose proof (or_default_pos (SessionMaxAge c) (86400 * 7) ltac:(lia)) as Hm.
  assert (ForceHTTPS c = true → ForceHTTPS c || SecureCookie c = true) as Hf by (by intros ->).
  case_bool_decide; simpl; unfold NewRedisStore, cookie_hardened; simpl.
  - destruct (Z.leb_spec (or_default (SessionMaxAge c) (86400 * 7)) 0) as [Hle|_]; [lia|]. by split_and!.
  - split; [|by split_and!]. unfold session_secret. by apply or_text_set, hex_nonempty.
Qed.

Lemma limiter_made (c : RateLimiterConfig F) l :
  fleb (fofZ 10) (fofZ 0 : F) = false → make_limiter c = inr l → limiter_sound l.
Proof.
  intros Hten. unfold make_limiter. destruct (rl_Enabled c); simpl; [|by intros [= <-]].
  set (rt := if fleb (rl_Rate c) (fofZ 0) then fofZ 10 else rl_Rate c).
  assert (fleb rt (fofZ 0) = false) as Hrt by (unfold rt; by destruct (fleb (rl_Rate c) (fofZ 0)) eqn:?).
  pose proof (or_default_pos (rl_Burst c) 20 ltac:(lia)) as Hb.
  case_bool_decide.
  - unfold NewRedisRateLimitStore. destruct (ping_redis _); [done|]. intros [= <-]. simpl. rewrite Hrt.
    destruct (Z.leb_spec (or_default (rl_Burst c) 20) 0); [lia|]. eauto.
  - intros [= <-]. simpl. split_and!; [done|eauto|apply or_default_pos; unfold second; lia|..].
    + destruct (Z.leb_spec (rl_CleanupInterval c) 0); lia.
    + apply NewStore_ok.
Qed.

Lemma pool_made c db p : Kiya_NewDatabase c = inr (Some (db, p)) → pool_sound p.
Proof.
  unfold Kiya_NewDatabase. destruct (negb _); [done|]. destruct (data_source c) as [|[[d drv] dsn]]; [done|].
  destruct (sqlx_Connect _ _); [done|]. destruct (sqlx_Ping _ _); [done|]. intros [= <- <-].
  split_and!; simpl; apply or_default_pos; unfold second; lia.
Qed.

(** The settings of a router that its routes leave as they are. *)
Lemma with_routes_settings (c : cfg_t) r r1 r2 :
  with_health (cfg_HealthCheck c) r = Ret r1 → with_metrics (cfg_Metrics c) r1 = Ret r2 →
  browserSecret r2 = browserSecret r ∧ encryptKey r2 = encryptKey r ∧ database r2 = database r ∧
  middleware r2 = middleware r ∧ prefix r2 = prefix r.
Proof.
  assert (∀ path h (r r' : @Router writer SW L _) a, Router_Get path h [] r = (r', a) →
    browserSecret r' = browserSecret r ∧ encryptKey r' = encryptKey r ∧ database r' = database r ∧
    middleware r' = middleware r ∧ prefix r' = prefix r) as Hg.
  { intros path h r0 r' a. unfold Router_Get, addRoute. destruct (AddRoute _ _ _ _) as [t []]; intros [= <- <-]; done. }
  unfold with_health, with_metrics. intros Hh Hm.
  destruct (negb (hc_Enabled _)); [injection Hh as <-|];
    [|destruct (Router_Get (or_text (hc_Path _) _) _ _ _) as [r0 []] eqn:E0; simplify_eq; apply Hg in E0];
    (destruct (negb (mt_Enabled _)); [injection Hm as <-; naive_solver congruence|]);
    destruct (Router_Get (or_text (mt_Path _) _) _ _ _) as [r3 []] eqn:E3; simplify_eq; apply Hg in E3;
    naive_solver congruence.
Qed.

(** Whatever the options, an application that [New] returns has safe settings: its
    session cookie is hidden from scripts, expires, is secure under enforced HTTPS
    and signed with a secret that is not empty; the browser cookie's secret is not
    empty; the encryption key is 32 bytes or encryption is off; the firewall's
    buffer, the limiter's rate and burst and the database pool have positive sizes,
    and the limiter starts in a state that satisfies its invariant.  The hypotheses
    are that random reads give bytes, that SHA-256 gives 32 and that ten is not
    below zero. *)
Theorem New_hardened (opts : Opts) a :
  rand_Read 0 ≠ "" → rand_Read 1 ≠ "" → (∀ s, String.length (sha256 s) = 32) → fleb (fofZ 10) (fofZ 0 : F) = false →
  New opts = Ret (inr a) →
  sessions_hardened (cfg_Server (configure opts)) (app_sessions a) ∧
  browserSecret (root_router (app_root a)) ≠ "" ∧
  String.length (encryptKey (root_router (app_root a))) ∈ [0; 32] ∧
  (0 < maxWAFBufferSize (app_root a))%Z ∧ limiter_sound (app_limiter a) ∧
  (∀ p, app_pool a = Some p → pool_sound p).
Proof.
  intros Hr0 Hr1 Hsha Hten. unfold New. set (c := configure opts).
  destruct (config_validate c); [done|]. destruct (Kiya_NewDatabase _) as [|db] eqn:Hdb; [done|].
  destruct (make_limiter _) as [|lim] eqn:Hlim; [done|].
  destruct (with_health _ _) as [r1|] eqn:Hh; [|done]. destruct (with_metrics _ _) as [r2|] eqn:Hm; [|done].
  intros [= <-]. destruct (with_routes_settings c _ _ _ Hh Hm) as (Hb & He & _). simpl.
  assert (String.length (encrypt_key (cfg_EncryptionKey c)) ∈ [0; 32]) as Hk.
  { unfold encrypt_key. case_bool_decide; [set_solver|]. rewrite Hsha. set_solver. }
  split_and!; [by apply sessions_made|..].
  - rewrite Hb. simpl. unfold browser_secret. by repeat case_bool_decide.
  - by rewrite He.
  - by apply or_default_pos.
  - by eapply limiter_made.
  - intros p Hp. destruct db as [[db p']|]; [|done]. injection Hp as <-. by eapply pool_made.
Qed.

(** ** The health check *)

(** What the database answers to a ping; without a database all is well. *)
Definition healthy (db : option DB) (w : DbExec.world) : bool :=
  match db with
  | None => true
  | Some _ => match drv_Ping (trace w) with None => true | Some _ => false end
  end.

(** A response nothing has been written to yet. *)
Definition unwritten (s : st) : Prop :=
  c_written (s_ctx s) = false ∧ ∃ hd, s_w s = PlainWriter (NewStatusRecorder (new_response hd)).

Definition reply_code (w : writer) : option Z :=
  match w with PlainWriter r => fst <$> srv_sent (rec_inner r) | FirewallWriter _ => None end.

Lemma plain_page hd code b st0 :
  page_code code →
  let sent := PlainWriter (T := T) (mkRecorder (mkServer hd (Some (code, hd)) "") code) in
  rw_WriteHeader code (PlainWriter (T := T) (mkRecorder (new_response hd) st0)) = (Done (), sent) ∧
  rw_Write b sent =
    (Done (inr (String.length b)), PlainWriter (mkRecorder (mkServer hd (Some (code, hd)) b) code)).
Proof.
  intros Hp. destruct (server_page hd code b Hp) as [E1 E2]. split.
  - cbn [rw_WriteHeader any_ResponseWriter on_any recorder_writer]. unfold rec_WriteHeader, mbind, M_bind, modM, on_inner, zoom.
    cbn [rec_inner rw_WriteHeader server_writer]. by rewrite E1.
  - cbn [rw_Write any_ResponseWriter on_any recorder_writer]. unfold on_inner, zoom.
    cbn [rec_inner rw_Write server_writer]. by rewrite E2.
Qed.

Lemma JSON_code code obj (s : st) : page_code code → unwritten s → reply_code (s_w (JSON code obj s).2) = Some code.
Proof.
  intros Hp [Hw [hd Hs]]. destruct s as [w c pl sw lm db mt]. cbn [s_w s_ctx] in Hw, Hs. subst w.
  unfold JSON, Status. unfold mbind, M_bind, onW, zoom, ctx, getM, set_header, modM, set_w.
  cbn [s_w s_ctx rw_set_head any_ResponseWriter recorder_writer server_writer rec_inner rec_status NewStatusRecorder s_pool s_store s_lim s_db s_metrics].
  rewrite Hw. cbn [s_w s_ctx s_pool s_store s_lim s_db s_metrics].
  match goal with |- context [mkRecorder (mkServer ?h _ _) ?st0] =>
    destruct (plain_page h code "" st0 Hp) as [E _]; change (srv_sent (new_response hd)) with (@None (Z * head));
    change (srv_body (new_response hd)) with ""; change (mkServer h None "") with (new_response h); rewrite E; clear E;
    destruct (json_Encode obj) as [e|out]; [done|];
    destruct (plain_page h code (out +:+ newline) st0 Hp) as [_ E] end.
  unfold on_ctx, modM, set_ctx, set_w. cbn [s_w]. by rewrite E.
Qed.

Lemma health_handler_code db (s : st) :
  (∀ d, db = Some d → unwrap_prepared (unwrap_logged (db_executor d)) = sqlxExecutor) →
  unwritten s → reply_code (s_w (health_handler db s).2) = Some (if healthy db (s_db s) then 200 else 503)%Z.
Proof.
  intros Hdb Hs. assert (page_code 200 ∧ page_code 503) as [Hok Herr] by (repeat split; unfold final_code; lia).
  unfold health_handler, healthy, health_reply. destruct db as [d|]; [|by apply JSON_code].
  pose proof (Hdb d eq_refl) as He. unfold mbind, M_bind, onDB, DB_Ping. rewrite He.
  unfold gets, emit, mbind, ME_bind. cbn [trace]. destruct (drv_Ping (trace (s_db s))) as [e|]; simpl.
  - by apply JSON_code.
  - by apply JSON_code.
Qed.

Lemma opened_executor c d p :
  Kiya_NewDatabase c = inr (Some (d, p)) → unwrap_prepared (unwrap_logged (db_executor d)) = sqlxExecutor.
Proof.
  unfold Kiya_NewDatabase. destruct (negb _); [done|]. destruct (data_source c) as [|[[dl drv] dsn]]; [done|].
  destruct (sqlx_Connect _ _); [done|]. destruct (sqlx_Ping _ _); [done|]. by intros [= <- _].
Qed.

(** The health check tells the truth: in an application with a health check on its
    default path, and metrics off or on theirs, a request for it finds the handler,
    and the client gets 200 exactly when the database answers a ping (or there is
    none) and 503 otherwise. *)
Theorem health_check_truthful (opts : Opts) a (s : st) :
  let c := configure opts in
  hc_Enabled (cfg_HealthCheck c) = true → hc_Path (cfg_HealthCheck c) = "" →
  mt_Enabled (cfg_Metrics c) = false ∨ mt_Path (cfg_Metrics c) = "" →
  New opts = Ret (inr a) → unwritten s →
  let r := root_router (app_root a) in
  ∃ h, FindRoute (tree r) "GET" "/health" = (Some h, []) ∧
    reply_code (s_w (h s).2) = Some (if healthy (database r) (s_db s) then 200 else 503)%Z.
Proof.
  intros c Hhe Hhp Hmt Hnew Hs r. revert Hnew. unfold New. fold c.
  destruct (config_validate c); [done|]. destruct (Kiya_NewDatabase _) as [|db] eqn:Hdb; [done|].
  destruct (make_limiter _) as [|lim]; [done|].
  destruct (with_health _ _) as [r1|] eqn:Hh; [|done]. destruct (with_metrics _ _) as [r2|] eqn:Hm; [|done].
  intros [= <-]. subst r. cbn [app_root make_application root_router].
  destruct (with_routes_settings c _ _ _ Hh Hm) as (_ & _ & Hd & _).
  exists (health_handler (fst <$> db)). split.
  - unfold with_health in Hh. unfold with_metrics in Hm. rewrite Hhe, Hhp in Hh. cbn in Hh. injection Hh as <-.
    destruct (mt_Enabled _); [destruct Hmt as [|Hmp]; [done|]; rewrite Hmp in Hm|]; cbn in Hm; by injection Hm as <-.
  - rewrite Hd. apply health_handler_code; [|done]. intros d Hsome. destruct db as [[d' p]|]; [|done].
    injection Hsome as <-. by eapply opened_executor.
Qed.
End Safety.

(** ** Keys of the limiter *)

(** Who a request is counted for: a session with an identifier, or an address. *)
Definition counted_for (trust : bool) (req : Request) (sess : option Session) : string + string :=
  match sess with
  | Some s => if decide (Session_ID s = "") then inr (RealIP trust req) else inl (Session_ID s)
  | None => inr (RealIP trust req)
  end.

(** Two requests share a bucket exactly when they are counted for the same session
    or, both without one, for the same address: no session can take the tokens of an
    address, whatever its identifier. *)
Theorem default_key_separates trust r1 s1 r2 s2 :
  default_key trust r1 s1 = default_key trust r2 s2 ↔ counted_for trust r1 s1 = counted_for trust r2 s2.
Proof.
  assert (∀ r s, default_key trust r s =
    match counted_for trust r s with inl i => "sess:" +:+ i | inr a => "ip:" +:+ a end) as Hk.
  { intros r [s|]; simpl; [|done]. destruct (decide (Session_ID s = "")) as [He|He].
    - by rewrite bool_decide_false by (by intros ?).
    - by rewrite bool_decide_true. }
  rewrite !Hk. split; [|by intros ->].
  destruct (counted_for trust r1 s1), (counted_for trust r2 s2); intros [= He]; by simplify_eq.
Qed.

(** ** Life cycle *)

(** However serving ends (a listener that fails, a panic, a closed server or a
    signal), everything is stopped exactly once and in the same order: the limiter,
    then the server with its requests, then the database they use, the logger last;
    and [Start] reports an error exactly when listening failed or the shutdown did. *)
Theorem Start_stops_in_order limiter db e shutdown :
  let '(calls, err) := Start limiter db e shutdown in
  calls = filter (λ c, (c = StopLimiter → limiter = true) ∧ (c = CloseDatabase → db = true))
            [StopLimiter; ShutdownServer; CloseDatabase; CloseLogger] ∧
  (is_Some err ↔ is_Some (listen_error e) ∨ is_Some shutdown).
Proof.
  unfold Start, Stop. destruct (listen_error e) as [err|]; simpl; (split; [by destruct limiter, db|]).
  - split; eauto.
  - split; [by right|]. intros [[? [=]]|?]; done.
Qed.

(** ** An application to evaluate *)

#[local] Instance demo_regexp : RegexpEngine :=
  {| regex := string; Compile p := Some p; MatchString re s := bool_decide (re = s) |}.
#[local] Instance demo_hmac : Hmac := λ k m, k +:+ m.
#[local] Instance demo_encoder : JsonEncoder := λ _, inr "{}".
#[local] Instance demo_redirects : RedirectText :=
  {| redirect_location _ url := url; redirect_note _ _ _ := "" |}.
#[local] Instance demo_lua : LuaNum spec_float := {| lua_floor _ := 2%Z; lua_repr x := x |}.
#[local] Instance demo_limits : LimiterOutside spec_float :=
  {| shard_order := map_to_list; redis_second n := (n / second)%Z; redis_failure _ := None |}.
#[local] Instance demo_open : SqlOpen :=
  {| sqlx_Connect _ _ := None; sqlx_Ping _ _ := None; sqlx_Close _ _ := None |}.
#[local] Instance demo_outside : Outside := {|
  ping_redis _ := None; rules_dir := inr [("one.conf", false); ("notes.txt", false)]; new_waf _ := None;
  sha256 _ := "0123456789abcdef0123456789abcdef"; rand_Read _ := "0123456789abcdef" |}.
#[local] Abbreviation demo_L := (limiter_backend spec_float).
#[local] Abbreviation demo_W := (any_writer server_rw (option interruption)).
#[local] Abbreviation demo_st := (rstate demo_W demo_redis demo_L).
#[local] Instance demo_clock : WallClock demo_st := λ _, "2024-01-01T00:00:00Z".

Definition demo_opts : list (option (Option_ (W := demo_W) (SW := demo_redis) (L := demo_L) (F := spec_float))) :=
  [Some (WithAddr "" 8080); None; Some WithForceHTTPS; Some (WithSession []); Some (WithRateLimiter (float_of_Z 0) 0);
   Some (WithDatabase "postgres" "db.example.org" "5432" "app" "pw" "site"); Some (WithHealthCheck "");
   Some (WithMetrics "")].

Definition demo_application :=
  match New demo_opts with Ret (inr a) => Some a | _ => None end.

Lemma demo_new : ∃ a, New demo_opts = Ret (inr a).
Proof. eexists. reflexivity. Qed.

Lemma New_hardened_witness : ∃ a, New demo_opts = Ret (inr a) ∧ limiter_sound (app_limiter a).
Proof.
  destruct demo_new as [a Ha]. exists a. split; [exact Ha|].
  apply (New_hardened demo_opts a); [done|done|reflexivity|reflexivity|exact Ha].
Defined.

Definition demo_state : demo_st :=
  mkState (PlainWriter (NewStatusRecorder new_server_rw)) zero_context [] (RedisStore.mkWorld ∅ [] 0) NoLimiter world0 None.

Lemma health_check_truthful_witness :
  ∃ a h, New demo_opts = Ret (inr a) ∧ FindRoute (tree (root_router (app_root a))) "GET" "/health" = (Some h, []) ∧
    reply_code (s_w (h demo_state).2) = Some 200%Z.
Proof.
  destruct demo_new as [a Ha]. exists a.
  destruct (health_check_truthful demo_opts a demo_state) as (h & Hf & Hr);
    [reflexivity|reflexivity|by right|exact Ha|by split; [|eexists]|].
  exists h. split; [exact Ha|]. split; [exact Hf|]. rewrite Hr. unfold healthy. by destruct (database _).
Defined.

#[local] Instance demo_cookies : CookieStore demo_redis := λ _ _, redis_session_store demo_store.

(** The metrics page of an application behind its firewall is never answered: the
    page is written before a status is, which the firewall's writer does not
    survive.  Without the firewall the page comes. *)
Definition ask_metrics (firewall : bool) : option (exec unit * server_rw) :=
  match New (F := spec_float) (SW := demo_redis) [Some (WithMetrics "")] with
  | Ret (inr a) =>
      let a := if firewall then a else mkApplication (mkRoot (root_router (app_root a)) false [] 0) (app_sessions a)
        (app_limiter a) (app_pool a) (app_server a) (app_log a) (app_trustProxy a) (app_sessionMaxAge a)
        (app_noLogSuccessPaths a) (app_compression a) (app_healthCheckPath a) (app_metrics a) in
      let '(x, (w, _)) := serve a demo_arrival (plain_request "GET" "/metrics" "/metrics" "example.org" "1.2.3.4:5" false ∅)
        (new_server_rw, start_state a (RedisStore.mkWorld ∅ [] 0) world0) in
      Some (x, w)
  | _ => None
  end.

Example metrics_page_hangs :
  fst <$> ask_metrics true = Some Hang ∧
  (λ p, (p.1, fst <$> srv_sent p.2)) <$> ask_metrics false = Some (Done (), Some 200%Z).
Proof. vm_compute. split; reflexivity. Qed.
