(* ===== verification/LoggerLife.v ===== *)
(** * The logger from [Init] to [Init]

    The package variables of [internal/logger] over the whole life of a process: [Init]
    in both modes and again over a running logger, what the exported functions print
    and queue, the goroutine that cleans the memory of alerts, and [Close].  What
    happens between an [Init] in production mode and the end of its [Close] is the
    machine of [Logger.v]; a process has one such run after the other.

    An [Init] over a running logger keeps [logStateMu] from its [closeUnsafe] to its
    end.  Here it is a [Close] followed by an [Init] that finds no logger; a message
    that in the code waits for the lock may in the model find no channel in between. *)

From S2P Require Import Prelude GoStrings Util HttpErr Session RedisStore Http Net Logger LoggerSafety Config App.
From Stdlib Require Import Ascii.
From stdpp Require Import relations.
Import Strings Path Logger.

(** ** What a call prints and queues *)

Definition esc : ascii := "027"%char.
Definition colorReset : string := String esc "[0m".
Definition colorGreen : string := String esc "[32m".
Definition colorYellow : string := String esc "[33m".
Definition colorRed : string := String esc "[31m".
Definition colorMagenta : string := String esc "[35m".
Definition colorCyan : string := String esc "[36m".

(** The text given to the console logger, which adds the time and a line break. *)
Definition console_text (color lvl msg : string) : string := color +:+ "[" +:+ lvl +:+ "] " +:+ msg +:+ colorReset.

Inductive log_call := CallInfo (msg : string) | CallWarn (msg : string) | CallError (msg : string) | CallWAF (msg : string).

(** [logf] with the level and colour of its caller, [LogError] and [LogWAF]: the text
    printed, and the entry offered to the channel when there is one. *)
Definition logf (lvl color msg : string) : string * option logEntry :=
  (console_text color lvl msg, Some (mkEntry false lvl msg false)).
Definition log_call_effect (debug : bool) (c : log_call) : string * option logEntry :=
  match c with
  | CallInfo msg => logf "INFO" colorGreen msg
  | CallWarn msg => logf "WARN" colorYellow msg
  | CallError msg => (console_text colorRed "ERROR" msg, Some (LogError debug msg))
  | CallWAF msg =>
      (if debug then colorCyan +:+ "[WAF DEBUG]" +:+ colorReset +:+ " " +:+ msg
       else console_text colorMagenta "ATTACK" msg, LogWAF debug msg)
  end.

(** The warning of a worker that found entries dropped since the last one. *)
Definition dropped_text (dropped : Z) : option string :=
  if (0 <? dropped)%Z then
    Some (colorYellow +:+ "[WARN]" +:+ colorReset +:+ " " +:+ Strconv.FormatInt dropped +:+ " log entries dropped (channel full)")
  else None.

(** ** The package variables *)

(** [isDebug], [isJSON], [telegramToken] and [telegramGroup]. *)
Record globals := mkGlobals { g_debug : bool; g_json : bool; g_token : string; g_group : string }.

Record logger := mkLogger {
  vars : globals;
  lives : list run;               (* a run for each [Init] in production mode, oldest first *)
  cleaners : list bool;           (* cleanup goroutines; [false] once their context is cancelled *)
  telegramLastSent : gmap string Z;
}.

Section Life.
Context `{LineJson, AlertHash} (opens : string → bool) (disk : gmap string string).

(** Before the first [Init]: no channel, no debug mode. *)
Definition at_start : logger := mkLogger (mkGlobals false false "" "") [] [] ∅.

(** What the log files hold. *)
Definition contents (l : logger) : gmap string string :=
  match last (lives l) with Some r => lg_contents (files r) | None => disk end.

(** [logChan != nil]. *)
Definition running (l : logger) : bool :=
  match last (lives l) with Some r => negb (bool_decide (ph r = Closed)) | None => false end.

Definition or_default (p d : string) : string := if bool_decide (p = "") then d else p.

Definition initFileLogger (logPath : string) (now : clock) : log_file := open_log opens logPath "log-" now.
Definition initWAFFileLogger (wafPath : string) (now : clock) : log_file := open_log opens wafPath "waf-" now.

(** [Init] of a logger that is not running. *)
Definition configure (cfg : logger_Config) (now : clock) (l : logger) : logger :=
  let token := if lc_TelegramEnabled cfg then lc_Token cfg else "" in
  let group := if lc_TelegramEnabled cfg then lc_Group cfg else "" in
  let v := mkGlobals (lc_Debug cfg) (lc_JSON cfg) token group in
  if lc_Debug cfg then mkLogger v (lives l) (cleaners l) (telegramLastSent l)
  else
    let logPath := or_default (lc_LogPath cfg) "./temp/log" in
    let wafPath := or_default (lc_WAFPath cfg) "./temp/waf" in
    let fs := mkFiles (initFileLogger logPath now) (initWAFFileLogger wafPath now) (contents l) in
    mkLogger v (lives l ++ [Logger.Init fs]) (cleaners l ++ [true]) (telegramLastSent l).

(** [telegramCancel()], first thing of [closeUnsafe]. *)
Definition cancel_on_close (r r' : run) (cs : list bool) : list bool :=
  if bool_decide (ph r = Open ∧ ph r' = Stopping) then (λ _, false) <$> cs else cs.

Inductive life_step : logger → logger → Prop :=
  | life_init cfg now l : running l = false → life_step l (configure cfg now l)
  | life_run i r r' l : lives l !! i = Some r → step opens (g_json (vars l)) r r' →
      life_step l (mkLogger (vars l) (<[i := r']> (lives l)) (cancel_on_close r r' (cleaners l)) (telegramLastSent l))
  (* [sendTelegramDirect] and [sendTelegramHTML] *)
  | life_alert html now text l : g_debug (vars l) = false →
      life_step l (mkLogger (vars l) (lives l) (cleaners l)
        ((if html : bool then sendTelegramHTML else sendTelegramDirect) (g_token (vars l)) (g_group (vars l)) now text
           (telegramLastSent l)).2)
  (* [startTelegramCleanup]: a tick, which a cancelled goroutine may still take, and its end *)
  | life_clean i c now l : cleaners l !! i = Some c →
      life_step l (mkLogger (vars l) (lives l) (cleaners l) (cleanupTelegramCache now (telegramLastSent l)))
  | life_cleaner_exit cs1 cs2 l : cleaners l = cs1 ++ false :: cs2 →
      life_step l (mkLogger (vars l) (lives l) (cs1 ++ cs2) (telegramLastSent l)).

Definition life (l : logger) : Prop := rtc life_step at_start l.

(** ** One run after the other *)

Definition live_cleaners (l : logger) : nat := length (filter (λ c, c = true) (cleaners l)).
Definition open_run (l : logger) : bool :=
  match last (lives l) with Some r => bool_decide (ph r = Open) | None => false end.
Definition no_files (r : run) : Prop := lg_file (app_log (files r)) = None ∧ lg_file (waf_log (files r)) = None.

Record life_inv (l : logger) : Prop := {
  li_past i r : lives l !! i = Some r → S i < length (lives l) → ph r = Closed;
  li_runs : Forall inv (lives l);
  li_files : Forall (λ r, ph r = Closed → no_files r) (lives l);
  li_debug : g_debug (vars l) = true → running l = false;
  li_cleaners : live_cleaners l = if open_run l then 1 else 0;
}.

(** What a step of a run does to its phase and its files. *)
Lemma step_phase json r r' :
  step opens json r r' →
  (ph r' = ph r ∧ (hands r ≠ [] ∨ files r' = files r)) ∨ (ph r = Open ∧ ph r' = Stopping ∧ files r' = files r) ∨
  (ph r = Stopping ∧ ph r' = WaitTelegram ∧ files r' = files r) ∨
  (ph r = WaitTelegram ∧ ph r' = Closed ∧ no_files r' ∧ lg_contents (files r') = lg_contents (files r)).
Proof.
  intros Hst. destruct Hst as [r Hp|r n e Hn Hl|r n Hn Hl|r n e c Hi Hc|r now e h1 h2 fs Hh Hw|r n Hp Hi Hc|r n Hn Hl|r n Hn Hl
    |r n Hn|r Hp|r Hp Hi Hh|r Hp Hs Hw Hse]; simpl; auto 10.
  - left. split; [done|]. left. rewrite Hh. by destruct h1.
  - by repeat right.
Qed.

Lemma closed_step json r r' : inv r → ph r = Closed → step opens json r r' → ph r' = Closed ∧ files r' = files r.
Proof.
  intros Hi Hc Hst. apply step_phase in Hst as [[Hp Hf]|[(?&?&?)|[(?&?&?)|(?&?&?&?)]]]; [|congruence..].
  split; [congruence|]. destruct Hf as [Hf|]; [|done]. exfalso. apply Hf.
  destruct Hi as [_ _ _ Hph]. unfold phase_inv in Hph. rewrite Hc in Hph. destruct Hph as [Hw _].
  unfold workers in Hw. destruct (hands r); [done|simpl in Hw; lia].
Qed.

(** Log files only grow. *)
Definition grows (c c' : gmap string string) : Prop := ∀ f x, c !! f = Some x → ∃ y, c' !! f = Some (x +:+ y).

#[export] Instance grows_preorder : PreOrder grows.
Proof.
  split.
  - intros c f x Hx. exists "". by rewrite string_app_nil_r.
  - intros c1 c2 c3 H12 H23 f x Hx. destruct (H12 f x Hx) as [y Hy]. destruct (H23 f _ Hy) as [z Hz].
    exists (y +:+ z). by rewrite Hz, string_app_assoc.
Qed.

Lemma append_line_grows lg line c : grows c (append_line lg line c).
Proof.
  unfold append_line. destruct (lg_file lg) as [f|]; [|done]. intros g x Hx. destruct (decide (f = g)) as [->|Hne].
  - rewrite lookup_insert_eq, Hx. by eexists.
  - rewrite lookup_insert_ne by done. exists "". by rewrite string_app_nil_r.
Qed.

Lemma step_grows json r r' : step opens json r r' → grows (lg_contents (files r)) (lg_contents (files r')).
Proof.
  intros Hst. destruct Hst as [r Hp|r n e Hn Hl|r n Hn Hl|r n e c Hi Hc|r now e h1 h2 fs Hh Hw|r n Hp Hi Hc|r n Hn Hl|r n Hn Hl
    |r n Hn|r Hp|r Hp Hi Hh|r Hp Hs Hw Hse]; simpl; try done.
  unfold processLogEntry, writeWAFToFile, writeAppToFile in Hw.
  unfold checkAndRotateApp, checkAndRotateWAF in Hw. destruct (isWAF e), (checkAndRotate _ _ _ _ _); simplify_eq/=; apply append_line_grows.
Qed.

Lemma last_insert {A} (ls : list A) i x y :
  ls !! i = Some x → last (<[i := y]> ls) = if decide (S i = length ls) then Some y else last ls.
Proof.
  intros Hi. apply lookup_lt_Some in Hi as Hlt. rewrite !last_lookup, length_insert. case_decide as Hd.
  - replace (pred (length ls)) with i by lia. by apply list_lookup_insert_eq.
  - apply list_lookup_insert_ne. lia.
Qed.

(** The current run steps, or an old one that is closed stays so. *)
Lemma run_steps l i r r' :
  life_inv l → lives l !! i = Some r → step opens (g_json (vars l)) r r' →
  (S i = length (lives l) ∧ last (lives l) = Some r ∧ last (<[i := r']> (lives l)) = Some r') ∨
  (S i ≠ length (lives l) ∧ ph r = Closed ∧ ph r' = Closed ∧ files r' = files r ∧
   last (<[i := r']> (lives l)) = last (lives l)).
Proof.
  intros Hinv Hi Hst. apply lookup_lt_Some in Hi as Hlt. rewrite (last_insert _ _ r) by done.
  destruct (decide (S i = length (lives l))) as [He|Hne].
  - left. split_and!; [done| |done]. rewrite last_lookup. by replace (pred (length (lives l))) with i by lia.
  - right. assert (ph r = Closed) as Hc by (eapply li_past; [done|done|lia]).
    assert (inv r) as Hr by (eapply Forall_lookup_1; [by apply li_runs|done]).
    destruct (closed_step _ r r' Hr Hc Hst). by split_and!.
Qed.

Lemma live_cancelled l cs : length (filter (λ c, c = true) ((λ _ : bool, false) <$> cs)) = 0 ∧
  length (filter (λ c, c = true) (cleaners l ++ [true])) = S (live_cleaners l).
Proof.
  split.
  - induction cs as [|c cs IH]; [done|]. rewrite fmap_cons, filter_cons_False by done. exact IH.
  - rewrite filter_app, length_app, filter_cons_True by done. unfold live_cleaners. simpl. lia.
Qed.

Lemma life_inv_run l i r r' :
  life_inv l → lives l !! i = Some r → step opens (g_json (vars l)) r r' →
  life_inv (mkLogger (vars l) (<[i := r']> (lives l)) (cancel_on_close r r' (cleaners l)) (telegramLastSent l)).
Proof.
  intros Hinv Hi Hst. pose proof (run_steps l i r r' Hinv Hi Hst) as Hcase.
  apply lookup_lt_Some in Hi as Hlt. pose proof (step_phase _ _ _ Hst) as Hph.
  assert (inv r) as Hr by (eapply Forall_lookup_1; [by apply li_runs|done]).
  assert (ph r = Closed → no_files r) as Hnf by (eapply (Forall_lookup_1 _ _ _ _ (li_files _ Hinv) Hi)).
  split; cbn [lives vars cleaners].
  - intros j x Hj Hjl. rewrite length_insert in Hjl. apply list_lookup_insert_Some in Hj as [(<- & <- & _)|[_ Hj]];
      [|by eapply li_past]. destruct Hcase as [(? & _)|(_ & _ & ? & _)]; [lia|done].
  - apply Forall_insert; [by apply li_runs|]. by eapply inv_step.
  - apply Forall_insert; [by apply li_files|]. intros Hc'.
    destruct Hph as [[Hp _]|[(_ & ? & _)|[(_ & ? & _)|(_ & _ & ? & _)]]]; [|congruence..|done].
    destruct (closed_step _ r r' Hr ltac:(congruence) Hst) as [_ Hf]. unfold no_files. rewrite Hf. apply Hnf. congruence.
  - intros Hd. pose proof (li_debug _ Hinv Hd) as Hrun. unfold running in *. cbn [lives].
    destruct Hcase as [(_ & Hl & ->)|(_ & _ & _ & _ & ->)]; [|done]. rewrite Hl in Hrun.
    apply negb_false_iff, bool_decide_eq_true in Hrun. destruct (closed_step _ r r' Hr Hrun Hst) as [-> _].
    by rewrite bool_decide_true.
  - pose proof (li_cleaners _ Hinv) as Hcl. unfold live_cleaners, open_run, cancel_on_close in *. cbn [lives cleaners].
    destruct Hcase as [(_ & Hl & ->)|(_ & Hc & _ & _ & ->)].
    + rewrite Hl in Hcl. destruct (decide (ph r = Open ∧ ph r' = Stopping)) as [Hop|Hop].
      * rewrite (bool_decide_true (_ ∧ _)) by done. destruct Hop as [_ ->]. rewrite (bool_decide_false (_ = _)) by done.
        apply (live_cancelled l).
      * rewrite (bool_decide_false (_ ∧ _)) by done. rewrite Hcl. destruct Hph as [[-> _]|[(? & ? & _)|[(-> & -> & _)|(-> & -> & _)]]]; [done|by destruct Hop|done|done].
    + rewrite (bool_decide_false (_ ∧ _)) by (intros [? _]; congruence). done.
Qed.

Lemma life_inv_init l cfg now : life_inv l → running l = false → life_inv (configure cfg now l).
Proof.
  intros Hinv Hrun. unfold configure. destruct (lc_Debug cfg) eqn:Hdbg.
  { destruct Hinv as [H1 H2 H3 H4 H5]. by split. }
  destruct Hinv as [Hpast Hruns Hfiles _ Hcl]. split; cbn [lives vars cleaners g_debug].
  - intros i r Hi Hlt. rewrite length_app in Hlt. simpl in Hlt. rewrite lookup_app_l in Hi by lia.
    destruct (decide (S i = length (lives l))) as [He|]; [|eapply Hpast; [done|lia]].
    unfold running in Hrun. rewrite last_lookup in Hrun. replace (pred (length (lives l))) with i in Hrun by lia.
    rewrite Hi in Hrun. by apply negb_false_iff, bool_decide_eq_true in Hrun.
  - apply Forall_app. split; [done|]. apply Forall_singleton, inv_Init.
  - apply Forall_app. split; [done|]. by apply Forall_singleton.
  - discriminate.
  - unfold open_run, live_cleaners. cbn [lives cleaners]. rewrite last_snoc. destruct (live_cancelled l []) as [_ ->].
    rewrite Hcl. unfold open_run, running in *. destruct (last (lives l)) as [r|]; [|done].
    apply negb_false_iff, bool_decide_eq_true in Hrun. rewrite Hrun. done.
Qed.

Lemma life_inv_step l l' : life_inv l → life_step l l' → life_inv l'.
Proof.
  intros Hinv Hst. destruct Hst as [cfg now l Hr|i r r' l Hi Hst|html now text l Hd|i c now l Hc|cs1 cs2 l Hc].
  - by apply life_inv_init.
  - by apply life_inv_run.
  - by destruct Hinv; split.
  - by destruct Hinv; split.
  - destruct Hinv as [H1 H2 H3 H4 H5]. split; [done..|]. unfold live_cleaners, open_run in *. cbn [lives cleaners].
    rewrite <-H5, Hc, !filter_app, filter_cons_False by done. done.
Qed.

Lemma life_inv_reachable l : life l → life_inv l.
Proof.
  revert l. apply (rtc_ind_r life_inv at_start); [|intros l1 l2 _ Hst IH; by eapply life_inv_step].
  split; done || constructor.
Qed.

Lemma life_step_grows l l' : life_inv l → life_step l l' → grows (contents l) (contents l').
Proof.
  intros Hinv Hst. destruct Hst as [cfg now l Hr|i r r' l Hi Hst|html now text l Hd|i c now l Hc|cs1 cs2 l Hc]; try done.
  - unfold configure. destruct (lc_Debug cfg); [done|]. unfold contents at 2. cbn [lives]. by rewrite last_snoc.
  - unfold contents. cbn [lives]. destruct (run_steps l i r r' Hinv Hi Hst) as [(_ & -> & ->)|(_ & _ & _ & _ & ->)]; [|done].
    by eapply step_grows.
Qed.

End Life.

(** ** A process that starts its logger twice *)

#[local] Instance demo_json : LineJson := λ l m t, "{}".
#[local] Instance demo_hash : AlertHash := λ s, s.

Definition demo_config (debug : bool) : logger_Config := mkLoggerConfig debug "token" "group" "" "" false true.
Definition demo_started : logger := configure (λ _, true) ∅ (demo_config false) demo_clock at_start.

Lemma demo_restarted :
  ∃ l, rtc (life_step (λ _, true) ∅) demo_started l ∧ length (lives l) = 2 ∧ running l = true.
Proof.
  eexists. split.
  - eapply rtc_l; [eapply (life_run _ _ 0); [reflexivity|by apply step_close]|]. simpl.
    do 3 (eapply rtc_l; [eapply (life_run _ _ 0); [reflexivity|by eapply step_exit]|]; simpl).
    eapply rtc_l; [eapply (life_run _ _ 0); [reflexivity|by eapply step_workers_done]|]. simpl.
    eapply rtc_l; [eapply (life_run _ _ 0); [reflexivity|by eapply step_closed]|]. simpl.
    eapply rtc_l; [apply (life_init _ _ (demo_config false) demo_clock); reflexivity|]. apply rtc_refl.
  - split; reflexivity.
Qed.


(** Only errors and attacks outside debug mode ask for an alert. *)
Lemma alert_calls debug c e :
  (log_call_effect debug c).2 = Some e →
  sendTelegram e = negb debug && match c with CallError _ | CallWAF _ => true | _ => false end.
Proof. destruct c, debug; simpl; intros; by simplify_eq/=. Qed.

(** A line break in a message is replaced in the file and printed on the console. *)
Example console_line_forged :
  let msg := "x" +:+ lf +:+ "[INFO] forged" in
  Contains (log_call_effect false (CallError msg)).1 lf = true ∧
  Contains (sanitizeLogMessage msg) lf = false.
Proof. split; vm_compute; reflexivity. Qed.
