(* ===== verification/Telegram.v ===== *)
(** * The request of an alert

    [internal/logger/telegram.go]: the address and the form body of a message, which
    goes through [url.QueryEscape], and what is logged about the reply.  The client
    ([http.Client.Do]) is a parameter: its error or the status and body of the reply. *)

From S2P Require Import Prelude GoStrings Util HttpErr Session RedisStore Http Net Logger LoggerSafety.
From Stdlib Require Import Ascii.
Import Strings Logger.

(** ** [net/url] *)

(** Letters, digits and the four marks go as they are, a space as [+], any other byte as
    its two hexadecimal digits. *)
Definition is_alnum (a : ascii) : bool :=
  let n := N_of_ascii a in
  ((48 <=? n) && (n <=? 57) || (65 <=? n) && (n <=? 90) || (97 <=? n) && (n <=? 122))%N.
Definition unreserved (a : ascii) : bool := is_alnum a || bool_decide (a ∈ ["-"; "_"; "."; "~"]%char).

Definition upper_hex (n : N) : ascii := if (n <? 10)%N then ascii_of_N (n + 48) else ascii_of_N (n + 55).
Definition from_hex (a : ascii) : option N :=
  let n := N_of_ascii a in
  if ((48 <=? n) && (n <=? 57))%N then Some (n - 48)%N
  else if ((65 <=? n) && (n <=? 70))%N then Some (n - 55)%N
  else if ((97 <=? n) && (n <=? 102))%N then Some (n - 87)%N
  else None.

Fixpoint QueryEscape (s : string) : string :=
  match s with
  | "" => ""
  | String a s' =>
      if unreserved a then String a (QueryEscape s')
      else if bool_decide (a = " "%char) then String "+" (QueryEscape s')
      else let n := N_of_ascii a in
           String "%" (String (upper_hex (n / 16)) (String (upper_hex (n mod 16)) (QueryEscape s')))
  end.

(** [url.QueryUnescape]; [None] on a [%] without two digits. *)
Fixpoint QueryUnescape (s : string) : option string :=
  match s with
  | "" => Some ""
  | String a s' =>
      if bool_decide (a = "%"%char) then
        match s' with
        | String x (String y s'') =>
            hi ← from_hex x; lo ← from_hex y;
            String (ascii_of_N (hi * 16 + lo)) <$> QueryUnescape s''
        | _ => None
        end
      else if bool_decide (a = "+"%char) then String " " <$> QueryUnescape s'
      else String a <$> QueryUnescape s'
  end.

(** ** The request *)

Definition telegram_url (token : string) : string := "https://api.telegram.org/bot" +:+ token +:+ "/sendMessage".
Definition direct_body (group text : string) : string := "chat_id=" +:+ group +:+ "&text=" +:+ QueryEscape text.
Definition html_body (group text : string) : string :=
  "chat_id=" +:+ group +:+ "&text=" +:+ QueryEscape text +:+ "&parse_mode=HTML&disable_web_page_preview=true".

(** A request of the client: its address, its content type and its body. *)
Record telegram_request := mkTelegram { tg_url : string; tg_content_type : string; tg_body : string }.

(** [doSendTelegram]: [Do] is [http.NewRequest] and [httpClient.Do]; the result is what
    is logged. *)
Definition doSendTelegram (Do : telegram_request → (string * error) + (Z * string)) (url body : string) : option string :=
  match Do (mkTelegram url "application/x-www-form-urlencoded" body) with
  | inl (stage, e) => Some ("Telegram " +:+ stage +:+ " error: " +:+ Error e)
  | inr (status, reply) => if (300 <=? status)%Z then Some ("Telegram response error: " +:+ reply) else None
  end.

(** [sendTelegramDirect] and [sendTelegramHTML] from the memory of alerts to the log. *)
Definition send_direct `{AlertHash} Do (token group : string) (now : Z) (text : string) (last : gmap string Z)
    : option string * gmap string Z :=
  let '(ok, last') := sendTelegramDirect token group now text last in
  (if ok : bool then doSendTelegram Do (telegram_url token) (direct_body group text) else None, last').
Definition send_html `{AlertHash} Do (token group : string) (now : Z) (text : string) (last : gmap string Z)
    : option string * gmap string Z :=
  let '(ok, last') := sendTelegramHTML token group now text last in
  (if ok : bool then doSendTelegram Do (telegram_url token) (html_body group text) else None, last').

(** ** The form as the server reads it *)

(** [key=value&...] with both sides unescaped. *)
Definition form_field (p : string) : option (string * string) :=
  match SplitN2 "="%char p with
  | (k, Some v) => k ← QueryUnescape k; v ← QueryUnescape v; Some (k, v)
  | (k, None) => k ← QueryUnescape k; Some (k, "")
  end.
Definition read_form (body : string) : option (list (string * string)) := mapM form_field (Split "&"%char body).

(** ** Properties *)

(** A check on the sixteen digits. *)
Lemma below16 (P : N → bool) :
  forallb P [0; 1; 2; 3; 4; 5; 6; 7; 8; 9; 10; 11; 12; 13; 14; 15]%N = true → ∀ n, (n < 16)%N → P n = true.
Proof.
  intros HP n Hn. rewrite forallb_forall in HP. apply HP. simpl. lia.
Qed.

Lemma from_upper_hex n : (n < 16)%N → from_hex (upper_hex n) = Some n.
Proof.
  intros Hn. apply (bool_decide_unpack (from_hex (upper_hex n) = Some n)), Is_true_true.
  revert n Hn. apply below16. vm_compute. reflexivity.
Qed.

Lemma upper_hex_plain c n : ¬ is_alnum c → (n < 16)%N → upper_hex n ≠ c.
Proof.
  intros Hc Hn <-. apply Hc. clear Hc. apply Is_true_true. revert n Hn. apply (below16 (λ n, is_alnum (upper_hex n))). vm_compute. reflexivity.
Qed.

Lemma byte_digits a : (N_of_ascii a / 16 < 16)%N ∧ (N_of_ascii a mod 16 < 16)%N ∧
  ascii_of_N (N_of_ascii a / 16 * 16 + N_of_ascii a mod 16) = a.
Proof.
  pose proof (N_ascii_bounded a). split_and!; [apply N.Div0.div_lt_upper_bound; lia|by apply N.mod_lt|].
  rewrite (N.mul_comm _ 16), <-N.div_mod by done. apply ascii_N_embedding.
Qed.

Lemma QueryUnescape_QueryEscape s : QueryUnescape (QueryEscape s) = Some s.
Proof.
  induction s as [|a s IH]; [done|]. cbn [QueryEscape]. destruct (unreserved a) eqn:Hu.
  - assert (a ≠ "%"%char ∧ a ≠ "+"%char) as [H1 H2] by (split; intros ->; vm_compute in Hu; discriminate Hu).
    cbn [QueryUnescape]. rewrite !bool_decide_false by done. by rewrite IH.
  - case_bool_decide as Hsp; [subst; cbn [QueryUnescape]; by rewrite IH|].
    destruct (byte_digits a) as (Hhi & Hlo & Ha). cbn [QueryUnescape]. rewrite bool_decide_true by done.
    rewrite !from_upper_hex by done. cbn [mbind option_bind]. by rewrite IH, Ha.
Qed.

(** The separators of a form do not appear in an escaped text. *)
Lemma QueryEscape_word c s : c ≠ "+"%char → c ≠ "%"%char → unreserved c = false → word c (QueryEscape s).
Proof.
  intros Hp Hq Hc. assert (¬ is_alnum c) as Hal.
  { intros Hal. unfold unreserved in Hc. apply orb_false_iff in Hc as [Hc _]. by rewrite Hc in Hal. }
  induction s as [|a s IH]; [done|]. cbn [QueryEscape]. destruct (unreserved a) eqn:Hu.
  - apply word_cons. split; [congruence|done].
  - destruct (byte_digits a) as (Hhi & Hlo & _). case_bool_decide; repeat (apply word_cons; split; auto using upper_hex_plain).
Qed.

(** A chat is a number or a name: nothing the form would read differently. *)
Definition plain_chat (g : string) : Prop := word "&"%char g ∧ QueryUnescape g = Some g.

Lemma form_field_pair k v v' :
  word "="%char k → QueryUnescape k = Some k → QueryUnescape v = Some v' → form_field (k +:+ String "=" v) = Some (k, v').
Proof. intros Hw Hk Hv. unfold form_field. rewrite SplitN2_app by done. by rewrite Hk, Hv. Qed.

(** The message of an alert comes through: whatever bytes the text has, the form
    the request carries reads back as exactly the chat and the text (and the two
    settings of the HTML form), so that a text made of a request cannot add or replace
    a parameter. *)
Theorem alert_form_reads_back group text :
  plain_chat group →
  read_form (direct_body group text) = Some [("chat_id", group); ("text", text)] ∧
  read_form (html_body group text) =
    Some [("chat_id", group); ("text", text); ("parse_mode", "HTML"); ("disable_web_page_preview", "true")].
Proof.
  intros [Hamp Hun]. assert (word "&"%char (QueryEscape text)) as Ht by (by apply QueryEscape_word).
  pose proof (QueryUnescape_QueryEscape text) as Hq.
  assert (form_field ("chat_id=" +:+ group) = Some ("chat_id", group)) as H1 by (by apply (form_field_pair "chat_id")).
  assert (form_field ("text=" +:+ QueryEscape text) = Some ("text", text)) as H2 by (by apply (form_field_pair "text")).
  assert (word "&"%char ("chat_id=" +:+ group)) as W1 by (by apply word_append).
  assert (word "&"%char ("text=" +:+ QueryEscape text)) as W2 by (by apply word_append).
  unfold read_form, direct_body, html_body. split.
  - change ("chat_id=" +:+ group +:+ "&text=" +:+ QueryEscape text)
      with ("chat_id=" +:+ (group +:+ String "&" ("text=" +:+ QueryEscape text))).
    rewrite <-string_app_assoc, Split_word_sep, Split_word by done. simpl. by rewrite H1, H2.
  - change ("chat_id=" +:+ group +:+ "&text=" +:+ QueryEscape text +:+ "&parse_mode=HTML&disable_web_page_preview=true")
      with ("chat_id=" +:+ (group +:+ String "&" ("text=" +:+ (QueryEscape text +:+
        String "&" ("parse_mode=HTML" +:+ String "&" "disable_web_page_preview=true"))))).
    rewrite <-string_app_assoc, Split_word_sep by done. rewrite <-(string_app_assoc "text="), Split_word_sep by done.
    rewrite Split_word_sep, Split_word by done. simpl. by rewrite H1, H2.
Qed.

Lemma alert_form_reads_back_witness :
  read_form (direct_body "-100123" "a&chat_id=1 b%") = Some [("chat_id", "-100123"); ("text", "a&chat_id=1 b%")].
Proof. apply (alert_form_reads_back "-100123" "a&chat_id=1 b%"). split; reflexivity. Defined.
