(* ===== verification/WebSocket.v ===== *)
(** * WebSocket connections

    [internal/web/websocket.go] with the [Hijack] and [Flush] of the writers it goes
    through ([internal/router/status.go]; those of the firewall are in [Waf.v]).  The
    library gorilla/websocket is not in the repository: [Upgrade] and the frames a
    message is sent as are parameters.  Its connection allows one writer at a time;
    the mutex of [WebSocketConn] is there to keep that, and the second part is the
    machine of the goroutines that write. *)

From S2P Require Import Prelude GoStrings GoValue HttpErr Session RedisStore Http Net Waf.
From Stdlib Require Import Ascii.
From stdpp Require Import relations.

(** ** Through the writers *)

Definition no_hijacker : error := ENew "underlying ResponseWriter does not implement http.Hijacker".

Section Recorder.
Context {W : Type}.

(** [hj]: what the wrapped writer's [Hijack] returns, when it has one; [fl] its flush. *)
Definition rec_Hijack (hj : option (error + unit)) : M (statusRecorder W) (error + unit) :=
  mret (match hj with Some r => r | None => inl no_hijacker end).
Definition rec_Flush (fl : option (M W unit)) : M (statusRecorder W) unit :=
  match fl with Some m => on_inner m | None => mret () end.
End Recorder.

(** [upgrader.Upgrade] with its [CheckOrigin]: a connection, or the error it has
    answered the request with. *)
Class Upgrader (W C : Type) := Upgrade : (Request → bool) → Request → M W (error + C).

(** [CheckOrigin] of the package. *)
Definition checkOrigin (_ : Request) : bool := true.

(** A connection with its mutex: [Some g] when goroutine [g] holds it. *)
Record WebSocketConn (C : Type) := mkConn { ws_Conn : C; ws_mu : option nat }.
Arguments mkConn {C}.
Arguments ws_Conn {C}.
Arguments ws_mu {C}.

Definition NewWebSocket {W C} `{Upgrader W C} (req : Request) : M W (error + WebSocketConn C) :=
  c ← Upgrade checkOrigin req;
  mret (match c with inl e => inl e | inr conn => inr (mkConn conn None) end).

(** Every origin may open a connection: what the library is given does not look at
    the request. *)
Lemma checkOrigin_all req : checkOrigin req = true.
Proof. done. Qed.

Section Firewall.
Context {W T : Type} `{ResponseWriter W, Coraza T}.

(** A writer before anything is written. *)
Definition fresh_writer (w : wafResponseWriter W T) : Prop :=
  ww_locked w = false ∧ ww_wrote w = false ∧ ww_streaming w = false ∧ ww_bufferLimitExceeded w = false ∧ is_Some (ww_tx w).

(** Behind the firewall a connection can be taken over exactly when nothing has been
    written; from then on the firewall leaves the client alone: the end of the request
    writes nothing, whatever its rules say. *)
Theorem hijacked_left_alone (w : wafResponseWriter W T) :
  fresh_writer w →
  ∃ w1 w2, Hijack (Some (inr ())) w = (Done (inr ()), w1) ∧ ww_inner w1 = ww_inner w ∧
    inspect_response w1 = (Done (), w2) ∧ ww_inner w2 = ww_inner w ∧
    (Hijack (Some (inr ())) w1).1 = Done (inl (ENew "cannot hijack after response has been written")).
Proof.
  intros (Hl & Hwr & Hs & He & [t Ht]).
  set (w1 := set_locked false (set_streaming true (set_locked true w))).
  assert (∀ w' : wafResponseWriter W T, ww_locked w' = false → Hijack (Some (inr ())) w' =
    (Done (if ww_streaming w' || ww_wrote w' then inl (ENew "cannot hijack after response has been written") else inr ()),
     set_locked false (if ww_streaming w' || ww_wrote w' then set_locked true w' else set_streaming true (set_locked true w')))) as Hj.
  { intros w' Hl'. unfold Hijack, with_lock, mbind, M_bind, getM, modM, deferM, mret, M_ret. rewrite Hl'. cbn.
    by destruct (ww_streaming w' || ww_wrote w'). }
  exists w1, (set_tx (Some (ProcessResponseBody (WriteResponseBody "" t))) w1). split_and!.
  - rewrite Hj by done. by rewrite Hs, Hwr.
  - done.
  - unfold inspect_response, FlushToClient, mbind, M_bind, getM, modM, mret, M_ret. cbn. rewrite He, Ht. cbn.
    by destruct (Interruption _).
  - done.
  - by rewrite Hj.
Qed.
End Firewall.

(** A takeover that fails in the server has still switched the firewall's writer to
    streaming: the error page the library then writes goes out with status 200. *)
Example failed_hijack_answers_200 :
  let w := set_tx (Some NewTransaction) (new_waf_writer new_server_rw 100) in
  let w1 := (Hijack (Some (inl (ENew "hijacked"))) w).2 in
  let w2 := (http_Error "Internal Server Error" 500 w1).2 in
  fst <$> srv_sent (ww_inner (inspect_response w2).2) = Some 200%Z.
Proof. vm_compute. reflexivity. Qed.

(** ** Goroutines that write *)

(** [WriteJSON] and [WriteMessage]. *)
Inductive ws_message := WriteJSON (v : value) | WriteMessage (messageType : Z) (data : string).

(** Where a goroutine is: not writing, before [c.mu.Lock()], or in the library's method
    with the chunks of its message still to be sent. *)
Inductive ws_thread := Outside | Waiting (m : ws_message) | Inside (m : ws_message) (rest : list string).

Record ws_state := mkWs {
  mu : option nat;
  threads : nat → ws_thread;
  wire : list string;           (* chunks sent, in order *)
  sent_messages : list ws_message;
  broken : bool;                (* a write has failed; the library refuses all later ones *)
}.

Definition set_thread (g : nat) (t : ws_thread) (f : nat → ws_thread) : nat → ws_thread :=
  λ g', if decide (g' = g) then t else f g'.

(** The chunks a message is sent in; [None] when it cannot be encoded. *)
Class Frames := frames : ws_message → option (list string).

Section Mutex.
Context `{Frames}.

Definition chunks (m : ws_message) : list string := default [] (frames m).

Inductive ws_step : ws_state → ws_state → Prop :=
  | ws_call g m s : threads s g = Outside →
      ws_step s (mkWs (mu s) (set_thread g (Waiting m) (threads s)) (wire s) (sent_messages s) (broken s))
  (* [c.mu.Lock()]; a broken connection or a value that has no JSON sends nothing *)
  | ws_lock g m s : threads s g = Waiting m → mu s = None →
      ws_step s (mkWs (Some g) (set_thread g (Inside m (if broken s then [] else chunks m)) (threads s))
        (wire s) (sent_messages s) (broken s))
  | ws_send g m c rest s : threads s g = Inside m (c :: rest) →
      ws_step s (mkWs (mu s) (set_thread g (Inside m rest) (threads s)) (wire s ++ [c]) (sent_messages s) (broken s))
  (* an error of the network ends the call; the deferred unlock runs as well *)
  | ws_fail g m c rest s : threads s g = Inside m (c :: rest) →
      ws_step s (mkWs None (set_thread g Outside (threads s)) (wire s) (sent_messages s) true)
  | ws_unlock g m s : threads s g = Inside m [] →
      ws_step s (mkWs None (set_thread g Outside (threads s)) (wire s)
        (if broken s then sent_messages s else sent_messages s ++ [m]) (broken s)).

Definition ws_start : ws_state := mkWs None (λ _, Outside) [] [] false.
Definition ws_reachable (s : ws_state) : Prop := rtc ws_step ws_start s.

(** What is on the wire for a list of messages. *)
Definition wire_of (ms : list ws_message) : list string := mjoin (chunks <$> ms).

Lemma set_thread_eq g t f : set_thread g t f g = t.
Proof. unfold set_thread. by rewrite decide_True. Qed.
Lemma set_thread_ne g g' t f : g' ≠ g → set_thread g t f g' = f g'.
Proof. intros. unfold set_thread. by rewrite decide_False. Qed.
Lemma set_thread_inv g t f g' x : set_thread g t f g' = x → (g' = g ∧ x = t) ∨ (g' ≠ g ∧ f g' = x).
Proof. unfold set_thread. case_decide; naive_solver. Qed.

Lemma wire_of_snoc ms m : wire_of (ms ++ [m]) = wire_of ms ++ chunks m.
Proof. unfold wire_of. rewrite fmap_app, join_app. simpl. by rewrite app_nil_r. Qed.

(** The holder and nobody else is inside. *)
Definition one_inside (s : ws_state) : Prop :=
  (∀ g m rest, threads s g = Inside m rest → mu s = Some g) ∧
  (∀ g, mu s = Some g → ∃ m rest, threads s g = Inside m rest).

Lemma one_inside_step s s' : one_inside s → ws_step s s' → one_inside s'.
Proof.
  intros [Hh Hi] Hst. destruct Hst as [g m s Hg|g m s Hg Hmu|g m c rest s Hg|g m c rest s Hg|g m s Hg]; split; simpl.
  - intros g' m' r' [[-> [=]]|[_ E]]%set_thread_inv. by eapply Hh.
  - intros g' Hm. destruct (Hi _ Hm) as (m' & r' & E). rewrite set_thread_ne by congruence. eauto.
  - intros g' m' r' [[-> _]|[_ E]]%set_thread_inv; [done|]. apply Hh in E. congruence.
  - intros g' [= <-]. rewrite set_thread_eq. eauto.
  - intros g' m' r' [[-> _]|[_ E]]%set_thread_inv; by eapply Hh.
  - intros g' Hm. rewrite (Hh _ _ _ Hg) in Hm. injection Hm as <-. rewrite set_thread_eq. eauto.
  - intros g' m' r' [[-> [=]]|[Hne E]]%set_thread_inv. apply Hh in E, Hg. congruence.
  - done.
  - intros g' m' r' [[-> [=]]|[Hne E]]%set_thread_inv. apply Hh in E, Hg. congruence.
  - done.
Qed.

(** Whole messages, and what the holder has sent of its own. *)
Definition wire_inv (s : ws_state) : Prop :=
  if broken s then
    (∀ g m rest, threads s g = Inside m rest → rest = []) ∧
    ∃ m part, part `prefix_of` chunks m ∧ wire s = wire_of (sent_messages s) ++ part
  else match mu s with
       | None => wire s = wire_of (sent_messages s)
       | Some g => ∃ m sent rest, threads s g = Inside m rest ∧ chunks m = sent ++ rest ∧
                     wire s = wire_of (sent_messages s) ++ sent
       end.

Lemma wire_inv_step s s' : one_inside s → wire_inv s → ws_step s s' → wire_inv s'.
Proof.
  intros [Hh Hi] Hw Hst. unfold wire_inv in *.
  destruct Hst as [g m s Hg|g m s Hg Hmu|g m c rest s Hg|g m c rest s Hg|g m s Hg]; simpl; destruct (broken s) eqn:Hb.
  - destruct Hw as [Hin Hw]. split; [|done]. intros g' m' r' [[-> [=]]|[_ E]]%set_thread_inv. by eapply Hin.
  - destruct (mu s) as [g'|]; [|done]. destruct Hw as (m' & snt & r & E & Hc & Hwi). exists m', snt, r.
    split_and!; [|done..]. rewrite set_thread_ne by congruence. done.
  - destruct Hw as [Hin Hw]. split; [|done]. intros g' m' r' [[-> [= -> ->]]|[_ E]]%set_thread_inv; [done|by eapply Hin].
  - rewrite Hmu in Hw. exists m, [], (chunks m). rewrite set_thread_eq, app_nil_r. done.
  - destruct Hw as [Hin _]. specialize (Hin _ _ _ Hg). discriminate Hin.
  - rewrite (Hh _ _ _ Hg) in Hw |- *. destruct Hw as (m' & snt & r & E & Hc & Hwi). rewrite E in Hg. simplify_eq.
    exists m, (snt ++ [c]), rest. rewrite set_thread_eq, Hc, Hwi, <-!app_assoc. done.
  - destruct Hw as [Hin _]. specialize (Hin _ _ _ Hg). discriminate Hin.
  - rewrite (Hh _ _ _ Hg) in Hw. destruct Hw as (m' & snt & r & E & Hc & Hwi). rewrite E in Hg. simplify_eq. split.
    + intros g' m' r' [[-> [=]]|[Hne E']]%set_thread_inv. apply Hh in E', E. congruence.
    + exists m, snt. rewrite Hc. split; [by eexists|done].
  - destruct Hw as [Hin Hw]. split; [|done]. intros g' m' r' [[-> [=]]|[_ E]]%set_thread_inv. by eapply Hin.
  - rewrite (Hh _ _ _ Hg) in Hw. destruct Hw as (m' & snt & r & E & Hc & Hwi). rewrite E in Hg. simplify_eq.
    rewrite wire_of_snoc, Hc, app_nil_r. done.
Qed.

Lemma ws_reachable_inv s : ws_reachable s → one_inside s ∧ wire_inv s.
Proof.
  revert s. apply (rtc_ind_r (λ s, one_inside s ∧ wire_inv s) ws_start).
  - split; [split; done|done].
  - intros s1 s2 _ Hst [H1 H2]. eauto using one_inside_step, wire_inv_step.
Qed.

(** The rest of a call, when nothing fails. *)
Lemma finish_call g m rest s : threads s g = Inside m rest → ∃ s', rtc ws_step s s' ∧ mu s' = None.
Proof.
  revert s. induction rest as [|c rest IH]; intros s Hg.
  - eexists. split; [eapply rtc_once, ws_unlock; exact Hg|done].
  - destruct (IH (mkWs (mu s) (set_thread g (Inside m rest) (threads s)) (wire s ++ [c]) (sent_messages s) (broken s)))
      as (s' & Hs' & Hm); [apply set_thread_eq|]. exists s'. split; [|done]. eapply rtc_l; [by eapply ws_send|done].
Qed.


(** The library's connection is embedded, so its own methods can be called as well.
    One that writes, such as [NextWriter], takes no lock: it may start at any time. *)
Inductive ws_raw_step : ws_state → ws_state → Prop :=
  | ws_guarded s s' : ws_step s s' → ws_raw_step s s'
  | ws_raw_call g m s : threads s g = Outside →
      ws_raw_step s (mkWs (mu s) (set_thread g (Inside m (chunks m)) (threads s)) (wire s) (sent_messages s) (broken s)).
End Mutex.

(** Two goroutines to evaluate: messages of two chunks. *)
#[local] Instance demo_frames : Frames := λ m,
  match m with WriteMessage _ d => Some [d +:+ ".1"; d +:+ ".2"] | WriteJSON _ => None end.

Lemma demo_sending :
  ∃ s, ws_reachable s ∧ wire s = ["a.1"] ∧ threads s 1 = Waiting (WriteMessage 1 "b").
Proof.
  eexists. split_and!.
  - unfold ws_reachable. eapply rtc_l; [by apply (ws_call 0 (WriteMessage 1 "a"))|].
    eapply rtc_l; [by apply (ws_call 1 (WriteMessage 1 "b"))|].
    eapply rtc_l; [by eapply (ws_lock 0)|]. eapply rtc_l; [by eapply (ws_send 0)|]. apply rtc_refl.
  - reflexivity.
  - reflexivity.
Qed.


(** With a method of the embedded connection the chunks of two messages are mixed. *)
Example embedded_writer_interleaves :
  ∃ s, rtc ws_raw_step ws_start s ∧ wire s = ["a.1"; "b.1"; "a.2"].
Proof.
  eexists. split.
  - eapply rtc_l; [apply ws_guarded; by apply (ws_call 0 (WriteMessage 1 "a"))|].
    eapply rtc_l; [apply ws_guarded; by eapply (ws_lock 0)|]. eapply rtc_l; [apply ws_guarded; by eapply (ws_send 0)|].
    eapply rtc_l; [by apply (ws_raw_call 1 (WriteMessage 1 "b"))|].
    eapply rtc_l; [apply ws_guarded; by eapply (ws_send 1)|]. eapply rtc_l; [apply ws_guarded; by eapply (ws_send 0)|].
    apply rtc_refl.
  - reflexivity.
Qed.
