(* ===== verification/ContextModel.v ===== *)
(** * Models of a request

    [Model[T]] of [context.go]: a new value of an application's type whose embedded
    [BaseModel] is given the database and the context of the request.  The type is
    examined by reflection once and the result kept in [modelCache].

    The types are those of [GoValue.v]; which named types of the application declare a
    method [Init] of their own is a parameter. *)

From S2P Require Import Prelude GoStrings GoValue HttpErr DbModel DbPrepared DbExec DbBuilder DbFacade.
From Stdlib Require Import Ascii.

(** ** Methods *)

(** The application's types that declare a method [Init]: [Some ok] says so, [ok]
    whether it takes the arguments of [BaseModel.Init]. *)
Class AppInits := app_Init : string → option bool.

Definition zero_base : BaseModel := mkModel None None VNil false None.
Definition nil_call : string := "reflect: call of reflect.Value.Call on zero Value".
Definition unexported_call : string := "reflect: reflect.Value.Call using value obtained using unexported field".

Section Model.
Context `{Unicode} `{Platform} `{Driver} `{HistoryCodec} `{inits : AppInits}.

Definition declared_Init (n : string) : option bool := if bool_decide (n = "BaseModel") then Some true else app_Init n.

(** A method is found as a field is: at the shallowest depth at which the name occurs,
    as a method or as a field, and only if it occurs there once. *)
Definition mlevel : Type := list (list nat * string * list sfield).

Record method_hit := mkHit { mh_path : list nat; mh_type : string; mh_ok : bool }.

Definition method_hits (lv : mlevel) : list (option method_hit) :=
  lv ≫= λ '(p, n, fs),
    (match declared_Init n with Some ok => [Some (mkHit p n ok)] | None => [] end) ++
    (if existsb (λ f, bool_decide (sf_name f = "Init")) fs then [None] else []).

Definition embedded_named (f : sfield) : option (string * list sfield) :=
  if sf_anonymous f then
    match sf_type f with
    | TStruct n _ gs | TPtr (TStruct n _ gs) => Some (n, gs)
    | _ => None
    end
  else None.

Definition next_mlevel (lv : mlevel) : mlevel :=
  lv ≫= λ '(p, _, fs), omap (λ x, (λ ng, (x.1, ng.1, ng.2)) <$> embedded_named x.2) (imap (λ i f, (p ++ [i], f)) fs).

Fixpoint find_method (fuel : nat) (lv : mlevel) : option method_hit :=
  match fuel with
  | O => None
  | S fuel' =>
      match method_hits lv with
      | [] => match next_mlevel lv with [] => None | lv' => find_method fuel' lv' end
      | [Some h] => Some h
      | _ => None
      end
  end.

(** [MethodByName("Init")] on a pointer to a struct type. *)
Definition method_Init (n : string) (tn : option string) (fs : list sfield) : option method_hit :=
  find_method (S (type_depth (TStruct n tn fs))) [([], n, fs)].

(** ** [Model] *)

(** [modelMetaData]; [None] for the index -1. *)
Record modelMetaData := mkMeta { bmFieldIdx : option nat; hasInit : bool }.

(** [reflect.Type] has fields by name only for a struct. *)
Definition examine (t : gotype) : outcome modelMetaData :=
  match t with
  | TStruct n tn fs =>
      Ret (match FieldByName n tn fs "BaseModel" with
           | Some (p, _) => mkMeta (head p) (bool_decide (is_Some (method_Init n tn fs)))
           | None => mkMeta None false
           end)
  | _ => Panic "reflect: FieldByName of non-struct type"
  end.

(** What became of the embedded model: not initialised, the base model at a path
    initialised, or another method [Init] called. *)
Inductive init_call := NotCalled | CalledBase (p : list nat) (b : BaseModel) | CalledOther (p : list nat).

(** [bmField.Addr().MethodByName("Init").Call(args)]. *)
Definition call_Init (db : option DB) (ctx : option model_ctx) (t : gotype) (inst : value) (i : nat) (fs : list sfield)
    : outcome init_call :=
  match fs !! i with
  | None => Panic "reflect: Field index out of range"
  | Some f =>
      match sf_type f with
      | TStruct n tn gs =>
          match method_Init n tn gs with
          | None => Panic nil_call
          | Some h =>
              if negb (sf_exported f) then Panic unexported_call
              else if negb (mh_ok h) then Panic "reflect: Call using values of the wrong type"
              else if bool_decide (mh_type h ≠ "BaseModel") then Ret (CalledOther (i :: mh_path h))
              else match get_path inst (i :: mh_path h) with
                   | Panic p => Panic p
                   | Ret (VPtr _ None) => Panic "runtime error: invalid memory address or nil pointer dereference"
                   | Ret _ =>
                       match Init db ctx (VPtr t (Some inst)) zero_base with
                       | Panic p => Panic p
                       | Ret b => Ret (CalledBase (i :: mh_path h) b)
                       end
                   end
          end
      | _ => Panic nil_call
      end
  end.

(** [modelCache]. *)
Definition model_cache : Type := list (gotype * modelMetaData).
Definition cache_load (t : gotype) (c : model_cache) : option modelMetaData := snd <$> find_first (λ p, type_eqb p.1 t) c.

Definition use_meta (db : option DB) (ctx : option model_ctx) (t : gotype) (m : modelMetaData) : outcome (value * init_call) :=
  let inst := zero_value t in
  match bmFieldIdx m, hasInit m, t with
  | Some i, true, TStruct _ _ fs =>
      match call_Init db ctx t inst i fs with Panic p => Panic p | Ret x => Ret (inst, x) end
  | _, _, _ => Ret (inst, NotCalled)
  end.

Definition Model (t : gotype) (db : option DB) (ctx : option model_ctx) (c : model_cache)
    : outcome (value * init_call) * model_cache :=
  match cache_load t c with
  | Some m => (use_meta db ctx t m, c)
  | None =>
      match examine t with
      | Panic p => (Panic p, c)
      | Ret m => (use_meta db ctx t m, (t, m) :: c)
      end
  end.

(** ** Properties *)

(** What the cache holds is what an examination would find. *)
Definition cache_ok (c : model_cache) : Prop := Forall (λ p, examine p.1 = Ret p.2) c.

Lemma cache_load_ok t c m : cache_ok c → cache_load t c = Some m → examine t = Ret m.
Proof.
  intros Hc. unfold cache_load. induction Hc as [|[u m'] c Hu Hc IH]; [done|]. simpl.
  destruct (type_eqb u t) eqn:E; [|exact IH]. intros [= <-]. apply type_eqb_eq in E as ->. done.
Qed.

(** The cache changes nothing but the work: the first use of a type and every later one
    give the same value. *)
Lemma model_cached t db ctx c :
  cache_ok c → (Model t db ctx c).1 = (Model t db ctx []).1 ∧ cache_ok (Model t db ctx c).2.
Proof.
  intros Hc. unfold Model at 1 3. destruct (cache_load t c) as [m|] eqn:E.
  - apply cache_load_ok in E; [|done]. unfold Model. simpl. by rewrite E.
  - unfold Model. simpl. destruct (examine t) as [m|p] eqn:Ex; [|done]. split; [done|]. by constructor.
Qed.

(** A type that embeds [BaseModel] itself, by value. *)
Record direct_model (n : string) (tn : option string) (fs : list sfield) (i : nat) (f : sfield) : Prop := {
  dm_field : FieldByName n tn fs "BaseModel" = Some ([i], f);
  dm_at : fs !! i = Some f;
  dm_type : ∃ btn bfs, sf_type f = TStruct "BaseModel" btn bfs ∧ existsb (λ g, bool_decide (sf_name g = "Init")) bfs = false;
  dm_exported : sf_exported f = true;
  dm_Init : is_Some (method_Init n tn fs);
}.

Lemma base_method btn bfs :
  existsb (λ g, bool_decide (sf_name g = "Init")) bfs = false →
  method_Init "BaseModel" btn bfs = Some (mkHit [] "BaseModel" true).
Proof. intros Hn. unfold method_Init. cbn -[type_depth]. by rewrite Hn. Qed.

(** What [Init] leaves in a base model. *)
Lemma Init_fields db ctx self b :
  Init db ctx self zero_base = Ret b →
  bm_db b = db ∧ bm_ctx b = ctx ∧ bm_self b = self ∧ bm_tx b = None ∧
  (bm_hasSoftDelete b = true → hasField self "DeletedAt" = Ret true).
Proof.
  unfold Init. destruct (deref self) as [|v]; [|destruct (as_struct v); [destruct (hasField self "DeletedAt") as [[]|]|]];
    intros; simplify_eq/=; done.
Qed.

End Model.

(** ** Types to evaluate *)

#[local] Instance demo_inits : AppInits := λ _, None.

Definition base_type : gotype := TStruct "BaseModel" None [SField "__db" (TPtr (TOther "DB")) false false []].
Definition embed (name : string) (t : gotype) (exported : bool) : sfield := SField name t exported true [].
Definition user_fields : list sfield :=
  [embed "BaseModel" base_type true; SField "Name" TString true false []; SField "DeletedAt" (TPtr TTime) true false []].

Lemma user_direct : direct_model "User" None user_fields 0 (embed "BaseModel" base_type true).
Proof.
  split; [reflexivity|reflexivity|by eexists _, _|reflexivity|by eexists].
Qed.


(** The index kept is the first of the path only.  A base model embedded through an
    unexported struct, or through a pointer, is found by its name, but the call then
    goes through the outer field and panics, for every request. *)
Definition shared (exported : bool) : sfield :=
  embed (if exported then "Base" else "base") (TStruct "base" None [embed "BaseModel" base_type true]) exported.

Example indirect_model_panics :
  (Model (TStruct "User" None [shared false]) None None []).1 = Panic unexported_call ∧
  (Model (TStruct "User" None [embed "Base" (TPtr (TStruct "Base" None [embed "BaseModel" base_type true])) true]) None None []).1
    = Panic nil_call ∧
  ∃ b, (Model (TStruct "User" None [shared true]) None None []).1 = Ret (zero_value (TStruct "User" None [shared true]), CalledBase [0; 0] b).
Proof. split_and!; [vm_compute; reflexivity|vm_compute; reflexivity|]. eexists. vm_compute. reflexivity. Qed.

(** A second embedded type with a method [Init] hides that of the base model, which is
    then left without a database, silently. *)
Definition other_inits : AppInits := λ n, if bool_decide (n = "Other") then Some true else None.
Definition ambiguous : gotype :=
  TStruct "User" None [embed "BaseModel" base_type true; embed "Other" (TStruct "Other" None []) true].

Example ambiguous_model_not_initialised :
  (Model (inits := other_inits) ambiguous None None []).1 = Ret (zero_value ambiguous, NotCalled).
Proof. vm_compute. reflexivity. Qed.
