(* ===== verification/DecoderSetup.v ===== *)
(** * Setting up a decoder ([internal/decoder])

    The record behind [FormDecoder] with its settings, its cache of struct fields and
    the functions registered for types of their own.  [Decoder.v] models decoding with
    the settings [FormDecoder] has and keeps, for nothing in the sources registers a
    function or changes a setting; here decoding is defined for any setting of the
    functions, and shown to be that of [Decoder.v] when there are none. *)

From S2P Require Import Prelude GoStrings GoValue HttpErr Decoder.
From Stdlib Require Import Ascii FunctionalExtensionality.
Import Strings.

Inductive Mode := ModeImplicit | ModeExplicit.
#[global] Instance Mode_eq_dec : EqDecision Mode.
Proof. solve_decision. Defined.

(** [DecodeCustomTypeFunc] and [TagNameFunc]. *)
Definition DecodeCustomTypeFunc : Type := list string → error + value.
Definition TagNameFunc : Type := sfield → string.

(** [structCacheMap]: the fields of the struct types seen so far. *)
Definition struct_cache : Type := list (gotype * list cachedField).
Record structCacheMap := mkCacheMap { cache_m : struct_cache; tagFn : option TagNameFunc }.
Definition newStructCacheMap : structCacheMap := mkCacheMap [] None.
Definition cache_Get (key : gotype) (s : structCacheMap) : option (list cachedField) :=
  snd <$> find_first (λ p, type_eqb p.1 key) (cache_m s).
Definition cache_Set (key : gotype) (v : list cachedField) (s : structCacheMap) : structCacheMap :=
  mkCacheMap ((key, v) :: cache_m s) (tagFn s).

(** The pool of contexts only saves allocations and is not here. *)
Record form_decoder := mkDecoder {
  tagName : string;
  mode : Mode;
  structCache : structCacheMap;
  customTypeFuncs : list (gotype * DecodeCustomTypeFunc);
  dec_maxArraySize : Z;
  namespacePrefix : string;
  namespaceSuffix : string;
}.

Definition NewDecoder : form_decoder := mkDecoder "form" ModeImplicit newStructCacheMap [] 1000 "." "".

Definition RegisterTagNameFunc (fn : TagNameFunc) (d : form_decoder) : form_decoder :=
  mkDecoder (tagName d) (mode d) (mkCacheMap (cache_m (structCache d)) (Some fn)) (customTypeFuncs d) (dec_maxArraySize d)
    (namespacePrefix d) (namespaceSuffix d).

(** The last registration of a type counts; a nil interface has no type and is the
    key no value has. *)
Definition RegisterCustomTypeFunc (fn : DecodeCustomTypeFunc) (types : list value) (d : form_decoder) : form_decoder :=
  mkDecoder (tagName d) (mode d) (structCache d)
    (foldl (λ m t, match type_of t with Some ty => (ty, fn) :: m | None => m end) (customTypeFuncs d) types)
    (dec_maxArraySize d) (namespacePrefix d) (namespaceSuffix d).

(** [int(size)] of a [uint]. *)
Definition SetMaxArraySize (size : Z) (d : form_decoder) : form_decoder :=
  mkDecoder (tagName d) (mode d) (structCache d) (customTypeFuncs d) (wrap64 size) (namespacePrefix d) (namespaceSuffix d).

Definition custom_for (d : form_decoder) (t : gotype) : option DecodeCustomTypeFunc :=
  snd <$> find_first (λ p, type_eqb p.1 t) (customTypeFuncs d).

Section Setup.
Context `{Unicode} `{MapOrder} `{FormText} `{FieldSort}.

(** ** The fields of a struct *)

Definition cache_field (m : Mode) (tag : string) (i : nat) (fld : sfield) : option cachedField :=
  if negb (sf_exported fld) && negb (sf_anonymous fld) then None
  else
    let tagVal := Tag_Get fld tag in
    if bool_decide (m = ModeExplicit) && bool_decide (tagVal = "") then None
    else
      let parts := Split ","%char tagVal in
      let name := if bool_decide (tagVal = "") then tagVal else TrimSpace (default "" (hd_error parts)) in
      let sanitize := if bool_decide (tagVal = "") then SanitizeDefault
                      else match parts with
                           | _ :: cfg :: _ => sanitize_option (strings_ToLower (TrimSpace cfg))
                           | _ => SanitizeDefault
                           end in
      if bool_decide (name = "-") then None
      else Some (mkCached i (if bool_decide (name = "") then sf_name fld else name) (sf_anonymous fld) sanitize).

Definition struct_fields (t : gotype) : list sfield := match t with TStruct _ _ fs => fs | _ => [] end.

(** [parseStruct]: from the cache, or examined and stored. *)
Definition parse_struct (m : Mode) (key : gotype) (tag : string) (s : structCacheMap) : list cachedField * structCacheMap :=
  match cache_Get key s with
  | Some cs => (cs, s)
  | None => let cs := sort_Sort (omap id (imap (cache_field m tag) (struct_fields key))) in (cs, cache_Set key cs s)
  end.

(** ** Functions of the application *)

(** [v.Set(reflect.ValueOf(val))]. *)
Definition assignable (vt : gotype) (val : value) : bool :=
  match type_of val with
  | None => false
  | Some t => match vt with TInterface => true | _ => type_eqb t vt end
  end.

Definition set_custom (cf : DecodeCustomTypeFunc) (vset : bool) (vt : gotype) (cur : value) (ns : string) (idx : nat)
    (arr : list string) : D (bool * value) :=
  if (length arr <? idx)%nat then panicD "runtime error: slice bounds out of range"
  else match cf (skipn idx arr) with
       | inl e => setError ns e;; mret (false, cur)
       | inr val =>
           if negb (assignable vt val) then panicD "reflect.Set: value is not assignable"
           else if vset then mret (true, put_back cur val) else panicD unaddressable
       end.

Section Body.
Context (d : form_decoder) (values : gmap string (list string)) (dm : dataMap) (rec : setter).

(** [setFieldByType] with the branch of the registered functions. *)
Definition set_body_with : setter := λ depth canSet t cur ns idx md,
  if negb canSet then mret (false, cur)
  else
    let '(vt, _, vset) := extractType canSet t cur in
    match custom_for d vt, values !! ns with
    | Some cf, Some arr => set_custom cf vset vt cur ns idx arr
    | _, _ => set_body values dm rec depth canSet t cur ns idx md
    end.
End Body.

Fixpoint setFieldByType_with (d : form_decoder) (fuel : nat) (values : gmap string (list string)) (dm : dataMap) : setter :=
  match fuel with
  | O => λ _ _ _ _ _ _ _, out_of_fuel
  | S fuel => set_body_with d values dm (setFieldByType_with d fuel values dm)
  end.

(** ** Properties *)

(** What the cache holds for a type is what an examination would give. *)
Definition cache_inv (m : Mode) (tag : string) (s : structCacheMap) : Prop :=
  Forall (λ p, p.2 = sort_Sort (omap id (imap (cache_field m tag) (struct_fields p.1)))) (cache_m s).

Lemma parse_struct_cached m key tag s :
  cache_inv m tag s →
  (parse_struct m key tag s).1 = sort_Sort (omap id (imap (cache_field m tag) (struct_fields key))) ∧
  cache_inv m tag (parse_struct m key tag s).2.
Proof.
  intros Hs. unfold parse_struct. destruct (cache_Get key s) as [cs|] eqn:E; [|split; [done|by constructor]].
  split; [|done]. unfold cache_Get in E. unfold cache_inv in Hs. cbn [fst].
  induction Hs as [|[t fs] l Hp Hl IH]; [done|]. simpl in E.
  destruct (type_eqb t key) eqn:Et; [|by apply IH]. apply type_eqb_eq in Et as ->. by injection E as <-.
Qed.

Lemma cache_field_implicit i fld : cache_field ModeImplicit "form" i fld = cache_form_field i fld.
Proof.
  unfold cache_field, cache_form_field. destruct (_ && _); [done|]. rewrite (bool_decide_false (ModeImplicit = _)) by done. cbn [andb].
  by destruct (decide (Tag_Get fld "form" = "")) as [->|Hne]; [|rewrite !(bool_decide_false (_ = "")) by done].
Qed.

(** A decoder without functions takes the same steps. *)
Lemma plain_steps d fuel values dm :
  customTypeFuncs d = [] → setFieldByType_with d fuel values dm = setFieldByType fuel values dm.
Proof.
  intros Hd. induction fuel as [|fuel IH]; [done|]. cbn [setFieldByType_with setFieldByType]. rewrite IH.
  unfold set_body_with, custom_for. rewrite Hd. simpl.
  apply functional_extensionality; intros depth. apply functional_extensionality; intros canSet.
  repeat (apply functional_extensionality; intros ?). unfold set_body. destruct canSet; [|done]. cbn [negb].
  by destruct (extractType _ _ _) as [[vt v] vset].
Qed.

End Setup.

(** ** A decoder to evaluate *)

#[local] Instance demo_order : MapOrder := {| range A m := map_to_list m; range_perm A m := Permutation_refl _ |}.
#[local] Instance demo_text : FormText := {|
  strict_Sanitize s := s; ugc_Sanitize s := s; remove_dangerous s := s; form_ParseFloat _ _ := None;
  ParseInLocation _ _ := None; ParseStrict _ := inl (ENew "no time") |}.
#[local] Instance demo_sort : FieldSort := {| sort_Sort l := l; sort_Sort_perm l := Permutation_refl l |}.

Definition demo_fields : list sfield := [SField "Name" TString true false [("form", "name, raw")]].


(** A registered function replaces the rules of the decoder for its type. *)
Example custom_function_used :
  let d := RegisterCustomTypeFunc (λ arr, inr (VString (Join "," arr))) [VString ""] NewDecoder in
  option_map (λ r, match r with Ret (p, _) => Some p | Panic _ => None end)
    (setFieldByType_with d 1 {[ "a" := ["x"; "y"] ]} [] 0 true TString (VString "") "a" 0 SanitizeDefault ∅) =
  Some (Some (true, VString "x,y")).
Proof. vm_compute. reflexivity. Qed.
