(* ===== verification/Static.v ===== *)
(** * Static files and route helpers

    [ServeStatic] of [internal/router/static.go] and [URL], [Static], [StaticFS],
    [Redirect] and [shouldSkipLog] of [router.go].  A file system is the function that
    opens a name ([fs.FS]); the sending of a file's content ([http.ServeContent]) and
    the types of extensions ([mime.TypeByExtension]) are parameters. *)

From S2P Require Import Prelude GoStrings GoValue HttpErr RouterTree Session RedisStore Crypto RateLimit Http Net Waf.
From S2P Require Import Metrics DbModel DbExec DbFacade Context Router.
From Stdlib Require Import Ascii.
Import Strings Path.

(** ** Files *)

(** [fi_ModTime] is in nanoseconds since 1970 ([UnixNano]). *)
Record FileInfo := mkInfo { fi_Name : string; fi_IsDir : bool; fi_ModTime : Z }.

(** An open file; [f_Seeks] says whether it is an [io.ReadSeeker]. *)
Record fs_File := mkFsFile { f_Stat : error + FileInfo; f_Seeks : bool; f_data : string }.
Definition fs_FS : Type := string → error + fs_File.

Definition fs_ErrNotExist : string := "file does not exist".

(** [http.ServeContent(w, req, name, modtime, content)]. *)
Class ContentServer := serve_content : ∀ W, ResponseWriter W → Request → string → Z → string → M W unit.
Arguments serve_content {_ W _}.
Class MimeTypes := TypeByExtension : string → string.

(** [filepath.Ext]: from the last dot of the last element. *)
Fixpoint ext_go (found s : string) : string :=
  match s with
  | "" => found
  | String a s' =>
      if bool_decide (a = slash) then ext_go "" s'
      else if bool_decide (a = "."%char) then ext_go s s'
      else ext_go found s'
  end.
Definition Ext (name : string) : string := ext_go "" name.

(** [%x] of an integer. *)
Fixpoint hex_digits (fuel : nat) (n : N) (acc : string) : string :=
  match fuel with
  | O => acc
  | S fuel =>
      let acc := String (hex_digit (n mod 16)) acc in
      if (n / 16 =? 0)%N then acc else hex_digits fuel (n / 16) acc
  end.
Definition FormatHex (z : Z) : string :=
  (if (z <? 0)%Z then "-" else "") +:+ hex_digits 16 (Z.abs_N z) "".

Definition quote : string := String "034" "".
Definition etag_of (modtime : Z) : string := quote +:+ FormatHex modtime +:+ quote.

Definition cache_control (ext : string) : string :=
  if bool_decide (ext ∈ [".css"; ".js"; ".png"; ".jpg"; ".jpeg"; ".gif"; ".svg"; ".woff"; ".woff2"; ".webp"])
  then "public, max-age=31536000, immutable"
  else if bool_decide (ext = ".html") then "no-cache, must-revalidate"
  else "public, max-age=3600".

Definition static_name (name : string) : string := TrimPrefix (Clean ("/" +:+ name)) "/".

Section Serve.
Context {W : Type} `{ResponseWriter W} `{ContentServer, MimeTypes, Unicode}.
Variable fsys : fs_FS.
Variable req : Request.

Definition accepts (encoding : string) : bool := Contains (Header_Get "Accept-Encoding" (req_header req)) encoding.

Definition encoded (encoding : string) : M W unit :=
  set_header "Content-Encoding" encoding;; add_header "Vary" "Accept-Encoding".

(** The compressed variant of a file, when the client takes it and it is there. *)
Definition open_variant (encoding suffix name : string) : M W (option (fs_File * FileInfo)) :=
  if negb (accepts encoding) then mret None
  else match fsys (name +:+ suffix) with
       | inl _ => mret None
       | inr f =>
           match f_Stat f with
           | inl _ => mret None
           | inr s => if fi_IsDir s then mret None else encoded encoding;; mret (Some (f, s))
           end
       end.

Definition send (f : fs_File) (name : string) (modtime : Z) : M W unit :=
  if f_Seeks f then serve_content req name modtime (f_data f) else rw_Write (f_data f);; mret ().

Definition no_stat : string := "runtime error: invalid memory address or nil pointer dereference".
Definition not_seeker : string := "interface conversion: fs.File is not io.ReadSeeker: missing method Seek".

Definition serve_index (name : string) : M W (option error) :=
  let indexName := Join2 name "index.html" in
  match fsys indexName with
  | inl _ => http_NotFound;; mret None
  | inr idx =>
      let modtime := match f_Stat idx with inr s => Some (fi_ModTime s) | inl _ => None end in
      match (if accepts "br" then fsys (indexName +:+ ".br") else inl (ESentinel fs_ErrNotExist)) with
      | inr brIdx =>
          encoded "br";;
          set_header "Content-Type" "text/html; charset=utf-8";;
          match modtime with
          | None => crashM no_stat
          | Some t =>
              if f_Seeks brIdx then serve_content req "index.html" t (f_data brIdx);; mret None
              else crashM not_seeker
          end
      | inl _ =>
          set_header "Content-Type" (TypeByExtension ".html");;
          if f_Seeks idx then
            match modtime with
            | None => crashM no_stat
            | Some t => serve_content req "index.html" t (f_data idx);; mret None
            end
          else rw_Write (f_data idx);; mret None
      end
  end.

Definition serve_file (name : string) (f : fs_File) (s : FileInfo) : M W (option error) :=
  let ct := TypeByExtension (Ext name) in
  set_header "Content-Type" (if bool_decide (ct = "") then "application/octet-stream" else ct);;
  let etag := etag_of (fi_ModTime s) in
  set_header "ETag" etag;;
  if bool_decide (Header_Get "If-None-Match" (req_header req) = etag) then rw_WriteHeader 304;; mret None
  else
    set_header "Cache-Control" (cache_control (strings_ToLower (Ext name)));;
    send f (fi_Name s) (fi_ModTime s);;
    mret None.

Definition ServeStatic (name : string) : M W (option error) :=
  let name := static_name name in
  br ← open_variant "br" ".br" name;
  found ← (match br with Some x => mret (Some x) | None => open_variant "gzip" ".gz" name end);
  match found with
  | Some (f, s) => serve_file name f s
  | None =>
      match fsys name with
      | inl e => if errors_Is e fs_ErrNotExist then http_NotFound;; mret None else mret (Some e)
      | inr f =>
          match f_Stat f with
          | inl e => mret (Some e)
          | inr s => if fi_IsDir s then serve_index name else serve_file name f s
          end
      end
  end.
End Serve.

(** ** Routes *)

Section Routes.
Context {W SW L : Type} `{ResponseWriter W} `{RegexpEngine} `{ContentServer, MimeTypes, Unicode} `{RedirectText} `{FmtV}.

#[local] Abbreviation Handler := (HandlerFunc W SW L).
#[local] Abbreviation router := (@Router W SW L _).

(** [os.DirFS] of a directory is the argument [dir]. *)
Definition static_handler (fsys : fs_FS) : Handler :=
  p ← ctx (Context_Param "path");
  req ← ctx c_request;
  match req with
  | None => crashM "runtime error: invalid memory address or nil pointer dereference"
  | Some req => onW (ServeStatic fsys req p)
  end.

Definition StaticFS (prefix : string) (fsys : fs_FS) (r : router) : router * add_result :=
  addRoute "GET" (prefix +:+ "/{path:*}") (Some (static_handler fsys)) [] r.

Definition Static (prefix root : string) (dir : string → fs_FS) (r : router) : router * add_result :=
  let prefix := if HasPrefix prefix "/" then prefix else "/" +:+ prefix in
  StaticFS (TrimSuffix prefix "/") (dir root) r.

Definition redirect_handler (target : string) (code : Z) : Handler :=
  req ← ctx c_request;
  match req with
  | None => crashM "runtime error: invalid memory address or nil pointer dereference"
  | Some req => onW (http_Redirect req target code);; mret None
  end.

Definition Router_Redirect (path target : string) (code : Z) (r : router) : router * add_result :=
  addRoute "GET" path (Some (redirect_handler target code)) [] r.

(** [params] is the map in the order in which it is iterated. *)
Definition fill_params (params : list (string * value)) (path : string) : string :=
  foldl (λ path p, ReplaceAll path (":" +:+ p.1) (fmt_v p.2)) path params.

Definition Router_URL (name : string) (params : list (list (string * value))) (r : router) : string :=
  match routeNames r !! name with
  | None => ""
  | Some path => match params with [] => path | ps :: _ => fill_params ps path end
  end.

Definition shouldSkipLog (noLogSuccessPaths : list string) (path : string) : bool := has_prefix_of path noLogSuccessPaths.
End Routes.
