(* ===== verification/Facade.v ===== *)
(** * The surface of the package

    What an application calls and what is left of the files around the components:
    the methods of the router that register a route under a method, the adapters between
    the handlers of the package and those of the trie, the log lines of a request and of
    a statement, the accessors of a context, the statistics of a handle and the
    one-line functions of the root package. *)

From S2P Require Import Prelude GoStrings Util GoValue HttpErr RouterTree Session RedisStore Crypto RateLimit Http Net Waf.
From S2P Require Import Metrics DbModel DbPrepared DbExec DbBuilder DbFacade Disk Context Router Logger LoggerSafety Static.
From S2P Require Import Config App LoggerLife.
From Stdlib Require Import Ascii.
Import Strings Logger.

(** ** Handlers of the trie *)

Section Adapters.
Context {W SW L : Type} `{ResponseWriter W} `{RegexpEngine}.
#[local] Abbreviation Handler := (HandlerFunc W SW L).
#[local] Abbreviation Router := (@Router W SW L _).

(** [router.HandlerFunc] takes [any]: the context of the request, or something else. *)
Definition any_handler : Type := bool → Handler.

Definition adapterFunc (h : Handler) : any_handler := λ is_context,
  if is_context then h else mret (Some (ENew "invalid context type")).
Definition adapterMiddleware (m : Middleware W SW L) (next : any_handler) : any_handler := adapterFunc (m (next true)).

(** [chain] with its adapters: the test for an aborted context is on an interface. *)
Definition chain_any (h : option Handler) (ms : list (Middleware W SW L)) : option any_handler :=
  match h with
  | None => None
  | Some h =>
      Some (foldr (λ mw currentNext is_context,
        let wrapped := adapterMiddleware mw currentNext in
        if is_context : bool then
          aborted ← IsAborted;
          if aborted : bool then mret None else wrapped true
        else wrapped false) (adapterFunc h) ms)
  end.

(** On the context of a request the adapters disappear. *)
Lemma chain_any_context h ms : (λ f, f true) <$> chain_any h ms = chain h ms.
Proof.
  destruct h as [h|]; [|done]. simpl. f_equal. induction ms as [|m ms IH]; [done|]. cbn [foldr]. by rewrite <-IH.
Qed.

(** ** Registration by method *)

Definition SetErrorHandler (fn : Z → string → error → M (rstate W SW L) unit) (r : Router) : Router :=
  mkRouter (tree r) (middleware r) fn (noRoute r) (noMethod r) (prefix r) (database r) (sessions_on r)
    (sessionResolver r) (browserCookieEnabled r) (browserCookieName r) (browserSecret r) (rateLimiter r) (keyFunc r)
    (forceHTTPS r) (debug r) (sameSite r) (encryptKey r) (cachePaths r) (csp r) (cspExemptPaths r) (corsConfig r)
    (routeNames r) (currentUserFunc r) (requestScopeFunc r).
Definition SetNoRoute (h : option Handler) (r : Router) : Router :=
  mkRouter (tree r) (middleware r) (errorHandler r) h (noMethod r) (prefix r) (database r) (sessions_on r)
    (sessionResolver r) (browserCookieEnabled r) (browserCookieName r) (browserSecret r) (rateLimiter r) (keyFunc r)
    (forceHTTPS r) (debug r) (sameSite r) (encryptKey r) (cachePaths r) (csp r) (cspExemptPaths r) (corsConfig r)
    (routeNames r) (currentUserFunc r) (requestScopeFunc r).
Definition SetNoMethod (h : option Handler) (r : Router) : Router :=
  mkRouter (tree r) (middleware r) (errorHandler r) (noRoute r) h (prefix r) (database r) (sessions_on r)
    (sessionResolver r) (browserCookieEnabled r) (browserCookieName r) (browserSecret r) (rateLimiter r) (keyFunc r)
    (forceHTTPS r) (debug r) (sameSite r) (encryptKey r) (cachePaths r) (csp r) (cspExemptPaths r) (corsConfig r)
    (routeNames r) (currentUserFunc r) (requestScopeFunc r).

Definition Router_Post : string → option Handler → list string → Router → Router * add_result := addRoute "POST".
Definition Router_Put : string → option Handler → list string → Router → Router * add_result := addRoute "PUT".
Definition Router_Delete : string → option Handler → list string → Router → Router * add_result := addRoute "DELETE".
Definition Router_Patch : string → option Handler → list string → Router → Router * add_result := addRoute "PATCH".
Definition Router_Options : string → option Handler → list string → Router → Router * add_result := addRoute "OPTIONS".
Definition Router_Head : string → option Handler → list string → Router → Router * add_result := addRoute "HEAD".

(** A registration through the router that is not refused: the handler under the
    router's middleware, at the router's prefix, for that method and pattern and for no
    other, and under the given name. *)
Theorem addRoute_registers method path h name (r r' : Router) :
  addRoute method path h name r = (r', Added) →
  (∃ pat, pattern_of (H := Handler) (segments (prefix r +:+ path)) = Ret pat ∧
     ∀ method' pat', lookup_table (tree r') method' pat' =
       if bool_decide (method' = method) && bool_decide (pat' = pat) then chain h (middleware r)
       else lookup_table (tree r) method' pat') ∧
  (∀ n, routeNames r' !! n =
     if bool_decide (n ≠ "") && bool_decide (hd_error name = Some n) then Some (prefix r +:+ path) else routeNames r !! n) ∧
  middleware r' = middleware r ∧ prefix r' = prefix r.
Proof.
  unfold addRoute. destruct (AddRoute _ _ _ _) as [t res] eqn:E. intros Hr.
  assert (res = Added ∧ tree r' = t ∧ middleware r' = middleware r ∧ prefix r' = prefix r) as (-> & Ht & Hm & Hp).
  { destruct res, name; try case_bool_decide; by simplify_eq. }
  split_and!; [rewrite Ht; by eapply AddRoute_updates| |done|done].
  intros n. destruct name as [|n0 ns]; cbn [hd_error].
  - injection Hr as <-. by rewrite (bool_decide_false (None = Some n)), andb_false_r.
  - injection Hr as <-. destruct (decide (n0 = n)) as [->|Hne].
    + rewrite (bool_decide_true (Some n = Some n)), andb_true_r by done. case_bool_decide; [|done]. simpl. apply lookup_insert_eq.
    + rewrite (bool_decide_false (Some n0 = Some n)), andb_false_r by congruence.
      case_bool_decide; [|done]. simpl. by rewrite lookup_insert_ne.
Qed.
End Adapters.

(** ** Log lines of a request *)

(** [generateRequestID]: sixteen random bytes in hexadecimal. *)
Definition generateRequestID (rnd : string) : string := hex_EncodeToString rnd.

(** The end of [serveInternal]; [quiet] is [noLogSuccessPaths]. *)
Definition request_line (req : Request) (status : Z) (reqID : string) : string :=
  Method req +:+ " " +:+ URL_Path req +:+ " " +:+ Strconv.FormatInt status +:+ " [" +:+ reqID +:+ "]".
Definition request_log (quiet : list string) (debug : bool) (req : Request) (status : Z) (reqID : string) : option log_call :=
  if (status =? 200)%Z && shouldSkipLog quiet (URL_Path req) then None
  else if (400 <=? status)%Z then Some (CallError (request_line req status reqID))
  else if debug then Some (CallInfo (request_line req status reqID))
  else None.

(** [handleError]: what is logged about an error of a handler, and whether it goes to
    Telegram as well. *)
Definition error_log (e : error) : option log_call * bool :=
  let code := (error_page e).1 in
  if (500 <=? code)%Z then (Some (CallError ("Internal Error: " +:+ Error e)), true)
  else if (400 <=? code)%Z then (Some (CallWarn ("Client Error (" +:+ Strconv.FormatInt code +:+ "): " +:+ Error e)), false)
  else (None, false).

Lemma map_bytes_app f s t : map_bytes f (s +:+ t) = map_bytes f s +:+ map_bytes f t.
Proof. induction s as [|a s IH]; [done|]. rewrite string_app_cons. cbn [map_bytes]. by rewrite string_app_cons, IH. Qed.
Lemma map_bytes_plain c d s : word c s → map_bytes (λ a, if bool_decide (a = c) then d else a) s = s.
Proof.
  induction s as [|a s IH]; [done|]. intros [Ha Hw]%word_cons. cbn [map_bytes]. rewrite bool_decide_false by done. by rewrite IH.
Qed.

Lemma sanitize_app s t : sanitizeLogMessage (s +:+ t) = sanitizeLogMessage s +:+ sanitizeLogMessage t.
Proof. unfold sanitizeLogMessage, lf, cr. rewrite !ReplaceAll_char. by rewrite !map_bytes_app. Qed.

Definition plain_id (id : string) : Prop := word newline_char id ∧ word return_char id.
Lemma sanitize_plain s : plain_id s → sanitizeLogMessage s = s.
Proof.
  intros [Hn Hr]. unfold sanitizeLogMessage, lf, cr. rewrite !ReplaceAll_char.
  by rewrite (map_bytes_plain newline_char), (map_bytes_plain return_char).
Qed.

Lemma string_app_inj_r s s' t : s +:+ t = s' +:+ t → s = s'.
Proof.
  revert s'. induction s as [|a s IH]; intros [|b s'] He; [done|..].
  - apply (f_equal String.length) in He. rewrite !string_app_length in He. simpl in He. lia.
  - apply (f_equal String.length) in He. rewrite !string_app_length in He. simpl in He. lia.
  - rewrite !string_app_cons in He. injection He as -> He. by rewrite (IH _ He).
Qed.

(** The alert of a failing request ends with its identifier. *)
Lemma request_alert req status id :
  plain_id id → String.length (request_line req status id) <= 200 →
  alert_of (LogError false (request_line req status id)) =
  "[APP ERROR] " +:+
    (sanitizeLogMessage (Method req +:+ " " +:+ URL_Path req +:+ " " +:+ Strconv.FormatInt status +:+ " [") +:+ (id +:+ "]")).
Proof.
  intros Hp Hl. unfold alert_of, truncateString. cbn [isWAF LogError message].
  assert (String.length (sanitizeLogMessage (request_line req status id)) = String.length (request_line req status id)) as ->.
  { unfold sanitizeLogMessage, lf, cr. rewrite !ReplaceAll_char.
    assert (∀ f s, String.length (map_bytes f s) = String.length s) as Hlen by (intros f s; induction s; simpl; auto).
    by rewrite !Hlen. }
  rewrite (proj2 (Nat.leb_le _ _)) by done. f_equal. unfold request_line.
  replace (Method req +:+ " " +:+ URL_Path req +:+ " " +:+ Strconv.FormatInt status +:+ " [" +:+ id +:+ "]")
    with ((Method req +:+ " " +:+ URL_Path req +:+ " " +:+ Strconv.FormatInt status +:+ " [") +:+ (id +:+ "]"))
    by (by rewrite !string_app_assoc).
  rewrite sanitize_app. f_equal. apply sanitize_plain. destruct Hp. split; by apply word_append.
Qed.


(** ** Log lines of a statement *)

(** [frameworkLogger.Log]; [dur] is the duration as text. *)
Definition frameworkLogger_Log (dur : string) (q : QueryLog) : log_call :=
  match LogErr q with
  | Some e => CallError ("[DB] " +:+ Query q +:+ " | Error: " +:+ Error e +:+ " | Duration: " +:+ dur)
  | None => CallInfo ("[DB] " +:+ Query q +:+ " | Rows: " +:+ Strconv.FormatInt (Rows q) +:+ " | Duration: " +:+ dur)
  end.

(** A statement that fails asks for an alert outside debug mode; the arguments of a
    statement are in no log line. *)
Lemma statement_log dur q args :
  frameworkLogger_Log dur q = frameworkLogger_Log dur (DbExec.mkLog (Query q) args (LogErr q) (Rows q) (LogContext q)) ∧
  (sendTelegram <$> (log_call_effect false (frameworkLogger_Log dur q)).2) = Some (bool_decide (is_Some (LogErr q))).
Proof.
  unfold frameworkLogger_Log. cbn [Query LogErr Rows]. split; [done|].
  by destruct (LogErr q).
Qed.

(** ** The handle *)

(** [insertResult]: the result made of a [RETURNING] clause. *)
Record insertResult := mkInsertResult { lastInsertId : Z; rowsAffected : Z }.
Definition LastInsertId (r : insertResult) : Z * option error := (lastInsertId r, None).
Definition RowsAffected (r : insertResult) : Z * option error := (rowsAffected r, None).

(** [DB.Stats]: those of the pool under the layers of the handle, or the zero value. *)
Definition DB_Stats {S} (pool zero : S) (db : DB) : S :=
  match unwrap_prepared (unwrap_logged (db_executor db)) with
  | sqlxExecutor => pool
  | _ => zero
  end.

(** The handle an application gets reports its pool; one that works in a transaction
    does not. *)
Lemma stats_of_handle {S} (pool zero : S) d cf sc opts tx :
  let db := (NewDatabase d cf sc opts).1 in
  DB_Stats pool zero db = pool ∧ (is_Tx tx = true → DB_Stats pool zero (DB_Use tx db) = zero).
Proof. unfold NewDatabase, DB_Stats. simpl. split; [by destruct (preparedStatements _)|]. by destruct tx. Qed.

(** ** Disks by name *)

(** [storage.Disk]. *)
Record Disk := mkDiskOps {
  disk_Put : string → reader → IO ();
  disk_PutBytes : string → string → IO ();
  disk_Get : string → IO inode;
  disk_Delete : string → IO ();
  disk_Exists : string → IO bool;
  disk_URL : string → string;
}.

Definition local_disk (ld : LocalDisk) : Disk :=
  mkDiskOps (Disk.Put ld) (Disk.PutBytes ld) (Disk.Get ld) (Disk.Delete ld) (Disk.Exists ld) (Local_URL ld).

(** The registry is a map: a name gives the disk it was last registered with. *)
Lemma registered_disk name (d : Disk) disks n :
  storage_Use n (Disk.Register name d disks) = if decide (n = name) then inr d else storage_Use n disks.
Proof.
  unfold storage_Use, Disk.Register. destruct (decide (n = name)) as [->|Hne].
  - by rewrite lookup_insert_eq.
  - by rewrite lookup_insert_ne.
Qed.

(** ** Accessors of a context *)

Section Accessors.
Context {W SW L : Type}.
#[local] Abbreviation st := (rstate W SW L).

Definition Context_Response : M st W := getM s_w.
Definition Context_Request : M st (option Request) := ctx c_request.
Definition Context_Session : M st (option Session) := ctx c_session.
Definition Context_Database : M st (option DB) := ctx c_database.
Definition Context_Locals : M st (option Locals) := ctx c_locals.
Definition Context_BrowserID : M st string := ctx c_browserID.
Definition Context_ValidBrowser : M st bool := ctx c_browserValid.
End Accessors.

(** ** The rule files of the firewall *)

(** [slashFS]: a file system asked with the separators of Windows. *)
Definition slashFS_Open {F} (open : string → error + F) (name : string) : error + F :=
  open (ReplaceAll name "\" "/").

Lemma slashFS_separators {F} (open : string → error + F) name :
  ∃ name', slashFS_Open open name = open name' ∧ word "\"%char name' ∧ String.length name' = String.length name.
Proof.
  eexists. split; [done|]. split; [by apply ReplaceAll_word; [|left]|].
  rewrite ReplaceAll_char. induction name; simpl; auto.
Qed.

(** ** The root package *)

Definition kiya_NewSession : option raw_session → Session := NewSession.
Definition kiya_NewHTTPError : Z → string → list error → error := HttpErr.New.
Definition kiya_LogInfo (msg : string) : log_call := CallInfo msg.
Definition kiya_LogWarn (msg : string) : log_call := CallWarn msg.
Definition kiya_LogError (msg : string) : log_call := CallError msg.
Definition kiya_LogWAF (msg : string) : log_call := CallWAF msg.

(** ** Demonstration *)

#[local] Instance demo_hash : AlertHash := λ s, s.
#[local] Instance demo_regexp : RegexpEngine :=
  {| regex := string; Compile p := Some p; MatchString re s := bool_decide (re = s) |}.

Definition demo_missing : Request := plain_request "GET" "/nothing" "/nothing" "example.org" "1.2.3.4:5" false ∅.


Definition demo_router : @Router server_rw unit unit _ :=
  mkRouter NewTree [] (λ _ _ _, mret ()) None None "/api" None false None false "" "" false (λ _ _, "") false false 2 ""
    [] "" [] (mkCORS false [] [] [] [] false 0) ∅ false None.

Lemma addRoute_registers_witness :
  ∃ r', Router_Post "/users" (Some (mret None)) ["users"] demo_router = (r', Added) ∧ routeNames r' !! "users" = Some "/api/users".
Proof.
  destruct (Router_Post "/users" (Some (mret None)) ["users"] demo_router) as [r' res] eqn:E.
  assert (res = Added) as ->.
  { apply (f_equal snd) in E. cbn [snd] in E. rewrite <-E. vm_compute. reflexivity. }
  exists r'. split; [reflexivity|].
  destruct (addRoute_registers "POST" "/users" (Some (mret None)) ["users"] demo_router r' E) as (_ & Hn & _).
  rewrite Hn. reflexivity.
Defined.
