(* ===== verification/Groups.v ===== *)
(** * Groups of routes

    What an application writes to build its routes: middleware, routes and groups of
    them, nested as [Router.Route] nests them.  Each is a call on the router or on the
    copy a group gets; together they build the table a request is looked up in. *)

From S2P Require Import Prelude GoStrings Util GoValue HttpErr RouterTree Session RedisStore Crypto RateLimit Http Net Waf.
From S2P Require Import Metrics DbModel DbPrepared DbExec DbBuilder DbFacade Context Router.
Import Strings.

Section Groups.
Context {W SW L : Type} `{ResponseWriter W} `{RegexpEngine}.
#[local] Abbreviation st := (rstate W SW L).
#[local] Abbreviation Handler := (HandlerFunc W SW L).
#[local] Abbreviation Mw := (Middleware W SW L).
#[local] Abbreviation Router := (@Router W SW L _).

(** ** Set-up of an application *)

(** [r.Use(ms...)], [r.Get(path, h, name...)] and the like, [r.Route(p, body)]; handlers
    are not nil. *)
Inductive cmd :=
  | CUse (ms : list Mw)
  | CHandle (method path : string) (h : Handler) (name : list string)
  | CGroup (p : string) (body : list cmd).

Definition run_all (f : cmd → Router → outcome Router) : list cmd → Router → outcome Router :=
  fix run cs r :=
    match cs with
    | [] => Ret r
    | c :: cs => match f c r with Ret r => run cs r | Panic p => Panic p end
    end.

Definition ran (o : outcome Router) (r : Router) : Router := match o with Ret r' => r' | Panic _ => r end.

(** A call; a conflict is logged and the set-up goes on, a malformed segment panics. *)
Fixpoint run_cmd (c : cmd) (r : Router) : outcome Router :=
  match c with
  | CUse ms => Ret (Use ms r)
  | CHandle method path h name =>
      match addRoute method path (Some h) name r with
      | (_, AddPanic p) => Panic p
      | (r', _) => Ret r'
      end
  | CGroup p body =>
      match run_all run_cmd body (set_prefix (prefix r +:+ p) (clone r)) with
      | Ret _ => Ret (Route p (λ sub, ran (run_all run_cmd body sub) sub) r)
      | Panic m => Panic m
      end
  end.
Definition run : list cmd → Router → outcome Router := run_all run_cmd.

(** ** What a set-up means *)

(** A route with its whole path and the middleware over it, outermost first. *)
Record reg := mkReg {
  g_method : string;
  g_path : string;
  g_handler : Handler;
  g_middleware : list Mw;
  g_name : list string;
}.

Definition used (c : cmd) : list Mw := match c with CUse ms => ms | _ => [] end.
Definition scan (f : cmd → string → list Mw → list reg) : list cmd → string → list Mw → list reg :=
  fix scan cs pre ms :=
    match cs with
    | [] => []
    | c :: cs => f c pre ms ++ scan cs pre (ms ++ used c)
    end.
Fixpoint flat_cmd (c : cmd) (pre : string) (ms : list Mw) : list reg :=
  match c with
  | CUse _ => []
  | CHandle method path h name => [mkReg method (pre +:+ path) h ms name]
  | CGroup p body => scan flat_cmd body (pre +:+ p) ms
  end.

(** The routes of a set-up: a route is under the middleware used before it in its own
    group and in the groups around, and under no other. *)
Definition flat : list cmd → string → list Mw → list reg := scan flat_cmd.

Definition under (h : Handler) (ms : list Mw) : Handler := foldr (λ mw next, guard (mw next)) h ms.

Definition add_reg (t : @Tree _ Handler) (g : reg) : @Tree _ Handler :=
  (AddRoute t (g_method g) (g_path g) (Some (under (g_handler g) (g_middleware g)))).1.
Definition add_name (ns : gmap string string) (g : reg) : gmap string string :=
  match g_name g with n :: _ => if bool_decide (n ≠ "") then <[n := g_path g]> ns else ns | [] => ns end.

Record built (r r' : Router) (gs : list reg) (ms : list Mw) : Prop := {
  built_tree : tree r' = foldl add_reg (tree r) gs;
  built_names : routeNames r' = foldl add_name (routeNames r) gs;
  built_middleware : middleware r' = middleware r ++ ms;
  built_prefix : prefix r' = prefix r;
}.

Lemma cmd_nested_ind (P : cmd → Prop) :
  (∀ ms, P (CUse ms)) → (∀ me pa h n, P (CHandle me pa h n)) → (∀ p body, Forall P body → P (CGroup p body)) → ∀ c, P c.
Proof.
  intros HU HH HG. fix IH 1. intros [ms|me pa h n|p body]; [apply HU|apply HH|apply HG].
  induction body as [|c cs IHb]; constructor; [apply IH|exact IHb].
Qed.

Lemma run_built cs r r' :
  Forall (λ c, ∀ r r', run_cmd c r = Ret r' → built r r' (flat_cmd c (prefix r) (middleware r)) (used c)) cs →
  run cs r = Ret r' → built r r' (flat cs (prefix r) (middleware r)) (mjoin (used <$> cs)).
Proof.
  intros Hcs. revert r. induction Hcs as [|c cs Hc Hcs IH]; intros r Hr.
  - injection Hr as <-. split; try done. by rewrite app_nil_r.
  - cbn in Hr. destruct (run_cmd c r) as [r1|] eqn:E; [|done]. destruct (Hc r r1 E) as [Ht Hn Hm Hp].
    destruct (IH r1 Hr) as [Ht' Hn' Hm' Hp']. rewrite Hm, Hp in *. cbn. split; [| | |done].
    + by rewrite foldl_app, <-Ht.
    + by rewrite foldl_app, <-Hn.
    + by rewrite Hm', <-app_assoc.
Qed.

Lemma run_cmd_built c r r' : run_cmd c r = Ret r' → built r r' (flat_cmd c (prefix r) (middleware r)) (used c).
Proof.
  revert r r'. induction c as [ms|me pa h n|p body IH] using cmd_nested_ind; intros r r' Hr.
  - injection Hr as <-. by split.
  - cbn in Hr. unfold addRoute in Hr. destruct (AddRoute _ _ _ _) as [t res] eqn:E.
    assert (t = add_reg (tree r) (mkReg me (prefix r +:+ pa) h (middleware r) n)) as Ht by (symmetry; exact (f_equal fst E)).
    destruct res, n as [|n ns]; try case_bool_decide; simplify_eq/=; split; cbn; try done;
      try (by rewrite app_nil_r); unfold add_name; cbn; by rewrite ?bool_decide_true, ?bool_decide_false by done.
  - cbn in Hr. destruct (run_all _ _ _) as [sub|] eqn:E; [|done]. injection Hr as <-.
    unfold Route. cbv zeta. rewrite E. cbn [ran].
    destruct (run_built body _ _ IH E) as [Ht Hn Hm Hp]. split; [exact Ht|exact Hn|by rewrite app_nil_r|done].
Qed.

Lemma run_spec cs r r' : run cs r = Ret r' → built r r' (flat cs (prefix r) (middleware r)) (mjoin (used <$> cs)).
Proof. apply run_built, Forall_forall. intros c _. exact (run_cmd_built c). Qed.

(** The routes of a group are under the prefix and the middleware of the place where
    the group is opened. *)
Lemma flat_scope cs : ∀ pre ms g, g ∈ flat cs pre ms → ms `prefix_of` g_middleware g ∧ ∃ p, g_path g = pre +:+ p.
Proof.
  assert (∀ c pre ms g, g ∈ flat_cmd c pre ms → ms `prefix_of` g_middleware g ∧ ∃ p, g_path g = pre +:+ p) as Hc.
  { induction c as [ms'|me pa h n|p body IH] using cmd_nested_ind; intros pre ms g Hg; cbn in Hg.
    - by apply elem_of_nil in Hg.
    - apply list_elem_of_singleton in Hg as ->. split; [done|by exists pa].
    - assert (ms `prefix_of` g_middleware g ∧ ∃ q, g_path g = (pre +:+ p) +:+ q) as [Hm [q Hq]].
      2:{ split; [done|]. exists (p +:+ q). by rewrite Hq, string_app_assoc. }
      revert ms Hg. induction IH as [|c cs1 Hc _ IHb]; intros ms Hg; [by apply elem_of_nil in Hg|].
      apply elem_of_app in Hg as [Hg|Hg]; [by apply Hc|]. apply IHb in Hg as [? ?]. split; [|done]. etrans; [|done].
      by apply prefix_app_r. }
  induction cs as [|c cs IH]; intros pre ms g Hg; [by apply elem_of_nil in Hg|].
  apply elem_of_app in Hg as [Hg|Hg]; [by eapply Hc|]. apply IH in Hg as [? ?]. split; [|done]. etrans; [|done].
  by apply prefix_app_r.
Qed.

(** ** From the pattern of a route to the paths it answers *)

(** [fits pat segs b]: the segments of a path are those of the pattern, with [b] bound. *)
Inductive fits : list label → list string → list Param → Prop :=
  | fits_end : fits [] [] []
  | fits_static seg name pat rest b : fits pat rest b → fits ((static, seg, name) :: pat) (seg :: rest) b
  | fits_dynamic t seg part name pat rest b : t = regexNode ∨ t = paramNode → fits pat rest b →
      fits ((t, part, name) :: pat) (seg :: rest) (mkParam name seg :: b)
  | fits_wildcard seg part name rest :
      fits [(wildcardNode, part, name)] (seg :: rest) [mkParam name (Join "/" (seg :: rest))].

Lemma find_label (n c : @node _ Handler) :
  node_ok n → c ∈ children n → find_first (λ c', bool_decide (label_of c' = label_of c)) (children n) = Some c.
Proof.
  intros Hok Hc. destruct (find_first _ _) as [c'|] eqn:E.
  - f_equal. symmetry. eapply find_first_unique; [done| |done|done|by apply bool_decide_eq_true].
    intros c1 c2 _ _ H1%bool_decide_eq_true H2%bool_decide_eq_true. congruence.
  - assert (bool_decide (label_of c = label_of c) = false) as Hf by (by eapply (proj1 (find_first_None _ _) E)).
    by rewrite bool_decide_true in Hf.
Qed.

(** A route the search may take is an entry of the table. *)
Lemma route_entry (n : @node _ Handler) segs b k f :
  node_ok n → route n segs b k f → ∃ pat, fits pat segs b ∧ lookup_pat pat n = Some f.
Proof.
  intros Hok Hr. induction Hr as [n h Hh|n c seg rest b k h Hc Ht Hp Hr IH|n c seg rest b k h Hc Ht _ Hr IH
    |n c seg rest b k h Hc Ht Hr IH|n c seg rest h Hc Ht Hh].
  - exists []. by split; [constructor|].
  - destruct IH as (pat & Hf & Hl); [by eapply node_ok_child|]. exists (label_of c :: pat). cbn. rewrite find_label by done.
    split; [|done]. unfold label_of. rewrite Ht, Hp. by constructor.
  - destruct IH as (pat & Hf & Hl); [by eapply node_ok_child|]. exists (label_of c :: pat). cbn. rewrite find_label by done.
    split; [|done]. constructor; [by left|done].
  - destruct IH as (pat & Hf & Hl); [by eapply node_ok_child|]. exists (label_of c :: pat). cbn. rewrite find_label by done.
    split; [|done]. constructor; [by right|done].
  - exists [label_of c]. cbn. rewrite find_label by done. split; [|done]. unfold label_of. rewrite Ht. constructor.
Qed.

(** An entry of the table is that of a registration. *)
Lemma entry_registered gs method pat f :
  lookup_table (foldl add_reg NewTree gs) method pat = Some f →
  ∃ g, g ∈ gs ∧ g_method g = method ∧ f = under (g_handler g) (g_middleware g) ∧
    pattern_of (H := Handler) (segments (g_path g)) = Ret pat.
Proof.
  induction gs as [|g gs IH] using rev_ind; [done|]. rewrite foldl_snoc. unfold add_reg at 1.
  destruct (AddRoute _ _ _ _) as [t res] eqn:E. cbn [fst]. intros Hl.
  assert (lookup_table (foldl add_reg NewTree gs) method pat = Some f ∨
    g_method g = method ∧ f = under (g_handler g) (g_middleware g) ∧ pattern_of (H := Handler) (segments (g_path g)) = Ret pat) as [Hold|Hnew].
  { pose proof (AddRoute_failure _ _ _ _ _ _ E) as Hfail. destruct res as [|sg ex|msg].
    - apply AddRoute_updates in E as (pat' & Hpat & Hup). rewrite Hup in Hl.
      destruct (bool_decide (method = _) && _) eqn:Hb; [|by left]. to_prop. subst. right. by simplify_eq.
    - left. by rewrite <-Hfail.
    - left. by rewrite <-Hfail. }
  - destruct (IH Hold) as (g' & Hg & Hrest). exists g'. split; [set_solver|done].
  - exists g. split; [set_solver|]. by destruct Hnew as (? & ? & ?).
Qed.

Lemma tree_of_regs gs : foldl add_reg NewTree gs = register ((λ g, (g_method g, g_path g, under (g_handler g) (g_middleware g))) <$> gs).
Proof. unfold register. generalize (@NewTree _ Handler). induction gs as [|g gs IH]; intros t; [done|]. cbn. by rewrite IH. Qed.


(** ** Middleware that stops a request *)

(** A middleware that refuses in a state does not run what is under it. *)
Definition refuses (m : Mw) (s : st) : Prop := ∀ next next' : Handler, m next s = m next' s.

(** A request the outermost middleware refuses ends alike whatever the route. *)
Lemma refused_alike m s h h' ms ms' : refuses m s → under h (m :: ms) s = under h' (m :: ms') s.
Proof.
  intros Hm. cbn. unfold guard, mbind, M_bind. destruct (IsAborted s) as [[[]|p|] s'] eqn:E; try done.
  apply (f_equal snd) in E. cbn in E. subst. apply Hm.
Qed.

(** [Abort] and then [next]. *)
Definition abort_middleware : Mw := λ next, Abort;; next.

(** Aborting a context skips the middleware under the one that aborts, but not the
    handler: right above the handler it has no effect. *)
Lemma abort_skips_middleware_only h m (s : st) :
  c_aborted (s_ctx s) = false →
  under h [abort_middleware] s = h (Abort s).2 ∧
  under h [abort_middleware; m] s = (Done None, (Abort s).2).
Proof. intros Ha. unfold under, guard, abort_middleware, IsAborted, ctx, getM, mbind, M_bind. cbn. by rewrite Ha. Qed.
End Groups.

(** ** Demonstration *)

#[local] Instance demo_regexp : RegexpEngine :=
  {| regex := string; Compile p := Some p; MatchString re s := bool_decide (re = s) |}.

Definition demo_auth : Middleware server_rw unit unit := λ _, mret (Some (ENew "denied")).
Definition demo_handler : HandlerFunc server_rw unit unit := mret None.
Definition demo_router : @Router server_rw unit unit _ :=
  mkRouter NewTree [] (λ _ _ _, mret ()) None None "" None false None false "" "" false (λ _ _, "") false false 2 ""
    [] "" [] (mkCORS false [] [] [] [] false 0) ∅ false None.

(** A group behind a middleware, and a route after it that is not. *)
Definition demo_setup : list (@cmd server_rw unit unit) :=
  [CGroup "/admin" [CUse [demo_auth]; CHandle "GET" "/users/{id}" demo_handler ["user"]];
   CHandle "GET" "/about" demo_handler []].

