(* ===== verification/StaticSafety.v ===== *)
(** * Properties of static files and route helpers *)

From S2P Require Import Prelude GoStrings Util GoValue HttpErr RouterTree Session RedisStore Crypto RateLimit Http Net Waf.
From S2P Require Import Metrics DbModel DbExec DbFacade Context Router Static Disk DiskSafety.
From Stdlib Require Import Ascii.
Import Strings Path.

(** ** Names *)

(** A name inside a file system: nothing, or components none of which is empty, a dot
    or two dots. *)
Definition inside (name : string) : Prop := name = "" ∨ ∃ cs, Forall safe_comp cs ∧ name = Join "/" cs.

Lemma static_name_comps name : ∃ cs, Forall safe_comp cs ∧ static_name name = Join "/" cs.
Proof.
  exists (clean_comps true [] (Split slash name)). split.
  - apply clean_comps_safe; [done|apply Split_all_words].
  - unfold static_name. change ("/" +:+ name) with (String slash name). rewrite Clean_rooted. by destruct (Join _ _).
Qed.

Lemma Join_snoc c0 cs c s : Join (String c0 "") (cs ++ [c]) +:+ s = Join (String c0 "") (cs ++ [c +:+ s]).
Proof.
  induction cs as [|x cs IH]; [done|]. destruct cs as [|y cs]; simpl in *;
    rewrite <-?IH, !string_app_assoc; done.
Qed.

Lemma safe_suffix c s : word slash s → 3 ≤ String.length s → word slash c → safe_comp (c +:+ s).
Proof.
  intros Hs Hl Hc. split_and!.
  - unfold word in *. by rewrite str_all_app, Hc, Hs.
  - intros E. apply (f_equal String.length) in E. rewrite string_app_length in E. simpl in E. lia.
  - intros E. apply (f_equal String.length) in E. rewrite string_app_length in E. simpl in E. lia.
  - intros E. apply (f_equal String.length) in E. rewrite string_app_length in E. simpl in E. lia.
Qed.

(** A suffix keeps a name inside. *)
Lemma inside_suffix cs s :
  Forall safe_comp cs → word slash s → 3 ≤ String.length s → ∃ cs', Forall safe_comp cs' ∧ Join "/" cs +:+ s = Join "/" cs'.
Proof.
  intros Hcs Hs Hl. destruct cs as [|c cs _] using rev_ind.
  - exists [s]. pose proof (safe_suffix "" s Hs Hl eq_refl) as Hx. rewrite string_app_nil_l in Hx |- *.
    split; [|done]. by constructor.
  - apply Forall_app in Hcs as [Hcs Hc]. rewrite Forall_singleton in Hc.
    exists (cs ++ [c +:+ s]). split; [|apply Join_snoc].
    apply Forall_app. split; [done|]. constructor; [|done]. apply safe_suffix; try done. by destruct Hc.
Qed.

Lemma index_name cs :
  Forall safe_comp cs → Join2 (Join "/" cs) "index.html" = Join "/" (cs ++ ["index.html"]).
Proof.
  intros Hcs. assert (Forall safe_comp (cs ++ ["index.html"])) as Hall.
  { apply Forall_app. split; [done|]. by repeat constructor. }
  destruct cs as [|c cs]; [done|].
  assert (Join "/" (c :: cs) ≠ "") as Hne.
  { apply Forall_cons in Hcs as [(_ & Hc & _) _]. by destruct c, cs. }
  unfold Join2. rewrite filter_cons_True by done. rewrite filter_cons_True by done. rewrite filter_nil.
  rewrite bool_decide_false by done.
  assert (Join "/" [Join "/" (c :: cs); "index.html"] = Join "/" ((c :: cs) ++ ["index.html"])) as ->.
  { clear. revert c. induction cs as [|x cs IH]; intros c; [done|]. specialize (IH x). simpl in *.
    by rewrite <-IH, !string_app_assoc. }
  set (l := (c :: cs) ++ ["index.html"]) in *.
  unfold Clean. rewrite bool_decide_false.
  2:{ unfold l. apply Forall_cons in Hcs as [(_ & Hc & _) _]. by destruct c, cs. }
  assert (Forall (λ c, c ≠ "" ∧ word slash c) l) as Hn by (eapply Forall_impl; [exact Hall|unfold safe_comp; naive_solver]).
  assert (Forall (word slash) l) as Hw by (eapply Forall_impl; [exact Hall|unfold safe_comp; naive_solver]).
  rewrite (Join_no_slash l Hn). change "/" with (String slash ""). rewrite (Split_Join slash l) by done.
  rewrite <-(app_nil_l l), clean_comps_app by done. by rewrite bool_decide_false.
Qed.

(** ** What a request can reach *)

Section Confined.
Context {W : Type} `{ResponseWriter W} `{ContentServer, MimeTypes, Unicode}.

Definition agree_inside (fs1 fs2 : fs_FS) : Prop :=
  ∀ cs, Forall safe_comp cs → fs1 (Join "/" cs) = fs2 (Join "/" cs).

Lemma open_variant_agree fs1 fs2 req enc suf cs :
  agree_inside fs1 fs2 → Forall safe_comp cs → word slash suf → 3 ≤ String.length suf →
  open_variant (W := W) fs1 req enc suf (Join "/" cs) = open_variant fs2 req enc suf (Join "/" cs).
Proof.
  intros Hag Hcs Hs Hl. unfold open_variant. destruct (inside_suffix cs suf Hcs Hs Hl) as (cs' & Hcs' & ->).
  by rewrite Hag.
Qed.

Lemma serve_index_agree fs1 fs2 req cs :
  agree_inside fs1 fs2 → Forall safe_comp cs → serve_index (W := W) fs1 req (Join "/" cs) = serve_index fs2 req (Join "/" cs).
Proof.
  intros Hag Hcs. unfold serve_index. rewrite index_name by done.
  assert (Forall safe_comp (cs ++ ["index.html"])) as Hall by (apply Forall_app; split; [done|by repeat constructor]).
  destruct (inside_suffix _ ".br" Hall eq_refl ltac:(simpl; lia)) as (cs' & Hcs' & ->). by rewrite !Hag.
Qed.

(** [C32] Whatever path a client asks for, only names inside the file system are opened:
    what is sent depends on those names alone, so no file outside the directory can
    change a response, and [..] in a path never leaves it. *)
Theorem static_confined fs1 fs2 req name (w : W) :
  agree_inside fs1 fs2 → ServeStatic fs1 req name w = ServeStatic fs2 req name w.
Proof.
  intros Hag. unfold ServeStatic. destruct (static_name_comps name) as (cs & Hcs & ->).
  rewrite (open_variant_agree fs1 fs2 req "br") by (try done; simpl; lia).
  rewrite (open_variant_agree fs1 fs2 req "gzip") by (try done; simpl; lia).
  rewrite (serve_index_agree fs1 fs2) by done. by rewrite (Hag cs).
Qed.
End Confined.

(** ** A file and its revalidation *)

(** A request without a range or a condition. *)
Definition unconditional (h : headers) : Prop :=
  Forall (λ k, Header_Get k h = "")
    ["Range"; "If-Range"; "If-Match"; "If-None-Match"; "If-Modified-Since"; "If-Unmodified-Since"].

(** What [http.ServeContent] documents of such a request: the whole content with
    status 200, under the header fields that are already set. *)
Class ContentLaws `{ContentServer} := content_plain : ∀ req name t data h,
  Method req = "GET" → unconditional (req_header req) →
  ∃ h', serve_content req name t data (new_response h) = (Done (), mkServer h' (Some (200%Z, h')) data) ∧
    ∀ k, Header_Get k (hd_fields h) ≠ "" → Header_Get k (hd_fields h') = Header_Get k (hd_fields h).

Section Revalidation.
Context `{ContentServer, !ContentLaws, MimeTypes, Unicode}.
Variable fsys : fs_FS.

Lemma Header_Get_Set_ne k1 k2 v h : canonical k1 ≠ canonical k2 → Header_Get k1 (Header_Set k2 v h) = Header_Get k1 h.
Proof. intros Hk. unfold Header_Get, Header_Set, headers in *. by rewrite lookup_insert_ne. Qed.
Lemma Header_Get_Set k v h : Header_Get k (Header_Set k v h) = v.
Proof. unfold Header_Get, Header_Set, headers in *. by rewrite lookup_insert_eq. Qed.

(** The file itself is chosen when the client takes no compressed variant. *)
Lemma ServeStatic_plain {W} `{ResponseWriter W} req name f s (w : W) :
  Header_Get "Accept-Encoding" (req_header req) = "" →
  fsys (static_name name) = inr f → f_Stat f = inr s → fi_IsDir s = false →
  ServeStatic fsys req name w = serve_file req (static_name name) f s w.
Proof.
  intros Ha Hf Hs Hd. unfold ServeStatic, open_variant, accepts. rewrite Ha. simpl. rewrite Hf, Hs, Hd. done.
Qed.

Lemma serve_file_changed req name f s h :
  Method req = "GET" → unconditional (req_header req) →
  ∃ h', serve_file req name f s (new_response h) = (Done None, mkServer h' (Some (200%Z, h')) (f_data f)) ∧
    Header_Get "ETag" (hd_fields h') = etag_of (fi_ModTime s).
Proof.
  intros Hm Hu. assert (Header_Get "If-None-Match" (req_header req) = "") as Hn.
  { unfold unconditional in Hu. rewrite Forall_forall in Hu. apply Hu. set_solver. }
  unfold serve_file, send. rewrite Hn. rewrite bool_decide_false by done.
  unfold mbind, M_bind, set_header, modM. cbn [rw_set_head server_writer srv_head srv_sent srv_body new_response].
  match goal with |- context [mkServer ?h0 None ""] => set (hd := h0); change (mkServer hd None "") with (new_response hd) end.
  assert (Header_Get "ETag" (hd_fields hd) = etag_of (fi_ModTime s)) as He.
  { unfold hd. cbn [hd_fields on_fields]. rewrite Header_Get_Set_ne by done. apply Header_Get_Set. }
  destruct (f_Seeks f).
  - destruct (content_plain req (fi_Name s) (fi_ModTime s) (f_data f) hd Hm Hu) as (h' & E & Hk).
    rewrite E. exists h'. split; [done|]. by rewrite Hk, He by (by rewrite He).
  - exists hd. split; [|done]. cbn. by rewrite string_app_nil_l.
Qed.

Lemma serve_file_unchanged req name f s h :
  Header_Get "If-None-Match" (req_header req) = etag_of (fi_ModTime s) →
  ∃ h', serve_file req name f s (new_response h) = (Done None, mkServer h' (Some (304%Z, h')) "").
Proof.
  intros Hn. unfold serve_file. rewrite Hn. rewrite bool_decide_true by done. by eexists.
Qed.

(** A file and its entity tag: a plain request for a file gets status 200 with the
    whole file and a tag; the same request with that tag in [If-None-Match] gets 304
    and no content for as long as the file's time is the same, whatever its name and
    type. *)
Theorem static_revalidates req name f s h h2 :
  Method req = "GET" → unconditional (req_header req) → Header_Get "Accept-Encoding" (req_header req) = "" →
  fsys (static_name name) = inr f → f_Stat f = inr s → fi_IsDir s = false →
  ∃ h', ServeStatic fsys req name (new_response h) = (Done None, mkServer h' (Some (200%Z, h')) (f_data f)) ∧
    let again := with_header (Header_Set "If-None-Match" (Header_Get "ETag" (hd_fields h')) (req_header req)) req in
    ∃ h2', ServeStatic fsys again name (new_response h2) = (Done None, mkServer h2' (Some (304%Z, h2')) "").
Proof.
  intros Hm Hu Ha Hf Hs Hd. destruct (serve_file_changed req (static_name name) f s h Hm Hu) as (h' & E & He).
  exists h'. rewrite (ServeStatic_plain req name f s) by done. split; [exact E|]. intros again.
  assert (Header_Get "Accept-Encoding" (req_header again) = "") as Ha'.
  { unfold again. cbn [with_header req_header]. by rewrite Header_Get_Set_ne. }
  rewrite (ServeStatic_plain again name f s) by done. apply serve_file_unchanged.
  unfold again. cbn [with_header req_header]. by rewrite Header_Get_Set, He.
Qed.
End Revalidation.

(** ** The root of a directory *)

(** A request for the root itself opens the empty name, which is no valid name of a
    file system; the error is not [ErrNotExist], so that the client gets an error
    page instead of the index. *)
Theorem static_root_fails {W} `{ResponseWriter W} `{ContentServer, MimeTypes, Unicode} fsys req e (w : W) :
  fsys "" = inl e → errors_Is e fs_ErrNotExist = false → Header_Get "Accept-Encoding" (req_header req) = "" →
  ServeStatic fsys req "" w = (Done (Some e), w) ∧ ServeStatic fsys req "/" w = (Done (Some e), w).
Proof.
  intros Hf He Ha. assert (static_name "/" = "" ∧ static_name "" = "") as [E1 E2] by done.
  unfold ServeStatic, open_variant, accepts. rewrite Ha, E1, E2. simpl. by rewrite Hf, He.
Qed.

(** ** Names of routes *)

Lemma ReplaceAll_absent old new s : Contains s old = false → old ≠ "" → ReplaceAll s old new = s.
Proof.
  intros Hc Ho. unfold ReplaceAll. induction s as [|a s IH]; [done|].
  simpl in *. apply orb_false_iff in Hc as [Hp Hc]. rewrite Hp. by rewrite IH.
Qed.

(** [URL] fills a parameter written [:name] only; the path of a route whose
    parameters are written in braces, as the routing tree reads them, comes back as
    it was registered, whatever the values. *)
Theorem URL_ignores_braces {W SW L} `{ResponseWriter W} `{RegexpEngine} `{FmtV} (r : @Router W SW L _) name path params :
  routeNames r !! name = Some path → Contains path ":" = false → Router_URL name params r = path.
Proof.
  intros Hn Hc. unfold Router_URL. rewrite Hn. destruct params as [|ps _]; [done|].
  unfold fill_params. induction ps as [|p ps IH]; [done|]. simpl. rewrite ReplaceAll_absent; [done| |done].
  destruct (Contains path (":" +:+ p.1)) eqn:E; [|done]. apply Contains_spec in E as (x & y & ->).
  assert (Contains (x +:+ (":" +:+ p.1) +:+ y) ":" = true) as E'; [|congruence].
  apply Contains_spec. exists x, (p.1 +:+ y). by rewrite string_app_assoc.
Qed.

(** ** A directory to evaluate *)

#[local] Instance demo_content : ContentServer := λ W _ _ _ _ data, rw_WriteHeader 200;; rw_Write data;; mret ().
#[local] Instance demo_content_laws : ContentLaws.
Proof. intros req name t data h _ _. exists h. by split. Qed.
#[local] Instance demo_mime : MimeTypes := λ ext, if bool_decide (ext = ".html") then "text/html; charset=utf-8" else "".
#[local] Instance demo_regexp : RegexpEngine :=
  {| regex := string; Compile p := Some p; MatchString re s := bool_decide (re = s) |}.
#[local] Instance demo_fmt : FmtV := λ _, "?".

Definition demo_dir : fs_FS := λ name,
  if bool_decide (name = "a/b.txt") then inr (mkFsFile (inr (mkInfo "b.txt" false 255)) true "hello")
  else if bool_decide (name = "../secret") then inr (mkFsFile (inr (mkInfo "secret" false 1)) true "key")
  else if bool_decide (name = "") then inl (ESentinel "invalid argument")
  else inl (ESentinel fs_ErrNotExist).

(** The same directory without the file outside it. *)
Definition demo_dir' : fs_FS := λ name, if bool_decide (name = "../secret") then inl (ESentinel "x") else demo_dir name.

Definition demo_get (path : string) : Request := plain_request "GET" path path "example.org" "1.2.3.4:5" false ∅.

Lemma static_confined_witness :
  ServeStatic demo_dir (demo_get "/x") "../secret" new_server_rw =
  ServeStatic demo_dir' (demo_get "/x") "../secret" new_server_rw.
Proof.
  apply (static_confined demo_dir demo_dir' (demo_get "/x") "../secret" new_server_rw).
  intros cs Hcs. unfold demo_dir'. rewrite bool_decide_false; [reflexivity|]. intros E.
  destruct (decide (cs = [])) as [->|Hne]; [discriminate|].
  assert (Split slash (Join (String slash "") cs) = cs) as Hs
    by (apply Split_Join; [exact Hne|eapply Forall_impl; [exact Hcs|intros x Hx; apply Hx]]).
  assert (cs = [".."; "secret"]) as -> by (rewrite <-Hs; exact (f_equal (Split slash) E)).
  apply Forall_cons in Hcs as [Hc _]. by destruct Hc as (_ & _ & _ & Hc).
Defined.

Lemma static_revalidates_witness :
  ∃ h', ServeStatic demo_dir (demo_get "/x") "a/./b.txt" new_server_rw =
    (Done None, mkServer h' (Some (200%Z, h')) "hello").
Proof.
  destruct (static_revalidates demo_dir (demo_get "/x") "a/./b.txt" (mkFsFile (inr (mkInfo "b.txt" false 255)) true "hello")
    (mkInfo "b.txt" false 255) (mkHead ∅ []) (mkHead ∅ [])) as (h' & Hs & _);
    [reflexivity|by repeat constructor|reflexivity|reflexivity|reflexivity|reflexivity|].
  exists h'. exact Hs.
Defined.

Lemma static_root_fails_witness :
  ServeStatic demo_dir (demo_get "/x") "" new_server_rw = (Done (Some (ESentinel "invalid argument")), new_server_rw).
Proof.
  apply (static_root_fails demo_dir (demo_get "/x") (ESentinel "invalid argument") new_server_rw); reflexivity.
Defined.

Definition demo_named : @Router server_rw () () _ :=
  (addRoute "GET" "/user/{id}" (Some (mret None)) ["user"]
    (mkRouter NewTree [] (λ _ _ _, mret ()) None None "" None false None false "" "" false (λ _ _, "") false false 2 ""
      [] "" [] (mkCORS false [] [] [] [] false 0) ∅ false None)).1.

Lemma URL_ignores_braces_witness : Router_URL "user" [[("id", VInt KInt 7)]] demo_named = "/user/{id}".
Proof. apply (URL_ignores_braces demo_named "user" "/user/{id}" [[("id", VInt KInt 7)]]); reflexivity. Defined.
