(* ===== verification/Json.v ===== *)
(** * Values for JSON

    [SanitizeForJSON] of [internal/web/json.go]: any Go value as one of nil, a number,
    a string, a truth value, a list or a map with string keys.  A map is a list of its
    entries; an assignment to a key replaces the entry of that key. *)

From S2P Require Import Prelude GoStrings GoValue Session.
From Stdlib Require Import Ascii.
Import Strings.

(** [t.Format(time.RFC3339)]; the zero time is [VTime 0]. *)
Class TimeText := format_RFC3339 : Z → string.

(** [m[k] = v]. *)
Fixpoint map_assign (k : string) (v : value) (m : list (string * value)) : list (string * value) :=
  match m with
  | [] => [(k, v)]
  | (k', v') :: m' => if bool_decide (k' = k) then (k, v) :: m' else (k', v') :: map_assign k v m'
  end.

(** The member a field of a struct becomes. *)
Definition json_member (f : sfield) : option string :=
  if negb (sf_exported f) then None
  else
    let jsonTag := Tag_Get f "json" in
    if bool_decide (jsonTag = "-") then None
    else
      let name := default "" (hd_error (Split ","%char jsonTag)) in
      if bool_decide (jsonTag ≠ "") && bool_decide (name ≠ "") && bool_decide (name ≠ "-") then Some name
      else Some (sf_name f).

Definition assign_field (m : list (string * value)) (p : sfield * value) : list (string * value) :=
  match json_member p.1 with None => m | Some k => map_assign k p.2 m end.

Section Sanitize.
Context `{TimeText}.

Fixpoint SanitizeForJSON (v : value) : value :=
  match v with
  | VNil | VOther _ _ | VPtr _ None | VSlice _ None | VMap _ None | VBytes None => VNil
  | VBool _ | VString _ | VInt _ _ | VUint _ _ | VFloat _ _ => v
  | VPtr _ (Some x) => SanitizeForJSON x
  | VMap _ (Some l) =>
      VMap TInterface (Some (foldl (λ m p, map_assign p.1 p.2 m) [] (map (λ p, (p.1, SanitizeForJSON p.2)) l)))
  | VBytes (Some b) => VSlice TInterface (Some (map (λ a, VUint KInt8 (byte_val a)) (String.list_ascii_of_string b)))
  | VSlice _ (Some l) => VSlice TInterface (Some (map SanitizeForJSON l))
  | VTime t => if (t =? 0)%Z then VNil else VString (format_RFC3339 t)
  | VStruct _ _ fs vs => VMap TInterface (Some (foldl assign_field [] (zip fs (map SanitizeForJSON vs))))
  end.
End Sanitize.

(** ** Induction on values *)

Section ValueInd.
Context (P : value → Prop).
Context (Pleaf : ∀ v, (∀ t x, v ≠ VPtr t (Some x)) → (∀ t l, v ≠ VSlice t (Some l)) →
                      (∀ t l, v ≠ VMap t (Some l)) → (∀ n tn fs vs, v ≠ VStruct n tn fs vs) → P v).
Context (Pptr : ∀ t x, P x → P (VPtr t (Some x))).
Context (Pslice : ∀ t l, Forall P l → P (VSlice t (Some l))).
Context (Pmap : ∀ t l, Forall (λ p, P p.2) l → P (VMap t (Some l))).
Context (Pstruct : ∀ n tn fs vs, Forall P vs → P (VStruct n tn fs vs)).

Lemma value_nested_ind : ∀ v, P v.
Proof.
  fix IH 1. intros v.
  destruct v as [| | | | | | | |t [x|]|t [l|]|t [l|]|n tn fs vs|]; try (by apply Pleaf).
  - apply Pptr, IH.
  - apply Pslice. induction l as [|x l IHl]; constructor; [apply IH|exact IHl].
  - apply Pmap. induction l as [|[k x] l IHl]; constructor; [apply IH|exact IHl].
  - apply Pstruct. induction vs as [|x l IHl]; constructor; [apply IH|exact IHl].
Qed.
End ValueInd.

(** ** Plain values *)

Inductive json_plain : value → Prop :=
  | plain_nil : json_plain VNil
  | plain_bool b : json_plain (VBool b)
  | plain_int k z : json_plain (VInt k z)
  | plain_uint k z : json_plain (VUint k z)
  | plain_float k f : json_plain (VFloat k f)
  | plain_string s : json_plain (VString s)
  | plain_list l : Forall json_plain l → json_plain (VSlice TInterface (Some l))
  | plain_map l : NoDup l.*1 → Forall (λ p, json_plain p.2) l → json_plain (VMap TInterface (Some l)).

Lemma map_assign_keys k v m : (map_assign k v m).*1 = if decide (k ∈ m.*1) then m.*1 else m.*1 ++ [k].
Proof.
  induction m as [|[k' v'] m IH]; [done|]. cbn [map_assign]. case_bool_decide; subst; rewrite !fmap_cons; cbn [fst].
  - rewrite decide_True; [done|]. set_solver.
  - rewrite IH. repeat case_decide; set_solver.
Qed.
Lemma map_assign_NoDup k v m : NoDup m.*1 → NoDup (map_assign k v m).*1.
Proof.
  intros Hm. rewrite map_assign_keys. case_decide; [done|]. apply NoDup_app. split_and!; [done|set_solver|].
  apply NoDup_singleton.
Qed.
Lemma map_assign_Forall (P : value → Prop) k v m :
  P v → Forall (λ p, P p.2) m → Forall (λ p, P p.2) (map_assign k v m).
Proof. intros Hv. induction 1 as [|[k' v'] m Hx Hm IH]; simpl; [by repeat constructor|]. case_bool_decide; by constructor. Qed.

Lemma assign_all_plain (l m : list (string * value)) :
  NoDup m.*1 → Forall (λ p, json_plain p.2) m → Forall (λ p, json_plain p.2) l →
  json_plain (VMap TInterface (Some (foldl (λ m p, map_assign p.1 p.2 m) m l))).
Proof.
  intros Hm Hp Hl. revert m Hm Hp. induction Hl as [|p l Hx Hl IH]; intros m Hm Hp; simpl; [by constructor|].
  apply IH; [by apply map_assign_NoDup|by apply map_assign_Forall].
Qed.
Lemma assign_fields_plain (l : list (sfield * value)) m :
  NoDup m.*1 → Forall (λ p, json_plain p.2) m → Forall (λ p, json_plain p.2) l →
  json_plain (VMap TInterface (Some (foldl assign_field m l))).
Proof.
  intros Hm Hp Hl. revert m Hm Hp. induction Hl as [|p l Hx Hl IH]; intros m Hm Hp; simpl; [by constructor|].
  unfold assign_field at 2. destruct (json_member p.1); [|by apply IH].
  apply IH; [by apply map_assign_NoDup|by apply map_assign_Forall].
Qed.

(** Assigning distinct keys one after another keeps their order. *)
Lemma map_assign_fresh k v m : k ∉ m.*1 → map_assign k v m = m ++ [(k, v)].
Proof.
  induction m as [|[k' v'] m IH]; simpl; [done|]. intros Hk. rewrite bool_decide_false by set_solver.
  rewrite IH by set_solver. done.
Qed.
Lemma assign_all_distinct (l m : list (string * value)) :
  NoDup (m ++ l).*1 → foldl (λ m p, map_assign p.1 p.2 m) m l = m ++ l.
Proof.
  revert m. induction l as [|[k v] l IH]; intros m Hn; simpl; [by rewrite app_nil_r|].
  rewrite map_assign_fresh.
  - rewrite IH; by rewrite <-app_assoc.
  - rewrite fmap_app in Hn. apply NoDup_app in Hn as (_ & Hd & _). intros Hk. apply (Hd k Hk). set_solver.
Qed.

Section Laws.
Context `{TimeText}.

Lemma SanitizeForJSON_plain v : json_plain (SanitizeForJSON v).
Proof.
  induction v as [v H1 H2 H3 H4|t x IH|t l IH|t l IH|n tn fs vs IH] using value_nested_ind.
  - destruct v as [| | | | | |[b|]|t|t [x|]|t [l|]|t [l|]|n tn fs vs|]; try (by constructor); try (by edestruct H1);
      try (by edestruct H2); try (by edestruct H3); try (by edestruct H4); simpl.
    + constructor. apply Forall_fmap, Forall_true. intros a. constructor.
    + destruct (_ =? _)%Z; constructor.
  - done.
  - constructor. by apply Forall_fmap.
  - apply assign_all_plain; [by constructor|done|]. by apply Forall_fmap.
  - apply assign_fields_plain; [by constructor|done|]. revert fs. induction IH as [|x l Hx Hl IHl]; intros [|f fs]; simpl; by constructor.
Qed.

Lemma SanitizeForJSON_id v : json_plain v → SanitizeForJSON v = v.
Proof.
  induction v as [v H1 H2 H3 H4|t x IH|t l IH|t l IH|n tn fs vs IH] using value_nested_ind; intros Hp.
  - inversion Hp; subst; try done; [by destruct (H2 _ _ eq_refl)|by destruct (H3 _ _ eq_refl)].
  - inversion Hp.
  - inversion Hp as [| | | | | |l' Hl|]; subst. simpl. do 2 f_equal.
    induction IH as [|x l Hx IH IHl]; [done|]. apply Forall_cons in Hl as [Hxp Hl].
    simpl. rewrite Hx by done. f_equal. apply IHl; [|done]. by constructor.
  - inversion Hp as [| | | | | | |l' Hn Hl]; subst. simpl. do 2 f_equal.
    assert (map (λ p, (p.1, SanitizeForJSON p.2)) l = l) as ->.
    { clear Hp Hn. induction IH as [|[k x] l Hx IH IHl]; [done|]. apply Forall_cons in Hl as [Hxp Hl].
      simpl in *. by rewrite Hx, IHl. }
    by apply (assign_all_distinct l []).
  - inversion Hp.
Qed.

(** Whatever the value (pointers, structs, times, channels, nested maps), the result
    is plain: it holds nothing but nil, truth values, numbers, strings, lists and maps
    with distinct string keys; and a plain value is its own result, so that applying
    the function twice changes nothing. *)
Theorem SanitizeForJSON_normal v :
  json_plain (SanitizeForJSON v) ∧ (json_plain v → SanitizeForJSON v = v) ∧
  SanitizeForJSON (SanitizeForJSON v) = SanitizeForJSON v.
Proof. split_and!; [apply SanitizeForJSON_plain|apply SanitizeForJSON_id|apply SanitizeForJSON_id, SanitizeForJSON_plain]. Qed.

(** Fields that are not exported, or hidden with [json:-], have no influence: two
    values of a struct type that agree on the other fields have the same result. *)
Theorem hidden_fields_do_not_leak n tn fs vs vs' :
  length vs = length vs' →
  (∀ i f v v', fs !! i = Some f → vs !! i = Some v → vs' !! i = Some v' → is_Some (json_member f) → v = v') →
  SanitizeForJSON (VStruct n tn fs vs) = SanitizeForJSON (VStruct n tn fs vs').
Proof.
  intros Hl Hag. simpl. do 2 f_equal. generalize (@nil (string * value)) as m.
  revert vs vs' Hl Hag. induction fs as [|f fs IH]; intros [|v vs] [|v' vs'] Hl Hag m; try done.
  simpl. unfold assign_field at 2 4. simpl.
  assert ((match json_member f with None => m | Some k => map_assign k (SanitizeForJSON v) m end) =
          (match json_member f with None => m | Some k => map_assign k (SanitizeForJSON v') m end)) as ->.
  { destruct (json_member f) eqn:E; [|done]. by rewrite (Hag 0 f v v'). }
  apply IH; [by injection Hl|]. intros i g x x'. apply (Hag (S i)).
Qed.
End Laws.

(** ** Values to evaluate *)

#[local] Instance demo_time_text : TimeText := λ _, "2024-01-01T00:00:00Z".

Definition demo_fields : list sfield :=
  [SField "Name" TString true false [("json", "name,omitempty")]; SField "Secret" TString true false [("json", "-")];
   SField "cache" TString false false []].
Definition demo_account (secret : string) : value :=
  VStruct "Account" None demo_fields [VString "ann"; VString secret; VString "x"].

Example account_for_json :
  SanitizeForJSON (VPtr TInterface (Some (demo_account "pw"))) = VMap TInterface (Some [("name", VString "ann")]).
Proof. reflexivity. Qed.

Lemma hidden_fields_do_not_leak_witness : SanitizeForJSON (demo_account "one") = SanitizeForJSON (demo_account "two").
Proof.
  apply (hidden_fields_do_not_leak "Account" None demo_fields [VString "ann"; VString "one"; VString "x"]
    [VString "ann"; VString "two"; VString "x"]); [reflexivity|].
  intros [|[|[|i]]] f v v' Hf Hv Hv' [k Hk]; simpl in *; try discriminate; try congruence.
  injection Hf as <-. discriminate Hk.
Defined.
