(* ===== verification/Guard.v ===== *)
(** * Guards in pages

    [internal/web/guard.go]: a hidden input with the CSRF token, or a honeypot, behind
    every form tag whose method is not GET, and the token's meta tag behind the head
    tag.  The regular expressions of the source are written as functions: for
    [<form\b[^>]*>] the length of the match at a position, for
    [method\s*=\s*['\q]?\s*(\w+)] (where [\q] is the double quote) the word it captures. *)

From S2P Require Import Prelude GoStrings Util.
From Stdlib Require Import Ascii.
Import Strings.

(** ** The expressions *)

Definition is_word_byte (a : ascii) : bool := is_lower a || is_upper a || is_digit a || bool_decide (a = "_"%char).
Definition is_blank_byte (a : ascii) : bool :=
  bool_decide (a ∈ [" "%char; "009"%char; "010"%char; "012"%char; "013"%char]).

(** What follows a prefix, compared without regard to case; [p] is in lower case. *)
Fixpoint prefix_fold (p s : string) : option string :=
  match p, s with
  | "", _ => Some s
  | String a p', String b s' => if bool_decide (lower_byte b = a) then prefix_fold p' s' else None
  | String _ _, "" => None
  end.

(** The bytes up to the first [>], which is included. *)
Fixpoint to_gt (s : string) : option nat :=
  match s with
  | "" => None
  | String a s' => if bool_decide (a = ">"%char) then Some 1 else S <$> to_gt s'
  end.

Definition starts_word (s : string) : bool := match s with "" => false | String a _ => is_word_byte a end.

(** [(?i)<name\b[^>]*>] at the start of [s]. *)
Definition tag_length (name s : string) : option nat :=
  match prefix_fold ("<" +:+ name) s with
  | None => None
  | Some r => if starts_word r then None else (λ n, S (String.length name) + n) <$> to_gt r
  end.

Fixpoint skip_blank (s : string) : string :=
  match s with String a s' => if is_blank_byte a then skip_blank s' else s | "" => "" end.
Fixpoint take_word (s : string) : string :=
  match s with String a s' => if is_word_byte a then String a (take_word s') else "" | "" => "" end.
Definition skip_quote (s : string) : string :=
  match s with String a s' => if bool_decide (a ∈ ["034"%char; "'"%char]) then s' else s | "" => "" end.

(** What follows [method] in the expression: the word, if it matches. *)
Definition method_value (s : string) : option string :=
  match skip_blank s with
  | String a s' =>
      if bool_decide (a = "="%char) then
        let w := take_word (skip_blank (skip_quote (skip_blank s'))) in
        if bool_decide (w = "") then None else Some w
      else None
  | "" => None
  end.
Fixpoint find_method (s : string) : option string :=
  match s with
  | "" => None
  | String _ s' =>
      match prefix_fold "method" s with
      | Some r => match method_value r with Some w => Some w | None => find_method s' end
      | None => find_method s'
      end
  end.

(** ** [ReplaceAllStringFunc] *)

Section Replace.
Variable name : string.
Variable f : string → string.

Fixpoint replace_tags (skip : nat) (s : string) : string :=
  match s with
  | "" => ""
  | String a s' =>
      match skip with
      | S k => replace_tags k s'
      | O =>
          match tag_length name s with
          | Some n => f (take n s) +:+ replace_tags (n - 1) s'
          | None => String a (replace_tags 0 s')
          end
      end
  end.
End Replace.

(** ** The guards *)

Definition dq : string := String "034" "".
Definition attr (name value : string) : string := name +:+ "=" +:+ dq +:+ value +:+ dq.
Definition attr' (name value : string) : string := name +:+ "='" +:+ value +:+ "'".

Definition form_method (tag : string) : string :=
  match find_method tag with Some w => ToUpperASCII w | None => "GET" end.

(** The input behind every form that does not ask with GET. *)
Definition guard_forms (input html : string) : string :=
  replace_tags "form" (λ m, if bool_decide (form_method m = "GET") then m else m +:+ input) 0 html.

Definition has_name (name html : string) : bool :=
  Contains html (attr "name" name) || Contains html (attr' "name" name).

Definition csrf_input (token : string) : string :=
  "<input " +:+ attr "type" "hidden" +:+ " " +:+ attr "name" "csrf_token" +:+ " " +:+ attr "value" (HTMLEscape token) +:+ ">".
Definition csrf_meta (token : string) : string :=
  "<meta " +:+ attr "name" "csrf-token" +:+ " " +:+ attr "content" (HTMLEscape token) +:+ ">".
Definition honeypot_input (fieldName : string) : string :=
  "<input " +:+ attr "type" "text" +:+ " " +:+ attr "name" (HTMLEscape fieldName) +:+ " " +:+ attr "value" "" +:+ " " +:+
  attr "style" "display:none !important; position:absolute !important; left:-9999px !important;" +:+ " " +:+
  attr "tabindex" "-1" +:+ " " +:+ attr "autocomplete" "off" +:+ " " +:+ attr "aria-hidden" "true" +:+ ">".

Definition InjectCSRFIntoForms (html token : string) : string :=
  if bool_decide (token = "") then html
  else if has_name "csrf_token" html then html
  else guard_forms (csrf_input token) html.

Definition InjectCSRFMeta (html token : string) : string :=
  if bool_decide (token = "") then html
  else if has_name "csrf-token" html then html
  else replace_tags "head" (λ m, m +:+ csrf_meta token) 0 html.

Definition InjectHoneypotIntoForms (html fieldName : string) : string :=
  if bool_decide (fieldName = "") then html
  else if has_name fieldName html then html
  else guard_forms (honeypot_input fieldName) html.

(** ** Text and tags *)

(** A whole tag: one match of the expression. *)
Definition is_tag (name tag : string) : Prop := tag_length name tag = Some (String.length tag).

Lemma lower_lt a : lower_byte a = "<"%char ↔ a = "<"%char.
Proof. split; [|by intros ->]. unfold lower_byte. destruct (is_upper a) eqn:E; [|done]. destruct a as [[] [] [] [] [] [] [] []]; done. Qed.

Lemma tag_starts name s : is_Some (tag_length name s) → ∃ s', s = String "<" s'.
Proof.
  unfold tag_length. change ("<" +:+ name) with (String "<" name). destruct s as [|a s]; simpl; [by intros []|].
  case_bool_decide as Ha; [|by intros []]. intros _. apply lower_lt in Ha as ->. eauto.
Qed.

Lemma prefix_fold_app p s r b : prefix_fold p s = Some r → prefix_fold p (s +:+ b) = Some (r +:+ b).
Proof.
  revert s. induction p as [|a p IH]; intros s; simpl; [by intros [= ->]|].
  destruct s as [|c s]; [done|]. rewrite string_app_cons. simpl. case_bool_decide; [apply IH|done].
Qed.
Lemma to_gt_app s b n : to_gt s = Some n → to_gt (s +:+ b) = Some n.
Proof.
  revert n. induction s as [|a s IH]; intros n; [done|]. rewrite string_app_cons. simpl. case_bool_decide; [done|].
  destruct (to_gt s) as [m|]; [|done]. rewrite (IH m) by done. done.
Qed.
Lemma tag_length_app name s b n : tag_length name s = Some n → tag_length name (s +:+ b) = Some n.
Proof.
  unfold tag_length. destruct (prefix_fold _ s) as [r|] eqn:E; [|done]. rewrite (prefix_fold_app _ _ _ _ E).
  destruct r as [|a r]; [done|]. rewrite string_app_cons. cbn [starts_word]. destruct (is_word_byte a); [done|].
  destruct (to_gt (String a r)) as [m|] eqn:Eg; [|done]. pose proof (to_gt_app _ b _ Eg) as Ha.
  rewrite string_app_cons in Ha. by rewrite Ha.
Qed.

Section Equations.
Variable name : string.
Variable f : string → string.
#[local] Abbreviation go := (replace_tags name f).

Lemma replace_skip a b : go (String.length a) (a +:+ b) = go 0 b.
Proof.
  induction a as [|c a IH]; [by rewrite string_app_nil_l|]. rewrite string_app_cons. simpl. apply IH.
Qed.

(** Text without a [<] is kept. *)
Lemma replace_text a b : word "<"%char a → go 0 (a +:+ b) = a +:+ go 0 b.
Proof.
  intros Ha. induction a as [|c a IH]; [by rewrite !string_app_nil_l|]. apply word_cons in Ha as [Hc Ha].
  rewrite !string_app_cons. simpl. destruct (tag_length name (String c (a +:+ b))) eqn:E.
  - destruct (tag_starts name (String c (a +:+ b))) as [s' Hs]; [by eexists|]. by injection Hs.
  - by rewrite IH.
Qed.

Lemma replace_tag tag b : is_tag name tag → go 0 (tag +:+ b) = f tag +:+ go 0 b.
Proof.
  intros Ht. pose proof (tag_length_app name tag b _ Ht) as Hl.
  destruct (tag_starts name tag) as [s' Hs]; [by eexists|]. subst tag. rewrite string_app_cons in *.
  simpl in Hl |- *. rewrite Hl. f_equal.
  - f_equal. simpl. f_equal. clear. induction s' as [|c s IH]; [by destruct b|]. rewrite string_app_cons. simpl. by rewrite IH.
  - replace (S (String.length s') - 1) with (String.length s') by lia. apply replace_skip.
Qed.
End Equations.

(** Every form is guarded and nothing else is touched: text is kept, a form tag that
    asks with GET (or names no method) is kept, every other form tag is followed by
    the input, and the page after it is treated in the same way.  What the input
    holds of the token can close neither its attribute nor its tag. *)
Theorem forms_guarded text tag rest token :
  word "<"%char text → is_tag "form" tag →
  guard_forms (csrf_input token) (text +:+ tag +:+ rest) =
    text +:+ tag +:+ (if bool_decide (form_method tag = "GET") then "" else csrf_input token) +:+
    guard_forms (csrf_input token) rest ∧
  str_all html_inert (HTMLEscape token) = true.
Proof.
  intros Hx Ht. split; [|by apply escape_runes_inert, runes_nonneg]. unfold guard_forms.
  rewrite replace_text by done. rewrite replace_tag by done.
  case_bool_decide; [by rewrite string_app_nil_l|]. by rewrite !string_app_assoc.
Qed.

(** ** Guarding twice *)

Lemma Contains_prepend a s sub : Contains s sub = true → Contains (a +:+ s) sub = true.
Proof. rewrite !Contains_spec. intros (x & y & ->). exists (a +:+ x), y. by rewrite !string_app_assoc. Qed.
Lemma Contains_append s b sub : Contains s sub = true → Contains (s +:+ b) sub = true.
Proof. rewrite !Contains_spec. intros (x & y & ->). exists x, (y +:+ b). by rewrite !string_app_assoc. Qed.
Lemma Contains_trans a b c : Contains a b = true → Contains b c = true → Contains a c = true.
Proof. rewrite Contains_spec. intros (x & y & ->) Hb. by apply Contains_prepend, Contains_append. Qed.
Lemma Contains_self s : Contains s s = true.
Proof. apply Contains_spec. exists "", "". by rewrite string_app_nil_l, string_app_nil_r. Qed.

Lemma take_drop_string n s : take n s +:+ drop n s = s.
Proof.
  revert s. induction n as [|n IH]; intros [|a s]; simpl; try done. rewrite string_app_cons. by rewrite IH.
Qed.

(** A page without a form to guard is left as it is by every input; any other page
    holds the input afterwards. *)
Lemma guard_forms_cases html :
  (∀ input, guard_forms input html = html) ∨ (∀ input, Contains (guard_forms input html) input = true).
Proof.
  unfold guard_forms. set (F := λ input m, if bool_decide (form_method m = "GET") then m else m +:+ input).
  change ((∀ input, replace_tags "form" (F input) 0 html = drop 0 html) ∨
          (∀ input, Contains (replace_tags "form" (F input) 0 html) input = true)).
  generalize 0 as k. induction html as [|a s IH]; intros k; [left; by destruct k|].
  destruct k as [|k]; [|apply IH]. cbn [replace_tags drop].
  destruct (tag_length "form" (String a s)) as [n|] eqn:E.
  - assert (∃ m, n = S m) as [m ->].
    { unfold tag_length in E. destruct (prefix_fold _ _); [|done]. destruct (starts_word _); [done|].
      destruct (to_gt _); simpl in E; [|done]. injection E as <-. eauto. }
    cbn [Nat.sub]. rewrite Nat.sub_0_r. set (tag := take (S m) (String a s)).
    destruct (decide (form_method tag = "GET")) as [Hm|Hm].
    + assert (∀ input, F input tag = tag) as HF by (intros input; unfold F; by rewrite bool_decide_true).
      destruct (IH m) as [Hl|Hr].
      * left. intros input. rewrite Hl, HF. unfold tag. cbn [take]. rewrite string_app_cons. by rewrite take_drop_string.
      * right. intros input. by apply Contains_prepend.
    + assert (∀ input, F input tag = tag +:+ input) as HF by (intros input; unfold F; by rewrite bool_decide_false).
      right. intros input. rewrite HF. apply Contains_append, Contains_prepend, Contains_self.
  - destruct (IH 0) as [Hl|Hr].
    + left. intros input. by rewrite Hl.
    + right. intros input. cbn [Contains]. by rewrite Hr, orb_true_r.
Qed.

Lemma csrf_input_named token : Contains (csrf_input token) (attr "name" "csrf_token") = true.
Proof.
  unfold csrf_input. do 3 apply Contains_prepend. apply Contains_append, Contains_self.
Qed.

(** A page is guarded once: injecting again, with the same token or another, changes
    nothing, so that a layout inside a layout does not get two tokens. *)
Theorem csrf_injected_once html t t' :
  t ≠ "" → InjectCSRFIntoForms (InjectCSRFIntoForms html t) t' = InjectCSRFIntoForms html t.
Proof.
  intros Ht. unfold InjectCSRFIntoForms. rewrite (bool_decide_false _ Ht). destruct (bool_decide (t' = "")); [done|].
  destruct (has_name "csrf_token" html) eqn:Hn; [by rewrite Hn|].
  destruct (guard_forms_cases html) as [Hk|Hc].
  - by rewrite !Hk, Hn.
  - unfold has_name at 1.
    rewrite (Contains_trans _ (csrf_input t) _ (Hc _) (csrf_input_named t)). done.
Qed.

(** ** Pages to evaluate *)

Definition demo_tag : string := "<FORM " +:+ attr "method" " post" +:+ ">".

Lemma forms_guarded_witness :
  guard_forms (csrf_input "t") ("a " +:+ demo_tag +:+ "</form>") =
    "a " +:+ demo_tag +:+ csrf_input "t" +:+ "</form>" ∧ form_method demo_tag = "POST".
Proof.
  split; [|reflexivity].
  destruct (forms_guarded "a " demo_tag "</form>" "t") as [E _]; [reflexivity|reflexivity|]. exact E.
Defined.

Lemma csrf_injected_once_witness :
  InjectCSRFIntoForms (InjectCSRFIntoForms demo_tag "t") "u" = demo_tag +:+ csrf_input "t".
Proof. rewrite (csrf_injected_once demo_tag "t" "u") by discriminate. reflexivity. Defined.

(** The honeypot looks for its name before escaping it, so a name that is changed by
    escaping is injected again. *)
Example honeypot_injected_twice :
  let once := InjectHoneypotIntoForms demo_tag "a&b" in InjectHoneypotIntoForms once "a&b" ≠ once.
Proof. vm_compute. discriminate. Qed.
