(* ===== verification/ContextOps.v ===== *)
(** * The rest of the request context

    Redirects that rewrite a query and the methods of [context.go] that hand the
    context's key, session or request to another component. *)

From S2P Require Import Prelude GoStrings GoValue HttpErr RouterTree Session RedisStore Crypto RateLimit Http Net Waf.
From S2P Require Import Metrics DbModel DbExec DbFacade Disk Context WebRequest.
From Stdlib Require Import Ascii.
Import Strings.

(** ** Redirects with a query *)

(** [url.Parse], with [parsedURL.RawQuery = q; parsedURL.String()]; [url.Values.Encode]. *)
Class UrlText := {
  url_Parse : string → error + string;
  url_with_RawQuery : string → string → string;
  values_Encode : form_values → string;
}.

Definition invalid_redirect : error := ENew "redirect status code must be 3xx (300-399)".

(** [for key, value := range params { query.Set(key, fmt.Sprintf(v, value)) }]. *)
Definition set_params `{FmtV} (params : gmap string value) (query : form_values) : form_values :=
  map_fold (λ k v q, <[k := [fmt_v v]]> q) query params.

(** [c.request.URL.Query()]. *)
Definition URL_Query (req : Request) : form_values :=
  foldl (λ q p, <[p.1 := default [] (q !! p.1) ++ [p.2]]> q) ∅ (req_query req).

Section Redirects.
Context {W SW L : Type} `{ResponseWriter W} `{RedirectText} `{UrlText} `{FmtV}.
#[local] Abbreviation Handler := (HandlerFunc W SW L).

Definition redirect_query (code : Z) (to : string) (query : Request → form_values) : Handler :=
  if negb (isValidRedirectCode code) then mret (Some invalid_redirect)
  else match url_Parse to with
       | inl e => mret (Some e)
       | inr u =>
           req ← ctx c_request;
           match req with
           | None => crashM "runtime error: invalid memory address or nil pointer dereference"
           | Some req =>
               onW (http_Redirect req (url_with_RawQuery u (values_Encode (query req))) code);;
               on_ctx (with_written true);;
               mret None
           end
       end.

Definition RedirectWithQuery (code : Z) (to : string) (queryParams : gmap string value) : Handler :=
  redirect_query code to (λ _, set_params queryParams ∅).

Definition requery (queryParams : list (gmap string value)) (req : Request) : form_values :=
  foldl (λ q params, set_params params q) (URL_Query req) queryParams.

Definition RedirectWithRequery (code : Z) (to : string) (queryParams : list (gmap string value)) : Handler :=
  redirect_query code to (requery queryParams).
End Redirects.

(** ** What the context hands on *)

Section Delegates.
Context `{AEAD, FmtV}.

Definition Context_Encrypt (rnd : nat → error + string) (plaintext : string) (c : Context) : error + string :=
  Encrypt rnd plaintext (c_encryptKey c).
Definition Context_Decrypt (encoded : string) (c : Context) : error + string := Decrypt encoded (c_encryptKey c).
Definition Context_EncryptString (rnd : nat → error + string) (plaintext : string) (c : Context) : error + string :=
  EncryptString rnd plaintext (c_encryptKey c).
Definition Context_DecryptString (encoded : string) (c : Context) : error + string :=
  DecryptString encoded (c_encryptKey c).
Definition Context_GenerateCSRFToken (rnd : nat → error + string) (now : Z) (c : Context) : error + string :=
  GenerateCSRFToken rnd now (c_session c) (c_encryptKey c).
Definition Context_VerifyCSRFToken (now : Z) (token : string) (c : Context) : bool :=
  VerifyCSRFToken now token (c_session c) (c_encryptKey c).
End Delegates.

Definition Context_ExtractIP (trust : bool) (c : Context) : option string := RealIP trust <$> c_request c.

(** The application's function sees the context. *)
Definition Context_CurrentUser (fn : Context → value * string) (c : Context) : value * string :=
  if c_currentUser c then fn c else (VNil, "").

(** ** Properties *)

Lemma set_params_lookup `{FmtV} params (q : form_values) k :
  set_params params q !! k = match params !! k with Some v => Some [fmt_v v] | None => q !! k end.
Proof.
  unfold set_params, form_values in *. revert k. apply (map_fold_weak_ind (λ r m, ∀ k, r !! k =
    match m !! k with Some v => Some [fmt_v v] | None => q !! k end)).
  - intros k. by rewrite lookup_empty.
  - intros i v m r Hi IH k. destruct (decide (i = k)) as [->|Hne].
    + by rewrite !lookup_insert_eq.
    + by rewrite !lookup_insert_ne.
Qed.

(** A redirect with the query of its request keeps it: a key that no map names has
    the values the request had, in their order, and a key that is named has the text
    of the last map that names it, alone. *)
Theorem requery_keeps_and_overrides `{FmtV} params req k :
  requery params req !! k =
    match last (omap (λ m : gmap string value, m !! k) params) with
    | Some v => Some [fmt_v v]
    | None => URL_Query req !! k
    end.
Proof.
  unfold requery. generalize (URL_Query req) as q. induction params as [|m params IH] using rev_ind; intros q; [done|].
  rewrite foldl_app. simpl. rewrite set_params_lookup, omap_app. simpl.
  destruct (m !! k) as [v|] eqn:E; [by rewrite last_snoc|]. rewrite app_nil_r. apply IH.
Qed.
