(* ===== verification/DbDebug.v ===== *)
(** * Statements as text

    [interpolateQuery] and [formatArg] of [internal/db/logger.go] with [Debug] and
    [DebugSQL] of [builder_read.go]: a statement with its arguments written into it,
    for people to read.  The expression for placeholders is that of the dialect
    without dollar-quoted literals. *)

From S2P Require Import Prelude GoStrings Util GoValue Session Crypto DbSanitize DbModel DbExec DbBuilder DbSql.
From Stdlib Require Import Ascii.
Import Strings.

(** [v.Format] with the layout of a timestamp. *)
Class SqlTime := format_sql_time : Z → string.

Section Interpolate.
Context `{FmtV, SqlTime}.

Definition formatArg (arg : value) : string :=
  match arg with
  | VString v =>
      if (100 <? String.length v)%nat then "'" +:+ take 20 v +:+ "...(masked)'"
      else "'" +:+ ReplaceAll v "'" "''" +:+ "'"
  | VBytes b =>
      let v := default "" b in
      if (100 <? String.length v)%nat then "'" +:+ hex_EncodeToString (take 20 v) +:+ "...(masked)'"
      else "'" +:+ hex_EncodeToString v +:+ "'"
  | VTime t => "'" +:+ format_sql_time t +:+ "'"
  | _ => fmt_v arg
  end.

(** The length of the match of [reLogPlaceholder] at the start of [s]. *)
Definition match_log (s : string) : option nat :=
  match s with
  | "" => None
  | String c s' =>
      if bool_decide (c = quote) then S <$> match_quoted s' else if bool_decide (c = qmark) then Some 1 else None
  end.

(** [ReplaceAllStringFunc] with the closure over [idx]: [args] are those not used yet. *)
Fixpoint interpolate_go (skip : nat) (args : list value) (s : string) : string :=
  match s with
  | "" => ""
  | String c s' =>
      match skip with
      | S k => String c (interpolate_go k args s')
      | O =>
          match match_log s with
          | None => String c (interpolate_go 0 args s')
          | Some n =>
              if bool_decide (c = quote) then String c (interpolate_go (n - 1) args s')
              else match args with
                   | [] => String c (interpolate_go (n - 1) args s')
                   | a :: args' => formatArg a +:+ interpolate_go (n - 1) args' s'
                   end
          end
      end
  end.

Definition interpolateQuery (query : string) (args : list value) : string :=
  match args with [] => query | _ => interpolate_go 0 args query end.

(** ** What the text says *)

(** The query with its placeholders filled in from the left. *)
Fixpoint fill (cs : list chunk) (args : list string) : list chunk :=
  match cs, args with
  | Placeholder :: cs', a :: args' => Literal a :: fill cs' args'
  | c :: cs', _ => c :: fill cs' args
  | [], _ => []
  end.

Lemma ReplaceAll_quotes v : ReplaceAll v "'" "''" = double_quotes v.
Proof.
  unfold ReplaceAll. induction v as [|c v IH]; [done|]. cbn [ReplaceAll_go double_quotes].
  destruct (decide (c = quote)) as [->|Hc].
  - rewrite bool_decide_true by done. assert (HasPrefix (String quote v) "'" = true) as -> by (by destruct v).
    cbn [String.length Nat.sub]. rewrite IH. done.
  - rewrite bool_decide_false by done. assert (HasPrefix (String c v) "'" = false) as ->; [|by rewrite IH].
    simpl. rewrite bool_decide_false; [done|]. by intros ->.
Qed.

Lemma interpolate_skip p n args t :
  String.length p = n → interpolate_go n args (p +:+ t) = p +:+ interpolate_go 0 args t.
Proof.
  revert n. induction p as [|a p IH]; intros [|n] Hn; try done.
  rewrite !string_app_cons. simpl. f_equal. apply IH. by injection Hn.
Qed.
Lemma interpolate_text p args t :
  str_all inert_byte p = true → interpolate_go 0 args (p +:+ t) = p +:+ interpolate_go 0 args t.
Proof.
  induction p as [|a p IH]; [done|]. simpl. intros Hp. apply andb_true_iff in Hp as [Ha Hp].
  unfold inert_byte in Ha. apply negb_true_iff, bool_decide_eq_false in Ha. set_unfold.
  rewrite !string_app_cons. simpl. rewrite !bool_decide_false by naive_solver. by rewrite IH.
Qed.
Lemma interpolate_literal s args t :
  HasPrefix t "'" = false →
  interpolate_go 0 args (chunk_text (Literal s) +:+ t) = chunk_text (Literal s) +:+ interpolate_go 0 args t.
Proof.
  intros Ht. cbn [chunk_text]. rewrite !string_app_assoc.
  change ("'" +:+ ?s) with (String quote s) at 1 4. cbn [interpolate_go match_log].
  rewrite bool_decide_true by done. change ("'" +:+ t) with (String quote t).
  rewrite match_quoted_literal by done. cbn -[String.append]. f_equal.
  replace (double_quotes s +:+ String quote t) with ((double_quotes s +:+ "'") +:+ t) by (by rewrite string_app_assoc).
  rewrite interpolate_skip; [by rewrite string_app_assoc|]. rewrite string_app_length. simpl. lia.
Qed.

(** No argument escapes its literal: the text of a query without dollar-quoted
    literals and of string arguments that are not masked reads as the same query with
    the n-th placeholder replaced by a literal that holds exactly the n-th argument,
    quotes included; question marks inside literals stay. *)
Theorem interpolateQuery_reads_back cs args :
  chunks_ok cs = true → Forall (λ c, ∀ s, c ≠ DollarLiteral s) cs →
  Forall (λ a, String.length a ≤ 100) args →
  interpolateQuery (render cs) (VString <$> args) = render (fill cs args).
Proof.
  intros Hok Hd Ha. assert (∀ cs args, chunks_ok cs = true → Forall (λ c, ∀ s, c ≠ DollarLiteral s) cs →
    Forall (λ a, String.length a ≤ 100) args → interpolate_go 0 (VString <$> args) (render cs) = render (fill cs args)) as Hgo.
  { clear. intros cs. induction cs as [|c cs IH]; intros args Hok Hd Ha; [by destruct args|].
    cbn [chunks_ok] in Hok. apply andb_true_iff in Hok as [Hc Hok]. apply Forall_cons in Hd as [Hc' Hd].
    destruct c as [s|s|s|]; cbn [chunk_ok render chunk_text] in Hc |- *.
    - rewrite interpolate_text by done. by rewrite IH.
    - apply negb_true_iff in Hc. pose proof (interpolate_literal s (VString <$> args) _ Hc) as Hlit.
      cbn [chunk_text] in Hlit. rewrite Hlit. by rewrite IH.
    - by destruct (Hc' s).
    - change ("?" +:+ ?s) with (String qmark s). destruct args as [|a args].
      + cbn [fmap list_fmap interpolate_go match_log fill render chunk_text]. rewrite bool_decide_false by done.
        rewrite bool_decide_true by done. cbn. specialize (IH [] Hok Hd Ha). cbn in IH. by rewrite IH.
      + apply Forall_cons in Ha as [Hl Ha]. cbn [fmap list_fmap interpolate_go match_log fill render chunk_text].
        rewrite bool_decide_false by done. rewrite bool_decide_true by done. cbn [formatArg Nat.sub].
        destruct (Nat.ltb_spec 100 (String.length a)); [lia|]. rewrite ReplaceAll_quotes.
        specialize (IH args Hok Hd Ha). unfold fmap in IH |- *. rewrite IH. by rewrite !string_app_assoc. }
  destruct args as [|a args]; [|by apply Hgo].
  simpl. clear. induction cs as [|c cs IH]; [done|]. destruct c; simpl; by rewrite IH.
Qed.
End Interpolate.

Section Debug.
Context `{FmtV, SqlTime, Unicode, Platform, HistoryCodec, Driver}.

Definition Debug_ (b : Builder) : string * list value := Build b.
Definition DebugSQL (b : Builder) : string := let '(q, args) := Build b in interpolateQuery q args.
End Debug.

(** ** Texts to evaluate *)

#[local] Instance demo_fmt : FmtV := λ _, "?".
#[local] Instance demo_sql_time : SqlTime := λ _, "2024-01-01 00:00:00".

Lemma interpolateQuery_reads_back_witness :
  interpolateQuery (render [Text "a = "; Placeholder; Text " AND b = "; Literal "?"]) [VString "it's"] =
  "a = 'it''s' AND b = '?'".
Proof.
  apply (interpolateQuery_reads_back [Text "a = "; Placeholder; Text " AND b = "; Literal "?"] ["it's"]);
    [reflexivity|by repeat constructor|repeat constructor].
Defined.

(** A statement for Postgres has numbered placeholders by the time its arguments are
    written into it, and keeps them. *)
Example debug_postgres_keeps_placeholders :
  interpolateQuery (ConvertPlaceholders PostgresDialect "a = ?") [VString "x"] = "a = $1".
Proof. reflexivity. Qed.

(** The shortened form of a long argument does not double its quotes. *)
Example masked_argument_not_quoted :
  formatArg (VString ("it's " +:+ String.string_of_list_ascii (repeat "x"%char 100))) = "'it's xxxxxxxxxxxxxxx...(masked)'".
Proof. reflexivity. Qed.
