(* ===== verification/Mailer.v ===== *)
(** * Mail

    [mailer.go]: the message [SendMail] makes of its arguments and the environment,
    and what it refuses.  The server's answer is a parameter. *)

From S2P Require Import Prelude GoStrings HttpErr.
From Stdlib Require Import Ascii.
Import Strings.

Record smtp_env := mkSmtp {
  SMTP_HOST : string;
  SMTP_PORT : string;
  SMTP_USER : string;
  SMTP_PASS : string;
  SMTP_FROM_NAME : string;
}.

Definition crlf : string := String "013" (String "010" "").
Definition mail_quote : string := String "034" "".

(** The header lines of a message, without their ends. *)
Definition mail_headers (env : smtp_env) (to subject : string) : list string :=
  ["From: " +:+ mail_quote +:+ SMTP_FROM_NAME env +:+ mail_quote +:+ " <" +:+ SMTP_USER env +:+ ">";
   "To: " +:+ to; "Subject: " +:+ subject; "MIME-version: 1.0;";
   "Content-Type: text/html; charset=" +:+ mail_quote +:+ "UTF-8" +:+ mail_quote +:+ ";"].

Definition mail_text (env : smtp_env) (to subject htmlBody : string) : string :=
  Join crlf (mail_headers env to subject) +:+ crlf +:+ crlf +:+ htmlBody +:+ crlf.

Record mail := mkMail { m_addr : string; m_from : string; m_to : list string; m_msg : string }.

(** [smtp_send] is [smtp.SendMail] with the plain authentication of the user. *)
Definition SendMail (env : smtp_env) (smtp_send : mail → option error) (to : list string) (subject htmlBody : string)
    : option error * option mail :=
  if bool_decide (SMTP_HOST env = "") || bool_decide (SMTP_PORT env = "") || bool_decide (SMTP_USER env = "") ||
     bool_decide (SMTP_PASS env = "") then
    (Some (ENew "smtp configuration is missing in environment variables"), None)
  else match to with
       | [] => (Some (ENew "recipient list is empty"), None)
       | t :: _ =>
           let m := mkMail (SMTP_HOST env +:+ ":" +:+ SMTP_PORT env) (SMTP_USER env) to (mail_text env t subject htmlBody) in
           (smtp_send m, Some m)
       end.

(** ** Reading a message *)

(** The lines of a message up to the first empty one, and what follows it; a line
    ends with [crlf]. *)
Fixpoint read_line (s : string) : string * string :=
  match s with
  | "" => ("", "")
  | String a s' =>
      if HasPrefix s crlf then ("", drop 2 s)
      else let '(l, r) := read_line s' in (String a l, r)
  end.
Fixpoint read_headers (fuel : nat) (s : string) : list string * string :=
  match fuel with
  | O => ([], s)
  | S fuel =>
      let '(l, r) := read_line s in
      if bool_decide (l = "") then ([], r) else let '(ls, b) := read_headers fuel r in (l :: ls, b)
  end.

(** A text that fits in one line. *)
Definition one_line (s : string) : Prop := word "013"%char s.

Lemma read_line_spec l rest : one_line l → read_line (l +:+ crlf +:+ rest) = (l, rest).
Proof.
  intros Hl. induction l as [|a l IH]; [by destruct rest|]. apply word_cons in Hl as [Ha Hl].
  rewrite string_app_cons. cbn [read_line]. assert (HasPrefix (String a (l +:+ crlf +:+ rest)) crlf = false) as ->.
  { unfold crlf at 2. simpl. by rewrite bool_decide_false. }
  by rewrite IH.
Qed.

Lemma read_headers_spec ls body fuel :
  ls ≠ [] → Forall (λ l, one_line l ∧ l ≠ "") ls → length ls < fuel →
  read_headers fuel (Join crlf ls +:+ crlf +:+ crlf +:+ body) = (ls, body).
Proof.
  intros Hne Hls. revert fuel. induction Hls as [|l ls [Hl Hn] Hls IH]; intros fuel Hf; [done|].
  destruct fuel as [|fuel]; [simpl in Hf; lia|]. destruct ls as [|l' ls].
  - cbn [Join read_headers]. rewrite read_line_spec by done. rewrite bool_decide_false by done.
    destruct fuel as [|fuel]; [simpl in Hf; lia|]. cbn [read_headers].
    pose proof (read_line_spec "" body eq_refl) as E. rewrite string_app_nil_l in E. rewrite E. done.
  - change (Join crlf (l :: l' :: ls)) with (l +:+ crlf +:+ Join crlf (l' :: ls)). rewrite !string_app_assoc.
    cbn [read_headers]. rewrite read_line_spec by done. rewrite bool_decide_false by done.
    rewrite IH; [done|done|]. simpl in *. lia.
Qed.

(** A message is read as it was meant: when neither the recipient, the subject nor
    the sender's name holds a carriage return, a reader finds the five header lines,
    the recipient and the subject in them unchanged, and the body, whatever it is. *)
Theorem mail_reads_back env to subject htmlBody :
  one_line (SMTP_FROM_NAME env) → one_line (SMTP_USER env) → one_line to → one_line subject →
  read_headers 6 (mail_text env to subject htmlBody) = (mail_headers env to subject, htmlBody +:+ crlf).
Proof.
  intros Hn Hu Ht Hs. unfold mail_text. apply read_headers_spec; [done| |simpl; lia].
  unfold one_line, word in *. unfold mail_headers, mail_quote.
  repeat (apply Forall_cons; split; [split; [|done]|]); [..|apply Forall_nil];
    rewrite ?str_all_app; by rewrite ?Hn, ?Hu, ?Ht, ?Hs.
Qed.

Definition demo_smtp : smtp_env := mkSmtp "mail.example.org" "587" "app@example.org" "pw" "App".

Lemma mail_reads_back_witness :
  read_headers 6 (mail_text demo_smtp "ann@example.org" "Hi" "<p>x</p>") =
    (mail_headers demo_smtp "ann@example.org" "Hi", "<p>x</p>" +:+ crlf).
Proof. apply (mail_reads_back demo_smtp "ann@example.org" "Hi" "<p>x</p>"); reflexivity. Defined.

(** A subject with a line break adds a header of its own. *)
Example subject_adds_header :
  "Bcc: eve@example.org" ∈ (read_headers 7 (mail_text demo_smtp "ann@example.org" ("Hi" +:+ crlf +:+ "Bcc: eve@example.org") "")).1.
Proof. apply (bool_decide_unpack _). vm_compute. exact I. Qed.
