(* ===== verification/SessionFlow.v ===== *)
(** * Sessions from one request to the next

    The stages of [serveInternal] that open and save a session, over the Redis store,
    with the browser that keeps the cookie in between: what a handler of the next
    request finds, and what becomes of the CSRF token of the request before. *)

From S2P Require Import Prelude GoStrings GoValue GoFloat HttpErr Base64 RouterTree Session RedisStore Crypto RateLimit.
From S2P Require Import RedisRateLimit Http Net Waf Metrics DbModel DbExec DbFacade Context Router Server App ContextOps.
From Stdlib Require Import Ascii.
Import Strings.

(** ** The header of a writer *)

(** The header map a writer shares is the one that is changed through it. *)
Class HeadLaw (W : Type) `{ResponseWriter W} :=
  head_of_set f (w : W) : rw_head (rw_set_head f w) = f (rw_head w).

#[global] Instance server_HeadLaw : HeadLaw server_rw.
Proof. done. Qed.
#[global] Instance recorder_HeadLaw {W} `{HeadLaw W} : HeadLaw (statusRecorder W).
Proof. intros f [w z]. apply (head_of_set (W := W)). Qed.
#[global] Instance waf_HeadLaw {W T} `{HeadLaw W, Coraza T} : HeadLaw (wafResponseWriter W T).
Proof. intros f w. apply (head_of_set (W := W)). Qed.
#[global] Instance any_HeadLaw {W T} `{HeadLaw W, Coraza T} : HeadLaw (any_writer W T).
Proof. intros f [r|w]; [apply (head_of_set (W := statusRecorder W))|apply (head_of_set (W := wafResponseWriter W T))]. Qed.

(** ** The browser *)

(** What a browser that had [had] sends after a response with the cookies [set]. *)
Definition jar (name : string) (had : option string) (set : list Cookie) : option string :=
  match last (filter (λ c, c_Name c = name) set) with
  | None => had
  | Some c => if (MaxAge (c_Options c) <? 0)%Z then None else Some (c_Value c)
  end.

Lemma jar_none name had set : Forall (λ c, c_Name c ≠ name) set → jar name had set = had.
Proof.
  intros Hf. unfold jar. induction Hf as [|c set Hc Hf IH]; [done|]. by rewrite filter_cons_False.
Qed.

Lemma jar_snoc name had set v o :
  (0 < MaxAge o)%Z → jar name had (set ++ [mkCookie name v o]) = Some v.
Proof.
  intros Ho. unfold jar. rewrite filter_app, filter_cons_True, filter_nil, last_snoc by done. simpl.
  destruct (Z.ltb_spec (MaxAge o) 0); [lia|done].
Qed.

(** A hexadecimal text has no character that is not a digit. *)
Lemma hex_plain c b : (∀ n, (n < 16)%N → hex_digit n ≠ c) → word c (hex_EncodeToString b).
Proof.
  intros Hd. induction b as [|a b IH]; [done|]. cbn [hex_EncodeToString].
  apply word_cons. split; [apply Hd, N.Div0.div_lt_upper_bound; pose proof (N_ascii_bounded a); lia|].
  apply word_cons. split; [by apply Hd, N.mod_lt|done].
Qed.

Lemma hex_digit_range n : (n < 16)%N → N_of_ascii (hex_digit n) = (if (n <? 10)%N then n + 48 else n + 87)%N.
Proof.
  intros Hn. unfold hex_digit. destruct (N.ltb_spec n 10); rewrite N_ascii_embedding by lia; lia.
Qed.

Ltac not_hex_digit :=
  let n := fresh in let Hn := fresh in let E := fresh in
  intros n Hn E; apply (f_equal N_of_ascii) in E; rewrite hex_digit_range in E by done;
  vm_compute N_of_ascii in E; destruct (N.ltb_spec n 10) in E; lia.

Lemma hex_no_bar b : word "|"%char (hex_EncodeToString b).
Proof. apply hex_plain. not_hex_digit. Qed.
Lemma hex_no_pad b : word "="%char (hex_EncodeToString b).
Proof. apply hex_plain. not_hex_digit. Qed.

(** The groups of 32 bytes are not a multiple of four, so that their text is padded. *)
Lemma encode_groups_three s : length (encode_groups s) mod 4 = match String.length s mod 3 with 0 => 0 | 1 => 2 | _ => 3 end.
Proof.
  remember (String.length s) as k eqn:Hk. revert s Hk. induction (lt_wf k) as [k _ IH]; intros s ->.
  destruct s as [|a [|b [|c s]]]; [done|done|done|].
  cbn [encode_groups length String.length].
  replace (S (S (S (S (length (encode_groups s)))))) with (length (encode_groups s) + 1 * 4) by lia.
  replace (S (S (S (String.length s)))) with (String.length s + 1 * 3) by lia.
  rewrite !Nat.Div0.mod_add. apply (IH (String.length s)); [cbn [String.length]; lia|done].
Qed.

Lemma URLEncoding_padded k : String.length k = 32 → ¬ word "="%char (URLEncoding k) ∧ URLEncoding k ≠ "".
Proof.
  intros Hk. assert (∃ p, URLEncoding k = p +:+ "=") as [p ->].
  { unfold URLEncoding, encode_padded, padding. rewrite encode_groups_three, Hk. by eexists. }
  split.
  - intros Hw. induction p as [|a p IH]; [|apply word_cons in Hw as [_ Hw]; auto].
    apply word_cons in Hw as [Hn _]. done.
  - by destruct p.
Qed.

(** ** Opening and saving *)

Section Flow.
Context {W SW L : Type} `{ResponseWriter W} `{!HeadLaw W} `{RedisLaws SW, JsonLaws, RandomKeys} `{RegexpEngine}.
Variable stc : RedisStore.
Hypothesis Hmax : (0 < MaxAge (rs_options stc))%Z.

#[local] Abbreviation st := (rstate W SW L).
#[local] Abbreviation Router := (@Router W SW L _).
#[local] Hint Extern 0 (SessionStore (store_world SW)) => exact (redis_session_store stc) : typeclass_instances.

(** The name and the path of the session of a request. *)
Definition session_of (r : Router) (req : Request) : string * string :=
  match sessionResolver r with
  | None => ("sessions", "")
  | Some f => let '(n, p) := f req in if bool_decide (n = "") then ("sessions", "") else (n, p)
  end.

(** The session of a request that sends the cookie [c], before its token is looked at. *)
Definition loaded (name path : string) (c : option string) (w : store_world SW) : raw_session :=
  let x := (RedisStore_New stc name c w).1 in
  if bool_decide (path = "") then x else Router.set_path path x.

Definition with_token (rnd : Random) (x : Session) : Session :=
  match Session_Get "_t" x, raw x with
  | VNil, Some r =>
      mkSession (Some (with_Values r (<[(inl "_t" : skey) := VString (hex_EncodeToString (rnd_token rnd))]> (raw_Values r)))) true
  | _, _ => x
  end.

Definition opened (r : Router) (rnd : Random) (req : Request) (w : store_world SW) : Session :=
  let '(name, path) := session_of r req in
  with_token rnd (NewSession (Some (loaded name path (Request_Cookie name req) w))).

Lemma open_session_spec r rnd req (s : st) :
  sessions_on r = true →
  open_session r rnd req s = (Done (), set_ctx (with_session (Some (opened r rnd req (s_store s))) (s_ctx s)) s).
Proof.
  intros Hon. unfold open_session, opened. rewrite Hon. simpl. fold (session_of r req).
  destruct (session_of r req) as [name path]. fold (loaded name path (Request_Cookie name req) (s_store s)).
  set (x := loaded _ _ _ _). unfold with_token, on_ctx, mbind, M_bind, modM, on_session. simpl.
  by destruct (Session_Get "_t" (NewSession (Some x))).
Qed.

Lemma with_token_ID rnd x : Session_ID (with_token rnd x) = Session_ID x.
Proof. unfold with_token. destruct (Session_Get "_t" x), x as [[r|] d]; done. Qed.

(** A session has an identifier exactly when the cookie names an entry that is
    there and can be read. *)
Lemma loaded_spec name path c w :
  up (sw_redis w) →
  let r := loaded name path c w in
  raw_name r = name ∧
  ((raw_ID r = "" ∧ raw_Values r = ∅) ∨
   ∃ v b t m, c = Some v ∧ raw_ID r = v ∧ live (sw_redis w) !! (rs_prefix stc +:+ v) = Some (b, t) ∧
     json_Unmarshal_map b = inr m).
Proof.
  intros Hup r. assert (let r0 := (RedisStore_New stc name c w).1 in
    raw_name r = raw_name r0 ∧ raw_ID r = raw_ID r0 ∧ raw_Values r = raw_Values r0) as (-> & -> & ->).
  { unfold r, loaded. by case_bool_decide. }
  clear r. unfold RedisStore_New. destruct c as [v|]; [|simpl; auto].
  unfold store_load, redis_key. cbn [raw_ID with_ID]. rewrite redis_Get_up by done.
  destruct (live (sw_redis w) !! (rs_prefix stc +:+ v)) as [[b t]|] eqn:El; simpl.
  - unfold Deserialize. destruct (json_Unmarshal_map b) as [e|m] eqn:Eu; simpl; [auto|]. split; [done|]. right.
    by exists v, b, t, m.
  - auto.
Qed.

(** The entry is enough to get the session back. *)
Lemma loaded_live name path v w b t m :
  up (sw_redis w) → live (sw_redis w) !! (rs_prefix stc +:+ v) = Some (b, t) → json_Unmarshal_map b = inr m →
  raw_ID (loaded name path (Some v) w) = v.
Proof.
  intros Hup Hl Hu. destruct (New_live stc name v w b t m Hup Hl Hu) as (r & Hn & Hid & _).
  unfold loaded. rewrite Hn. by case_bool_decide.
Qed.

(** Saving sends the store's cookies with the response and clears them. *)
Lemma save_session_spec (s : st) x e x' w' :
  c_session (s_ctx s) = Some x → Session_Save x (s_store s) = Ret (e, x', w') →
  let s' := (save_session s).2 in
  hd_cookies (rw_head (s_w s')) = hd_cookies (rw_head (s_w s)) ++ sw_cookies w' ∧
  s_store s' = RedisStore.mkWorld (sw_redis w') [] (sw_draws w').
Proof.
  intros Hx Hs. unfold save_session. rewrite Hx, Hs. simpl. set (s1 := set_store _ _).
  assert (s_w s1 = s_w s) as <- by done.
  change (RedisStore.mkWorld (sw_redis w') [] (sw_draws w')) with (s_store s1). clearbody s1.
  induction (sw_cookies w') as [|c l IH] in s1 |- *; simpl; [by rewrite app_nil_r|].
  unfold mbind, M_bind. simpl. destruct (IH (set_w (rw_set_head (http_SetCookie c) (s_w s1)) s1)) as [IH1 IH2].
  split; [|exact IH2]. etrans; [exact IH1|]. cbn [s_w set_w]. rewrite head_of_set. cbn [hd_cookies http_SetCookie].
  by rewrite <-app_assoc.
Qed.

(** What a handler may make of its session: values, not the identifier, the name or
    the lifetime. *)
Record edited (x x' : Session) : Prop := {
  ed_raws : ∃ r r', raw x = Some r ∧ raw x' = Some r' ∧ raw_ID r' = raw_ID r ∧ raw_name r' = raw_name r ∧
              jsonable r' ∧ (0 < MaxAge (raw_Options r'))%Z;
  ed_dirty : dirty x = true → dirty x' = true;
}.

(** The end of a request: what the browser has, and the entry behind it. *)
Lemma saved_cookie x x' r (s : st) had :
  edited x x' → raw x = Some r → c_session (s_ctx s) = Some x' → up (sw_redis (s_store s)) →
  sw_cookies (s_store s) = [] → dirty x = true ∨ had = Some (raw_ID r) ∧ raw_ID r ≠ "" →
  Forall (λ c, c_Name c ≠ raw_name r) (hd_cookies (rw_head (s_w s))) →
  let s' := (save_session s).2 in
  let id := raw_ID (assign_id r (s_store s)) in
  jar (raw_name r) had (hd_cookies (rw_head (s_w s'))) = Some id ∧
  ((∃ b m, live (sw_redis (s_store s')) !! (rs_prefix stc +:+ id) = Some (b, MaxAge (rs_options stc)) ∧
     json_Unmarshal_map b = inr m) ∨
   dirty x = false ∧ live (sw_redis (s_store s')) = live (sw_redis (s_store s))).
Proof.
  intros [(r0 & r' & Hr0 & Hr' & Hid & Hname & Hj & Hage) Hd] Hr Hc Hup Hsw Hor Hf. assert (r0 = r) as -> by congruence.
  assert (raw_ID (assign_id r' (s_store s)) = raw_ID (assign_id r (s_store s))) as Hids.
  { unfold assign_id. rewrite Hid. by case_bool_decide. }
  destruct (dirty x') eqn:Hdx'.
  - destruct (Save_keeps stc Hmax r' (s_store s) Hj Hup Hage) as (w' & b & m & Hsv & _ & Hl & Hck & Hu & _).
    destruct (save_session_spec s x' None (mkSession (Some (assign_id r' (s_store s))) false) w') as [Hhd Hst]; [done| |].
    { unfold Session_Save. rewrite Hdx', Hr'. cbn [negb store_Save redis_session_store]. by rewrite Hsv. }
    cbv zeta. rewrite Hhd, Hst, Hck, Hsw. cbn [app sw_redis]. rewrite Hname, Hids. split; [by apply jar_snoc|].
    left. exists b, m. rewrite Hl. unfold redis_key. by rewrite Hids, lookup_insert_eq.
  - assert (dirty x = false) as Hdx by (destruct (dirty x); naive_solver).
    destruct (save_session_spec s x' None x' (s_store s)) as [Hhd Hst]; [done| |].
    { unfold Session_Save. by rewrite Hdx'. }
    cbv zeta. rewrite Hhd, Hst, Hsw, app_nil_r. cbn [sw_redis]. split; [|by right].
    rewrite jar_none by done. destruct Hor as [|[-> Hne]]; [congruence|]. unfold assign_id.
    by rewrite bool_decide_false.
Qed.

(** ** The token of the page before *)

Context `{AEADLaws, FmtV}.

(** The session of a first visit, or that of a live cookie. *)
Lemma opened_spec r rnd req w :
  up (sw_redis w) → Request_Cookie (session_of r req).1 req ≠ Some "" →
  let x := opened r rnd req w in
  ∃ y, raw x = Some y ∧ raw_name y = (session_of r req).1 ∧ raw_ID y = Session_ID x ∧
  ((Session_ID x = "" ∧ dirty x = true ∧ csrf_session_id x = hex_EncodeToString (rnd_token rnd)) ∨
   ∃ b t m, Session_ID x ≠ "" ∧ csrf_session_id x = Session_ID x ∧
     Request_Cookie (session_of r req).1 req = Some (Session_ID x) ∧
     live (sw_redis w) !! (rs_prefix stc +:+ Session_ID x) = Some (b, t) ∧ json_Unmarshal_map b = inr m).
Proof.
  intros Hup Hne x. unfold x, opened in *. destruct (session_of r req) as [name path]. cbn [fst] in *.
  destruct (loaded_spec name path (Request_Cookie name req) w Hup) as [Hn Hc]. set (y := loaded _ _ _ _) in *.
  destruct Hc as [[Hid Hv]|(v & b & t & m & Hc & Hid & Hl & Hu)].
  - assert (with_token rnd (NewSession (Some y)) = mkSession (Some (with_Values y
      (<[(inl "_t" : skey) := VString (hex_EncodeToString (rnd_token rnd))]> ∅))) true) as ->.
    { unfold with_token, Session_Get. simpl. by rewrite Hv, lookup_empty. }
    eexists. split_and!; [done|done|done|]. left.
    assert (Session_ID (mkSession (Some (with_Values y
      (<[(inl "_t" : skey) := VString (hex_EncodeToString (rnd_token rnd))]> ∅))) true) = "") as Hi by done.
    split_and!; [done|done|]. unfold csrf_session_id. rewrite Hi, bool_decide_true by done.
    unfold Session_Get. cbn [raw raw_Values with_Values]. by rewrite lookup_insert_eq.
  - assert (v ≠ "") as Hv by congruence.
    assert (∃ z, raw (with_token rnd (NewSession (Some y))) = Some z ∧ raw_name z = name ∧ raw_ID z = v) as (z & Hz & Hzn & Hzi).
    { unfold with_token. destruct (Session_Get _ _); by eexists. }
    set (x' := with_token _ _) in *. assert (Session_ID x' = v) as Hx' by (unfold Session_ID; by rewrite Hz).
    exists z. rewrite Hx'. split_and!; [done..|]. right. exists b, t, m. split_and!; try done.
    unfold csrf_session_id. rewrite Hx'. by rewrite bool_decide_false.
Qed.

Lemma opened_live r rnd req v w b t m :
  up (sw_redis w) → Request_Cookie (session_of r req).1 req = Some v →
  live (sw_redis w) !! (rs_prefix stc +:+ v) = Some (b, t) → json_Unmarshal_map b = inr m →
  Session_ID (opened r rnd req w) = v.
Proof.
  intros Hup Hc Hl Hu. unfold opened. destruct (session_of r req) as [name path]. cbn [fst] in Hc. rewrite Hc, with_token_ID.
  by apply (loaded_live name path v w b t m).
Qed.

End Flow.

(** ** Two visits to evaluate *)

#[local] Instance demo_regexp : RegexpEngine :=
  {| regex := string; Compile p := Some p; MatchString re s := bool_decide (re = s) |}.
#[local] Instance wide_keys : RandomKeys := λ n, Some (String.string_of_list_ascii (replicate 32 "k"%char)).

#[local] Abbreviation demo_writer := (statusRecorder server_rw).
#[local] Abbreviation demo_state := (rstate demo_writer demo_redis bool).

Definition demo_router : @Router demo_writer demo_redis bool _ :=
  mkRouter NewTree [] (λ _ _ _, mret ()) None None "" None true None
    false "" "" false (λ _ _, "k") false false 2 demo_key [] "" [] (mkCORS false [] [] [] [] false 0) ∅ false None.
Definition demo_random : Random := mkRandom "r" "b" "token".

(** A state whose context has the key, with a session and a Redis server. *)
Definition demo_at (x : option Session) (w : store_world demo_redis) : demo_state :=
  set_store w (set_ctx (with_session x (with_router demo_key false zero_context))
    (mkState (NewStatusRecorder new_server_rw) zero_context [] w true world0 None)).

Definition demo_visit (c : list (string * string)) : Request :=
  mkRequest "GET" "/" "/" "example.org" "1.2.3.4:5" false ∅ c [] "HTTP/1.1" None None None.

(** The identifier of the first session, and the server that has it. *)
Definition demo_id : string := URLEncoding (String.string_of_list_ascii (replicate 32 "k"%char)).
Definition demo_first : Session := opened demo_store demo_router demo_random (demo_visit []) (RedisStore.mkWorld ∅ [] 0).
Definition demo_saved : demo_state := (@save_session _ _ _ _ (redis_session_store demo_store)
  (demo_at (Some demo_first) (RedisStore.mkWorld ∅ [] 0))).2.

Lemma demo_first_edited : edited demo_first demo_first.
Proof.
  split; [|done]. do 2 eexists. split_and!; [reflexivity..| |reflexivity].
  intros k v Hkv. cbn in Hkv. apply lookup_insert_Some in Hkv as [[<- <-]|[_ Hkv]];
    [|discriminate].
  exists "_t". split_and!; [done|vm_compute; reflexivity|by eexists].
Qed.

