(* ===== verification/RateFlow.v ===== *)
(** * The rate limiter under traffic

    [serveInternal] as the limiter sees it: which requests reach it, under which key,
    and what happens to those it refuses.  Together with the token buckets of
    [RateLimit.v] this bounds how often a client gets through to the application,
    whatever the others do. *)

From S2P Require Import Prelude GoStrings GoValue GoFloat HttpErr Base64 RouterTree Session RedisStore Crypto RateLimit.
From S2P Require Import RedisRateLimit Http Net Waf Metrics DbModel DbPrepared DbExec DbBuilder DbSafety DbFacade Context.
From S2P Require Import Router RouterSafety Server App SessionFlow.
From Stdlib Require Import Ascii QArith Lqa.
Import Strings.

(** ** The way to the limiter *)

Lemma deferM_done {S A B} (d : M S unit) (m : M S A) (k : A → M S B) s a s' :
  m s = (Done a, s') → deferM d (m ≫= k) s = deferM d (k a) s'.
Proof. intros Hm. unfold deferM, mbind, M_bind. by rewrite Hm. Qed.

Section Way.
Context {W SW L : Type} `{ResponseWriter W} `{StatusWriter W} `{RateLimitStore L} `{Hmac} `{JsonEncoder}
  `{RedirectText} `{RegexpEngine} `{Unicode} `{Platform} `{Driver}.
Context `{RedisClient SW, JsonCodec, RandomKeys}.
Variable stc : RedisStore.
#[local] Hint Extern 0 (SessionStore (store_world SW)) => exact (redis_session_store stc) : typeclass_instances.
#[local] Abbreviation st := (rstate W SW L).
#[local] Abbreviation Router := (@Router W SW L _).

(** A request that is answered before the limiter: a preflight, or a redirect to https. *)
Definition preflight (r : Router) (req : Request) : bool :=
  let c := corsConfig r in
  let origin := Header_Get "Origin" (req_header req) in
  cors_Enabled c && negb (bool_decide (origin = "")) && cors_allowed c origin && bool_decide (Method req = "OPTIONS").
Definition insecure (r : Router) (req : Request) : bool :=
  forceHTTPS r && negb (TLS req || bool_decide (Header_Get "X-Forwarded-Proto" (req_header req) = "https")).
Definition reaches (r : Router) (req : Request) : bool := negb (preflight r req) && negb (insecure r req).

(** A stage that only changes the header of the response. *)
Definition quiet {A} (m : M st A) (a : A) : Prop := ∀ s, ∃ w, m s = (Done a, set_w w s).

Lemma quiet_ret {A} (a : A) : quiet (mret a) a.
Proof. intros s. exists (s_w s). by destruct s. Qed.
Lemma quiet_header k v : quiet (header k v) ().
Proof. intros s. by eexists. Qed.
Lemma quiet_cookie c : quiet (onW (add_cookie c)) ().
Proof. intros s. by eexists. Qed.
Lemma quiet_bind {A B} (m : M st A) (k : A → M st B) a b : quiet m a → quiet (k a) b → quiet (m ≫= k) b.
Proof.
  intros Hm Hk s. destruct (Hm s) as [w Hw]. destruct (Hk (set_w w s)) as [w' Hw'].
  exists w'. unfold mbind, M_bind. rewrite Hw, Hw'. by destruct s.
Qed.
Lemma quiet_when (b : bool) (m : M st unit) : quiet m () → quiet (when b m) ().
Proof. destruct b; [done|intros _; apply quiet_ret]. Qed.

Ltac quiet_tac := repeat first
  [ apply quiet_ret | apply quiet_header | apply quiet_when | eapply quiet_bind ].

Lemma quiet_cors r req : preflight r req = false → quiet (serve_cors r req) false.
Proof.
  unfold preflight, serve_cors. intros Hp. destruct (_ && cors_allowed _ _); [|apply quiet_ret]. simpl in *.
  rewrite Hp. quiet_tac.
Qed.
Lemma quiet_https r req : insecure r req = false → quiet (serve_https r req) false.
Proof. unfold insecure, serve_https. intros ->. apply quiet_ret. Qed.
Lemma quiet_security r req : quiet (security_headers r req) ().
Proof. unfold security_headers. quiet_tac. destruct (shouldCache _ _); quiet_tac. Qed.

(** The session the limiter and the handler see. *)
Definition request_session (r : Router) (rnd : Random) (req : Request) (w : store_world SW) : option Session :=
  if sessions_on r then Some (opened stc r rnd req w) else None.
Definition request_key (r : Router) (rnd : Random) (req : Request) (w : store_world SW) : string :=
  keyFunc r req (request_session r rnd req w).

(** What is left of a request when it stands before the limiter in state [s]. *)
Definition at_limiter {A} (k : M st A) : M st A := deferM pool_put (deferM save_session k).
Definition stands (r : Router) (rnd : Random) (req : Request) (s s' : st) : Prop :=
  s_lim s' = s_lim s ∧ s_store s' = s_store s ∧ s_db s' = s_db s ∧ s_metrics s' = s_metrics s ∧
  c_session (s_ctx s') = request_session r rnd req (s_store s).

Lemma browser_cookie_spec r rnd req (s : st) :
  ∃ w c, browser_cookie r rnd req s = (Done (), set_w w (set_ctx c s)) ∧ c_session c = c_session (s_ctx s).
Proof.
  unfold browser_cookie. destruct (browserCookieEnabled r); simpl; [by eexists _, _|].
  exists (s_w s), (s_ctx s). by destruct s.
Qed.

Lemma session_stage r rnd req (s : st) :
  c_session (s_ctx s) = None →
  ∃ c, open_session r rnd req s = (Done (), set_ctx c s) ∧ c_session c = request_session r rnd req (s_store s).
Proof.
  intros Hs. unfold request_session. destruct (sessions_on r) eqn:E.
  - eexists. split; [exact (open_session_spec stc r rnd req s E)|done].
  - unfold open_session. rewrite E. exists (s_ctx s). by destruct s.
Qed.

(** Both the whole request and its front end come to the limiter in the same state. *)
Lemma comes_to_limiter r rnd req (s : st) :
  reaches r req = true →
  ∃ s', stands r rnd req s s' ∧
    (∀ now dur, serve_body r rnd now dur req s =
       at_limiter (refused ← rate_limit r now req;
         if refused : bool then mret () else serve_scoped r (mkCtx (VString (request_id rnd req))) dur req) s') ∧
    (∀ now, front_body r rnd now req s = at_limiter (rate_limit r now req;; mret ()) s').
Proof.
  unfold reaches. intros [Hpre Hsec]%andb_true_iff.
  apply negb_true_iff in Hpre, Hsec. destruct (quiet_header "X-Request-Id" (request_id rnd req) s) as [w1 E1].
  destruct (quiet_cors r req Hpre (set_w w1 s)) as [w2 E2]. destruct (quiet_https r req Hsec (set_w w2 (set_w w1 s))) as [w3 E3].
  destruct (quiet_security r req (set_w w3 (set_w w2 (set_w w1 s)))) as [w4 E4].
  set (s4 := set_w w4 _) in E4.
  assert (∃ s5, pool_get s4 = (Done (), s5) ∧ s_lim s5 = s_lim s ∧ s_store s5 = s_store s ∧ s_db s5 = s_db s ∧
    s_metrics s5 = s_metrics s) as (s5 & E5 & Hl5 & Hst5 & Hd5 & Hm5).
  { unfold pool_get, modM. eexists. split; [done|]. by destruct (s_pool s4). }
  set (s6 := set_ctx (with_router (encryptKey r) (currentUserFunc r) (reset (Some req) (s_ctx s5))) s5).
  destruct (browser_cookie_spec r rnd req s6) as (w7 & c7 & E7 & Hc7).
  set (s7 := set_w w7 (set_ctx c7 s6)) in E7.
  set (s8 := set_ctx (with_database (DB_WithContext (Some (mkCtx (VString (request_id rnd req)))) <$> database r) (s_ctx s7)) s7).
  destruct (session_stage r rnd req s8) as (c9 & E9 & Hc9); [exact Hc7|].
  exists (set_ctx c9 s8). split; [|split].
  - unfold stands. cbn [s_lim s_store s_db s_metrics s_ctx set_ctx]. rewrite Hc9.
    change (s_store s8) with (s_store s5). by rewrite Hst5.
  - intros now dur. unfold serve_body. rewrite (M_bind_done _ _ _ _ _ E1), (M_bind_done _ _ _ _ _ E2), (M_bind_done _ _ _ _ _ E3),
      (M_bind_done _ _ _ _ _ E4), (M_bind_done _ _ _ _ _ E5).
    unfold serve_context, serve_session, at_limiter.
    rewrite (deferM_done _ (on_ctx _) _ _ () _ eq_refl), (deferM_done _ (on_ctx _) _ _ () _ eq_refl).
    unfold deferM at 1 3. fold s6. by rewrite (deferM_done _ _ _ _ _ _ E7), (deferM_done _ (on_ctx _) _ _ () s8 eq_refl),
      (deferM_done _ _ _ _ _ _ E9).
  - intros now. unfold front_body. rewrite (M_bind_done _ _ _ _ _ E1), (M_bind_done _ _ _ _ _ E2), (M_bind_done _ _ _ _ _ E3),
      (M_bind_done _ _ _ _ _ E4), (M_bind_done _ _ _ _ _ E5).
    unfold front, at_limiter.
    rewrite (deferM_done _ (on_ctx _) _ _ () _ eq_refl), (deferM_done _ (on_ctx _) _ _ () _ eq_refl).
    unfold deferM at 1 3. fold s6. by rewrite (deferM_done _ _ _ _ _ _ E7), (deferM_done _ (on_ctx _) _ _ () s8 eq_refl),
      (deferM_done _ _ _ _ _ _ E9).
Qed.

(** ** What the limiter is asked *)

Lemma after_defer {A X} (f : st → X) (d : M st unit) (m : M st A) s : keeps f d → f (deferM d m s).2 = f (m s).2.
Proof.
  intros Hd. unfold deferM. destruct (m s) as [[a|p|] s']; simpl; [..|done];
    (specialize (Hd s'); destruct (d s') as [[[]|p'|] s'']; simpl in *; congruence).
Qed.
Lemma after_recover {X} (f : st → X) h (m : M st unit) s : (∀ p, keeps f (h p)) → f (recoverM h m s).2 = f (m s).2.
Proof. intros Hh. unfold recoverM. destruct (m s) as [[a|p|] s']; simpl; [done|apply Hh|done]. Qed.

(** The state a request is served from. *)
Definition counted_in (s : st) : st := set_metrics (StartRequest <$> s_metrics s) s.

Lemma after_serve {X} (f : st → X) r rnd now dur req s :
  (∀ w s, f (set_w w s) = f s) → (∀ m s, f (set_metrics m s) = f s) →
  f (serveInternal r rnd now dur req s).2 = f (serve_body r rnd now dur req (counted_in s)).2.
Proof.
  intros Hw Hm. unfold serveInternal. rewrite (M_bind_done _ _ _ () (counted_in s)) by done.
  rewrite after_defer by (apply keeps_mod; auto). apply after_recover. intros _. by apply keeps_onW.
Qed.

(** The reply to a refused request. *)
Definition refuse_reply : M st bool :=
  modM (λ s, set_metrics (IncRateLimited <$> s_metrics s) s);;
  header "Content-Type" "text/plain; charset=utf-8";;
  header "Retry-After" "1";;
  onW (rw_WriteHeader 429);;
  onW (rw_Write "Too Many Requests");;
  mret true.

Lemma rate_limit_eq r now req (s : st) :
  rateLimiter r = true →
  rate_limit r now req s =
    let '(ok, l) := limiter_Allow now (keyFunc r req (c_session (s_ctx s))) (s_lim s) in
    if ok then (Done false, set_lim l s) else refuse_reply (set_lim l s).
Proof.
  intros Hr. unfold rate_limit. rewrite Hr. cbn [negb]. unfold mbind at 1 2, M_bind at 1 2, ctx, getM.
  by destruct (limiter_Allow _ _ _) as [[] l].
Qed.

Lemma refuse_reply_spec (s : st) : s_lim (refuse_reply s).2 = s_lim s ∧ (refuse_reply s).1 ≠ Done false.
Proof.
  assert (keeps s_lim (refuse_reply : M st bool)) as Hk.
  { apply keeps_bind; [by apply keeps_mod|intros _].
    repeat (apply keeps_bind; [by apply keeps_onW|intros ?]). apply keeps_ret. }
  split; [apply Hk|]. unfold refuse_reply, mbind, M_bind.
  repeat (match goal with |- context [match ?m ?x with pair _ _ => _ end] => destruct (m x) as [[?|?|] ?] end); done.
Qed.

Lemma rate_limit_allows r now req (s : st) :
  rateLimiter r = true → (limiter_Allow now (keyFunc r req (c_session (s_ctx s))) (s_lim s)).1 = true →
  rate_limit r now req s =
    (Done false, set_lim (limiter_Allow now (keyFunc r req (c_session (s_ctx s))) (s_lim s)).2 s).
Proof.
  intros Hr Hok. rewrite rate_limit_eq by done. destruct (limiter_Allow _ _ _) as [ok l]. simpl in Hok. by subst ok.
Qed.

Lemma rate_limit_stops r now req (s : st) :
  rateLimiter r = true → (limiter_Allow now (keyFunc r req (c_session (s_ctx s))) (s_lim s)).1 = false →
  s_lim (rate_limit r now req s).2 = (limiter_Allow now (keyFunc r req (c_session (s_ctx s))) (s_lim s)).2 ∧
  (rate_limit r now req s).1 ≠ Done false.
Proof.
  intros Hr Hok. rewrite rate_limit_eq by done. destruct (limiter_Allow _ _ _) as [ok l]. simpl in Hok. subst ok.
  apply refuse_reply_spec.
Qed.

Lemma preflight_answered r req (s : st) : preflight r req = true → (serve_cors r req s).1 ≠ Done false.
Proof.
  unfold preflight, serve_cors. intros [-> Hm]%andb_true_iff. cbn [negb]. rewrite Hm. unfold mbind, M_bind.
  repeat (match goal with |- context [match ?m ?x with pair _ _ => _ end] => destruct (m x) as [[?|?|] ?] end); done.
Qed.
Lemma insecure_answered r req (s : st) : insecure r req = true → (serve_https r req s).1 ≠ Done false.
Proof.
  unfold insecure, serve_https. intros ->. unfold mbind at 1, M_bind at 1.
  by destruct (onW (http_Redirect _ _ _) s) as [[?|?|] ?].
Qed.

Lemma answered_early r rnd now dur req (s : st) : reaches r req = false → s_lim (serve_body r rnd now dur req s).2 = s_lim s.
Proof.
  intros Hn. unfold serve_body, mbind at 1, M_bind at 1. simpl. set (s1 := set_w _ s).
  change (s_lim s) with (s_lim s1). unfold mbind at 1, M_bind at 1.
  assert (s_lim (serve_cors r req s1).2 = s_lim s1) as Hc by (by apply keeps_cors). pose proof (preflight_answered r req s1) as Hp.
  destruct (serve_cors r req s1) as [[[]|p|] s2]; cbn [snd fst] in *; [done| |done|done].
  assert (insecure r req = true) as Hi.
  { unfold reaches in Hn. destruct (preflight r req); [by destruct Hp|]. by destruct (insecure r req). }
  rewrite <-Hc. unfold mbind at 1, M_bind at 1.
  assert (s_lim (serve_https r req s2).2 = s_lim s2) as Hh by (by apply keeps_https). pose proof (insecure_answered r req s2 Hi) as Hq.
  destruct (serve_https r req s2) as [[[]|p|] s3]; cbn [snd fst] in *; done.
Qed.

(** A request asks the limiter once, for its key, or not at all. *)
Lemma limiter_asked r rnd now dur req (s : st) :
  app_keeps s_lim r → rateLimiter r = true →
  s_lim (serveInternal r rnd now dur req s).2 =
    if reaches r req then (limiter_Allow now (request_key r rnd req (s_store s)) (s_lim s)).2 else s_lim s.
Proof.
  intros Ha Hr. rewrite after_serve by done. destruct (reaches r req) eqn:Hre; [|by rewrite answered_early].
  destruct (comes_to_limiter r rnd req (counted_in s) Hre) as (s' & (Hl & Hst & _ & _ & Hses) & Hb & _).
  rewrite Hb. unfold at_limiter. rewrite !after_defer; [|by apply keeps_save_session|by apply keeps_pool_put].
  assert (keyFunc r req (c_session (s_ctx s')) = request_key r rnd req (s_store s)) as Hk by (by rewrite Hses).
  rewrite <-Hk. change (s_lim s) with (s_lim (counted_in s)). rewrite <-Hl.
  destruct (limiter_Allow now (keyFunc r req (c_session (s_ctx s'))) (s_lim s')).1 eqn:Hok.
  - rewrite (M_bind_done _ _ _ _ _ (rate_limit_allows r now req s' Hr Hok)).
    by rewrite (keeps_serve_scoped s_lim r).
  - destruct (rate_limit_stops r now req s' Hr Hok) as [Hlim Hno]. rewrite <-Hlim. unfold mbind, M_bind.
    by destruct (rate_limit r now req s') as [[[]|p|] s2].
Qed.

(** Who is let through. *)
Definition admitted (r : Router) (rnd : Random) (now : Z) (req : Request) (s : st) : bool :=
  reaches r req && (limiter_Allow now (request_key r rnd req (s_store s)) (s_lim s)).1.

(** A request the limiter refuses is served by the front end alone. *)
Lemma not_admitted r rnd now dur req (s : st) :
  rateLimiter r = true → reaches r req = true → admitted r rnd now req s = false →
  serveInternal r rnd now dur req s = front_only r rnd now req s.
Proof.
  intros Hr Hre Hno. unfold admitted in Hno. rewrite Hre in Hno. cbn [andb] in Hno.
  unfold serveInternal, front_only. rewrite !(M_bind_done _ _ _ () (counted_in s)) by done.
  assert (serve_body r rnd now dur req (counted_in s) = front_body r rnd now req (counted_in s)) as He;
    [|unfold deferM, recoverM; by rewrite He].
  destruct (comes_to_limiter r rnd req (counted_in s) Hre) as (s' & (Hl & Hst & _ & _ & Hses) & Hb & Hf).
  rewrite Hb, Hf. unfold at_limiter, deferM, mbind, M_bind.
  destruct (rate_limit_stops r now req s' Hr) as [_ Hne].
  { rewrite Hses, Hl. exact Hno. }
  by destruct (rate_limit r now req s') as [[[]|p|] s2].
Qed.
End Way.

(** ** Traffic *)

Section Traffic.
Context {W SW : Type} `{ResponseWriter W} `{StatusWriter W} `{LuaNum Q, LimiterOutside Q} `{Hmac} `{JsonEncoder}
  `{RedirectText} `{RegexpEngine} `{Unicode} `{Platform} `{Driver}.
Context `{RedisLaws SW, JsonCodec, RandomKeys}.
Variable stc : RedisStore.
#[local] Hint Extern 0 (SessionStore (store_world SW)) => exact (redis_session_store stc) : typeclass_instances.
#[local] Abbreviation st := (rstate W SW (limiter_backend Q)).
#[local] Abbreviation Router := (@Router W SW (limiter_backend Q) _).
Local Open Scope Q_scope.

(** One request: its writer, its random bytes, its times and its text. *)
Record visit := mkVisit { v_w : W; v_rnd : Random; v_now : Z; v_dur : Z; v_req : Request }.

Definition serve_visit (r : Router) (v : visit) (s : st) : st :=
  (serveInternal r (v_rnd v) (v_now v) (v_dur v) (v_req v) (set_w (v_w v) s)).2.
Definition key_of (r : Router) (v : visit) (s : st) : string := request_key stc r (v_rnd v) (v_req v) (s_store s).
Definition let_through (r : Router) (v : visit) (s : st) : bool :=
  admitted stc r (v_rnd v) (v_now v) (v_req v) (set_w (v_w v) s).

(** The ticker of the store. *)
Definition tick (now : Z) (s : st) : st :=
  match s_lim s with MemoryLimiter m => set_lim (MemoryLimiter (cleanup_tick now m)) s | _ => s end.

Definition has_bucket (k : string) (s : st) : Prop :=
  match s_lim s with MemoryLimiter m => is_Some (entry m k) | _ => False end.

(** [traffic r k s0 t0 n s t]: requests of anyone and ticks, in the order of time,
    lead from [s0] at [t0] to [s] at [t]; the bucket of [k] is there all along, and
    [n] requests of [k] are let through. *)
Inductive traffic (r : Router) (k : string) (s0 : st) (t0 : Z) : nat → st → Z → Prop :=
  | traffic_start : traffic r k s0 t0 0 s0 t0
  | traffic_visit n s t v :
      traffic r k s0 t0 n s t → (t <= v_now v)%Z → has_bucket k (serve_visit r v s) →
      traffic r k s0 t0 (n + if bool_decide (key_of r v s = k) && let_through r v s then 1 else 0)
        (serve_visit r v s) (v_now v)
  | traffic_tick n s t now :
      traffic r k s0 t0 n s t → (t <= now)%Z → has_bucket k (tick now s) → traffic r k s0 t0 n (tick now s) now.

Lemma visit_limiter (r : Router) v (s : st) m :
  app_keeps s_lim r → rateLimiter r = true → s_lim s = MemoryLimiter m →
  s_lim (serve_visit r v s) =
    (if reaches r (v_req v)
     then MemoryLimiter (RateLimit.step shard_order (EAllow (v_now v) (key_of r v s)) m).2 else MemoryLimiter m) ∧
  let_through r v s = reaches r (v_req v) && (RateLimit.step shard_order (EAllow (v_now v) (key_of r v s)) m).1.
Proof.
  intros Ha Hr Hm. split.
  - unfold serve_visit. rewrite (limiter_asked stc) by done. cbn [s_lim set_w s_store]. rewrite Hm.
    destruct (reaches r (v_req v)); [|done]. unfold limiter_Allow, backend_limiter. simpl.
    by destruct (Allow _ _ _ _).
  - unfold let_through, admitted. cbn [s_lim set_w s_store]. rewrite Hm. unfold limiter_Allow, backend_limiter. simpl.
    unfold key_of. by destruct (Allow _ _ _ _).
Qed.

(** Traffic, seen by the store. *)
Lemma traffic_granted r k s0 t0 m0 n s t :
  app_keeps s_lim r → rateLimiter r = true → s_lim s0 = MemoryLimiter m0 → traffic r k s0 t0 n s t →
  ∃ m t', s_lim s = MemoryLimiter m ∧ (t' <= t)%Z ∧ granted shard_order k m0 t0 n m t'.
Proof.
  intros Ha Hr Hm0. induction 1 as [|n s t v Ht IH Hle Hb|n s t now Ht IH Hle Hb].
  - exists m0, t0. split_and!; [done|lia|constructor].
  - destruct IH as (m & t' & Hm & Ht' & Hg). destruct (visit_limiter r v s m Ha Hr Hm) as [Hs Hl].
    rewrite Hl. unfold has_bucket in Hb. rewrite Hs in Hb |- *. destruct (reaches r (v_req v)).
    + eexists _, (v_now v). split_and!; [done|lia|].
      apply (granted_step shard_order k m0 t0 n m t' (EAllow (v_now v) (key_of r v s))); [done|simpl; lia|done].
    + rewrite andb_false_r, Nat.add_0_r. exists m, t'. split_and!; [done|lia|done].
  - destruct IH as (m & t' & Hm & Ht' & Hg). unfold tick, has_bucket in *. rewrite Hm in *. cbn [s_lim set_lim] in *.
    eexists _, now. split_and!; [done|lia|]. replace n with (n + 0)%nat by lia.
    apply (granted_step shard_order k m0 t0 n m t' (ETick now)); [done|simpl; lia|done].
Qed.

(** A request without a live session. *)
Definition anonymous (r : Router) (req : Request) (w : store_world SW) : Prop :=
  sessions_on r = false ∨
  match Request_Cookie (session_of r req).1 req with
  | None => True
  | Some v => live (sw_redis w) !! (rs_prefix stc +:+ v) = None
  end.

Lemma anonymous_key trust r rnd req w :
  keyFunc r = default_key trust → up (sw_redis w) → anonymous r req w →
  request_key stc r rnd req w = "ip:" +:+ RealIP trust req.
Proof.
  intros Hk Hup Han. unfold request_key, request_session. rewrite Hk. destruct (sessions_on r) eqn:E; [|done].
  destruct Han as [|Han]; [congruence|]. unfold default_key.
  assert (Session_ID (opened stc r rnd req w) = "") as ->; [|done].
  unfold opened. destruct (session_of r req) as [name path]. cbn [fst] in Han. rewrite with_token_ID.
  destruct (loaded_spec stc name path (Request_Cookie name req) w Hup) as [_ [[Hid _]|(v & b & t & m & Hc & _ & Hl & _)]].
  - exact Hid.
  - rewrite Hc, Hl in Han. discriminate Han.
Qed.

(** ** What a refused visitor leaves behind *)

(** A writer whose operations return or panic. *)
Definition returns : Prop :=
  ∀ w : W, (∀ code, (rw_WriteHeader code w).1 ≠ Hang) ∧ (∀ b, (rw_Write b w).1 ≠ Hang).

Lemma refuse_reply_leaves (s : st) :
  returns → (refuse_reply s).1 ≠ Hang ∧ s_store (refuse_reply s).2 = s_store s ∧ s_ctx (refuse_reply s).2 = s_ctx s.
Proof.
  intros Hret. assert (∀ f : st → _, (∀ w s, f (set_w w s) = f s) → (∀ m s, f (set_metrics m s) = f s) →
    f (refuse_reply s).2 = (f s : store_world SW + Context)) as Hk.
  { intros f Hw Hm. assert (keeps f refuse_reply) as Hk; [|apply Hk].
    apply keeps_bind; [apply keeps_mod; auto|intros _].
    repeat (apply keeps_bind; [by apply keeps_onW|intros ?]). apply keeps_ret. }
  split_and!; [|by injection (Hk (λ s, inl (s_store s)) (λ _ _, eq_refl) (λ _ _, eq_refl))
    |by injection (Hk (λ s, inr (s_ctx s)) (λ _ _, eq_refl) (λ _ _, eq_refl))].
  unfold refuse_reply, mbind, M_bind, onW, zoom. simpl.
  match goal with |- context [rw_WriteHeader 429 ?w] => destruct (Hret w) as [Hh _]; specialize (Hh 429%Z);
    destruct (rw_WriteHeader 429 w) as [[?|?|] w1] end; simpl in *; [|done..].
  destruct (Hret w1) as [_ Hw]. specialize (Hw "Too Many Requests").
  by destruct (rw_Write _ w1) as [[?|?|] ?].
Qed.

(** The session of an anonymous request holds its token and nothing else. *)
Lemma opened_anonymous r rnd req w :
  sessions_on r = true → up (sw_redis w) → anonymous r req w →
  ∃ y, opened stc r rnd req w = mkSession (Some y) true ∧ raw_ID y = "" ∧
    raw_Values y = {[ (inl "_t" : skey) := VString (hex_EncodeToString (rnd_token rnd)) ]} ∧
    MaxAge (raw_Options y) = MaxAge (rs_options stc).
Proof.
  intros Hon Hup [|Han]; [congruence|]. unfold opened. destruct (session_of r req) as [name path]. cbn [fst] in Han.
  assert (RedisStore_New stc name (Request_Cookie name req) w = (mkRaw "" ∅ (rs_options stc) true name, None)) as Hn.
  { unfold RedisStore_New. destruct (Request_Cookie name req) as [v|]; [|done].
    unfold store_load, redis_key. cbn [raw_ID with_ID]. by rewrite redis_Get_up, Han. }
  unfold loaded. rewrite Hn. cbn [fst]. case_bool_decide; by eexists.
Qed.

(** A visitor without a session whom the limiter refuses still gets one: the deferred
    save writes an entry under a fresh identifier, so that refused requests fill the
    server with sessions that live as long as any other. *)
Theorem refused_visitor_stores_session `{!JsonLaws, !HeadLaw W} (r : Router) v (s : st) :
  returns → (0 < MaxAge (rs_options stc))%Z → rateLimiter r = true → sessions_on r = true → reaches r (v_req v) = true →
  let_through r v s = false → up (sw_redis (s_store s)) → anonymous r (v_req v) (s_store s) →
  let id := URLEncoding (default "" (random_key (sw_draws (s_store s)))) in
  ∃ b, live (sw_redis (s_store (serve_visit r v s))) =
    <[rs_prefix stc +:+ id := (b, MaxAge (rs_options stc))]> (live (sw_redis (s_store s))).
Proof.
  intros Hret Hmax Hr Hon Hre Hno Hup Han id. unfold serve_visit. rewrite (after_serve stc s_store) by done.
  set (s0 := counted_in (set_w (v_w v) s)). change (s_store s) with (s_store s0) in *.
  destruct (comes_to_limiter stc r (v_rnd v) (v_req v) s0 Hre) as (s' & (Hl & Hst & _ & _ & Hses) & Hb & _).
  rewrite Hb. unfold at_limiter. rewrite after_defer by (by apply keeps_pool_put).
  destruct (opened_anonymous r (v_rnd v) (v_req v) (s_store s0) Hon Hup Han) as (y & Hy & Hyid & Hyv & Hyage).
  assert ((limiter_Allow (v_now v) (keyFunc r (v_req v) (c_session (s_ctx s'))) (s_lim s')).1 = false) as Hstop.
  { unfold let_through, admitted in Hno. rewrite Hre in Hno. rewrite Hses, Hl. exact Hno. }
  rewrite Hl in Hstop. unfold deferM, mbind at 1, M_bind at 1. rewrite rate_limit_eq by done. rewrite Hl.
  destruct (limiter_Allow _ _ (s_lim s0)) as [ok l]. cbn [fst] in Hstop. subst ok.
  destruct (refuse_reply_leaves (set_lim l s') Hret) as (Hnh & Hrs & Hrc).
  pose proof (refuse_reply_spec (set_lim l s')) as [_ Hnf].
  destruct (refuse_reply (set_lim l s')) as [res s2]. cbn [fst snd] in *.
  assert (jsonable y) as Hj.
  { intros k x Hkx. rewrite Hyv in Hkx. apply lookup_singleton_Some in Hkx as [<- <-]. exists "_t".
    split_and!; [done|vm_compute; reflexivity|by eexists]. }
  destruct (Save_keeps stc Hmax y (s_store s0) Hj Hup) as (w' & b & m & Hsv & _ & Hlive & _); [by rewrite Hyage|].
  assert (raw_ID (assign_id y (s_store s0)) = id) as Hid by (unfold assign_id; by rewrite bool_decide_true).
  exists b. unfold redis_key in Hlive. rewrite Hid in Hlive. rewrite <-Hlive.
  destruct (save_session_spec stc s2 (mkSession (Some y) true) None (mkSession (Some (assign_id y (s_store s0))) false) w')
    as [_ Hss].
  { rewrite Hrc. cbn [s_ctx set_lim]. rewrite Hses. unfold request_session. by rewrite Hon, Hy. }
  { unfold Session_Save. cbn [dirty negb raw store_Save redis_session_store]. rewrite Hrs. cbn [s_store set_lim]. by rewrite Hst, Hsv. }
  destruct res as [[]|p|]; [|done| |done]; unfold mret, M_ret; cbn beta iota;
    destruct (save_session s2) as [[[]|p'|] s3]; cbn [snd] in *; by rewrite Hss.
Qed.

(** [C13] The rate limit of an application, end to end: from the first request of an
    address on, and for as long as its bucket is kept, the requests of that address
    that are let through to the application up to time [t] number at most the burst
    plus the rate times the seconds since, whatever requests of others, sessions,
    handlers and ticks come in between; every other request of it that is not
    answered by a preflight or a redirect is served without the application; and a
    request is counted for its address unless it brings the cookie of a live session,
    so that inventing cookies does not help. *)
Theorem rate_limit_end_to_end (r : Router) trust a (s0 : st) m v n s t :
  let k := "ip:" +:+ a in
  app_keeps s_lim r → rateLimiter r = true → keyFunc r = default_key trust →
  map_order shard_order → s_lim s0 = MemoryLimiter m → store_ok m → 0 <= rate m → 1 <= burst m →
  entry m k = None → key_of r v s0 = k → reaches r (v_req v) = true →
  traffic r k (serve_visit r v s0) (v_now v) n s t →
  inject_Z (Z.of_nat (1 + n)) <= burst m + secs (t - v_now v) * rate m ∧
  (∀ v' s', reaches r (v_req v') = true → let_through r v' s' = false →
     serve_visit r v' s' = (front_only r (v_rnd v') (v_now v') (v_req v') (set_w (v_w v') s')).2) ∧
  (∀ v' s', up (sw_redis (s_store s')) → anonymous r (v_req v') (s_store s') → RealIP trust (v_req v') = a →
     key_of r v' s' = k).
Proof.
  intros k Ha Hr Hkf Ho Hm Hok Hrate Hburst Hn Hk Hre Ht.
  destruct (visit_limiter r v s0 m Ha Hr Hm) as [Hs1 _]. rewrite Hre, Hk in Hs1.
  destruct (traffic_granted r k _ _ _ n s t Ha Hr Hs1 Ht) as (m' & t' & _ & Htle & Hg).
  destruct (granted_allowance shard_order k m (v_now v) n m' t' Ho Hok Hrate Hburst Hn Hg) as (_ & _ & _ & Hle & _).
  split_and!.
  - assert (secs (t' - v_now v) * rate m <= secs (t - v_now v) * rate m) as Hs.
    { apply Qmult_le_compat_r; [|done]. apply secs_le. lia. }
    lra.
  - intros v' s' Hre' Hno. unfold serve_visit. by rewrite (not_admitted stc).
  - intros v' s' Hup Han <-. by apply anonymous_key.
Qed.
End Traffic.

(** ** A small application under two requests *)

#[local] Instance demo_regexp : RegexpEngine :=
  {| regex := string; Compile p := Some p; MatchString re s := bool_decide (re = s) |}.
#[local] Instance demo_hmac : Hmac := λ k m, k +:+ m.
#[local] Instance demo_encoder : JsonEncoder := λ _, inr "{}".
#[local] Instance demo_redirects : RedirectText :=
  {| redirect_location _ url := url; redirect_note _ _ _ := "" |}.
#[local] Instance demo_limits : LimiterOutside Q :=
  {| shard_order := map_to_list; redis_second n := (n / 1000000000)%Z; redis_failure _ := None |}.

#[local] Abbreviation demo_writer := (statusRecorder server_rw).
#[local] Abbreviation demo_state := (rstate demo_writer demo_redis (limiter_backend Q)).
#[local] Hint Extern 0 (SessionStore (store_world demo_redis)) => exact (redis_session_store demo_store) : typeclass_instances.

(** A burst of two, one token a second. *)
Definition demo_router : @Router demo_writer demo_redis (limiter_backend Q) _ :=
  mkRouter NewTree [] (λ _ _ _, mret ()) (Some defaultNoRoute) (Some defaultNoMethod) "" None true None
    false "" "" true (default_key false) false false 2 "" [] "" [] (mkCORS false [] [] [] [] false 0) ∅ false None.
Definition demo_start : demo_state :=
  mkState (NewStatusRecorder new_server_rw) zero_context [] (RedisStore.mkWorld ∅ [] 0)
    (MemoryLimiter (NewStore (1 # 1)%Q 2 600 0)) world0 None.
Definition demo_visit (now : Z) (cookies : list (string * string)) : visit :=
  mkVisit (NewStatusRecorder new_server_rw) (mkRandom "r" "b" "t") now 0
    (mkRequest "GET" "/" "/" "example.org" "8.8.8.8:5" false ∅ cookies [] "HTTP/1.1" None None None).

Lemma demo_app_keeps : app_keeps s_lim demo_router.
Proof.
  split.
  - intros m p h ps Hf. vm_compute in Hf. discriminate Hf.
  - intros h [= <-]. by apply keeps_String.
  - intros h [= <-]. by apply keeps_String.
  - intros code msg e. apply keeps_ret.
  - intros m [=].
Qed.

Definition demo_second : demo_state := serve_visit demo_store demo_router (demo_visit 0 []) demo_start.
Lemma demo_traffic :
  traffic demo_store demo_router "ip:8.8.8.8" demo_second 0 1 (serve_visit demo_store demo_router (demo_visit 0 []) demo_second) 0.
Proof.
  assert (bool_decide (key_of demo_store demo_router (demo_visit 0 []) demo_second = "ip:8.8.8.8") &&
    let_through demo_store demo_router (demo_visit 0 []) demo_second = true) as Hn by (vm_compute; reflexivity).
  pose proof (traffic_visit demo_store demo_router "ip:8.8.8.8" demo_second 0 0 demo_second 0 (demo_visit 0 [])) as Ht.
  rewrite Hn in Ht. apply Ht; [constructor|reflexivity|]. unfold has_bucket.
  destruct (s_lim (serve_visit _ _ _ demo_second)) as [|m|] eqn:E; vm_compute in E; try discriminate E.
  injection E as <-. vm_compute. by eexists.
Qed.

Lemma rate_limit_end_to_end_witness :
  (inject_Z 2 <= inject_Z 2 + secs 0 * (1 # 1))%Q ∧
  key_of demo_store demo_router (demo_visit 0 [("sessions", "invented")]) demo_start = "ip:8.8.8.8".
Proof.
  destruct (rate_limit_end_to_end demo_store demo_router false "8.8.8.8" demo_start (NewStore (1 # 1)%Q 2 600 0)
    (demo_visit 0 []) 1 (serve_visit demo_store demo_router (demo_visit 0 [])
      (serve_visit demo_store demo_router (demo_visit 0 []) demo_start)) 0) as (Hle & _ & Hkey).
  - exact demo_app_keeps.
  - reflexivity.
  - reflexivity.
  - intros sh. reflexivity.
  - reflexivity.
  - apply NewStore_ok.
  - vm_compute. discriminate.
  - vm_compute. discriminate.
  - reflexivity.
  - vm_compute. reflexivity.
  - reflexivity.
  - exact demo_traffic.
  - split; [exact Hle|]. apply Hkey; [exact I|right; reflexivity|vm_compute; reflexivity].
Defined.

Lemma demo_returns : @returns demo_writer _.
Proof.
  intros [[h sent b0] z]. split.
  - intros code. cbn. unfold rec_WriteHeader, mbind, M_bind, modM, on_inner, zoom. cbn. unfold server_WriteHeader. cbn.
    destruct sent; [done|]. destruct ((code <? 100)%Z || (999 <? code)%Z); [done|]. destruct (informational code); done.
  - intros b. cbn. unfold on_inner, zoom, server_Write. cbn.
    destruct sent as [[code ?]|]; cbn; [destruct (body_allowed code)|]; done.
Qed.

(** The third request at once is refused, and stored. *)
Definition demo_third : demo_state :=
  serve_visit demo_store demo_router (demo_visit 0 []) (serve_visit demo_store demo_router (demo_visit 0 []) demo_start).

Lemma refused_visitor_stores_session_witness :
  let_through demo_store demo_router (demo_visit 0 []) demo_third = false ∧
  ∃ b, live (sw_redis (s_store (serve_visit demo_store demo_router (demo_visit 0 []) demo_third))) =
    <["session_" +:+ URLEncoding "2" := (b, 3600%Z)]> (live (sw_redis (s_store demo_third))).
Proof.
  split; [vm_compute; reflexivity|].
  destruct (refused_visitor_stores_session demo_store demo_router (demo_visit 0 []) demo_third) as [b Hb].
  - exact demo_returns.
  - reflexivity.
  - reflexivity.
  - reflexivity.
  - reflexivity.
  - vm_compute. reflexivity.
  - exact I.
  - right. exact I.
  - exists b. exact Hb.
Defined.
